(** * vectordb: a shallow embedding of the index family, the store,
      the service facade and the snapshot engine.

    Layout of the development:
    - Part I   the embedding (Python values, [app.vector_index],
               [app.repositories.memory], [app.services], the CRUD
               routes of [app.api.routers.libraries], [app.core.locks]);
    - Part II  lemmas and the theorems about the embedding;
    - Part III closed instances and counterexamples.

    Numbers.  Python floats are modelled by exact values.  Vector entries
    are integers ([Z]; a finite set of binary floats is a set of integers
    after scaling by a common power of two, and every comparison made by
    the index code is invariant under that scaling).  The two irrational
    shapes the code computes are kept symbolic: [Sqrt s] is
    [math.sqrt(s)] and a [score] is either [dot / sqrt d] or
    [1.0 / (1.0 + sqrt d)].  Comparisons on them are decided exactly.
    The one float operation of the index code that raises is modelled:
    [d ** 2] raises [OverflowError] when [|d|] reaches [pow_limit], the
    magnitude whose square is out of the float range on the grid of the
    entries.  Rounding, sums and products that overflow to infinity, and
    NaN are outside the model: the values are the exact ones. *)

From Stdlib Require Import ZArith QArith Reals Lra Lia Permutation Ascii String DecimalString.
From stdpp Require Import gmap strings list fin_maps sorting.

Local Open Scope string_scope.
Local Open Scope list_scope.
Local Open Scope Z_scope.

(* ================================================================== *)
(** * Part I — the embedding                                           *)
(* ================================================================== *)

(** ** Exceptions and results ([app.core.exceptions] and builtins) *)

Inductive exn : Type :=
| ValueError (message : string)
| ZeroDivisionError
| OverflowError
| IndexError
| KeyError (key : string)
| ValidationError
| JSONDecodeError
| ResourceNotFoundException (resource_type resource_id : string)
| DimensionalityMismatchException (expected got : Z)
| InvalidMetricException (algorithm metric : string) (supported : list string)
| InvalidAlgorithmException (algorithm : string) (available : list string)
| HTTPException (status_code : Z) (detail : string).

Inductive result (A : Type) : Type :=
| Ok (value : A)
| Raise (e : exn).
Arguments Ok {A} value.
Arguments Raise {A} e.

Definition rbind {A B} (r : result A) (f : A → result B) : result B :=
  match r with
  | Ok a => f a
  | Raise e => Raise e
  end.

(** The two messages raised by [VectorIndex] (base.py, kdtree.py, lsh.py). *)
Definition msg_same_length := "Vectors and ids must have the same length".
Definition msg_same_dim := "All vectors must have the same dimensionality".
Definition msg_query_dim := "Query vector dimensionality mismatch".


(** ** Python lists: slicing, zip, stable sort *)

Definition vec := list Z.

Definition zip {A B} (a : list A) (b : list B) : list (A * B) := combine a b.

(** [l[:k]] for an int [k] that the callers have checked to be positive. *)
Definition slice_to {A} (k : Z) (l : list A) : list A := firstn (Z.to_nat k) l.

(** [list.sort] is stable.  [insert_by leb x l] puts [x] in front of the
    first element it does not exceed, so equal keys keep their order. *)
Fixpoint insert_by {A} (leb : A → A → bool) (x : A) (l : list A) : list A :=
  match l with
  | [] => [x]
  | y :: l' => if leb x y then x :: y :: l' else y :: insert_by leb x l'
  end.

Fixpoint sort_by {A} (leb : A → A → bool) (l : list A) : list A :=
  match l with
  | [] => []
  | x :: l' => insert_by leb x (sort_by leb l')
  end.

(** [l.sort(key=f)] and [l.sort(key=f, reverse=True)] for a key with a
    boolean order [kleb]. *)
Definition sort_key {A K} (kleb : K → K → bool) (f : A → K) (l : list A) :=
  sort_by (fun a b => kleb (f a) (f b)) l.
Definition sort_key_reverse {A K} (kleb : K → K → bool) (f : A → K) (l : list A) :=
  sort_by (fun a b => kleb (f b) (f a)) l.

(** A comprehension or a loop whose body can raise: the first failure
    ends it. *)
Fixpoint mapM {A B} (f : A → result B) (l : list A) : result (list B) :=
  match l with
  | [] => Ok []
  | x :: l' => rbind (f x) (fun y => rbind (mapM f l') (fun ys => Ok (y :: ys)))
  end.

(** ** Exact values of float expressions *)

(** [Sqrt s] is [math.sqrt(s)] for an integer [s >= 0]. *)
Record root : Type := Sqrt { radicand : Z }.

Definition root_ltb (a b : root) : bool := radicand a <? radicand b.
Definition root_eqb (a b : root) : bool := radicand a =? radicand b.
Definition root_is_zero (a : root) : bool := radicand a =? 0.
Definition root_mul (a b : root) : root := Sqrt (radicand a * radicand b).

(** [z < math.sqrt(s)] for [z >= 0]. *)
Definition Z_lt_root (z : Z) (r : root) : bool := z * z <? radicand r.

(** A similarity score. [Quot n d] is [n / math.sqrt(d)] with [d > 0];
    [Simil d] is [1.0 / (1.0 + math.sqrt(d))]. *)
Inductive score : Type :=
| Quot (n : Z) (d : Z)
| Simil (d : Z).

Definition score_zero : score := Quot 0 1.

(** A rational that is a strictly increasing function of the real value
    of the score, separately for each shape: [x ↦ x·|x|] on quotients,
    [x ↦ -(1/x - 1)²] on similarities.  One result list only ever holds
    one shape. *)
Definition score_code (s : score) : Q :=
  match s with
  | Quot n d => Qmake (n * Z.abs n) (Z.to_pos d)
  | Simil d => inject_Z (- d)
  end.

Definition score_leb (a b : score) : bool := Qle_bool (score_code a) (score_code b).

(** The real numbers that the exact values denote. *)
Definition root_value (r : root) : R := sqrt (IZR (radicand r)).

Definition score_value (s : score) : R :=
  match s with
  | Quot n d => (IZR n / sqrt (IZR d))%R
  | Simil d => (1 / (1 + sqrt (IZR d)))%R
  end.

Section Environment.

(** [d ** 2] raises [OverflowError] when the square of the float [d] is
    out of the float range; [pow_limit] is the least magnitude for which
    it does, on the integer grid of the entries ([2^512] when the entries
    are the floats themselves). *)
Variable pow_limit : Z.

(** ** [app.vector_index.base] *)

Definition sum (l : list Z) : Z := fold_left Z.add l 0.

(** [d ** 2] *)
Definition pow2 (d : Z) : result Z :=
  if pow_limit <=? Z.abs d then Raise OverflowError else Ok (d ^ 2).

Definition dot (a b : vec) : Z :=
  sum (map (fun xy => fst xy * snd xy) (zip a b)).

Definition norm (a : vec) : root :=
  Sqrt (sum (map (fun x => x * x) a)).

Definition cosine_similarity (a b : vec) : score :=
  let na := norm a in
  let nb := norm b in
  if root_is_zero na || root_is_zero nb then score_zero
  else Quot (dot a b) (radicand (root_mul na nb)).

Definition euclidean_distance (a b : vec) : result root :=
  rbind (mapM (fun xy => pow2 (fst xy - snd xy)) (zip a b)) (fun squares =>
  Ok (Sqrt (sum squares))).

(** [1.0 / (1.0 + dist)] *)
Definition similarity (dist : root) : score := Simil (radicand dist).

Definition _validate_inputs (vectors : list vec) (ids : list string) : result unit :=
  if negb (length vectors =? length ids)%nat then Raise (ValueError msg_same_length)
  else
    match vectors with
    | [] => Ok tt
    | v0 :: _ =>
        if existsb (fun v => negb (length v =? length v0)%nat) vectors
        then Raise (ValueError msg_same_dim)
        else Ok tt
    end.

Definition _validate_query_dim (vector : vec) (vectors : list vec) : result unit :=
  match vectors with
  | [] => Ok tt
  | v0 :: _ =>
      if negb (length vector =? length v0)%nat then Raise (ValueError msg_query_dim)
      else Ok tt
  end.

(** ** [app.core.constants] *)

Definition DEFAULT_SEARCH_MULTIPLIER : Z := 3.
Definition MAX_SEARCH_BUFFER : Z := 50.

Inductive IndexAlgorithm : Type := LINEAR | KDTREE | LSH.
Inductive DistanceMetric : Type := COSINE | EUCLIDEAN.

Definition IndexAlgorithm_value (a : IndexAlgorithm) : string :=
  match a with LINEAR => "linear" | KDTREE => "kdtree" | LSH => "lsh" end.
Definition DistanceMetric_value (m : DistanceMetric) : string :=
  match m with COSINE => "cosine" | EUCLIDEAN => "euclidean" end.

(** [IndexAlgorithm(s)] and [DistanceMetric(s)]: [None] stands for the
    [ValueError] of a failed enum lookup. *)
Definition IndexAlgorithm_of (s : string) : option IndexAlgorithm :=
  if String.eqb s "linear" then Some LINEAR
  else if String.eqb s "kdtree" then Some KDTREE
  else if String.eqb s "lsh" then Some LSH
  else None.
Definition DistanceMetric_of (s : string) : option DistanceMetric :=
  if String.eqb s "cosine" then Some COSINE
  else if String.eqb s "euclidean" then Some EUCLIDEAN
  else None.

Definition all_algorithms : list IndexAlgorithm := [LINEAR; KDTREE; LSH].

Definition ALGORITHM_METRICS (a : IndexAlgorithm) : list DistanceMetric :=
  match a with
  | LINEAR => [COSINE; EUCLIDEAN]
  | KDTREE => [EUCLIDEAN]
  | LSH => [COSINE]
  end.

Definition DistanceMetric_eqb (a b : DistanceMetric) : bool :=
  match a, b with
  | COSINE, COSINE | EUCLIDEAN, EUCLIDEAN => true
  | _, _ => false
  end.

(** ** [app.vector_index.linear] *)

Record LinearIndex : Type := mkLinearIndex {
  lin_metric : DistanceMetric;
  lin_vectors : list vec;
  lin_ids : list string;
}.

Definition LinearIndex_init (metric : DistanceMetric) : LinearIndex :=
  mkLinearIndex metric [] [].

Definition LinearIndex_build (self : LinearIndex) (vectors : list vec) (ids : list string)
  : result LinearIndex :=
  rbind (_validate_inputs vectors ids) (fun _ =>
  Ok (mkLinearIndex (lin_metric self) vectors ids)).

Definition LinearIndex_query (self : LinearIndex) (vector : vec) (k : Z)
  : result (list (string * score)) :=
  if (match lin_vectors self with [] => true | _ => false end) || (k <=? 0) then Ok []
  else
    rbind (_validate_query_dim vector (lin_vectors self)) (fun _ =>
    rbind
      match lin_metric self with
      | COSINE =>
          Ok (map (fun cv => (fst cv, cosine_similarity vector (snd cv)))
                (zip (lin_ids self) (lin_vectors self)))
      | EUCLIDEAN =>
          mapM (fun cv => rbind (euclidean_distance vector (snd cv)) (fun dist =>
                          Ok (fst cv, similarity dist)))
            (zip (lin_ids self) (lin_vectors self))
      end (fun scores =>
    Ok (slice_to k (sort_key_reverse score_leb snd scores)))).

(** ** [app.vector_index.kdtree] *)

(** [Optional[KDNode]]: [KDNone] is Python's [None]. *)
Inductive KDTree : Type :=
| KDNone
| KDNode (point : vec) (point_id : string) (axis : nat) (left right : KDTree).

(** [build_kd].  The recursion is on slices of the sorted list; [fuel]
    bounds its depth and [build_kd] below supplies [len(points)], which
    is enough (lemma [build_kd_fuel_enough]).  [depth % k] raises for
    [k = 0]; the sort key [x[0][axis]] and [combined[median]] raise
    [IndexError] when out of range. *)
Fixpoint build_kd_fuel (fuel : nat) (points : list vec) (ids : list string)
    (depth : nat) : result KDTree :=
  match points with
  | [] => Ok KDNone
  | p0 :: _ =>
      match fuel with
      | O => Ok KDNone
      | S fuel' =>
          let k := length p0 in
          if (k =? 0)%nat then Raise ZeroDivisionError
          else
            let axis := (depth mod k)%nat in
            let combined := zip points ids in
            if existsb (fun x => (length (fst x) <=? axis)%nat) combined
            then Raise IndexError
            else
              let combined := sort_key Z.leb (fun x => nth axis (fst x) 0) combined in
              let median := (length combined / 2)%nat in
              match nth_error combined median with
              | None => Raise IndexError
              | Some (median_point, median_id) =>
                  let left_points := map fst (firstn median combined) in
                  let left_ids := map snd (firstn median combined) in
                  rbind (build_kd_fuel fuel' left_points left_ids (depth + 1)) (fun node_left =>
                  let right_points := map fst (skipn (median + 1) combined) in
                  let right_ids := map snd (skipn (median + 1) combined) in
                  rbind (build_kd_fuel fuel' right_points right_ids (depth + 1)) (fun node_right =>
                  Ok (KDNode median_point median_id axis node_left node_right)))
              end
      end
  end.

Definition build_kd (points : list vec) (ids : list string) (depth : nat) : result KDTree :=
  build_kd_fuel (length points) points ids depth.

(** The heap holds tuples [(-dist, point_id)].  [Neg d] is [-d]. *)
Record negroot : Type := Neg { negated : root }.

Definition heap_entry : Type := negroot * string.

(** Tuple comparison [a < b] on [(-dist, id)]. *)
Definition entry_ltb (a b : heap_entry) : bool :=
  root_ltb (negated (fst b)) (negated (fst a))
  || (root_eqb (negated (fst a)) (negated (fst b)) && String.ltb (snd a) (snd b)).
Definition entry_leb (a b : heap_entry) : bool := negb (entry_ltb b a).

(** [heapq] keeps a binary min-heap in an array.  [heappush],
    [heappop], [heap[0]] and the final [heap.sort] depend on the
    multiset of the entries only, so the heap is kept as the ascending
    list of its entries: the minimum is the head. *)
Definition heappush (heap : list heap_entry) (item : heap_entry) : list heap_entry :=
  insert_by entry_leb item heap.
Definition heappop (heap : list heap_entry) : list heap_entry := tail heap.

Fixpoint kd_query (node : KDTree) (target : vec) (k : Z) (heap : list heap_entry)
  : result (list heap_entry) :=
  match node with
  | KDNone => Ok heap
  | KDNode point point_id axis node_left node_right =>
      rbind (euclidean_distance target point) (fun dist =>
      let heap := heappush heap (Neg dist, point_id) in
      let heap := if Z.of_nat (length heap) >? k then heappop heap else heap in
      match nth_error target axis, nth_error point axis with
      | Some t, Some p =>
          let diff := t - p in
          let search (first second : list heap_entry → result (list heap_entry)) :=
            rbind (first heap) (fun heap =>
            if Z.of_nat (length heap) <? k then second heap
            else
              match heap with
              | [] => Raise IndexError
              | top :: _ =>
                  if Z_lt_root (Z.abs diff) (negated (fst top)) then second heap
                  else Ok heap
              end) in
          if diff <? 0
          then search (kd_query node_left target k) (kd_query node_right target k)
          else search (kd_query node_right target k) (kd_query node_left target k)
      | _, _ => Raise IndexError
      end)
  end.

Record KDTreeIndex : Type := mkKDTreeIndex {
  kd_root : KDTree;
  kd_dim : nat;
}.

Definition KDTreeIndex_init : KDTreeIndex := mkKDTreeIndex KDNone 0.

Definition KDTreeIndex_build (self : KDTreeIndex) (vectors : list vec) (ids : list string)
  : result KDTreeIndex :=
  rbind (_validate_inputs vectors ids) (fun _ =>
  match vectors with
  | [] => Ok (mkKDTreeIndex KDNone 0)
  | v0 :: _ =>
      rbind (build_kd vectors ids 0) (fun root =>
      Ok (mkKDTreeIndex root (length v0)))
  end).

Definition KDTreeIndex_query (self : KDTreeIndex) (vector : vec) (k : Z)
  : result (list (string * score)) :=
  if k <=? 0 then Ok []
  else if negb (kd_dim self =? 0)%nat && negb (length vector =? kd_dim self)%nat
  then Raise (ValueError msg_query_dim)
  else
    rbind (kd_query (kd_root self) vector k []) (fun heap =>
    let heap := sort_by (fun a b => entry_leb b a) heap in
    Ok (map (fun dp => (snd dp, similarity (negated (fst dp)))) heap)).

(** ** [app.core.config] and the pseudo-random generator *)

Record Settings : Type := mkSettings {
  data_dir : string;
  default_metric : string;
  default_index : string;
  lsh_num_planes : Z;
  lsh_num_tables : Z;
  lsh_seed : Z;
}.

Definition enumerate {A} (l : list A) : list (nat * A) := zip (seq 0 (length l)) l.

(** ** Python dictionaries with string keys

    A [dict] keeps insertion order: assigning to a present key keeps its
    position, assigning to a new key appends, [pop] removes. *)

Definition dict (A : Type) : Type := list (string * A).

Fixpoint dict_get {A} (k : string) (d : dict A) : option A :=
  match d with
  | [] => None
  | kv :: d' => if String.eqb k (fst kv) then Some (snd kv) else dict_get k d'
  end.

Fixpoint dict_set {A} (k : string) (v : A) (d : dict A) : dict A :=
  match d with
  | [] => [(k, v)]
  | kv :: d' => if String.eqb k (fst kv) then (k, v) :: d' else kv :: dict_set k v d'
  end.

Definition dict_pop {A} (k : string) (d : dict A) : dict A :=
  List.filter (fun kv => negb (String.eqb k (fst kv))) d.

Definition dict_values {A} (d : dict A) : list A := map snd d.
Definition dict_items {A} (d : dict A) : list (string * A) := d.

(** An attribute assignment [obj.field = v] on the object stored under
    key [k]: the table holds the object itself, so the table changes. *)
Fixpoint dict_assign {A} (k : string) (f : A → A) (d : dict A) : dict A :=
  match d with
  | [] => []
  | kv :: d' =>
      if String.eqb k (fst kv) then (fst kv, f (snd kv)) :: d'
      else kv :: dict_assign k f d'
  end.

(** [{v.id: v for v in values}] *)
Definition dict_of_values {A} (id : A → string) (values : list A) : dict A :=
  fold_left (fun d v => dict_set (id v) v d) values [].

(** ** [app.domain.models.entities] *)

Record Library : Type := mkLibrary {
  lib_id : string;
  lib_name : string;
  lib_description : option string;
  lib_metadata : gmap string string;
  lib_embedding_dim : option Z;
}.

Record Document : Type := mkDocument {
  doc_id : string;
  doc_library_id : string;
  doc_title : string;
  doc_description : option string;
  doc_metadata : gmap string string;
}.

Record Chunk : Type := mkChunk {
  chunk_id : string;
  chunk_document_id : string;
  chunk_text : string;
  chunk_embedding : vec;
  chunk_metadata : gmap string string;
}.

(** ** [app.repositories.memory]

    Every method runs under the repository's reader-writer lock, so each
    is one atomic step on the three tables.  [del table[key]] is only
    applied to keys read from the same table in the same step. *)

Record InMemoryRepository : Type := mkRepository {
  _libraries : dict Library;
  _documents : dict Document;
  _chunks : dict Chunk;
}.

Definition InMemoryRepository_init : InMemoryRepository := mkRepository [] [] [].

Definition repo_create_library (library : Library) (r : InMemoryRepository) :=
  mkRepository (dict_set (lib_id library) library (_libraries r)) (_documents r) (_chunks r).
Definition repo_get_library (library_id : string) (r : InMemoryRepository) : option Library :=
  dict_get library_id (_libraries r).
Definition repo_list_libraries (r : InMemoryRepository) : list Library :=
  dict_values (_libraries r).
Definition repo_update_library (library : Library) (r : InMemoryRepository) :=
  mkRepository (dict_set (lib_id library) library (_libraries r)) (_documents r) (_chunks r).

Definition repo_delete_library (library_id : string) (r : InMemoryRepository) :=
  let doc_ids :=
    map doc_id (List.filter (fun d => String.eqb (doc_library_id d) library_id)
                  (dict_values (_documents r))) in
  let chunks_to_delete :=
    map chunk_id
      (List.filter (fun c => existsb (String.eqb (chunk_document_id c)) doc_ids)
         (dict_values (_chunks r))) in
  let chunks := fold_left (fun t chunk_id => dict_pop chunk_id t) chunks_to_delete (_chunks r) in
  let documents := fold_left (fun t doc_id => dict_pop doc_id t) doc_ids (_documents r) in
  mkRepository (dict_pop library_id (_libraries r)) documents chunks.

Definition repo_create_document (document : Document) (r : InMemoryRepository) :=
  mkRepository (_libraries r) (dict_set (doc_id document) document (_documents r)) (_chunks r).
Definition repo_get_document (document_id : string) (r : InMemoryRepository) : option Document :=
  dict_get document_id (_documents r).
Definition repo_list_documents (library_id : string) (r : InMemoryRepository) : list Document :=
  List.filter (fun d => String.eqb (doc_library_id d) library_id) (dict_values (_documents r)).
Definition repo_update_document (document : Document) (r : InMemoryRepository) :=
  mkRepository (_libraries r) (dict_set (doc_id document) document (_documents r)) (_chunks r).

Definition repo_delete_document (document_id : string) (r : InMemoryRepository) :=
  let chunks_to_delete :=
    map chunk_id
      (List.filter (fun c => String.eqb (chunk_document_id c) document_id)
         (dict_values (_chunks r))) in
  let chunks := fold_left (fun t chunk_id => dict_pop chunk_id t) chunks_to_delete (_chunks r) in
  mkRepository (_libraries r) (dict_pop document_id (_documents r)) chunks.

Definition repo_create_chunk (chunk : Chunk) (r : InMemoryRepository) :=
  mkRepository (_libraries r) (_documents r) (dict_set (chunk_id chunk) chunk (_chunks r)).
Definition repo_get_chunk (chunk_id : string) (r : InMemoryRepository) : option Chunk :=
  dict_get chunk_id (_chunks r).

Definition repo_list_chunks (library_id : string) (r : InMemoryRepository) : list Chunk :=
  let doc_ids :=
    map doc_id (List.filter (fun d => String.eqb (doc_library_id d) library_id)
                  (dict_values (_documents r))) in
  List.filter (fun c => existsb (String.eqb (chunk_document_id c)) doc_ids)
    (dict_values (_chunks r)).

Definition repo_update_chunk (chunk : Chunk) (r : InMemoryRepository) :=
  mkRepository (_libraries r) (_documents r) (dict_set (chunk_id chunk) chunk (_chunks r)).
Definition repo_delete_chunk (chunk_id : string) (r : InMemoryRepository) :=
  mkRepository (_libraries r) (_documents r) (dict_pop chunk_id (_chunks r)).

(** [snapshot()] dumps the three tables as lists; [load_snapshot]
    rebuilds each table from its list, keyed by the record's own id.
    JSON objects are kept as typed records: a document that parses but
    does not fit the schema is outside the model. *)
Record snapshot_data : Type := mkSnapshotData {
  j_libraries : option (list Library);
  j_documents : option (list Document);
  j_chunks : option (list Chunk);
  j_indices : option (dict (gmap string string));
  j_timestamp : option string;
}.

Definition repo_snapshot (r : InMemoryRepository) : snapshot_data :=
  mkSnapshotData (Some (dict_values (_libraries r))) (Some (dict_values (_documents r)))
    (Some (dict_values (_chunks r))) None None.

(** [json.loads] gives dicts, not records; [load_snapshot] makes the
    records.  An object of one of the three lists is accepted by its
    model class, or it has no key "id" ([d["id"]] raises [KeyError]), or
    it has one and the constructor of the model, called with the object's
    items as keyword arguments, rejects it (pydantic's
    [ValidationError]).  The file is a JSON object whose three lists
    hold JSON objects and whose "indices", when present, maps ids to
    objects of strings, as in every file [save] writes; other JSON
    values are outside the model. *)
Inductive json_object (A : Type) : Type :=
| Accepted (record : A)
| WithoutId
| Rejected.
#[global] Arguments Accepted {A} record.
#[global] Arguments WithoutId {A}.
#[global] Arguments Rejected {A}.

Record json_snapshot : Type := mkJsonSnapshot {
  o_libraries : option (list (json_object Library));
  o_documents : option (list (json_object Document));
  o_chunks : option (list (json_object Chunk));
  o_indices : option (dict (gmap string string));
  o_timestamp : option string;
}.

(** The JSON of records: each is the [model_dump()] of itself. *)
Definition json_of (data : snapshot_data) : json_snapshot :=
  mkJsonSnapshot (option_map (map Accepted) (j_libraries data))
    (option_map (map Accepted) (j_documents data))
    (option_map (map Accepted) (j_chunks data))
    (j_indices data) (j_timestamp data).

(** The key [d["id"]], then the value, the model made from [d]. *)
Definition model_of {A} (d : json_object A) : result A :=
  match d with
  | Accepted record => Ok record
  | WithoutId => Raise (KeyError "id")
  | Rejected => Raise ValidationError
  end.

(** The comprehension [{d["id"]: model(d) for d in objects}], where
    [model(d)] is the constructor called with the items of [d]. *)
Definition dict_of_objects {A} (id : A → string) (objects : list (json_object A))
  : result (dict A) :=
  rbind (mapM model_of objects) (fun records => Ok (dict_of_values id records)).

(** [InMemoryRepository.load_snapshot]: three assignments in turn, each
    of a comprehension that is evaluated first.  A comprehension that
    raises leaves the tables assigned before it replaced and the others
    as they were. *)
Definition load_snapshot (data : json_snapshot) (r : InMemoryRepository)
  : result unit * InMemoryRepository :=
  match dict_of_objects lib_id (default [] (o_libraries data)) with
  | Raise e => (Raise e, r)
  | Ok libraries =>
      let r := mkRepository libraries (_documents r) (_chunks r) in
      match dict_of_objects doc_id (default [] (o_documents data)) with
      | Raise e => (Raise e, r)
      | Ok documents =>
          let r := mkRepository (_libraries r) documents (_chunks r) in
          match dict_of_objects chunk_id (default [] (o_chunks data)) with
          | Raise e => (Raise e, r)
          | Ok chunks => (Ok tt, mkRepository (_libraries r) (_documents r) chunks)
          end
      end
  end.

(** What [load_snapshot] makes of objects that are all accepted (lemma
    [load_snapshot_accepted]). *)
Definition repo_load_snapshot (data : snapshot_data) (r : InMemoryRepository) :=
  mkRepository
    (dict_of_values lib_id (default [] (j_libraries data)))
    (dict_of_values doc_id (default [] (j_documents data)))
    (dict_of_values chunk_id (default [] (j_chunks data))).

(** The process-wide [settings] object, read once from the environment. *)
Variable settings : Settings.

(** [random.Random(seed).gauss(0, 1)]: [gauss seed n] is the [n]-th draw
    of the generator seeded with [seed] (as an exact value on the same
    integer grid as the vectors). *)
Variable gauss : Z → nat → Z.

(** [tauto], [set_solver] and the like read the whole context; a proof
    that uses them puts the environment aside first, so that the lemma
    depends on what its statement names only. *)
Ltac isolate := try clear pow_limit; try clear settings; try clear gauss.

(** ** [app.vector_index.lsh] *)

Record LSHIndex : Type := mkLSHIndex {
  lsh_planes_count : Z;      (* _num_planes *)
  lsh_tables_count : Z;      (* _num_tables *)
  lsh_tables : list (gmap Z (list (string * vec)));
  lsh_planes : list (list vec);
  lsh_seed_ : Z;
  lsh_dim : nat;
}.

Definition LSHIndex_init (num_planes num_tables seed : Z) : LSHIndex :=
  mkLSHIndex num_planes num_tables [] [] seed 0.

Definition _hash (v : vec) (planes : list vec) : Z :=
  fold_left
    (fun signature ip =>
       if 0 <=? sum (map (fun vp => fst vp * snd vp) (zip v (snd ip)))
       then Z.lor signature (Z.shiftl 1 (Z.of_nat (fst ip)))
       else signature)
    (enumerate planes) 0.

(** One hyperplane normal: [dim] draws starting at draw [start], then
    [x / norm].  Dividing by the positive [norm] does not change the
    sign of any dot product, the only use made of a plane, so the
    direction is kept unscaled; a zero [norm] with [dim > 0] is Python's
    [ZeroDivisionError]. *)
Definition gen_plane (seed : Z) (dim start : nat) : result vec :=
  let plane := map (fun c => gauss seed (start + c)%nat) (seq 0 dim) in
  let norm := Sqrt (sum (map (fun x => x * x) plane)) in
  if negb (length plane =? 0)%nat && root_is_zero norm then Raise ZeroDivisionError
  else Ok plane.

Definition gen_planes (seed : Z) (num_tables num_planes dim : nat)
  : result (list (list vec)) :=
  mapM (fun t =>
          mapM (fun p => gen_plane seed dim ((t * num_planes + p) * dim)%nat)
               (seq 0 num_planes))
       (seq 0 num_tables).

(** [self._tables[i][signature].append((vec_id, vec))], creating the
    bucket first when the signature is new. *)
Definition table_append (signature : Z) (item : string * vec)
    (table : gmap Z (list (string * vec))) : gmap Z (list (string * vec)) :=
  <[signature := default [] (table !! signature) ++ [item]]> table.

Definition LSHIndex_build (self : LSHIndex) (vectors : list vec) (ids : list string)
  : result LSHIndex :=
  rbind (_validate_inputs vectors ids) (fun _ =>
  match vectors with
  | [] =>
      Ok (mkLSHIndex (lsh_planes_count self) (lsh_tables_count self) [] []
            (lsh_seed_ self) 0)
  | v0 :: _ =>
      let dim := length v0 in
      rbind (gen_planes (lsh_seed_ self) (Z.to_nat (lsh_tables_count self))
               (Z.to_nat (lsh_planes_count self)) dim) (fun planes =>
      let tables0 : list (gmap Z (list (string * vec))) :=
        map (fun _ => ∅) (seq 0 (Z.to_nat (lsh_tables_count self))) in
      let tables :=
        fold_left
          (fun tables vi =>
             fold_left
               (fun tables ip =>
                  let signature := _hash (fst vi) (snd ip) in
                  alter (table_append signature (snd vi, fst vi)) (fst ip) tables)
               (enumerate planes) tables)
          (zip vectors ids) tables0 in
      Ok (mkLSHIndex (lsh_planes_count self) (lsh_tables_count self) tables planes
            (lsh_seed_ self) dim))
  end).

(** [candidates: dict[str, list[float]]], in insertion order. *)
Definition candidates_mem (vec_id : string) (candidates : list (string * vec)) : bool :=
  existsb (fun c => String.eqb vec_id (fst c)) candidates.

Definition probe (table : gmap Z (list (string * vec))) (signature : Z)
    (candidates : list (string * vec)) : list (string * vec) :=
  match table !! signature with
  | Some bucket =>
      fold_left
        (fun candidates item =>
           if candidates_mem (fst item) candidates then candidates
           else candidates ++ [item])
        bucket candidates
  | None => candidates
  end.

Definition LSHIndex_query (self : LSHIndex) (vector : vec) (k : Z)
  : result (list (string * score)) :=
  if k <=? 0 then Ok []
  else if negb (lsh_dim self =? 0)%nat && negb (length vector =? lsh_dim self)%nat
  then Raise (ValueError msg_query_dim)
  else
    let candidates :=
      fold_left
        (fun candidates ip =>
           let signature := _hash vector (snd ip) in
           (* [self._tables[i]]; build makes one table per plane set *)
           let table := default ∅ (lsh_tables self !! fst ip) in
           let candidates := probe table signature candidates in
           fold_left
             (fun candidates bit_flip =>
                probe table (Z.lxor signature (Z.shiftl 1 (Z.of_nat bit_flip))) candidates)
             (seq 0 (Z.to_nat (Z.min 2 (lsh_planes_count self)))) candidates)
        (enumerate (lsh_planes self)) [] in
    let scores := map (fun c => (fst c, cosine_similarity vector (snd c))) candidates in
    Ok (slice_to k (sort_key_reverse score_leb snd scores)).

(** ** The [VectorIndex] contract: one case per variant *)

Inductive VectorIndex : Type :=
| Linear (index : LinearIndex)
| KDTreeIdx (index : KDTreeIndex)
| LSHIdx (index : LSHIndex).

Definition VectorIndex_build (self : VectorIndex) (vectors : list vec) (ids : list string)
  : result VectorIndex :=
  match self with
  | Linear i => rbind (LinearIndex_build i vectors ids) (fun i' => Ok (Linear i'))
  | KDTreeIdx i => rbind (KDTreeIndex_build i vectors ids) (fun i' => Ok (KDTreeIdx i'))
  | LSHIdx i => rbind (LSHIndex_build i vectors ids) (fun i' => Ok (LSHIdx i'))
  end.

Definition VectorIndex_query (self : VectorIndex) (vector : vec) (k : Z)
  : result (list (string * score)) :=
  match self with
  | Linear i => LinearIndex_query i vector k
  | KDTreeIdx i => KDTreeIndex_query i vector k
  | LSHIdx i => LSHIndex_query i vector k
  end.

Definition VectorIndex_metric (self : VectorIndex) : string :=
  match self with
  | Linear i => DistanceMetric_value (lin_metric i)
  | KDTreeIdx _ => DistanceMetric_value EUCLIDEAN
  | LSHIdx _ => DistanceMetric_value COSINE
  end.

Definition VectorIndex_kind (self : VectorIndex) : string :=
  match self with
  | Linear _ => IndexAlgorithm_value LINEAR
  | KDTreeIdx _ => IndexAlgorithm_value KDTREE
  | LSHIdx _ => IndexAlgorithm_value LSH
  end.

(** ** The process state and the monad of service calls

    A service call runs against the repository, the index registry and
    the snapshot files.  A call returns a value or raises, and in both
    cases leaves the state it had reached: what was written before an
    exception stays written. *)

Inductive file_text : Type :=
| Json (data : json_snapshot)       (* a text [json.loads] reads as [data] *)
| PlainText (text : string).        (* any text [json.loads] rejects *)

(** The text [json.dumps] writes for records. *)
Definition JsonText (data : snapshot_data) : file_text := Json (json_of data).

Record World : Type := mkWorld {
  repository : InMemoryRepository;
  _indices : dict VectorIndex;
  _index_meta : dict (gmap string string);
  files : gmap string file_text;
}.

Definition M (A : Type) : Type := World → result A * World.

Definition ret {A} (a : A) : M A := fun w => (Ok a, w).
Definition raise {A} (e : exn) : M A := fun w => (Raise e, w).
Definition bind {A B} (c : M A) (f : A → M B) : M B :=
  fun w => match c w with
           | (Ok a, w') => f a w'
           | (Raise e, w') => (Raise e, w')
           end.
(** [try: c except Exception as e: h e] *)
Definition try_except {A} (c : M A) (h : exn → M A) : M A :=
  fun w => match c w with
           | (Ok a, w') => (Ok a, w')
           | (Raise e, w') => h e w'
           end.
Definition lift {A} (r : result A) : M A := fun w => (r, w).

Notation "x <- c ;; k" := (bind c (fun x => k))
  (at level 100, c at next level, right associativity).
Notation "c ;;; k" := (bind c (fun _ => k))
  (at level 100, right associativity).

Definition repo_read {A} (f : InMemoryRepository → A) : M A :=
  fun w => (Ok (f (repository w)), w).
Definition repo_write (f : InMemoryRepository → InMemoryRepository) : M unit :=
  fun w => (Ok tt, mkWorld (f (repository w)) (_indices w) (_index_meta w) (files w)).
(** A method of the repository that can raise after it has changed
    the store. *)
Definition repo_try {A} (f : InMemoryRepository → result A * InMemoryRepository) : M A :=
  fun w => (fst (f (repository w)),
            mkWorld (snd (f (repository w))) (_indices w) (_index_meta w) (files w)).

Fixpoint for_each {A} (l : list A) (body : A → M unit) : M unit :=
  match l with
  | [] => ret tt
  | x :: l' => body x ;;; for_each l' body
  end.

(** Write-through of an attribute assignment on a stored object. *)
Definition assign_library (key : string) (f : Library → Library) : M unit :=
  repo_write (fun r => mkRepository (dict_assign key f (_libraries r)) (_documents r) (_chunks r)).
Definition assign_document (key : string) (f : Document → Document) : M unit :=
  repo_write (fun r => mkRepository (_libraries r) (dict_assign key f (_documents r)) (_chunks r)).
Definition assign_chunk (key : string) (f : Chunk → Chunk) : M unit :=
  repo_write (fun r => mkRepository (_libraries r) (_documents r) (dict_assign key f (_chunks r))).

Definition set_lib_name v (l : Library) :=
  mkLibrary (lib_id l) v (lib_description l) (lib_metadata l) (lib_embedding_dim l).
Definition set_lib_description v (l : Library) :=
  mkLibrary (lib_id l) (lib_name l) v (lib_metadata l) (lib_embedding_dim l).
Definition set_lib_metadata v (l : Library) :=
  mkLibrary (lib_id l) (lib_name l) (lib_description l) v (lib_embedding_dim l).
Definition set_lib_embedding_dim v (l : Library) :=
  mkLibrary (lib_id l) (lib_name l) (lib_description l) (lib_metadata l) v.

Definition set_doc_title v (d : Document) :=
  mkDocument (doc_id d) (doc_library_id d) v (doc_description d) (doc_metadata d).
Definition set_doc_description v (d : Document) :=
  mkDocument (doc_id d) (doc_library_id d) (doc_title d) v (doc_metadata d).
Definition set_doc_metadata v (d : Document) :=
  mkDocument (doc_id d) (doc_library_id d) (doc_title d) (doc_description d) v.

Definition set_chunk_text v (c : Chunk) :=
  mkChunk (chunk_id c) (chunk_document_id c) v (chunk_embedding c) (chunk_metadata c).
Definition set_chunk_embedding v (c : Chunk) :=
  mkChunk (chunk_id c) (chunk_document_id c) (chunk_text c) v (chunk_metadata c).
Definition set_chunk_metadata v (c : Chunk) :=
  mkChunk (chunk_id c) (chunk_document_id c) (chunk_text c) (chunk_embedding c) v.

(** ** [app.services.library_service]

    [new_id] is the [uuid4] drawn by the model's default factory. *)

Definition LibraryService_create_library (new_id name : string)
    (description : option string) (metadata : option (gmap string string)) : M Library :=
  let library := mkLibrary new_id name description (default ∅ metadata) None in
  repo_write (repo_create_library library) ;;;
  ret library.

Definition LibraryService_get_library (library_id : string) : M Library :=
  library <- repo_read (repo_get_library library_id) ;;
  match library with
  | None => raise (ResourceNotFoundException "Library" library_id)
  | Some library => ret library
  end.

Definition LibraryService_list_libraries : M (list Library) :=
  repo_read repo_list_libraries.

Definition LibraryService_update_library (library_id : string) (name description : option string)
    (metadata : option (gmap string string)) : M Library :=
  library <- LibraryService_get_library library_id ;;
  library <- match name with
             | Some v => assign_library library_id (set_lib_name v) ;;;
                         ret (set_lib_name v library)
             | None => ret library
             end ;;
  library <- match description with
             | Some v => assign_library library_id (set_lib_description (Some v)) ;;;
                         ret (set_lib_description (Some v) library)
             | None => ret library
             end ;;
  library <- match metadata with
             | Some v => assign_library library_id (set_lib_metadata v) ;;;
                         ret (set_lib_metadata v library)
             | None => ret library
             end ;;
  repo_write (repo_update_library library) ;;;
  ret library.

Definition LibraryService_delete_library (library_id : string) : M unit :=
  repo_write (repo_delete_library library_id).

(** ** [app.services.document_service] *)

Definition DocumentService_create_document (new_id library_id title : string)
    (description : option string) (metadata : option (gmap string string)) : M Document :=
  library <- repo_read (repo_get_library library_id) ;;
  match library with
  | None => raise (ResourceNotFoundException "Library" library_id)
  | Some _ =>
      let document := mkDocument new_id library_id title description (default ∅ metadata) in
      repo_write (repo_create_document document) ;;;
      ret document
  end.

Definition DocumentService_get_document (document_id : string) : M Document :=
  document <- repo_read (repo_get_document document_id) ;;
  match document with
  | None => raise (ResourceNotFoundException "Document" document_id)
  | Some document => ret document
  end.

Definition DocumentService_list_documents (library_id : string) : M (list Document) :=
  repo_read (repo_list_documents library_id).

Definition DocumentService_update_document (document_id : string) (title description : option string)
    (metadata : option (gmap string string)) : M Document :=
  document <- DocumentService_get_document document_id ;;
  document <- match title with
              | Some v => assign_document document_id (set_doc_title v) ;;;
                          ret (set_doc_title v document)
              | None => ret document
              end ;;
  document <- match description with
              | Some v => assign_document document_id (set_doc_description (Some v)) ;;;
                          ret (set_doc_description (Some v) document)
              | None => ret document
              end ;;
  document <- match metadata with
              | Some v => assign_document document_id (set_doc_metadata v) ;;;
                          ret (set_doc_metadata v document)
              | None => ret document
              end ;;
  repo_write (repo_update_document document) ;;;
  ret document.

Definition DocumentService_delete_document (document_id : string) : M unit :=
  repo_write (repo_delete_document document_id).

(** ** [app.services.chunk_service] *)

Definition len (embedding : vec) : Z := Z.of_nat (length embedding).

Definition _validate_embedding_dimensions (library_id : string) (embedding : vec) : M unit :=
  match embedding with
  | [] => ret tt
  | _ =>
      library <- repo_read (repo_get_library library_id) ;;
      match library with
      | None => ret tt
      | Some library =>
          match lib_embedding_dim library with
          | Some dim =>
              if negb (len embedding =? dim)
              then raise (DimensionalityMismatchException dim (len embedding))
              else ret tt
          | None =>
              assign_library library_id (set_lib_embedding_dim (Some (len embedding))) ;;;
              repo_write (repo_update_library
                            (set_lib_embedding_dim (Some (len embedding)) library))
          end
      end
  end.

Definition ChunkService_create_chunk (new_id library_id document_id text : string)
    (embedding : vec) (metadata : option (gmap string string)) : M Chunk :=
  document <- repo_read (repo_get_document document_id) ;;
  match document with
  | None => raise (ResourceNotFoundException "Document" document_id)
  | Some document =>
      if negb (String.eqb (doc_library_id document) library_id)
      then raise (ResourceNotFoundException "Document" document_id)
      else
        _validate_embedding_dimensions library_id embedding ;;;
        let chunk := mkChunk new_id document_id text embedding (default ∅ metadata) in
        repo_write (repo_create_chunk chunk) ;;;
        ret chunk
  end.

Definition ChunkService_get_chunk (chunk_id : string) : M Chunk :=
  chunk <- repo_read (repo_get_chunk chunk_id) ;;
  match chunk with
  | None => raise (ResourceNotFoundException "Chunk" chunk_id)
  | Some chunk => ret chunk
  end.

Definition ChunkService_list_chunks (library_id : string) : M (list Chunk) :=
  repo_read (repo_list_chunks library_id).

Definition ChunkService_update_chunk (chunk_id : string) (text : option string)
    (embedding : option vec) (metadata : option (gmap string string)) : M Chunk :=
  chunk <- ChunkService_get_chunk chunk_id ;;
  chunk <- match embedding with
           | Some v =>
               document <- repo_read (repo_get_document (chunk_document_id chunk)) ;;
               match document with
               | Some document => _validate_embedding_dimensions (doc_library_id document) v
               | None => ret tt
               end ;;;
               assign_chunk chunk_id (set_chunk_embedding v) ;;;
               ret (set_chunk_embedding v chunk)
           | None => ret chunk
           end ;;
  chunk <- match text with
           | Some v => assign_chunk chunk_id (set_chunk_text v) ;;;
                       ret (set_chunk_text v chunk)
           | None => ret chunk
           end ;;
  chunk <- match metadata with
           | Some v => assign_chunk chunk_id (set_chunk_metadata v) ;;;
                       ret (set_chunk_metadata v chunk)
           | None => ret chunk
           end ;;
  repo_write (repo_update_chunk chunk) ;;;
  ret chunk.

Definition ChunkService_delete_chunk (chunk_id : string) : M unit :=
  repo_write (repo_delete_chunk chunk_id).

(** ** [app.services.index_service] *)

(** [str.lower] on ASCII letters.  A string is a sequence of bytes
    here: a letter outside ASCII is left as it is, also the few that
    Python lowers to an ASCII letter. *)
Definition ascii_lower (c : ascii) : ascii :=
  let n := nat_of_ascii c in
  if (65 <=? n)%nat && (n <=? 90)%nat then ascii_of_nat (n + 32) else c.

Fixpoint lower (s : string) : string :=
  match s with
  | EmptyString => EmptyString
  | String c s' => String (ascii_lower c) (lower s')
  end.

Definition _create_index (algorithm metric : string) : result VectorIndex :=
  match IndexAlgorithm_of algorithm with
  | None =>
      Raise (InvalidAlgorithmException algorithm (map IndexAlgorithm_value all_algorithms))
  | Some algo_enum =>
      match DistanceMetric_of metric with
      | None =>
          Raise (InvalidMetricException algorithm metric
                   (map DistanceMetric_value (ALGORITHM_METRICS algo_enum)))
      | Some metric_enum =>
          if negb (existsb (DistanceMetric_eqb metric_enum) (ALGORITHM_METRICS algo_enum))
          then Raise (InvalidMetricException algorithm metric
                        (map DistanceMetric_value (ALGORITHM_METRICS algo_enum)))
          else
            match algo_enum with
            | LINEAR => Ok (Linear (LinearIndex_init metric_enum))
            | KDTREE => Ok (KDTreeIdx KDTreeIndex_init)
            | LSH => Ok (LSHIdx (LSHIndex_init (lsh_num_planes settings)
                                   (lsh_num_tables settings) (lsh_seed settings)))
            end
      end
  end.

(** [{"algorithm": index.kind(), "metric": index.metric()}] *)
Definition meta_of (index : VectorIndex) : gmap string string :=
  <["algorithm" := VectorIndex_kind index]> (<["metric" := VectorIndex_metric index]> ∅).

(** The writer-locked block shared by [build_index] and the fallback. *)
Definition registry_install (library_id : string) (index : VectorIndex) : M unit :=
  fun w => (Ok tt, mkWorld (repository w)
                     (dict_set library_id index (_indices w))
                     (dict_set library_id (meta_of index) (_index_meta w))
                     (files w)).

(** [[(c.embedding, c.id) for c in chunks if c.embedding]] *)
Definition valid_pairs_of (chunks : list Chunk) : list (vec * string) :=
  map (fun c => (chunk_embedding c, chunk_id c))
    (List.filter (fun c => match chunk_embedding c with [] => false | _ => true end) chunks).

Definition IndexService_build_index (library_id algorithm metric : string) : M unit :=
  let algorithm := lower algorithm in
  let metric := lower metric in
  index <- lift (_create_index algorithm metric) ;;
  chunks <- repo_read (repo_list_chunks library_id) ;;
  index <- match chunks with
           | [] => ret index
           | _ =>
               let valid_pairs := valid_pairs_of chunks in
               match valid_pairs with
               | [] => lift (VectorIndex_build index [] [])
               | _ => lift (VectorIndex_build index (map fst valid_pairs) (map snd valid_pairs))
               end
           end ;;
  registry_install library_id index.

Definition _get_or_create_index (library_id : string) : M (option VectorIndex) :=
  index <- (fun w => (Ok (dict_get library_id (_indices w)), w)) ;;
  match index with
  | Some index => ret (Some index)
  | None =>
      chunks <- repo_read (repo_list_chunks library_id) ;;
      match chunks with
      | [] => ret None
      | _ =>
          let valid_pairs := valid_pairs_of chunks in
          match valid_pairs with
          | [] => ret None
          | _ =>
              match DistanceMetric_of (default_metric settings) with
              | None =>
                  raise (ValueError ("'" ++ default_metric settings
                                     ++ "' is not a valid DistanceMetric")%string)
              | Some metric =>
                  index <- lift (VectorIndex_build (Linear (LinearIndex_init metric))
                                   (map fst valid_pairs) (map snd valid_pairs)) ;;
                  registry_install library_id index ;;;
                  ret (Some index)
              end
          end
      end
  end.

Definition _calculate_query_k (k : Z) (has_filters : bool) : Z :=
  let multiplier :=
    if has_filters then DEFAULT_SEARCH_MULTIPLIER * 2 else DEFAULT_SEARCH_MULTIPLIER in
  let buffer := if has_filters then MAX_SEARCH_BUFFER * 2 else MAX_SEARCH_BUFFER in
  Z.max k (Z.min (k * multiplier) (k + buffer)).

(** [all(chunk.metadata.get(key) == value for key, value in filters.items())] *)
Definition matches_filters (metadata filters : gmap string string) : bool :=
  forallb (fun kv => bool_decide (metadata !! fst kv = Some (snd kv))) (map_to_list filters).

Definition _apply_metadata_filters (results : list (string * score))
    (filters : gmap string string) : M (list (string * score)) :=
  repo_read (fun r =>
    List.filter
      (fun cs =>
         match repo_get_chunk (fst cs) r with
         | None => false
         | Some chunk => matches_filters (chunk_metadata chunk) filters
         end)
      results).

(** Truth value of an [Optional[dict]]: [None] and [{}] are false. *)
Definition truthy (metadata_filters : option (gmap string string)) : bool :=
  match metadata_filters with
  | None => false
  | Some f => negb (bool_decide (f = ∅))
  end.

Definition IndexService_search (library_id : string) (vector : vec) (k : Z)
    (metadata_filters : option (gmap string string)) : M (list (string * score)) :=
  if k <=? 0 then ret []
  else
    index <- _get_or_create_index library_id ;;
    match index with
    | None => ret []
    | Some index =>
        let query_k := _calculate_query_k k (truthy metadata_filters) in
        results <- lift (VectorIndex_query index vector query_k) ;;
        results <- (if truthy metadata_filters
                    then _apply_metadata_filters results (default ∅ metadata_filters)
                    else ret results) ;;
        ret (slice_to k results)
    end.

Definition IndexService_get_index_info (library_id : string) : M (gmap string string) :=
  fun w =>
    match dict_get library_id (_index_meta w) with
    | None =>
        (Ok (<["library_id" := library_id]>
               (<["algorithm" := "none"]> (<["metric" := default_metric settings]> ∅))), w)
    | Some meta => (Ok (meta ∪ {["library_id" := library_id]}), w)
    end.

Definition IndexService_clear_index (library_id : string) : M unit :=
  fun w => (Ok tt, mkWorld (repository w) (dict_pop library_id (_indices w))
                     (dict_pop library_id (_index_meta w)) (files w)).

Definition IndexService_get_index_metadata : M (dict (gmap string string)) :=
  fun w => (Ok (_index_meta w), w).

Definition IndexService_rebuild_indices (metadata : dict (gmap string string)) : M unit :=
  for_each (dict_items metadata) (fun item =>
    try_except
      (IndexService_build_index (fst item)
         (default (default_index settings) (snd item !! "algorithm"))
         (default (default_metric settings) (snd item !! "metric")))
      (fun _ => ret tt)).

(** [LibraryService.delete_library_cascade] *)
Definition LibraryService_delete_library_cascade (library_id : string) : M unit :=
  LibraryService_delete_library library_id ;;;
  IndexService_clear_index library_id.

(** ** [app.services.snapshot_service] *)

Definition path_join (dir name : string) : string := (dir ++ "/" ++ name)%string.

(** [json.dumps(data, sort_keys=True)]: the JSON object [indices] is
    written in key order; lists keep their order. *)
Definition json_dumps (data : snapshot_data) : file_text :=
  JsonText (mkSnapshotData (j_libraries data) (j_documents data) (j_chunks data)
              (option_map (sort_key String.leb fst) (j_indices data)) (j_timestamp data)).

Definition json_loads (text : file_text) : result json_snapshot :=
  match text with
  | Json data => Ok data
  | PlainText _ => Raise JSONDecodeError
  end.

(** [now_stamp] and [now_iso] are [datetime.now()] formatted by
    [strftime("%Y%m%d_%H%M%S")] and by [isoformat()]. *)
Definition SnapshotService_save (path : option string) (now_stamp now_iso : string) : M string :=
  let path :=
    match path with
    | None => path_join (data_dir settings) ("snapshot_" ++ now_stamp ++ ".json")%string
    | Some path => path
    end in
  snapshot <- repo_read repo_snapshot ;;
  index_metadata <- IndexService_get_index_metadata ;;
  let data := mkSnapshotData (j_libraries snapshot) (j_documents snapshot) (j_chunks snapshot)
                (Some index_metadata) (Some now_iso) in
  (fun w => (Ok tt, mkWorld (repository w) (_indices w) (_index_meta w)
                      (<[path := json_dumps data]> (files w)))) ;;;
  ret path.

Definition SnapshotService_load (path : option string) : M unit :=
  let path := default (path_join (data_dir settings) "snapshot.json") path in
  text <- (fun w => (Ok (files w !! path), w)) ;;
  match text with
  | None => ret tt
  | Some text =>
      try_except
        (data <- lift (json_loads text) ;;
         repo_try (load_snapshot data) ;;;
         let index_metadata := default [] (o_indices data) in
         IndexService_rebuild_indices index_metadata)
        (fun e => raise e)
  end.

(** ** [app.api.routers.libraries.search_chunks] *)

Record SearchResultItemDTO : Type := mkSearchResultItemDTO {
  item_chunk_id : string;
  item_document_id : string;
  item_score : score;
  item_text : string;
  item_metadata : gmap string string;
}.

Definition search_chunks (library_id : string) (vector : vec) (k : Z)
    (metadata_filters : gmap string string) : M (list SearchResultItemDTO) :=
  results <- try_except (IndexService_search library_id vector k (Some metadata_filters))
               (fun e => match e with
                         | ValueError message => raise (HTTPException 400 message)
                         | _ => raise e
                         end) ;;
  repo_read (fun r =>
    flat_map
      (fun cs =>
         match repo_get_chunk (fst cs) r with
         | None => []
         | Some chunk =>
             [mkSearchResultItemDTO (chunk_id chunk) (chunk_document_id chunk) (snd cs)
                (chunk_text chunk) (chunk_metadata chunk)]
         end)
      results).

(** ** Notions used to state the properties *)

(** The specification's formula [min(max(k, k·m), k+b)]. *)
Definition overfetch (k m b : Z) : Z := Z.min (Z.max k (k * m)) (k + b).

(** A result list is sorted by score, descending. *)
Definition sorted_desc (results : list (string * score)) : Prop :=
  StronglySorted (fun a b => score_leb (snd b) (snd a) = true) results.

(** At most [k] pairs (none when [k <= 0]). *)
Definition at_most (k : Z) (results : list (string * score)) : Prop :=
  Z.of_nat (length results) <= Z.max 0 k.

(** The points held by a tree, node first. *)
Fixpoint tree_items (t : KDTree) : list (vec * string) :=
  match t with
  | KDNone => []
  | KDNode point point_id _ l r => (point, point_id) :: tree_items l ++ tree_items r
  end.

(** Every node holds a point of length [D] and splits on an axis below [D]. *)
Fixpoint tree_dims (D : nat) (t : KDTree) : Prop :=
  match t with
  | KDNone => True
  | KDNode point _ axis l r =>
      length point = D ∧ (axis < D)%nat ∧ tree_dims D l ∧ tree_dims D r
  end.

(** The search-tree order: along the node's axis, the left subtree is
    not above the node and the right subtree is not below it. *)
Fixpoint kd_ordered (t : KDTree) : Prop :=
  match t with
  | KDNone => True
  | KDNode point _ axis l r =>
      Forall (fun x => nth axis (fst x) 0 <= nth axis point 0) (tree_items l)
      ∧ Forall (fun x => nth axis point 0 <= nth axis (fst x) 0) (tree_items r)
      ∧ kd_ordered l ∧ kd_ordered r
  end.

(** The distance itself, [sqrt(sum((x - y)^2))], and whether computing
    it raises: [euclidean_distance] returns [l2_distance] unless some
    square overflows (lemma [euclidean_distance_cases]). *)
Definition l2_distance (a b : vec) : root :=
  Sqrt (sum (map (fun xy => (fst xy - snd xy) ^ 2) (zip a b))).

Definition distance_overflows (a b : vec) : bool :=
  existsb (fun xy => pow_limit <=? Z.abs (fst xy - snd xy)) (zip a b).

(** The distance from [q] to every stored vector can be computed. *)
Definition distances_computable (q : vec) (vectors : list vec) : Prop :=
  Forall (fun v => distance_overflows q v = false) vectors.

(** The heap entry of a stored point, and the squared distance it carries. *)
Definition entry_of (target : vec) (item : vec * string) : heap_entry :=
  (Neg (l2_distance target (fst item)), snd item).
Definition dist_of (e : heap_entry) : Z := radicand (negated (fst e)).



(** Brute force, in the specification's words: the distance from the
    query to every point is computed, the points are ordered by distance
    (ties in insertion order) and the first [k] are kept. *)
Definition all_distances (vectors : list vec) (ids : list string) (q : vec)
  : list (string * root) :=
  map (fun vi => (snd vi, l2_distance q (fst vi))) (zip vectors ids).

Definition by_distance (l : list (string * root)) : list (string * root) :=
  sort_key Z.leb (fun x => radicand (snd x)) l.

Definition brute_force_topk (vectors : list vec) (ids : list string) (q : vec) (k : Z)
  : list (string * score) :=
  map (fun x => (fst x, similarity (snd x)))
    (slice_to k (by_distance (all_distances vectors ids q))).





(** The library-level dimension rule, for the outcome [out] of a chunk
    create or update that carries [embedding] under the library [L]
    stored as [library_id], started in the state [w]. *)
Definition dimension_rule {A} (L : Library) (library_id : string) (embedding : vec)
    (w : World) (out : result A * World) : Prop :=
  match lib_embedding_dim L with
  | None =>
      (∃ a, fst out = Ok a)
      ∧ repo_get_library library_id (repository (snd out))
        = Some (set_lib_embedding_dim (Some (len embedding)) L)
  | Some dim =>
      (dim ≠ len embedding →
       fst out = Raise (DimensionalityMismatchException dim (len embedding))
       ∧ snd out = w)
      ∧ (dim = len embedding →
         (∃ a, fst out = Ok a)
         ∧ repo_get_library library_id (repository (snd out)) = Some L)
  end.

(** A table is keyed by the identifier of the record it holds, and no
    key occurs twice. *)
Definition table_wf {A} (id : A → string) (d : dict A) : Prop :=
  (∀ kv, kv ∈ d → fst kv = id (snd kv)) ∧ NoDup (map fst d).

Definition store_wf (r : InMemoryRepository) : Prop :=
  table_wf lib_id (_libraries r)
  ∧ table_wf doc_id (_documents r)
  ∧ table_wf chunk_id (_chunks r).

(** Every Document's [library_id] names an existing Library and every
    Chunk's [document_id] names an existing Document. *)
Definition referential_integrity (r : InMemoryRepository) : Prop :=
  (∀ d, d ∈ dict_values (_documents r) →
        is_Some (repo_get_library (doc_library_id d) r))
  ∧ (∀ c, c ∈ dict_values (_chunks r) →
          is_Some (repo_get_document (chunk_document_id c) r)).

(** The service-level operations on libraries, documents and chunks. *)
Inductive service_call : Type :=
| CreateLibrary (new_id name : string) (description : option string)
    (metadata : option (gmap string string))
| GetLibrary (library_id : string)
| ListLibraries
| UpdateLibrary (library_id : string) (name description : option string)
    (metadata : option (gmap string string))
| DeleteLibrary (library_id : string)
| DeleteLibraryCascade (library_id : string)
| CreateDocument (new_id library_id title : string) (description : option string)
    (metadata : option (gmap string string))
| GetDocument (document_id : string)
| ListDocuments (library_id : string)
| UpdateDocument (document_id : string) (title description : option string)
    (metadata : option (gmap string string))
| DeleteDocument (document_id : string)
| CreateChunk (new_id library_id document_id text : string) (embedding : vec)
    (metadata : option (gmap string string))
| GetChunk (chunk_id : string)
| ListChunks (library_id : string)
| UpdateChunk (chunk_id : string) (text : option string) (embedding : option vec)
    (metadata : option (gmap string string))
| DeleteChunk (chunk_id : string).

Definition run_call (c : service_call) : M unit :=
  match c with
  | CreateLibrary new_id name description metadata =>
      LibraryService_create_library new_id name description metadata ;;; ret tt
  | GetLibrary library_id => LibraryService_get_library library_id ;;; ret tt
  | ListLibraries => LibraryService_list_libraries ;;; ret tt
  | UpdateLibrary library_id name description metadata =>
      LibraryService_update_library library_id name description metadata ;;; ret tt
  | DeleteLibrary library_id => LibraryService_delete_library library_id
  | DeleteLibraryCascade library_id => LibraryService_delete_library_cascade library_id
  | CreateDocument new_id library_id title description metadata =>
      DocumentService_create_document new_id library_id title description metadata ;;; ret tt
  | GetDocument document_id => DocumentService_get_document document_id ;;; ret tt
  | ListDocuments library_id => DocumentService_list_documents library_id ;;; ret tt
  | UpdateDocument document_id title description metadata =>
      DocumentService_update_document document_id title description metadata ;;; ret tt
  | DeleteDocument document_id => DocumentService_delete_document document_id
  | CreateChunk new_id library_id document_id text embedding metadata =>
      ChunkService_create_chunk new_id library_id document_id text embedding metadata ;;; ret tt
  | GetChunk chunk_id => ChunkService_get_chunk chunk_id ;;; ret tt
  | ListChunks library_id => ChunkService_list_chunks library_id ;;; ret tt
  | UpdateChunk chunk_id text embedding metadata =>
      ChunkService_update_chunk chunk_id text embedding metadata ;;; ret tt
  | DeleteChunk chunk_id => ChunkService_delete_chunk chunk_id
  end.

(** The state after a sequence of calls, whatever each call returned. *)
Definition run_calls (calls : list service_call) (w : World) : World :=
  fold_left (fun w c => snd (run_call c w)) calls w.

Definition empty_world : World := mkWorld InMemoryRepository_init [] [] ∅.

(** The invariant of the Store: well-keyed tables and referential
    integrity. *)
Definition store_inv (r : InMemoryRepository) : Prop :=
  store_wf r ∧ referential_integrity r.

(** The two registry dictionaries agree: every metadata entry is the
    [(algorithm, metric)] pair of the index installed for that library,
    and every installed index has its metadata entry.  Both are written
    together by [registry_install] and removed together by
    [clear_index]. *)
Definition registry_wf (w : World) : Prop :=
  NoDup (map fst (_index_meta w))
  ∧ (∀ l m, dict_get l (_index_meta w) = Some m →
            ∃ index, dict_get l (_indices w) = Some index ∧ m = meta_of index)
  ∧ (∀ l index, dict_get l (_indices w) = Some index →
                dict_get l (_index_meta w) = Some (meta_of index)).

(** What a rebuild of the saved metadata keeps of the registry [w0]. *)
Definition keeps_registry (w0 w : World) : Prop :=
  repository w = repository w0
  ∧ ∀ l index, dict_get l (_indices w0) = Some index →
      ∃ index', dict_get l (_indices w) = Some index'
                ∧ VectorIndex_kind index' = VectorIndex_kind index
                ∧ VectorIndex_metric index' = VectorIndex_metric index
                ∧ dict_get l (_index_meta w) = Some (meta_of index').

(** Every call a client of the core can make: the service calls, the
    registry operations and the snapshot operations. *)
Inductive api_call : Type :=
| Service (c : service_call)
| BuildIndex (library_id algorithm metric : string)
| Search (library_id : string) (vector : vec) (k : Z)
    (metadata_filters : option (gmap string string))
| GetIndexInfo (library_id : string)
| ClearIndex (library_id : string)
| Save (path : option string) (now_stamp now_iso : string)
| Load (path : option string).

Definition run_api (c : api_call) : M unit :=
  match c with
  | Service c => run_call c
  | BuildIndex library_id algorithm metric =>
      IndexService_build_index library_id algorithm metric
  | Search library_id vector k metadata_filters =>
      IndexService_search library_id vector k metadata_filters ;;; ret tt
  | GetIndexInfo library_id => IndexService_get_index_info library_id ;;; ret tt
  | ClearIndex library_id => IndexService_clear_index library_id
  | Save path now_stamp now_iso => SnapshotService_save path now_stamp now_iso ;;; ret tt
  | Load path => SnapshotService_load path
  end.

Definition run_apis (calls : list api_call) (w : World) : World :=
  fold_left (fun w c => snd (run_api c w)) calls w.

(** The representation invariant of the process state. *)
Definition world_wf (w : World) : Prop :=
  store_wf (repository w) ∧ registry_wf w.

(** ** Notions used to state the properties of the index family *)

(** The score the Linear index gives a stored vector. *)
Definition score_of (metric : DistanceMetric) (q v : vec) : score :=
  match metric with
  | COSINE => cosine_similarity q v
  | EUCLIDEAN => similarity (l2_distance q v)
  end.

(** Every stored id with its score, in insertion order. *)
Definition linear_scores (metric : DistanceMetric) (q : vec) (ids : list string)
    (vectors : list vec) : list (string * score) :=
  map (fun cv => (fst cv, score_of metric q (snd cv))) (zip ids vectors).

(** Some vector's length differs from the first vector's. *)
Definition ragged (vectors : list vec) : Prop :=
  ∃ v, v ∈ vectors ∧ length v ≠ length (hd [] vectors).

(** The number of nodes on the longest path from the root. *)
Fixpoint tree_height (t : KDTree) : nat :=
  match t with
  | KDNone => 0
  | KDNode _ _ _ l r => S (Nat.max (tree_height l) (tree_height r))
  end.

(** The side of the hyperplane with normal [plane] that [v] lies on:
    the test [sum(v * p for v, p in zip(vec, plane)) >= 0]. *)
Definition on_positive_side (v plane : vec) : bool := 0 <=? dot v plane.

(** The stored pairs [(vec_id, vec)] of an LSH index built over
    [vectors] and [ids]. *)
Definition lsh_items (vectors : list vec) (ids : list string) : list (string * vec) :=
  map (fun vi => (snd vi, fst vi)) (zip vectors ids).

(** The loop of [LSHIndex.build] that files every vector in every table. *)
Definition lsh_fill (planes : list (list vec)) (pairs : list (vec * string))
    (tables : list (gmap Z (list (string * vec)))) : list (gmap Z (list (string * vec))) :=
  fold_left
    (fun tables vi =>
       fold_left
         (fun tables ip =>
            let signature := _hash (fst vi) (snd ip) in
            alter (table_append signature (snd vi, fst vi)) (fst ip) tables)
         (enumerate planes) tables)
    pairs tables.

(** The loop of [LSHIndex.query] that collects the candidates. *)
Definition lsh_candidates (self : LSHIndex) (vector : vec) : list (string * vec) :=
  fold_left
    (fun candidates ip =>
       let signature := _hash vector (snd ip) in
       let table := default ∅ (lsh_tables self !! fst ip) in
       let candidates := probe table signature candidates in
       fold_left
         (fun candidates bit_flip =>
            probe table (Z.lxor signature (Z.shiftl 1 (Z.of_nat bit_flip))) candidates)
         (seq 0 (Z.to_nat (Z.min 2 (lsh_planes_count self)))) candidates)
    (enumerate (lsh_planes self)) [].

(** Table [t] holds [item] in the bucket of [signature]. *)
Definition bucket_holds (tables : list (gmap Z (list (string * vec)))) (t : nat)
    (signature : Z) (item : string * vec) : Prop :=
  ∃ table bucket, tables !! t = Some table ∧ table !! signature = Some bucket ∧ item ∈ bucket.

(** Every bucket of every table holds stored pairs only. *)
Definition tables_sound (items : list (string * vec))
    (tables : list (gmap Z (list (string * vec)))) : Prop :=
  Forall (fun table : gmap Z (list (string * vec)) =>
            ∀ sig bucket, table !! sig = Some bucket → ∀ it, it ∈ bucket → it ∈ items)
    tables.

(** What probing keeps: candidates with distinct ids that are items of
    the tables. *)
Definition candidates_ok (items candidates : list (string * vec)) : Prop :=
  NoDup (map fst candidates) ∧ ∀ c, c ∈ candidates → c ∈ items.

(** ** Notions used to state the properties of the services *)

(** The record an update with the given optional fields leaves. *)
Definition updated_library (name description : option string)
    (metadata : option (gmap string string)) (l : Library) : Library :=
  mkLibrary (lib_id l) (default (lib_name l) name)
    (match description with Some v => Some v | None => lib_description l end)
    (default (lib_metadata l) metadata) (lib_embedding_dim l).

Definition updated_document (title description : option string)
    (metadata : option (gmap string string)) (d : Document) : Document :=
  mkDocument (doc_id d) (doc_library_id d) (default (doc_title d) title)
    (match description with Some v => Some v | None => doc_description d end)
    (default (doc_metadata d) metadata).

Definition updated_chunk (text : option string) (embedding : option vec)
    (metadata : option (gmap string string)) (c : Chunk) : Chunk :=
  mkChunk (chunk_id c) (chunk_document_id c) (default (chunk_text c) text)
    (default (chunk_embedding c) embedding) (default (chunk_metadata c) metadata).

(** The state [w] with one table of the store replaced. *)
Definition with_libraries (libs : dict Library) (w : World) : World :=
  mkWorld (mkRepository libs (_documents (repository w)) (_chunks (repository w)))
    (_indices w) (_index_meta w) (files w).
Definition with_documents (docs : dict Document) (w : World) : World :=
  mkWorld (mkRepository (_libraries (repository w)) docs (_chunks (repository w)))
    (_indices w) (_index_meta w) (files w).
Definition with_chunks (chunks : dict Chunk) (w : World) : World :=
  mkWorld (mkRepository (_libraries (repository w)) (_documents (repository w)) chunks)
    (_indices w) (_index_meta w) (files w).

(** Every chunk with a non-empty embedding has the dimension recorded
    by the library of its document. *)
Definition dims_consistent (r : InMemoryRepository) : Prop :=
  ∀ c d l,
    c ∈ dict_values (_chunks r) →
    chunk_embedding c ≠ [] →
    repo_get_document (chunk_document_id c) r = Some d →
    repo_get_library (doc_library_id d) r = Some l →
    lib_embedding_dim l = Some (len (chunk_embedding c)).

(** The ids drawn by [uuid4] for a new library or document are not in
    use. *)
Definition fresh_ids (c : service_call) (r : InMemoryRepository) : Prop :=
  match c with
  | CreateLibrary new_id _ _ _ => repo_get_library new_id r = None
  | CreateDocument new_id _ _ _ _ => repo_get_document new_id r = None
  | _ => True
  end.

(** Every call of a sequence draws unused ids. *)
Fixpoint all_fresh (calls : list service_call) (w : World) : Prop :=
  match calls with
  | [] => True
  | c :: calls' => fresh_ids c (repository w) ∧ all_fresh calls' (snd (run_call c w))
  end.

(** ** [app.api.routers.libraries]: the handlers of the CRUD routes

    A handler returns its response model, or the status code of an empty
    response, or raises [HTTPException].  [new_id] is the [uuid4] drawn
    for a created record. *)

(** [str(e)] for the exceptions of [app.core.exceptions]. *)
Definition str_int (z : Z) : string := NilZero.string_of_int (Z.to_int z).

Fixpoint join (sep : string) (l : list string) : string :=
  match l with
  | [] => ""
  | [x] => x
  | x :: l' => x ++ sep ++ join sep l'
  end.

Definition str (e : exn) : string :=
  match e with
  | ValueError message => message
  | ResourceNotFoundException resource_type resource_id =>
      resource_type ++ " not found: " ++ resource_id
  | DimensionalityMismatchException expected got =>
      "Embedding dimensionality mismatch: expected " ++ str_int expected
      ++ ", got " ++ str_int got
  | InvalidMetricException algorithm metric supported =>
      algorithm ++ " does not support metric '" ++ metric ++ "'. Supported: "
      ++ join ", " supported
  | InvalidAlgorithmException algorithm available =>
      "Unknown index algorithm '" ++ algorithm ++ "'. Available: " ++ join ", " available
  | HTTPException _ detail => detail
  | _ => ""
  end.

Definition HTTP_204_NO_CONTENT : Z := 204.
Definition HTTP_400_BAD_REQUEST : Z := 400.
Definition HTTP_404_NOT_FOUND : Z := 404.

Record LibraryDTO : Type := mkLibraryDTO {
  LibraryDTO_id : string;
  LibraryDTO_name : string;
  LibraryDTO_description : option string;
  LibraryDTO_metadata : gmap string string;
}.

Record DocumentDTO : Type := mkDocumentDTO {
  DocumentDTO_id : string;
  DocumentDTO_library_id : string;
  DocumentDTO_title : string;
  DocumentDTO_description : option string;
  DocumentDTO_metadata : gmap string string;
}.

Record ChunkDTO : Type := mkChunkDTO {
  ChunkDTO_id : string;
  ChunkDTO_document_id : string;
  ChunkDTO_text : string;
  ChunkDTO_embedding : vec;
  ChunkDTO_metadata : gmap string string;
}.

Record UpdateLibraryDTO : Type := mkUpdateLibraryDTO {
  UpdateLibraryDTO_name : option string;
  UpdateLibraryDTO_description : option string;
  UpdateLibraryDTO_metadata : option (gmap string string);
}.

Record CreateDocumentDTO : Type := mkCreateDocumentDTO {
  CreateDocumentDTO_title : string;
  CreateDocumentDTO_description : option string;
  CreateDocumentDTO_metadata : gmap string string;
}.

Record UpdateDocumentDTO : Type := mkUpdateDocumentDTO {
  UpdateDocumentDTO_title : option string;
  UpdateDocumentDTO_description : option string;
  UpdateDocumentDTO_metadata : option (gmap string string);
}.

Record CreateChunkDTO : Type := mkCreateChunkDTO {
  CreateChunkDTO_document_id : string;
  CreateChunkDTO_text : string;
  CreateChunkDTO_embedding : vec;
  CreateChunkDTO_metadata : gmap string string;
}.

Record UpdateChunkDTO : Type := mkUpdateChunkDTO {
  UpdateChunkDTO_text : option string;
  UpdateChunkDTO_embedding : option vec;
  UpdateChunkDTO_metadata : option (gmap string string);
}.

Definition LibraryDTO_of (lib : Library) : LibraryDTO :=
  mkLibraryDTO (lib_id lib) (lib_name lib) (lib_description lib) (lib_metadata lib).
Definition DocumentDTO_of (doc : Document) : DocumentDTO :=
  mkDocumentDTO (doc_id doc) (doc_library_id doc) (doc_title doc) (doc_description doc)
    (doc_metadata doc).
Definition ChunkDTO_of (chunk : Chunk) : ChunkDTO :=
  mkChunkDTO (chunk_id chunk) (chunk_document_id chunk) (chunk_text chunk)
    (chunk_embedding chunk) (chunk_metadata chunk).

(** [try: c except ResourceNotFoundException: raise HTTPException(404, detail)] *)
Definition except_not_found {A} (c : M A) (detail : string) : M A :=
  try_except c
    (fun e => match e with
              | ResourceNotFoundException _ _ =>
                  raise (HTTPException HTTP_404_NOT_FOUND detail)
              | _ => raise e
              end).

(** [try: c except DimensionalityMismatchException as e:
          raise HTTPException(400, str(e))] *)
Definition except_dimension_mismatch {A} (c : M A) : M A :=
  try_except c
    (fun e => match e with
              | DimensionalityMismatchException _ _ =>
                  raise (HTTPException HTTP_400_BAD_REQUEST (str e))
              | _ => raise e
              end).

Definition get_library (library_id : string) : M LibraryDTO :=
  lib <- except_not_found (LibraryService_get_library library_id)
           ("Library not found: " ++ library_id) ;;
  ret (LibraryDTO_of lib).

Definition update_library (library_id : string) (payload : UpdateLibraryDTO) : M LibraryDTO :=
  lib <- except_not_found
           (LibraryService_update_library library_id (UpdateLibraryDTO_name payload)
              (UpdateLibraryDTO_description payload) (UpdateLibraryDTO_metadata payload))
           ("Library not found: " ++ library_id) ;;
  ret (LibraryDTO_of lib).

Definition delete_library (library_id : string) : M Z :=
  LibraryService_delete_library_cascade library_id ;;;
  ret HTTP_204_NO_CONTENT.

Definition create_document (new_id library_id : string) (payload : CreateDocumentDTO)
  : M DocumentDTO :=
  doc <- except_not_found
           (DocumentService_create_document new_id library_id (CreateDocumentDTO_title payload)
              (CreateDocumentDTO_description payload)
              (Some (CreateDocumentDTO_metadata payload)))
           "Library not found" ;;
  ret (DocumentDTO_of doc).

Definition update_document (library_id document_id : string) (payload : UpdateDocumentDTO)
  : M DocumentDTO :=
  existing <- except_not_found (DocumentService_get_document document_id)
                ("Document not found: " ++ document_id) ;;
  if negb (String.eqb (doc_library_id existing) library_id)
  then raise (HTTPException HTTP_404_NOT_FOUND
                ("Document " ++ document_id ++ " not found in library " ++ library_id))
  else
    doc <- DocumentService_update_document document_id (UpdateDocumentDTO_title payload)
             (UpdateDocumentDTO_description payload) (UpdateDocumentDTO_metadata payload) ;;
    ret (DocumentDTO_of doc).

Definition delete_document (library_id document_id : string) : M Z :=
  existing <- except_not_found (DocumentService_get_document document_id)
                ("Document not found: " ++ document_id) ;;
  if negb (String.eqb (doc_library_id existing) library_id)
  then raise (HTTPException HTTP_404_NOT_FOUND
                ("Document " ++ document_id ++ " not found in library " ++ library_id))
  else
    DocumentService_delete_document document_id ;;;
    ret HTTP_204_NO_CONTENT.

Definition create_chunk (new_id library_id : string) (payload : CreateChunkDTO) : M ChunkDTO :=
  chunk <- try_except
             (ChunkService_create_chunk new_id library_id (CreateChunkDTO_document_id payload)
                (CreateChunkDTO_text payload) (CreateChunkDTO_embedding payload)
                (Some (CreateChunkDTO_metadata payload)))
             (fun e => match e with
                       | DimensionalityMismatchException _ _ =>
                           raise (HTTPException HTTP_400_BAD_REQUEST (str e))
                       | ResourceNotFoundException _ _ =>
                           raise (HTTPException HTTP_404_NOT_FOUND
                                    "Document not found or mismatched library")
                       | _ => raise e
                       end) ;;
  ret (ChunkDTO_of chunk).

Definition update_chunk (library_id chunk_id : string) (payload : UpdateChunkDTO) : M ChunkDTO :=
  existing <- except_not_found (ChunkService_get_chunk chunk_id)
                ("Chunk not found: " ++ chunk_id) ;;
  parent_doc <- except_not_found (DocumentService_get_document (chunk_document_id existing))
                  ("Parent document not found for chunk " ++ chunk_id) ;;
  if negb (String.eqb (doc_library_id parent_doc) library_id)
  then raise (HTTPException HTTP_404_NOT_FOUND
                ("Chunk " ++ chunk_id ++ " not found in library " ++ library_id))
  else
    chunk <- except_dimension_mismatch
               (ChunkService_update_chunk chunk_id (UpdateChunkDTO_text payload)
                  (UpdateChunkDTO_embedding payload) (UpdateChunkDTO_metadata payload)) ;;
    ret (ChunkDTO_of chunk).

Definition delete_chunk (library_id chunk_id : string) : M Z :=
  existing <- except_not_found (ChunkService_get_chunk chunk_id)
                ("Chunk not found: " ++ chunk_id) ;;
  parent_doc <- except_not_found (DocumentService_get_document (chunk_document_id existing))
                  ("Parent document not found for chunk " ++ chunk_id) ;;
  if negb (String.eqb (doc_library_id parent_doc) library_id)
  then raise (HTTPException HTTP_404_NOT_FOUND
                ("Chunk " ++ chunk_id ++ " not found in library " ++ library_id))
  else
    ChunkService_delete_chunk chunk_id ;;;
    ret HTTP_204_NO_CONTENT.

Definition delete_index (library_id : string) : M Z :=
  IndexService_clear_index library_id ;;;
  ret HTTP_204_NO_CONTENT.

(** The requests of the CRUD routes. *)
Inductive request : Type :=
| GET_library (library_id : string)
| PATCH_library (library_id : string) (payload : UpdateLibraryDTO)
| DELETE_library (library_id : string)
| POST_document (new_id library_id : string) (payload : CreateDocumentDTO)
| PATCH_document (library_id document_id : string) (payload : UpdateDocumentDTO)
| DELETE_document (library_id document_id : string)
| POST_chunk (new_id library_id : string) (payload : CreateChunkDTO)
| PATCH_chunk (library_id chunk_id : string) (payload : UpdateChunkDTO)
| DELETE_chunk (library_id chunk_id : string)
| DELETE_index (library_id : string).

Definition handle (r : request) : M unit :=
  match r with
  | GET_library library_id => get_library library_id ;;; ret tt
  | PATCH_library library_id payload => update_library library_id payload ;;; ret tt
  | DELETE_library library_id => delete_library library_id ;;; ret tt
  | POST_document new_id library_id payload =>
      create_document new_id library_id payload ;;; ret tt
  | PATCH_document library_id document_id payload =>
      update_document library_id document_id payload ;;; ret tt
  | DELETE_document library_id document_id => delete_document library_id document_id ;;; ret tt
  | POST_chunk new_id library_id payload => create_chunk new_id library_id payload ;;; ret tt
  | PATCH_chunk library_id chunk_id payload => update_chunk library_id chunk_id payload ;;; ret tt
  | DELETE_chunk library_id chunk_id => delete_chunk library_id chunk_id ;;; ret tt
  | DELETE_index library_id => delete_index library_id ;;; ret tt
  end.

(** ** [app.core.locks]: the reader-writer lock

    Every method body runs under the condition's mutex, so the bodies
    are atomic with respect to one another.  A thread that finds its
    [while] condition true waits: [wait()] gives the mutex up and the
    thread re-tests the condition when it runs again, having changed
    nothing in between.  A method with a wait loop is therefore a step
    that is enabled when the condition is false ([None] below means
    "wait").  [acquire_write] changes the state before its loop, so it is
    two steps: registering as a waiting writer, then entering. *)

Record ReaderWriterLock : Type := mkReaderWriterLock {
  _active_readers : Z;
  _writer_active : bool;
  _waiting_writers : Z;
}.

Definition ReaderWriterLock_init : ReaderWriterLock := mkReaderWriterLock 0 false 0.

Definition acquire_read (self : ReaderWriterLock) : option ReaderWriterLock :=
  if _writer_active self || (0 <? _waiting_writers self) then None
  else Some (mkReaderWriterLock (_active_readers self + 1) (_writer_active self)
               (_waiting_writers self)).

Definition release_read (self : ReaderWriterLock) : ReaderWriterLock :=
  mkReaderWriterLock (_active_readers self - 1) (_writer_active self) (_waiting_writers self).

(** [self._waiting_writers += 1], before the loop of [acquire_write]. *)
Definition acquire_write_register (self : ReaderWriterLock) : ReaderWriterLock :=
  mkReaderWriterLock (_active_readers self) (_writer_active self) (_waiting_writers self + 1).

(** The loop of [acquire_write] and what follows it. *)
Definition acquire_write_enter (self : ReaderWriterLock) : option ReaderWriterLock :=
  if _writer_active self || (0 <? _active_readers self) then None
  else Some (mkReaderWriterLock (_active_readers self) true (_waiting_writers self - 1)).

Definition release_write (self : ReaderWriterLock) : ReaderWriterLock :=
  mkReaderWriterLock (_active_readers self) false (_waiting_writers self).

(** Where a thread is in [with lock.read_lock(): ...] or
    [with lock.write_lock(): ...]. *)
Inductive thread_state : Type :=
| Outside            (* not using the lock *)
| Reading            (* in the body of [read_lock] *)
| WaitingToWrite     (* in [acquire_write], registered, not yet entered *)
| Writing.           (* in the body of [write_lock] *)

Definition thread_state_eqb (a b : thread_state) : bool :=
  match a, b with
  | Outside, Outside | Reading, Reading | WaitingToWrite, WaitingToWrite
  | Writing, Writing => true
  | _, _ => false
  end.

Record lock_system : Type := mkLockSystem {
  lock : ReaderWriterLock;
  threads : list thread_state;
}.

(** One method body run by thread [i]; the context managers pair every
    acquire with its release. *)
Inductive lock_step : lock_system → lock_system → Prop :=
| step_acquire_read (s : lock_system) (i : nat) (l' : ReaderWriterLock) :
    threads s !! i = Some Outside →
    acquire_read (lock s) = Some l' →
    lock_step s (mkLockSystem l' (<[i := Reading]> (threads s)))
| step_release_read (s : lock_system) (i : nat) :
    threads s !! i = Some Reading →
    lock_step s (mkLockSystem (release_read (lock s)) (<[i := Outside]> (threads s)))
| step_acquire_write_register (s : lock_system) (i : nat) :
    threads s !! i = Some Outside →
    lock_step s (mkLockSystem (acquire_write_register (lock s))
                   (<[i := WaitingToWrite]> (threads s)))
| step_acquire_write_enter (s : lock_system) (i : nat) (l' : ReaderWriterLock) :
    threads s !! i = Some WaitingToWrite →
    acquire_write_enter (lock s) = Some l' →
    lock_step s (mkLockSystem l' (<[i := Writing]> (threads s)))
| step_release_write (s : lock_system) (i : nat) :
    threads s !! i = Some Writing →
    lock_step s (mkLockSystem (release_write (lock s)) (<[i := Outside]> (threads s))).

(** The states [n] threads can bring a new lock to. *)
Inductive lock_reachable (n : nat) : lock_system → Prop :=
| reachable_init : lock_reachable n (mkLockSystem ReaderWriterLock_init (replicate n Outside))
| reachable_step (s s' : lock_system) :
    lock_reachable n s → lock_step s s' → lock_reachable n s'.

(** How many threads are in state [st]. *)
Definition count_in (st : thread_state) (ts : list thread_state) : Z :=
  Z.of_nat (length (List.filter (thread_state_eqb st) ts)).

(** The counters of the lock say what the threads are doing. *)
Definition lock_counts (s : lock_system) : Prop :=
  _active_readers (lock s) = count_in Reading (threads s)
  ∧ _waiting_writers (lock s) = count_in WaitingToWrite (threads s)
  ∧ count_in Writing (threads s) = (if _writer_active (lock s) then 1 else 0)
  ∧ (_writer_active (lock s) = true → count_in Reading (threads s) = 0).

(* ================================================================== *)
(** * Part II — lemmas and theorems                                    *)
(* ================================================================== *)


(** ** The overfetch size *)


Lemma calculate_query_k_overfetch (k : Z) (has_filters : bool) :
  _calculate_query_k k has_filters
  = if has_filters then overfetch k 6 100 else overfetch k 3 50.
Proof.
  unfold _calculate_query_k, overfetch, DEFAULT_SEARCH_MULTIPLIER, MAX_SEARCH_BUFFER.
  destruct has_filters; lia.
Qed.

(** C9.  For every [k > 0] the overfetch size that [search] passes to the
    index is [min(max(k, k*m), k+b)] with [m = 3], [b = 50] when the
    filters are absent or empty and [m = 6], [b = 100] when filters are
    given: the code's [max(k, min(k*multiplier, k+buffer))] is that value. *)
Theorem C9_query_k_is_overfetch (k : Z) (metadata_filters : option (gmap string string)) :
  0 < k →
  _calculate_query_k k (truthy metadata_filters)
  = if truthy metadata_filters then overfetch k 6 100 else overfetch k 3 50.
Proof. intros _. apply calculate_query_k_overfetch. Qed.

(** ** Vector math: [zip] stops at the shorter vector *)

Lemma zip_firstn_min {A B} (a : list A) (b : list B) :
  zip a b = zip (firstn (Nat.min (length a) (length b)) a)
                (firstn (Nat.min (length a) (length b)) b).
Proof.
  revert b; induction a as [|x a IH]; intros [|y b]; simpl; try reflexivity.
  unfold zip in *; simpl. f_equal. apply IH.
Qed.


Lemma l2_distance_firstn_min (a b : vec) :
  l2_distance a b
  = l2_distance (firstn (Nat.min (length a) (length b)) a)
                       (firstn (Nat.min (length a) (length b)) b).
Proof. unfold l2_distance. now rewrite <- zip_firstn_min. Qed.

Lemma fold_left_add_acc (l : list Z) (acc : Z) :
  fold_left Z.add l acc = acc + fold_left Z.add l 0.
Proof.
  revert acc. induction l as [|x l IH]; intros acc; simpl; [lia|].
  rewrite (IH (acc + x)), (IH (0 + x)). lia.
Qed.

Lemma sum_cons (x : Z) (l : list Z) : sum (x :: l) = x + sum l.
Proof. unfold sum; simpl. rewrite fold_left_add_acc. lia. Qed.

Lemma mapM_cases {A B} (f : A → result B) (g : A → B) (bad : A → bool) (e : exn)
    (l : list A) :
  (∀ x, f x = if bad x then Raise e else Ok (g x)) →
  mapM f l = if existsb bad l then Raise e else Ok (map g l).
Proof.
  intros Hf. induction l as [|x l IH]; [reflexivity|].
  cbn [mapM existsb map]. rewrite Hf. destruct (bad x); [reflexivity|].
  cbn [rbind orb]. rewrite IH. now destruct (existsb bad l).
Qed.

(** [euclidean_distance] returns the exact distance unless one of the
    squares overflows. *)
Lemma euclidean_distance_cases (a b : vec) :
  euclidean_distance a b
  = if distance_overflows a b then Raise OverflowError else Ok (l2_distance a b).
Proof.
  unfold euclidean_distance, distance_overflows, l2_distance.
  induction (zip a b) as [|xy l IH]; [reflexivity|].
  cbn [mapM existsb map]. unfold pow2 at 1.
  destruct (pow_limit <=? Z.abs (fst xy - snd xy)); [reflexivity|].
  cbn [rbind orb].
  destruct (existsb _ l).
  - destruct (mapM _ l) as [squares|e]; [discriminate|].
    cbn [rbind] in *. exact IH.
  - destruct (mapM _ l) as [squares|e]; [|discriminate].
    cbn [rbind] in *. injection IH as IH. do 2 f_equal.
    rewrite !sum_cons. now rewrite IH.
Qed.

Lemma euclidean_distance_Ok (a b : vec) :
  distance_overflows a b = false → euclidean_distance a b = Ok (l2_distance a b).
Proof. intros H. now rewrite euclidean_distance_cases, H. Qed.

Lemma euclidean_distance_inv (a b : vec) (d : root) :
  euclidean_distance a b = Ok d → d = l2_distance a b ∧ distance_overflows a b = false.
Proof.
  rewrite euclidean_distance_cases. destruct (distance_overflows a b); [discriminate|].
  intros [= <-]. now split.
Qed.



(** ** The stable sort *)

Section Sorting.
Context {A : Type} (leb : A → A → bool).

Lemma insert_by_Permutation (x : A) (l : list A) :
  Permutation (insert_by leb x l) (x :: l).
Proof.
  induction l as [|y l IH]; simpl; [reflexivity|].
  destruct (leb x y); [reflexivity|].
  rewrite IH. apply perm_swap.
Qed.

Lemma sort_by_Permutation (l : list A) : Permutation (sort_by leb l) l.
Proof.
  induction l as [|x l IH]; simpl; [reflexivity|].
  rewrite insert_by_Permutation. now constructor.
Qed.

Lemma sort_by_length (l : list A) : length (sort_by leb l) = length l.
Proof. apply Permutation_length, sort_by_Permutation. Qed.

Lemma insert_by_length (x : A) (l : list A) :
  length (insert_by leb x l) = S (length l).
Proof. apply (Permutation_length (insert_by_Permutation x l)). Qed.

Context (R : A → A → Prop).
Hypothesis R_trans : ∀ a b c, R a b → R b c → R a c.
Hypothesis leb_true_R : ∀ a b, leb a b = true → R a b.
Hypothesis leb_false_R : ∀ a b, leb a b = false → R b a.

Lemma insert_by_StronglySorted (x : A) (l : list A) :
  StronglySorted R l → StronglySorted R (insert_by leb x l).
Proof.
  induction 1 as [|y l Hl IH Hy]; simpl.
  - repeat constructor.
  - destruct (leb x y) eqn:E.
    + constructor; [now constructor|].
      constructor; [now apply leb_true_R|].
      eapply Forall_impl; [exact Hy|]. intros z Hz.
      apply R_trans with y; [now apply leb_true_R | exact Hz].
    + constructor; [exact IH|].
      rewrite (insert_by_Permutation x l).
      constructor; [now apply leb_false_R | exact Hy].
Qed.

Lemma sort_by_StronglySorted (l : list A) : StronglySorted R (sort_by leb l).
Proof.
  induction l as [|x l IH]; simpl; [constructor|].
  now apply insert_by_StronglySorted.
Qed.

End Sorting.

Lemma sort_by_ext {A} (leb1 leb2 : A → A → bool) (l : list A) :
  (∀ a b, leb1 a b = leb2 a b) → sort_by leb1 l = sort_by leb2 l.
Proof.
  intros H. induction l as [|x l IH]; simpl; [reflexivity|].
  rewrite IH. generalize (sort_by leb2 l). intros s.
  induction s as [|y s IHs]; simpl; [reflexivity|].
  now rewrite H, IHs.
Qed.

Lemma sort_by_map {A B} (f : A → B) (lebA : A → A → bool) (lebB : B → B → bool)
    (l : list A) :
  (∀ a b, lebB (f a) (f b) = lebA a b) →
  sort_by lebB (map f l) = map f (sort_by lebA l).
Proof.
  intros H. induction l as [|x l IH]; simpl; [reflexivity|].
  rewrite IH. generalize (sort_by lebA l). intros s.
  induction s as [|y s IHs]; simpl; [reflexivity|].
  rewrite H. destruct (lebA x y); simpl; [reflexivity|]. now rewrite IHs.
Qed.

Lemma StronglySorted_firstn {A} (R : A → A → Prop) (n : nat) (l : list A) :
  StronglySorted R l → StronglySorted R (firstn n l).
Proof.
  intros H. rewrite <- (firstn_skipn n l) in H.
  now apply StronglySorted_app_1_l in H.
Qed.

Lemma StronglySorted_weaken {A} (R R' : A → A → Prop) (l : list A) :
  (∀ a b, R a b → R' a b) → StronglySorted R l → StronglySorted R' l.
Proof.
  intros HR. induction 1 as [|x l Hl IH Hx]; constructor; [exact IH|].
  eapply Forall_impl; [exact Hx|]. intros y. apply HR.
Qed.

Lemma StronglySorted_map {A B} (f : A → B) (R : B → B → Prop) (l : list A) :
  StronglySorted (fun a b => R (f a) (f b)) l → StronglySorted R (map f l).
Proof.
  induction 1 as [|x l Hl IH Hx]; simpl; constructor; [exact IH|].
  rewrite Forall_map. exact Hx.
Qed.

(** ** The order on scores *)

Lemma score_leb_trans (a b c : score) :
  score_leb a b = true → score_leb b c = true → score_leb a c = true.
Proof.
  unfold score_leb. rewrite !Qle_bool_iff. apply Qle_trans.
Qed.

Lemma score_leb_total (a b : score) :
  score_leb a b = false → score_leb b a = true.
Proof.
  unfold score_leb. intros H. apply Qle_bool_iff.
  destruct (Qlt_le_dec (score_code b) (score_code a)) as [Hlt|Hle].
  - now apply Qlt_le_weak.
  - apply Qle_bool_iff in Hle. congruence.
Qed.

(** On similarities the order is the reverse order of the distances. *)
Lemma score_leb_similarity (d1 d2 : root) :
  score_leb (similarity d1) (similarity d2) = (radicand d2 <=? radicand d1).
Proof.
  unfold score_leb, similarity; simpl.
  destruct (radicand d2 <=? radicand d1) eqn:E.
  - apply Qle_bool_iff. rewrite <- Zle_Qle. apply Z.leb_le in E. lia.
  - apply not_true_is_false. intros H. apply Qle_bool_iff in H.
    rewrite <- Zle_Qle in H. apply Z.leb_gt in E. lia.
Qed.


Lemma sort_scores_sorted_desc (scores : list (string * score)) :
  sorted_desc (sort_key_reverse score_leb snd scores).
Proof.
  unfold sorted_desc, sort_key_reverse.
  apply sort_by_StronglySorted.
  - intros a b c Hab Hbc. now apply score_leb_trans with (snd b).
  - auto.
  - intros a b. apply score_leb_total.
Qed.

Lemma slice_to_at_most (k : Z) (results : list (string * score)) :
  at_most k (slice_to k results).
Proof.
  unfold at_most, slice_to. rewrite length_firstn. lia.
Qed.

Lemma slice_sorted_desc (k : Z) (results : list (string * score)) :
  sorted_desc results → sorted_desc (slice_to k results).
Proof. apply StronglySorted_firstn. Qed.

(** ** Distances *)

Lemma sum_squares_nonneg {A} (f : A → Z) (l : list A) :
  0 <= sum (map (fun x => f x ^ 2) l).
Proof.
  induction l as [|x l IH]; simpl; [unfold sum; simpl; lia|].
  rewrite sum_cons. nia.
Qed.

Lemma l2_distance_nonneg (a b : vec) : 0 <= radicand (l2_distance a b).
Proof. unfold l2_distance; simpl. apply sum_squares_nonneg. Qed.


(** ** The heap *)

Lemma entry_leb_true_dist (a b : heap_entry) :
  entry_leb a b = true → dist_of b <= dist_of a.
Proof.
  unfold entry_leb, entry_ltb, root_ltb, root_eqb, dist_of.
  intros H. apply negb_true_iff, orb_false_iff in H. destruct H as [H _].
  apply Z.ltb_ge in H. exact H.
Qed.

Lemma entry_leb_false_dist (a b : heap_entry) :
  entry_leb a b = false → dist_of a <= dist_of b.
Proof.
  unfold entry_leb, entry_ltb, root_ltb, root_eqb, dist_of.
  intros H. apply negb_false_iff, orb_true_iff in H. destruct H as [H|H].
  - apply Z.ltb_lt in H. lia.
  - apply andb_true_iff in H. destruct H as [H _]. apply Z.eqb_eq in H. lia.
Qed.


Lemma heappush_Permutation (heap : list heap_entry) (item : heap_entry) :
  Permutation (heappush heap item) (item :: heap).
Proof. apply insert_by_Permutation. Qed.



(** ** The tree search *)


Lemma nth_error_in_range {A} (l : list A) (n : nat) :
  (n < length l)%nat → ∃ x, nth_error l n = Some x.
Proof.
  intros H. destruct (nth_error l n) eqn:E; [eauto|].
  apply nth_error_None in E. lia.
Qed.

Section Search.
Variables (D : nat) (target : vec) (k : Z).
Hypothesis k_pos : 0 < k.
Hypothesis target_dim : length target = D.



End Search.

(** ** Building the tree *)

Lemma validate_inputs_Ok (vectors : list vec) (ids : list string) :
  _validate_inputs vectors ids = Ok tt →
  length vectors = length ids
  ∧ Forall (fun v => length v = length (hd [] vectors)) vectors.
Proof.
  unfold _validate_inputs.
  destruct (length vectors =? length ids)%nat eqn:E; simpl; [|discriminate].
  apply Nat.eqb_eq in E. intros H. split; [exact E|].
  destruct vectors as [|v0 vs]; [constructor|].
  destruct (existsb _ _) eqn:Ex in H; [discriminate|].
  simpl. rewrite Forall_forall. intros v Hv.
  destruct (length v =? length v0)%nat eqn:Ev; [now apply Nat.eqb_eq|].
  assert (existsb (fun v => negb (length v =? length v0)%nat) (v0 :: vs) = true).
  { apply existsb_exists. exists v. split; [now apply list_elem_of_In|]. now rewrite Ev. }
  congruence.
Qed.

Lemma zip_map_fst_snd {A B} (l : list (A * B)) : zip (map fst l) (map snd l) = l.
Proof.
  unfold zip. induction l as [|[a b] l IH]; simpl; [reflexivity|]. now rewrite IH.
Qed.

Lemma zip_length {A B} (a : list A) (b : list B) :
  length a = length b → length (zip a b) = length a.
Proof. intros H. unfold zip. rewrite length_combine. lia. Qed.

Lemma zip_fst_in {A B} (a : list A) (b : list B) (x : A * B) :
  x ∈ zip a b → fst x ∈ a.
Proof.
  unfold zip. intros H. apply list_elem_of_In in H. destruct x as [u v].
  apply in_combine_l in H. now apply list_elem_of_In.
Qed.

Lemma zip_snd_in {A B} (a : list A) (b : list B) (x : A * B) :
  x ∈ zip a b → snd x ∈ b.
Proof.
  unfold zip. revert b. induction a as [|a0 a IH]; intros [|b0 b] H; simpl in H;
    try (inversion H; fail).
  apply elem_of_cons in H. destruct H as [->|H]; [left|right; now apply IH].
Qed.

Lemma sort_axis_sorted (axis : nat) (l : list (vec * string)) :
  StronglySorted (fun a b => nth axis (fst a) 0 <= nth axis (fst b) 0)
    (sort_key Z.leb (fun x => nth axis (fst x) 0) l).
Proof.
  unfold sort_key. apply sort_by_StronglySorted.
  - intros a b c. lia.
  - intros a b H. now apply Z.leb_le.
  - intros a b H. apply Z.leb_gt in H. lia.
Qed.

Lemma build_kd_fuel_enough (D : nat) :
  (0 < D)%nat →
  ∀ (fuel : nat) (points : list vec) (ids : list string) (depth : nat),
    (length points <= fuel)%nat →
    length points = length ids →
    Forall (fun p => length p = D) points →
    ∃ t, build_kd_fuel fuel points ids depth = Ok t
         ∧ tree_dims D t ∧ kd_ordered t
         ∧ Permutation (tree_items t) (zip points ids).
Proof.
  intros HD. induction fuel as [|fuel IH]; intros points ids depth Hfuel Hlen Hdim.
  { destruct points; [|simpl in Hfuel; lia]. exists KDNone. simpl. repeat split. constructor. }
  destruct points as [|p0 ps].
  { exists KDNone. simpl. repeat split. constructor. }
  cbn [build_kd_fuel].
  assert (Hp0 : length p0 = D) by (now inversion Hdim).
  rewrite Hp0. destruct (D =? 0)%nat eqn:ED; [apply Nat.eqb_eq in ED; lia|].
  set (axis := (depth mod D)%nat).
  assert (Haxis : (axis < D)%nat) by (apply Nat.mod_upper_bound; lia).
  set (combined := zip (p0 :: ps) ids).
  assert (Hcdim : Forall (fun x => length (fst x) = D) combined).
  { rewrite Forall_forall. intros x Hx. apply zip_fst_in in Hx.
    rewrite Forall_forall in Hdim. now apply Hdim. }
  assert (Hex : existsb (fun x => (length (fst x) <=? axis)%nat) combined = false).
  { apply not_true_is_false. intros H. apply existsb_exists in H.
    destruct H as (x & Hx & Hle). apply Nat.leb_le in Hle.
    rewrite Forall_forall in Hcdim. apply list_elem_of_In in Hx.
    specialize (Hcdim x Hx). lia. }
  rewrite Hex.
  set (sorted := sort_key Z.leb (fun x => nth axis (fst x) 0) combined).
  assert (Hsp : Permutation sorted combined) by apply sort_by_Permutation.
  assert (Hsl : length sorted = S (length ps)).
  { rewrite (Permutation_length Hsp). unfold combined. now rewrite zip_length. }
  set (median := (length sorted / 2)%nat).
  assert (Hmed : (median < length sorted)%nat).
  { unfold median. apply Nat.div_lt; lia. }
  destruct (nth_error_in_range sorted median Hmed) as [[mp mi] Hnth].
  rewrite Hnth.
  pose proof (firstn_skipn_middle median sorted Hnth) as Hsplit.
  replace (median + 1)%nat with (S median) by lia.
  assert (Hsdim : Forall (fun x => length (fst x) = D) sorted) by now rewrite Hsp.
  assert (Hsorted := sort_axis_sorted axis combined). fold sorted in Hsorted.
  rewrite <- Hsplit in Hsdim, Hsorted.
  apply Forall_app in Hsdim. destruct Hsdim as [Hldim Hmr].
  apply Forall_cons in Hmr. destruct Hmr as [Hmdim Hrdim]. simpl in Hmdim.
  destruct (IH (map fst (firstn median sorted)) (map snd (firstn median sorted)) (depth + 1)%nat)
    as (tl & -> & Hdl & Hol & Hpl).
  { rewrite length_map, length_firstn. simpl in Hfuel. lia. }
  { now rewrite !length_map. }
  { rewrite Forall_map. exact Hldim. }
  destruct (IH (map fst (skipn (S median) sorted)) (map snd (skipn (S median) sorted)) (depth + 1)%nat)
    as (tr & -> & Hdr & Hor & Hpr).
  { rewrite length_map, length_skipn. simpl in Hfuel. lia. }
  { now rewrite !length_map. }
  { rewrite Forall_map. exact Hrdim. }
  rewrite zip_map_fst_snd in Hpl, Hpr.
  exists (KDNode mp mi axis tl tr). simpl. split; [reflexivity|].
  apply StronglySorted_app in Hsorted. destruct Hsorted as (Hlm & _ & Hmr).
  inversion Hmr as [|? ? _ Hmr']; subst.
  repeat split; auto.
  - rewrite Hpl. rewrite Forall_forall. intros x Hx.
    apply (Hlm x (mp, mi) Hx). apply elem_of_cons. now left.
  - now rewrite Hpr.
  - rewrite Hpl, Hpr, Permutation_middle.
    etransitivity; [|exact Hsp]. apply Permutation_refl'. exact Hsplit.
Qed.

Lemma KDTreeIndex_build_Ok (self idx : KDTreeIndex) (vectors : list vec) (ids : list string) :
  KDTreeIndex_build self vectors ids = Ok idx →
  (vectors = [] ∧ idx = mkKDTreeIndex KDNone 0)
  ∨ (vectors ≠ [] ∧ (0 < kd_dim idx)%nat
     ∧ kd_dim idx = length (hd [] vectors)
     ∧ tree_dims (kd_dim idx) (kd_root idx) ∧ kd_ordered (kd_root idx)
     ∧ Permutation (tree_items (kd_root idx)) (zip vectors ids)).
Proof.
  unfold KDTreeIndex_build.
  destruct (_validate_inputs vectors ids) as [[]|e] eqn:Ev; simpl; [|discriminate].
  apply validate_inputs_Ok in Ev. destruct Ev as [Hlen Hdim].
  destruct vectors as [|v0 vs]; [intros [= <-]; now left|].
  simpl in Hdim. intros H. right.
  destruct (Nat.eq_dec (length v0) 0%nat) as [E0|E0].
  { unfold build_kd in H. simpl in H. rewrite E0 in H. simpl in H. discriminate. }
  destruct (build_kd_fuel_enough (length v0) ltac:(lia) (length (v0 :: vs)) (v0 :: vs) ids 0%nat)
    as (t & Ht & Hd & Ho & Hp); auto.
  unfold build_kd in H. rewrite Ht in H. simpl in H. injection H as <-. simpl.
  repeat split; auto. lia.
Qed.

(** ** Selections of nearest elements are unique up to ties *)








Lemma filter_all_false {A} (f : A → bool) (l : list A) :
  (∀ x, x ∈ l → f x = false) → List.filter f l = [].
Proof.
  induction l as [|x l IH]; intros H; simpl; [reflexivity|].
  rewrite (H x) by (apply elem_of_cons; now left).
  apply IH. intros y Hy. apply H. apply elem_of_cons. now right.
Qed.

Lemma filter_all_true {A} (f : A → bool) (l : list A) :
  (∀ x, x ∈ l → f x = true) → List.filter f l = l.
Proof.
  intros H. apply forallb_filter_id. apply forallb_forall.
  intros x Hx. apply H. now apply list_elem_of_In.
Qed.


(** ** KD-tree query against brute force *)


Lemma final_sort_sorted (heap : list heap_entry) :
  StronglySorted (fun a b => dist_of a <= dist_of b)
    (sort_by (fun a b => entry_leb b a) heap).
Proof.
  apply sort_by_StronglySorted.
  - intros a b c. lia.
  - intros a b H. now apply entry_leb_true_dist in H.
  - intros a b H. now apply entry_leb_false_dist in H.
Qed.





(** ** The query contract, variant by variant *)

Lemma LinearIndex_build_Ok (self idx : LinearIndex) (vectors : list vec) (ids : list string) :
  LinearIndex_build self vectors ids = Ok idx →
  lin_vectors idx = vectors ∧ lin_ids idx = ids ∧ lin_metric idx = lin_metric self.
Proof.
  unfold LinearIndex_build.
  destruct (_validate_inputs vectors ids) as [[]|e]; simpl; [|discriminate].
  intros [= <-]. auto.
Qed.

Lemma LinearIndex_query_Ok (idx : LinearIndex) (vector : vec) (k : Z)
    (results : list (string * score)) :
  LinearIndex_query idx vector k = Ok results → at_most k results ∧ sorted_desc results.
Proof.
  unfold LinearIndex_query.
  destruct (_ || (k <=? 0)).
  { intros [= <-]. split; [unfold at_most; simpl; lia | constructor]. }
  destruct (_validate_query_dim vector (lin_vectors idx)) as [[]|e]; simpl; [|discriminate].
  match goal with |- rbind ?m _ = _ → _ => destruct m as [scores|e] end;
    simpl; [|discriminate].
  intros [= <-]. split.
  - apply slice_to_at_most.
  - apply slice_sorted_desc, sort_scores_sorted_desc.
Qed.


Lemma LSHIndex_query_Ok (idx : LSHIndex) (vector : vec) (k : Z)
    (results : list (string * score)) :
  LSHIndex_query idx vector k = Ok results → at_most k results ∧ sorted_desc results.
Proof.
  unfold LSHIndex_query.
  destruct (k <=? 0).
  { intros [= <-]. split; [unfold at_most; simpl; lia | constructor]. }
  destruct (_ && _); [discriminate|].
  intros [= <-]. split.
  - apply slice_to_at_most.
  - apply slice_sorted_desc, sort_scores_sorted_desc.
Qed.

Lemma kd_query_length (k : Z) (target : vec) :
  0 < k →
  ∀ (t : KDTree) (heap heap' : list heap_entry),
    Z.of_nat (length heap) <= k →
    kd_query t target k heap = Ok heap' → Z.of_nat (length heap') <= k.
Proof.
  intros Hk. induction t as [|point point_id axis l IHl r IHr]; intros heap heap' Hlen.
  { simpl. now intros [= <-]. }
  cbn [kd_query].
  destruct (euclidean_distance target point) as [dist|]; cbn [rbind]; [|discriminate].
  set (e := (Neg dist, point_id) : heap_entry).
  set (heap2 := if Z.of_nat (length (heappush heap e)) >? k
                then heappop (heappush heap e) else heappush heap e).
  assert (H2 : Z.of_nat (length heap2) <= k).
  { unfold heap2. destruct (_ >? k) eqn:E.
    - unfold heappush, heappop. pose proof (insert_by_length entry_leb e heap) as Hl.
      destruct (insert_by entry_leb e heap); simpl in *; lia.
    - rewrite Z.gtb_ltb in E. now apply Z.ltb_ge in E. }
  destruct (nth_error target axis); [|discriminate].
  destruct (nth_error point axis); [|discriminate].
  assert (Hstep : ∀ first second : KDTree,
            (∀ h h', Z.of_nat (length h) <= k → kd_query first target k h = Ok h' →
                     Z.of_nat (length h') <= k) →
            (∀ h h', Z.of_nat (length h) <= k → kd_query second target k h = Ok h' →
                     Z.of_nat (length h') <= k) →
            rbind (kd_query first target k heap2)
              (fun heap =>
                 if Z.of_nat (length heap) <? k then kd_query second target k heap
                 else match heap with
                      | [] => Raise IndexError
                      | top :: _ =>
                          if Z_lt_root (Z.abs (z - z0)) (negated (fst top))
                          then kd_query second target k heap
                          else Ok heap
                      end) = Ok heap' →
            Z.of_nat (length heap') <= k).
  { intros first second Hf Hsd.
    destruct (kd_query first target k heap2) as [h3|] eqn:E3; simpl; [|discriminate].
    specialize (Hf heap2 h3 H2 E3).
    destruct (_ <? k); [now apply Hsd|].
    destruct h3 as [|top h3']; [discriminate|].
    destruct (Z_lt_root _ _); [now apply Hsd|].
    now intros [= <-]. }
  destruct (z - z0 <? 0); apply Hstep; auto.
Qed.

Lemma KDTreeIndex_query_Ok (idx : KDTreeIndex) (vector : vec) (k : Z)
    (results : list (string * score)) :
  KDTreeIndex_query idx vector k = Ok results → at_most k results ∧ sorted_desc results.
Proof.
  unfold KDTreeIndex_query.
  destruct (k <=? 0) eqn:Ek.
  { intros [= <-]. split; [unfold at_most; simpl; lia | constructor]. }
  apply Z.leb_gt in Ek.
  destruct (_ && _); [discriminate|].
  destruct (kd_query (kd_root idx) vector k []) as [heap|] eqn:Eq; simpl; [|discriminate].
  intros [= <-]. split.
  - unfold at_most. rewrite length_map, sort_by_length.
    assert (H0 : Z.of_nat (length (@nil heap_entry)) <= k) by (simpl; lia).
    pose proof (kd_query_length k vector Ek (kd_root idx) [] heap H0 Eq) as H.
    apply Z.le_trans with k; [exact H | apply Z.le_max_r].
  - unfold sorted_desc. apply StronglySorted_map. simpl.
    eapply StronglySorted_weaken; [|apply final_sort_sorted].
    intros a b Hab. unfold dist_of in Hab. simpl.
    rewrite score_leb_similarity. now apply Z.leb_le.
Qed.

Lemma linear_euclidean_scores (q : vec) (ids : list string) (vectors : list vec) :
  mapM (fun cv : string * vec =>
          rbind (euclidean_distance q (snd cv)) (fun dist => Ok (fst cv, similarity dist)))
    (zip ids vectors)
  = if existsb (fun cv => distance_overflows q (snd cv)) (zip ids vectors)
    then Raise OverflowError
    else Ok (map (fun cv => (fst cv, similarity (l2_distance q (snd cv)))) (zip ids vectors)).
Proof.
  apply mapM_cases. intros cv. rewrite euclidean_distance_cases.
  now destruct (distance_overflows q (snd cv)).
Qed.

Lemma computable_zip (q : vec) (ids : list string) (vectors : list vec) :
  distances_computable q vectors →
  existsb (fun cv : string * vec => distance_overflows q (snd cv)) (zip ids vectors) = false.
Proof.
  intros Hov. apply not_true_is_false. intros H. apply existsb_exists in H.
  destruct H as (cv & Hcv & Hbad). apply list_elem_of_In, zip_snd_in in Hcv.
  unfold distances_computable in Hov. rewrite Forall_forall in Hov.
  rewrite (Hov _ Hcv) in Hbad. discriminate.
Qed.


(** ** Dictionaries *)

Lemma dict_get_set_eq {A} (k : string) (v : A) (d : dict A) :
  dict_get k (dict_set k v d) = Some v.
Proof.
  induction d as [|[k' v'] d IH]; simpl.
  - now rewrite String.eqb_refl.
  - destruct (String.eqb k k') eqn:E; simpl.
    + now rewrite String.eqb_refl.
    + now rewrite E.
Qed.

Lemma dict_get_set_ne {A} (k k' : string) (v : A) (d : dict A) :
  k ≠ k' → dict_get k' (dict_set k v d) = dict_get k' d.
Proof.
  intros Hne. induction d as [|[k0 v0] d IH]; simpl.
  - apply String.eqb_neq in Hne. rewrite String.eqb_sym in Hne. now rewrite Hne.
  - destruct (String.eqb k k0) eqn:E; simpl.
    + apply String.eqb_eq in E. subst k0.
      assert (E' : String.eqb k' k = false) by (apply String.eqb_neq; congruence).
      now rewrite E'.
    + now rewrite IH.
Qed.

Lemma dict_get_assign_eq {A} (k : string) (f : A → A) (d : dict A) :
  dict_get k (dict_assign k f d) = option_map f (dict_get k d).
Proof.
  induction d as [|[k' v'] d IH]; simpl; [reflexivity|].
  destruct (String.eqb k k') eqn:E; simpl; now rewrite E.
Qed.

Lemma dict_get_assign_ne {A} (k k' : string) (f : A → A) (d : dict A) :
  k ≠ k' → dict_get k' (dict_assign k f d) = dict_get k' d.
Proof.
  intros Hne. induction d as [|[k0 v0] d IH]; simpl; [reflexivity|].
  destruct (String.eqb k k0) eqn:E; simpl.
  - apply String.eqb_eq in E. subst k0.
    assert (E' : String.eqb k' k = false) by (apply String.eqb_neq; congruence).
    now rewrite E'.
  - now rewrite IH.
Qed.

Lemma dict_get_Some_elem {A} (k : string) (v : A) (d : dict A) :
  dict_get k d = Some v → (k, v) ∈ d.
Proof.
  induction d as [|[k' v'] d IH]; simpl; [discriminate|].
  destruct (String.eqb k k') eqn:E.
  - apply String.eqb_eq in E. subst k'. intros [= ->]. apply elem_of_cons. now left.
  - intros H. apply elem_of_cons. right. now apply IH.
Qed.

Lemma dict_elem_get {A} (k : string) (v : A) (d : dict A) :
  (k, v) ∈ d → is_Some (dict_get k d).
Proof.
  induction d as [|[k' v'] d IH]; intros H; [inversion H|]. simpl.
  destruct (String.eqb k k') eqn:E; [eauto|].
  apply elem_of_cons in H. destruct H as [H|H]; [|now apply IH].
  injection H as -> ->. rewrite String.eqb_refl in E. discriminate.
Qed.

(** ** Dimension enforcement in the chunk service *)

Lemma validate_dimensions_mismatch (w : World) (library_id : string) (L : Library)
    (embedding : vec) (dim : Z) :
  embedding ≠ [] →
  repo_get_library library_id (repository w) = Some L →
  lib_embedding_dim L = Some dim →
  dim ≠ len embedding →
  _validate_embedding_dimensions library_id embedding w
  = (Raise (DimensionalityMismatchException dim (len embedding)), w).
Proof.
  intros Hne HL Hdim Hneq. unfold _validate_embedding_dimensions.
  destruct embedding as [|x e]; [congruence|].
  unfold bind, repo_read. rewrite HL, Hdim.
  destruct (len (x :: e) =? dim) eqn:E; [apply Z.eqb_eq in E; congruence|].
  reflexivity.
Qed.

Lemma validate_dimensions_equal (w : World) (library_id : string) (L : Library)
    (embedding : vec) :
  repo_get_library library_id (repository w) = Some L →
  lib_embedding_dim L = Some (len embedding) →
  _validate_embedding_dimensions library_id embedding w = (Ok tt, w).
Proof.
  intros HL Hdim. unfold _validate_embedding_dimensions.
  destruct embedding as [|x e]; [reflexivity|].
  unfold bind, repo_read. rewrite HL, Hdim, Z.eqb_refl. reflexivity.
Qed.

Lemma validate_dimensions_unset (w : World) (library_id : string) (L : Library)
    (embedding : vec) :
  embedding ≠ [] →
  repo_get_library library_id (repository w) = Some L →
  lib_embedding_dim L = None →
  ∃ w', _validate_embedding_dimensions library_id embedding w = (Ok tt, w')
        ∧ repo_get_library library_id (repository w')
          = Some (set_lib_embedding_dim (Some (len embedding)) L)
        ∧ _documents (repository w') = _documents (repository w)
        ∧ _chunks (repository w') = _chunks (repository w).
Proof.
  intros Hne HL Hdim. unfold _validate_embedding_dimensions.
  destruct embedding as [|x e]; [congruence|].
  unfold bind, repo_read, assign_library, repo_write. rewrite HL, Hdim.
  eexists. split; [reflexivity|]. simpl. split; [|split; reflexivity].
  unfold repo_get_library in *. simpl.
  destruct (String.eqb (lib_id L) library_id) eqn:E.
  - apply String.eqb_eq in E. rewrite E. apply dict_get_set_eq.
  - apply String.eqb_neq in E. rewrite dict_get_set_ne by exact E.
    rewrite dict_get_assign_eq, HL. reflexivity.
Qed.

Lemma create_chunk_validated (w : World) (new_id library_id document_id text : string)
    (embedding : vec) (metadata : option (gmap string string)) (doc : Document) :
  repo_get_document document_id (repository w) = Some doc →
  doc_library_id doc = library_id →
  ChunkService_create_chunk new_id library_id document_id text embedding metadata w
  = match _validate_embedding_dimensions library_id embedding w with
    | (Ok _, w1) =>
        (Ok (mkChunk new_id document_id text embedding (default ∅ metadata)),
         mkWorld (repo_create_chunk
                    (mkChunk new_id document_id text embedding (default ∅ metadata))
                    (repository w1))
           (_indices w1) (_index_meta w1) (files w1))
    | (Raise e, w1) => (Raise e, w1)
    end.
Proof.
  intros Hdoc Hlib. unfold ChunkService_create_chunk, bind, repo_read, ret, raise.
  rewrite Hdoc, Hlib, String.eqb_refl. simpl.
  destruct (_validate_embedding_dimensions library_id embedding w) as [[[]|e] w1]; reflexivity.
Qed.

Lemma update_chunk_validated (w : World) (chunk_id : string) (text : option string)
    (embedding : vec) (metadata : option (gmap string string)) (chunk : Chunk)
    (doc : Document) :
  repo_get_chunk chunk_id (repository w) = Some chunk →
  repo_get_document (chunk_document_id chunk) (repository w) = Some doc →
  match _validate_embedding_dimensions (doc_library_id doc) embedding w with
  | (Ok _, w1) =>
      ∃ c w2, ChunkService_update_chunk chunk_id text (Some embedding) metadata w = (Ok c, w2)
              ∧ _libraries (repository w2) = _libraries (repository w1)
  | (Raise e, w1) =>
      ChunkService_update_chunk chunk_id text (Some embedding) metadata w = (Raise e, w1)
  end.
Proof.
  intros Hchunk Hdoc.
  unfold ChunkService_update_chunk, ChunkService_get_chunk, bind, repo_read, ret, raise.
  rewrite Hchunk, Hdoc.
  destruct (_validate_embedding_dimensions (doc_library_id doc) embedding w) as [[[]|e] w1];
    [|reflexivity].
  destruct text, metadata; simpl; eexists; eexists; split; reflexivity.
Qed.

(** C3.  A chunk create or update carrying a non-empty embedding under a
    library [L]: when [L.embedding_dim] is unset the operation succeeds
    and the dimension becomes [len(embedding)]; when it is set and
    differs, the operation fails with
    [DimensionalityMismatchException(expected, got)] and the state is
    left as it was (no chunk created or changed); when it is equal, the
    operation succeeds and the library is unchanged. *)
Theorem C3_dimension_enforcement (w : World) (library_id : string) (L : Library)
    (embedding : vec) :
  embedding ≠ [] →
  repo_get_library library_id (repository w) = Some L →
  (∀ new_id document_id text metadata doc,
      repo_get_document document_id (repository w) = Some doc →
      doc_library_id doc = library_id →
      dimension_rule L library_id embedding w
        (ChunkService_create_chunk new_id library_id document_id text embedding metadata w))
  ∧ (∀ chunk_id text metadata chunk doc,
      repo_get_chunk chunk_id (repository w) = Some chunk →
      repo_get_document (chunk_document_id chunk) (repository w) = Some doc →
      doc_library_id doc = library_id →
      dimension_rule L library_id embedding w
        (ChunkService_update_chunk chunk_id text (Some embedding) metadata w)).
Proof.
  intros Hne HL. split.
  - intros new_id document_id text metadata doc Hdoc Hlib.
    rewrite (create_chunk_validated w _ _ _ _ _ _ doc Hdoc Hlib).
    unfold dimension_rule. destruct (lib_embedding_dim L) as [dim|] eqn:Hdim.
    + split.
      * intros Hneq.
        now rewrite (validate_dimensions_mismatch w library_id L embedding dim).
      * intros ->.
        rewrite (validate_dimensions_equal w library_id L embedding HL Hdim). simpl.
        split; [eauto | exact HL].
    + destruct (validate_dimensions_unset w library_id L embedding Hne HL Hdim)
        as (w' & -> & Hget & _). simpl. split; [eauto | exact Hget].
  - intros chunk_id text metadata chunk doc Hchunk Hdoc Hlib.
    pose proof (update_chunk_validated w chunk_id text embedding metadata chunk doc
                  Hchunk Hdoc) as Hupd.
    rewrite Hlib in Hupd.
    unfold dimension_rule. destruct (lib_embedding_dim L) as [dim|] eqn:Hdim.
    + split.
      * intros Hneq.
        rewrite (validate_dimensions_mismatch w library_id L embedding dim) in Hupd by auto.
        now rewrite Hupd.
      * intros ->.
        rewrite (validate_dimensions_equal w library_id L embedding HL Hdim) in Hupd.
        destruct Hupd as (c & w2 & -> & Hlibs). simpl.
        split; [eauto|]. unfold repo_get_library in *. now rewrite Hlibs.
    + destruct (validate_dimensions_unset w library_id L embedding Hne HL Hdim)
        as (w' & Hv & Hget & _).
      rewrite Hv in Hupd. destruct Hupd as (c & w2 & -> & Hlibs). simpl.
      split; [eauto|]. unfold repo_get_library in *. now rewrite Hlibs.
Qed.

(** C10.  [update_chunk] is atomic on a dimension error: for a stored
    chunk whose document exists under a library with a frozen
    [embedding_dim], an update with a new embedding of a different
    length (together with any text or metadata arguments) raises
    [DimensionalityMismatchException] and leaves the whole state, hence
    the chunk's text, embedding and metadata and the library's
    [embedding_dim], as it was.  The new embedding is one the service
    can receive: the request model requires at least one entry. *)
Theorem C10_update_chunk_atomic (w : World) (chunk_id : string) (text : option string)
    (embedding : vec) (metadata : option (gmap string string)) (chunk : Chunk)
    (doc : Document) (L : Library) (dim : Z) :
  repo_get_chunk chunk_id (repository w) = Some chunk →
  repo_get_document (chunk_document_id chunk) (repository w) = Some doc →
  repo_get_library (doc_library_id doc) (repository w) = Some L →
  lib_embedding_dim L = Some dim →
  embedding ≠ [] →
  len embedding ≠ dim →
  ChunkService_update_chunk chunk_id text (Some embedding) metadata w
  = (Raise (DimensionalityMismatchException dim (len embedding)), w).
Proof.
  intros Hchunk Hdoc HL Hdim Hne Hneq.
  pose proof (update_chunk_validated w chunk_id text embedding metadata chunk doc
                Hchunk Hdoc) as Hupd.
  rewrite (validate_dimensions_mismatch w (doc_library_id doc) L embedding dim) in Hupd by auto.
  exact Hupd.
Qed.

(** ** Search results and deleted chunks *)

Lemma registry_install_repository (library_id : string) (index : VectorIndex) (w : World) :
  repository (snd (registry_install library_id index w)) = repository w.
Proof. reflexivity. Qed.

Lemma get_or_create_index_repository (library_id : string) (w : World) :
  repository (snd (_get_or_create_index library_id w)) = repository w.
Proof.
  unfold _get_or_create_index, bind, repo_read, ret, raise, lift.
  destruct (dict_get library_id (_indices w)); [reflexivity|].
  destruct (repo_list_chunks library_id (repository w)); [reflexivity|].
  destruct (valid_pairs_of _); [reflexivity|].
  destruct (DistanceMetric_of _); [|reflexivity].
  destruct (VectorIndex_build _ _ _); reflexivity.
Qed.

Lemma search_repository (library_id : string) (vector : vec) (k : Z)
    (metadata_filters : option (gmap string string)) (w : World) :
  repository (snd (IndexService_search library_id vector k metadata_filters w)) = repository w.
Proof.
  unfold IndexService_search. destruct (k <=? 0); [reflexivity|].
  unfold bind. pose proof (get_or_create_index_repository library_id w) as Hr.
  destruct (_get_or_create_index library_id w) as [[[index|]|e] w1]; simpl in Hr; try exact Hr.
  unfold lift. destruct (VectorIndex_query index vector _); simpl; [|exact Hr].
  destruct (truthy metadata_filters); simpl; exact Hr.
Qed.

Lemma filtered_results_present (results : list (string * score))
    (filters : gmap string string) (r : InMemoryRepository) (cs : string * score) :
  cs ∈ List.filter
         (fun cs => match repo_get_chunk (fst cs) r with
                    | None => false
                    | Some chunk => matches_filters (chunk_metadata chunk) filters
                    end) results →
  is_Some (repo_get_chunk (fst cs) r).
Proof.
  intros H. apply list_elem_of_In, filter_In in H. destruct H as [_ H].
  destruct (repo_get_chunk (fst cs) r); [eauto | discriminate].
Qed.

Lemma elem_of_slice_to {A} (k : Z) (l : list A) (x : A) : x ∈ slice_to k l → x ∈ l.
Proof.
  unfold slice_to. intros H. rewrite <- (firstn_skipn (Z.to_nat k) l).
  apply elem_of_app. now left.
Qed.

(** C4 (amended).  A registry search with non-empty metadata filters
    never returns a chunk id that is absent from the Store's chunk table
    at search time (the search does not change the Store).  A search
    without filters returns the index's results as they are; the HTTP
    search handler then looks every result up in the Store and drops the
    ones whose chunk is missing, so every item it returns is a stored
    chunk. *)
Theorem C4_filtered_search_skips_deleted (w w' : World) (library_id : string) (vector : vec)
    (k : Z) (filters : gmap string string) :
  (∀ results,
      filters ≠ ∅ →
      IndexService_search library_id vector k (Some filters) w = (Ok results, w') →
      repository w' = repository w
      ∧ ∀ cs, cs ∈ results → is_Some (repo_get_chunk (fst cs) (repository w)))
  ∧ (∀ items,
      search_chunks library_id vector k filters w = (Ok items, w') →
      repository w' = repository w
      ∧ ∀ item, item ∈ items →
          ∃ key chunk, repo_get_chunk key (repository w) = Some chunk
                       ∧ item_chunk_id item = chunk_id chunk
                       ∧ item_document_id item = chunk_document_id chunk
                       ∧ item_text item = chunk_text chunk).
Proof.
  split.
  - intros results Hne Hsearch.
    pose proof (search_repository library_id vector k (Some filters) w) as Hrepo.
    rewrite Hsearch in Hrepo. simpl in Hrepo. split; [exact Hrepo|].
    revert Hsearch. unfold IndexService_search.
    destruct (k <=? 0).
    { unfold ret. intros [= <- <-] cs H. inversion H. }
    unfold bind.
    pose proof (get_or_create_index_repository library_id w) as Hr1.
    destruct (_get_or_create_index library_id w) as [[[index|]|e] w1]; simpl in Hr1;
      [| unfold ret; intros [= <- <-] cs H; inversion H | discriminate].
    unfold lift. destruct (VectorIndex_query index vector _) as [res|e]; [|discriminate].
    assert (Ht : truthy (Some filters) = true).
    { simpl. now rewrite bool_decide_eq_false_2. }
    rewrite Ht. unfold _apply_metadata_filters, repo_read, ret. simpl.
    intros [= <- <-] cs Hcs. apply elem_of_slice_to in Hcs.
    rewrite Hr1 in Hcs. now apply filtered_results_present in Hcs.
  - intros items. unfold search_chunks, bind, try_except, repo_read.
    pose proof (search_repository library_id vector k (Some filters) w) as Hrepo.
    destruct (IndexService_search library_id vector k (Some filters) w) as [[res|e] w1];
      simpl in Hrepo.
    + intros [= <- <-]. split; [exact Hrepo|].
      intros item Hitem. apply list_elem_of_In, in_flat_map in Hitem.
      destruct Hitem as (cs & _ & Hin). rewrite Hrepo in Hin.
      destruct (repo_get_chunk (fst cs) (repository w)) as [chunk|] eqn:E; [|inversion Hin].
      destruct Hin as [<-|[]]. exists (fst cs), chunk. simpl. auto.
    + destruct e; discriminate.
Qed.

(** ** Snapshot load at its error boundary *)

(** C8 (a defect of the code).  [load] with no path and no file at the
    default path returns normally and leaves the state unchanged, and
    when [json.loads] rejects the file, or [load_snapshot] rejects an
    object of its list of libraries, the error propagates and the state
    is left as it was.  But [load] is not atomic: [load_snapshot]
    assigns the three tables one after the other, so when the libraries
    are accepted and an object of the list of documents is not, the
    error propagates with the table of libraries already replaced by the
    file's and the other two tables as they were (and likewise one
    table later for the chunks).  Nothing is staged. *)
Theorem C8_load_error_boundary (w : World) :
  (files w !! path_join (data_dir settings) "snapshot.json" = None →
   SnapshotService_load None w = (Ok tt, w))
  ∧ (∀ path text e,
       files w !! default (path_join (data_dir settings) "snapshot.json") path = Some text →
       json_loads text = Raise e →
       SnapshotService_load path w = (Raise e, w))
  ∧ (∀ path data e,
       files w !! default (path_join (data_dir settings) "snapshot.json") path
       = Some (Json data) →
       dict_of_objects lib_id (default [] (o_libraries data)) = Raise e →
       SnapshotService_load path w = (Raise e, w))
  ∧ (∀ path data libraries e,
       files w !! default (path_join (data_dir settings) "snapshot.json") path
       = Some (Json data) →
       dict_of_objects lib_id (default [] (o_libraries data)) = Ok libraries →
       dict_of_objects doc_id (default [] (o_documents data)) = Raise e →
       SnapshotService_load path w
       = (Raise e,
          mkWorld (mkRepository libraries (_documents (repository w)) (_chunks (repository w)))
            (_indices w) (_index_meta w) (files w)))
  ∧ (∀ path data libraries documents e,
       files w !! default (path_join (data_dir settings) "snapshot.json") path
       = Some (Json data) →
       dict_of_objects lib_id (default [] (o_libraries data)) = Ok libraries →
       dict_of_objects doc_id (default [] (o_documents data)) = Ok documents →
       dict_of_objects chunk_id (default [] (o_chunks data)) = Raise e →
       SnapshotService_load path w
       = (Raise e,
          mkWorld (mkRepository libraries documents (_chunks (repository w)))
            (_indices w) (_index_meta w) (files w))).
Proof.
  split; [|split; [|split; [|split]]].
  - intros Hnone. unfold SnapshotService_load, bind. simpl. rewrite Hnone. reflexivity.
  - intros path text e Hfile Hparse.
    unfold SnapshotService_load, bind. rewrite Hfile.
    unfold try_except, bind, lift. rewrite Hparse. reflexivity.
  - intros path data e Hfile Hl.
    unfold SnapshotService_load, bind. rewrite Hfile.
    unfold try_except, bind, lift, repo_try, raise, load_snapshot. cbn [json_loads].
    rewrite Hl. cbn [fst snd]. now destruct w as [[] ].
  - intros path data libraries e Hfile Hl Hd.
    unfold SnapshotService_load, bind. rewrite Hfile.
    unfold try_except, bind, lift, repo_try, raise, load_snapshot. cbn [json_loads].
    rewrite Hl. cbn zeta. rewrite Hd. reflexivity.
  - intros path data libraries documents e Hfile Hl Hd Hc.
    unfold SnapshotService_load, bind. rewrite Hfile.
    unfold try_except, bind, lift, repo_try, raise, load_snapshot. cbn [json_loads].
    rewrite Hl. cbn zeta. rewrite Hd. cbn zeta. rewrite Hc. reflexivity.
Qed.

(** ** Tables *)

Lemma elem_of_dict_set {A} (k : string) (v : A) (d : dict A) (kv : string * A) :
  kv ∈ dict_set k v d → kv = (k, v) ∨ kv ∈ d.
Proof.
  induction d as [|[k' v'] d IH]; simpl.
  - intros H. apply elem_of_cons in H. destruct H as [H|H]; [now left | inversion H].
  - destruct (String.eqb k k').
    + intros H. apply elem_of_cons in H. destruct H as [H|H]; [now left|].
      right. apply elem_of_cons. now right.
    + intros H. apply elem_of_cons in H. destruct H as [H|H].
      * right. apply elem_of_cons. now left.
      * destruct (IH H) as [?|?]; [now left|]. right. apply elem_of_cons. now right.
Qed.

Lemma elem_of_dict_pop {A} (k : string) (d : dict A) (kv : string * A) :
  kv ∈ dict_pop k d ↔ kv ∈ d ∧ fst kv ≠ k.
Proof.
  unfold dict_pop. rewrite list_elem_of_In, filter_In, <- list_elem_of_In.
  rewrite negb_true_iff, String.eqb_neq. split; intros [H1 H2]; split; auto.
Qed.

Lemma elem_of_dict_assign {A} (k : string) (f : A → A) (d : dict A) (kv : string * A) :
  kv ∈ dict_assign k f d → kv ∈ d ∨ ∃ v0, (k, v0) ∈ d ∧ kv = (k, f v0).
Proof.
  induction d as [|[k' v'] d IH]; simpl; [intros H; inversion H|].
  destruct (String.eqb k k') eqn:E.
  - apply String.eqb_eq in E. subst k'. intros H. apply elem_of_cons in H.
    destruct H as [->|H].
    + right. exists v'. split; [apply elem_of_cons; now left | reflexivity].
    + left. apply elem_of_cons. now right.
  - intros H. apply elem_of_cons in H. destruct H as [->|H].
    + left. apply elem_of_cons. now left.
    + destruct (IH H) as [?|(v0 & ? & ?)].
      * left. apply elem_of_cons. now right.
      * right. exists v0. split; [apply elem_of_cons; now right | assumption].
Qed.

Lemma elem_of_pop_all {A} (ks : list string) (d : dict A) (kv : string * A) :
  kv ∈ fold_left (fun t k => dict_pop k t) ks d ↔ kv ∈ d ∧ fst kv ∉ ks.
Proof.
  isolate.
  revert d. induction ks as [|k ks IH]; intros d; simpl.
  - split; [intros H; split; [exact H | intros H'; inversion H'] | now intros [H _]].
  - rewrite IH, elem_of_dict_pop, not_elem_of_cons. tauto.
Qed.

Lemma dict_keys_assign {A} (k : string) (f : A → A) (d : dict A) :
  map fst (dict_assign k f d) = map fst d.
Proof.
  induction d as [|[k' v'] d IH]; simpl; [reflexivity|].
  destruct (String.eqb k k'); simpl; [reflexivity|]. now rewrite IH.
Qed.

Lemma dict_set_fresh {A} (k : string) (v : A) (d : dict A) :
  k ∉ map fst d → dict_set k v d = d ++ [(k, v)].
Proof.
  induction d as [|[k' v'] d IH]; simpl; [reflexivity|].
  intros H. apply not_elem_of_cons in H. destruct H as [Hne H].
  apply String.eqb_neq in Hne. rewrite Hne. now rewrite IH.
Qed.

Lemma dict_keys_set {A} (k : string) (v : A) (d : dict A) :
  map fst (dict_set k v d) = if bool_decide (k ∈ map fst d) then map fst d
                             else map fst d ++ [k].
Proof.
  induction d as [|[k' v'] d IH]; simpl; [reflexivity|].
  destruct (String.eqb k k') eqn:E.
  - apply String.eqb_eq in E. subst k'. simpl.
    rewrite bool_decide_eq_true_2; [reflexivity | apply elem_of_cons; now left].
  - apply String.eqb_neq in E. simpl. rewrite IH.
    destruct (bool_decide (k ∈ map fst d)) eqn:B.
    + apply bool_decide_eq_true_1 in B.
      rewrite bool_decide_eq_true_2; [reflexivity | apply elem_of_cons; now right].
    + apply bool_decide_eq_false_1 in B.
      rewrite bool_decide_eq_false_2; [reflexivity|].
      intros H. apply elem_of_cons in H. destruct H; congruence.
Qed.

Lemma table_wf_set {A} (id : A → string) (k : string) (v : A) (d : dict A) :
  k = id v → table_wf id d → table_wf id (dict_set k v d).
Proof.
  intros Hk [Hkey Hnd]. split.
  - intros kv H. apply elem_of_dict_set in H. destruct H as [->|H]; [exact Hk | now apply Hkey].
  - rewrite dict_keys_set. destruct (bool_decide (k ∈ map fst d)) eqn:B; [exact Hnd|].
    apply bool_decide_eq_false_1 in B.
    apply NoDup_app. split; [exact Hnd|]. split.
    + intros x Hx Hx'. apply elem_of_cons in Hx'. destruct Hx' as [->|Hx']; [auto | inversion Hx'].
    + apply NoDup_singleton.
Qed.

Lemma table_wf_pop {A} (id : A → string) (k : string) (d : dict A) :
  table_wf id d → table_wf id (dict_pop k d).
Proof.
  intros [Hkey Hnd]. split.
  - intros kv H. apply elem_of_dict_pop in H. now apply Hkey.
  - unfold dict_pop. clear Hkey. induction d as [|[k' v'] d IH]; simpl; [constructor|].
    apply NoDup_cons in Hnd. destruct Hnd as [Hk' Hnd].
    destruct (negb (String.eqb k k')); simpl; [|now apply IH].
    apply NoDup_cons. split; [|now apply IH].
    intros H. apply Hk'. apply list_elem_of_fmap in H. destruct H as (kv & -> & H).
    apply list_elem_of_In, filter_In in H. destruct H as [H _].
    apply list_elem_of_fmap. exists kv. split; [reflexivity | now apply list_elem_of_In].
Qed.

Lemma table_wf_pop_all {A} (id : A → string) (ks : list string) (d : dict A) :
  table_wf id d → table_wf id (fold_left (fun t k => dict_pop k t) ks d).
Proof.
  revert d. induction ks as [|k ks IH]; intros d H; simpl; [exact H|].
  apply IH. now apply table_wf_pop.
Qed.

Lemma table_wf_assign {A} (id : A → string) (k : string) (f : A → A) (d : dict A) :
  (∀ v, id (f v) = id v) → table_wf id d → table_wf id (dict_assign k f d).
Proof.
  intros Hf [Hkey Hnd]. split.
  - intros kv H. apply elem_of_dict_assign in H.
    destruct H as [H|(v0 & H & ->)]; [now apply Hkey|].
    simpl. rewrite Hf. apply (Hkey (k, v0) H).
  - now rewrite dict_keys_assign.
Qed.

Lemma dict_get_pop_ne {A} (k k' : string) (d : dict A) :
  k ≠ k' → dict_get k' (dict_pop k d) = dict_get k' d.
Proof.
  intros Hne. unfold dict_pop. induction d as [|[k0 v0] d IH]; simpl; [reflexivity|].
  destruct (String.eqb k k0) eqn:E; simpl.
  - apply String.eqb_eq in E. subst k0.
    assert (E' : String.eqb k' k = false) by (apply String.eqb_neq; congruence).
    now rewrite E'.
  - now rewrite IH.
Qed.

Lemma dict_get_pop_all {A} (ks : list string) (k' : string) (d : dict A) :
  k' ∉ ks → dict_get k' (fold_left (fun t k => dict_pop k t) ks d) = dict_get k' d.
Proof.
  revert d. induction ks as [|k ks IH]; intros d H; simpl; [reflexivity|].
  apply not_elem_of_cons in H. destruct H as [Hne H].
  rewrite IH by exact H. apply dict_get_pop_ne. congruence.
Qed.

Lemma is_Some_dict_set {A} (k k' : string) (v : A) (d : dict A) :
  is_Some (dict_get k' d) → is_Some (dict_get k' (dict_set k v d)).
Proof.
  intros H. destruct (string_dec k k') as [->|Hne].
  - rewrite dict_get_set_eq. eauto.
  - now rewrite dict_get_set_ne.
Qed.

Lemma is_Some_dict_assign {A} (k k' : string) (f : A → A) (d : dict A) :
  is_Some (dict_get k' d) → is_Some (dict_get k' (dict_assign k f d)).
Proof.
  intros H. destruct (string_dec k k') as [->|Hne].
  - rewrite dict_get_assign_eq. destruct H as [v ->]. simpl. eauto.
  - now rewrite dict_get_assign_ne.
Qed.

Lemma dict_elem_get_NoDup {A} (k : string) (v : A) (d : dict A) :
  NoDup (map fst d) → (k, v) ∈ d → dict_get k d = Some v.
Proof.
  induction d as [|[k' v'] d IH]; simpl; intros Hnd H; [inversion H|].
  apply NoDup_cons in Hnd. destruct Hnd as [Hk' Hnd].
  apply elem_of_cons in H. destruct H as [[= -> ->]|H].
  - now rewrite String.eqb_refl.
  - destruct (String.eqb k k') eqn:E; [|now apply IH].
    apply String.eqb_eq in E. subst k'. exfalso. apply Hk'.
    apply list_elem_of_fmap. now exists (k, v).
Qed.

Lemma dict_get_pop_eq {A} (k : string) (d : dict A) : dict_get k (dict_pop k d) = None.
Proof.
  unfold dict_pop. induction d as [|[k' v'] d IH]; simpl; [reflexivity|].
  destruct (String.eqb k k') eqn:E; simpl; [exact IH|]. now rewrite E.
Qed.

Lemma NoDup_keys_set {A} (k : string) (v : A) (d : dict A) :
  NoDup (map fst d) → NoDup (map fst (dict_set k v d)).
Proof.
  intros Hnd. rewrite dict_keys_set. destruct (bool_decide (k ∈ map fst d)) eqn:B; [exact Hnd|].
  apply bool_decide_eq_false_1 in B.
  apply NoDup_app. split; [exact Hnd|]. split.
  - intros x Hx Hx'. apply elem_of_cons in Hx'. destruct Hx' as [->|Hx']; [auto | inversion Hx'].
  - apply NoDup_singleton.
Qed.

Lemma NoDup_keys_pop {A} (k : string) (d : dict A) :
  NoDup (map fst d) → NoDup (map fst (dict_pop k d)).
Proof.
  unfold dict_pop. induction d as [|[k' v'] d IH]; simpl; intros Hnd; [constructor|].
  apply NoDup_cons in Hnd. destruct Hnd as [Hk' Hnd].
  destruct (negb (String.eqb k k')); simpl; [|now apply IH].
  apply NoDup_cons. split; [|now apply IH].
  intros H. apply Hk'. apply list_elem_of_fmap in H. destruct H as (kv & -> & H).
  apply list_elem_of_In, filter_In in H. destruct H as [H _].
  apply list_elem_of_fmap. exists kv. split; [reflexivity | now apply list_elem_of_In].
Qed.

Lemma elem_of_dict_values {A} (v : A) (d : dict A) :
  v ∈ dict_values d ↔ ∃ k, (k, v) ∈ d.
Proof.
  unfold dict_values. rewrite list_elem_of_fmap. split.
  - intros ([k v'] & -> & H). now exists k.
  - intros (k & H). now exists (k, v).
Qed.

(** ** Referential integrity, step by step *)

Lemma existsb_eqb_elem (x : string) (l : list string) :
  existsb (String.eqb x) l = true ↔ x ∈ l.
Proof.
  rewrite existsb_exists. split.
  - intros (y & Hy & E). apply String.eqb_eq in E. subst y. now apply list_elem_of_In.
  - intros H. exists x. split; [now apply list_elem_of_In | apply String.eqb_refl].
Qed.

Section Steps.
Variables (libs : dict Library) (docs : dict Document) (chunks : dict Chunk).
Hypothesis Hinv : store_inv (mkRepository libs docs chunks).

Lemma inv_set_library (l : Library) :
  store_inv (mkRepository (dict_set (lib_id l) l libs) docs chunks).
Proof.
  destruct Hinv as [(Hl & Hd & Hc) [R1 R2]]. split; [split; [|split]; auto|split].
  - now apply table_wf_set.
  - intros d Hdoc. apply is_Some_dict_set. now apply R1.
  - exact R2.
Qed.

Lemma inv_assign_library (k : string) (f : Library → Library) :
  (∀ v, lib_id (f v) = lib_id v) →
  store_inv (mkRepository (dict_assign k f libs) docs chunks).
Proof.
  intros Hf. destruct Hinv as [(Hl & Hd & Hc) [R1 R2]]. split; [split; [|split]; auto|split].
  - now apply table_wf_assign.
  - intros d Hdoc. apply is_Some_dict_assign. now apply R1.
  - exact R2.
Qed.

Lemma inv_set_document (d : Document) :
  is_Some (dict_get (doc_library_id d) libs) →
  store_inv (mkRepository libs (dict_set (doc_id d) d docs) chunks).
Proof.
  intros Hlib. destruct Hinv as [(Hl & Hd & Hc) [R1 R2]]. split; [split; [|split]; auto|split].
  - now apply table_wf_set.
  - intros d' Hdoc. apply elem_of_dict_values in Hdoc. destruct Hdoc as (k & Hk).
    apply elem_of_dict_set in Hk. destruct Hk as [[= -> ->]|Hk]; [exact Hlib|].
    apply R1. apply elem_of_dict_values. eauto.
  - intros c Hc'. apply is_Some_dict_set. now apply R2.
Qed.

Lemma inv_assign_document (k : string) (f : Document → Document) :
  (∀ v, doc_id (f v) = doc_id v) →
  (∀ v, doc_library_id (f v) = doc_library_id v) →
  store_inv (mkRepository libs (dict_assign k f docs) chunks).
Proof.
  intros Hf1 Hf2. destruct Hinv as [(Hl & Hd & Hc) [R1 R2]].
  split; [split; [|split]; auto|split].
  - now apply table_wf_assign.
  - intros d' Hdoc. apply elem_of_dict_values in Hdoc. destruct Hdoc as (k' & Hk).
    apply elem_of_dict_assign in Hk. destruct Hk as [Hk|(v0 & Hv0 & [= -> ->])].
    + apply R1. apply elem_of_dict_values. eauto.
    + unfold repo_get_library. simpl. rewrite Hf2.
      apply (R1 v0). apply elem_of_dict_values. eauto.
  - intros c Hc'. apply is_Some_dict_assign. now apply R2.
Qed.

Lemma inv_set_chunk (c : Chunk) :
  is_Some (dict_get (chunk_document_id c) docs) →
  store_inv (mkRepository libs docs (dict_set (chunk_id c) c chunks)).
Proof.
  intros Hdoc. destruct Hinv as [(Hl & Hd & Hc) [R1 R2]]. split; [split; [|split]; auto|split].
  - now apply table_wf_set.
  - exact R1.
  - intros c' Hc'. apply elem_of_dict_values in Hc'. destruct Hc' as (k & Hk).
    apply elem_of_dict_set in Hk. destruct Hk as [[= -> ->]|Hk]; [exact Hdoc|].
    apply R2. apply elem_of_dict_values. eauto.
Qed.

Lemma inv_assign_chunk (k : string) (f : Chunk → Chunk) :
  (∀ v, chunk_id (f v) = chunk_id v) →
  (∀ v, chunk_document_id (f v) = chunk_document_id v) →
  store_inv (mkRepository libs docs (dict_assign k f chunks)).
Proof.
  intros Hf1 Hf2. destruct Hinv as [(Hl & Hd & Hc) [R1 R2]].
  split; [split; [|split]; auto|split].
  - now apply table_wf_assign.
  - exact R1.
  - intros c' Hc'. apply elem_of_dict_values in Hc'. destruct Hc' as (k' & Hk).
    apply elem_of_dict_assign in Hk. destruct Hk as [Hk|(v0 & Hv0 & [= -> ->])].
    + apply R2. apply elem_of_dict_values. eauto.
    + unfold repo_get_document. simpl. rewrite Hf2.
      apply (R2 v0). apply elem_of_dict_values. eauto.
Qed.

Lemma inv_delete_chunk (k : string) :
  store_inv (repo_delete_chunk k (mkRepository libs docs chunks)).
Proof.
  destruct Hinv as [(Hl & Hd & Hc) [R1 R2]]. split; [split; [|split]; auto|split].
  - now apply table_wf_pop.
  - exact R1.
  - intros c' Hc'. apply elem_of_dict_values in Hc'. destruct Hc' as (k' & Hk).
    simpl in Hk. apply elem_of_dict_pop in Hk. destruct Hk as [Hk _].
    apply R2. apply elem_of_dict_values. eauto.
Qed.

Lemma inv_delete_document (document_id : string) :
  store_inv (repo_delete_document document_id (mkRepository libs docs chunks)).
Proof.
  destruct Hinv as [(Hl & Hd & Hc) [R1 R2]]. unfold repo_delete_document. simpl.
  split; [split; [|split]; auto|split].
  - now apply table_wf_pop.
  - now apply table_wf_pop_all.
  - intros d Hdoc. apply elem_of_dict_values in Hdoc. destruct Hdoc as (k & Hk).
    simpl in Hk. apply elem_of_dict_pop in Hk. destruct Hk as [Hk _].
    apply R1. apply elem_of_dict_values. eauto.
  - intros c Hc'. apply elem_of_dict_values in Hc'. destruct Hc' as (k & Hk).
    simpl in Hk. apply elem_of_pop_all in Hk. destruct Hk as [Hk Hnot]. simpl in Hnot.
    assert (Hval : c ∈ dict_values chunks) by (apply elem_of_dict_values; eauto).
    unfold repo_get_document. simpl.
    assert (Hne : document_id ≠ chunk_document_id c).
    { intros ->. apply Hnot. destruct Hc as [Hkey _].
      pose proof (Hkey _ Hk) as Ek. simpl in Ek. rewrite Ek.
      apply list_elem_of_fmap. exists c. split; [reflexivity|].
      apply list_elem_of_In, filter_In. split; [now apply list_elem_of_In|].
      apply String.eqb_refl. }
    rewrite dict_get_pop_ne by exact Hne. now apply R2.
Qed.

Lemma inv_delete_library (library_id : string) :
  store_inv (repo_delete_library library_id (mkRepository libs docs chunks)).
Proof.
  destruct Hinv as [(Hl & Hd & Hc) [R1 R2]]. unfold repo_delete_library. simpl.
  set (doc_ids := map doc_id
                    (List.filter (fun d => String.eqb (doc_library_id d) library_id)
                       (dict_values docs))).
  split; [split; [|split]; auto|split].
  - now apply table_wf_pop.
  - now apply table_wf_pop_all.
  - now apply table_wf_pop_all.
  - intros d Hdoc. apply elem_of_dict_values in Hdoc. destruct Hdoc as (k & Hk).
    simpl in Hk. apply elem_of_pop_all in Hk. destruct Hk as [Hk Hnot]. simpl in Hnot.
    assert (Hval : d ∈ dict_values docs) by (apply elem_of_dict_values; eauto).
    unfold repo_get_library. simpl.
    assert (Hne : library_id ≠ doc_library_id d).
    { intros ->. apply Hnot. destruct Hd as [Hkey _].
      pose proof (Hkey _ Hk) as Ek. simpl in Ek. rewrite Ek.
      apply list_elem_of_fmap. exists d. split; [reflexivity|].
      apply list_elem_of_In, filter_In. split; [now apply list_elem_of_In|].
      apply String.eqb_refl. }
    rewrite dict_get_pop_ne by exact Hne. now apply R1.
  - intros c Hc'. apply elem_of_dict_values in Hc'. destruct Hc' as (k & Hk).
    simpl in Hk. apply elem_of_pop_all in Hk. destruct Hk as [Hk Hnot]. simpl in Hnot.
    assert (Hval : c ∈ dict_values chunks) by (apply elem_of_dict_values; eauto).
    unfold repo_get_document. simpl.
    assert (Hkeep : chunk_document_id c ∉ doc_ids).
    { intros Hin. apply Hnot. destruct Hc as [Hkey _].
      pose proof (Hkey _ Hk) as Ek. simpl in Ek. rewrite Ek.
      apply list_elem_of_fmap. exists c. split; [reflexivity|].
      apply list_elem_of_In, filter_In. split; [now apply list_elem_of_In|].
      now apply existsb_eqb_elem. }
    rewrite dict_get_pop_all by exact Hkeep. now apply R2.
Qed.

End Steps.

(** ** Referential integrity of the service calls *)

Ltac inv_steps Hinv :=
  unfold repo_update_library, repo_create_library, repo_update_document,
    repo_create_document, repo_update_chunk, repo_create_chunk;
  cbn [_libraries _documents _chunks repository];
  repeat first
    [ exact Hinv
    | apply inv_set_library
    | apply inv_assign_library; [| intros; reflexivity]
    | apply inv_assign_document; [| intros; reflexivity | intros; reflexivity]
    | apply inv_assign_chunk; [| intros; reflexivity | intros; reflexivity]
    | apply inv_delete_chunk
    | apply inv_delete_document
    | apply inv_delete_library ].

Lemma validate_dimensions_inv (library_id : string) (embedding : vec) (w : World) :
  store_inv (repository w) →
  store_inv (repository (snd (_validate_embedding_dimensions library_id embedding w)))
  ∧ _documents (repository (snd (_validate_embedding_dimensions library_id embedding w)))
    = _documents (repository w)
  ∧ _chunks (repository (snd (_validate_embedding_dimensions library_id embedding w)))
    = _chunks (repository w).
Proof.
  intros Hinv. destruct w as [[libs docs chunks] idx meta fs]. simpl in Hinv.
  unfold _validate_embedding_dimensions.
  destruct embedding as [|x e]; [simpl; auto|].
  unfold bind, repo_read, repo_write, ret, raise, assign_library, repo_get_library. simpl.
  destruct (dict_get library_id libs) as [L|]; [|simpl; auto].
  destruct (lib_embedding_dim L) as [dim|].
  - destruct (negb _); simpl; auto.
  - simpl. split; [|split; reflexivity]. inv_steps Hinv.
Qed.

Lemma run_call_inv (c : service_call) (w : World) :
  store_inv (repository w) → store_inv (repository (snd (run_call c w))).
Proof.
  intros Hinv.
  destruct c as [nid name description metadata | lid | | lid name description metadata
                | lid | lid | nid lid title description metadata | did | lid
                | did title description metadata | did
                | nid lid did text embedding metadata | cid | lid
                | cid text embedding metadata | cid]; unfold run_call.
  - destruct w as [[libs docs chunks] idx meta fs]. simpl in Hinv.
    unfold LibraryService_create_library, bind, repo_write, ret. simpl.
    apply (inv_set_library libs docs chunks Hinv
             (mkLibrary nid name description (default ∅ metadata) None)).
  - destruct w as [[libs docs chunks] idx meta fs]. simpl in Hinv.
    unfold LibraryService_get_library, bind, repo_read, ret, raise. simpl.
    unfold repo_get_library. simpl. destruct (dict_get lid libs); exact Hinv.
  - exact Hinv.
  - destruct w as [[libs docs chunks] idx meta fs]. simpl in Hinv.
    unfold LibraryService_update_library, LibraryService_get_library, bind, repo_read,
      ret, raise, assign_library, repo_write. simpl.
    unfold repo_get_library. simpl.
    destruct (dict_get lid libs) as [L|]; [|exact Hinv].
    destruct name, description, metadata; simpl; inv_steps Hinv.
  - destruct w as [[libs docs chunks] idx meta fs]. simpl in Hinv.
    unfold LibraryService_delete_library, repo_write. simpl. inv_steps Hinv.
  - destruct w as [[libs docs chunks] idx meta fs]. simpl in Hinv.
    unfold LibraryService_delete_library_cascade, LibraryService_delete_library,
      IndexService_clear_index, bind, repo_write. simpl. inv_steps Hinv.
  - destruct w as [[libs docs chunks] idx meta fs]. simpl in Hinv.
    unfold DocumentService_create_document, bind, repo_read, repo_write, ret, raise. simpl.
    unfold repo_get_library. simpl.
    destruct (dict_get lid libs) as [L|] eqn:EL; [|exact Hinv].
    simpl. unfold repo_create_document. simpl.
    apply (inv_set_document libs docs chunks Hinv
             (mkDocument nid lid title description (default ∅ metadata))).
    simpl. rewrite EL. eauto.
  - destruct w as [[libs docs chunks] idx meta fs]. simpl in Hinv.
    unfold DocumentService_get_document, bind, repo_read, ret, raise. simpl.
    unfold repo_get_document. simpl. destruct (dict_get did docs); exact Hinv.
  - exact Hinv.
  - destruct w as [[libs docs chunks] idx meta fs]. simpl in Hinv.
    unfold DocumentService_update_document, DocumentService_get_document, bind, repo_read,
      ret, raise, assign_document, repo_write. simpl.
    unfold repo_get_document. simpl.
    destruct (dict_get did docs) as [d|] eqn:Ed; [|exact Hinv].
    assert (Hlib : is_Some (dict_get (doc_library_id d) libs)).
    { destruct Hinv as [_ [R1 _]]. apply (R1 d). apply elem_of_dict_values.
      exists did. now apply dict_get_Some_elem. }
    destruct title, description, metadata; simpl; unfold repo_update_document;
      cbn [_libraries _documents _chunks];
      (apply inv_set_document; [inv_steps Hinv | exact Hlib]).
  - destruct w as [[libs docs chunks] idx meta fs]. simpl in Hinv.
    unfold DocumentService_delete_document, repo_write. simpl. inv_steps Hinv.
  - (* create_chunk *)
    unfold bind at 1. unfold ChunkService_create_chunk, bind, repo_read, ret, raise.
    destruct (repo_get_document did (repository w)) as [doc|] eqn:Edoc; [|exact Hinv].
    destruct (negb (String.eqb (doc_library_id doc) lid)); [exact Hinv|].
    destruct (validate_dimensions_inv lid embedding w Hinv) as (Hinv1 & Hdocs & _).
    destruct (_validate_embedding_dimensions lid embedding w) as [[[]|e] w1];
      [|exact Hinv1].
    simpl in *. destruct w1 as [[libs1 docs1 chunks1] idx1 meta1 fs1]. simpl in *.
    apply (inv_set_chunk libs1 docs1 chunks1 Hinv1
             (mkChunk nid did text embedding (default ∅ metadata))).
    simpl. rewrite Hdocs. unfold repo_get_document in Edoc. rewrite Edoc. eauto.
  - destruct w as [[libs docs chunks] idx meta fs]. simpl in Hinv.
    unfold ChunkService_get_chunk, bind, repo_read, ret, raise. simpl.
    unfold repo_get_chunk. simpl. destruct (dict_get cid chunks); exact Hinv.
  - exact Hinv.
  - (* update_chunk *)
    unfold bind at 1.
    unfold ChunkService_update_chunk, ChunkService_get_chunk, bind, repo_read, ret, raise.
    destruct (repo_get_chunk cid (repository w)) as [c|] eqn:Ec; [|exact Hinv].
    assert (Hdoc : is_Some (dict_get (chunk_document_id c) (_documents (repository w)))).
    { destruct Hinv as [_ [_ R2]]. apply (R2 c). apply elem_of_dict_values.
      exists cid. now apply dict_get_Some_elem. }
    destruct embedding as [v|].
    + destruct (repo_get_document (chunk_document_id c) (repository w)) as [doc|].
      * destruct (validate_dimensions_inv (doc_library_id doc) v w Hinv) as (Hinv1 & Hdocs & _).
        destruct (_validate_embedding_dimensions (doc_library_id doc) v w) as [[[]|e] w1];
          [|exact Hinv1].
        simpl in Hinv1, Hdocs. rewrite <- Hdocs in Hdoc.
        destruct w1 as [[libs1 docs1 chunks1] idx1 meta1 fs1]. simpl in Hinv1, Hdoc.
        destruct text, metadata; unfold assign_chunk, repo_write; simpl;
          unfold repo_update_chunk; cbn [_libraries _documents _chunks];
          (apply inv_set_chunk; [inv_steps Hinv1 | exact Hdoc]).
      * destruct w as [[libs1 docs1 chunks1] idx1 meta1 fs1]. simpl in Hinv, Hdoc.
        destruct text, metadata; unfold assign_chunk, repo_write; simpl;
          unfold repo_update_chunk; cbn [_libraries _documents _chunks];
          (apply inv_set_chunk; [inv_steps Hinv | exact Hdoc]).
    + destruct w as [[libs1 docs1 chunks1] idx1 meta1 fs1]. simpl in Hinv, Hdoc.
      destruct text, metadata; unfold assign_chunk, repo_write; simpl;
        unfold repo_update_chunk; cbn [_libraries _documents _chunks];
        (apply inv_set_chunk; [inv_steps Hinv | exact Hdoc]).
  - destruct w as [[libs docs chunks] idx meta fs]. simpl in Hinv.
    unfold ChunkService_delete_chunk, repo_write. simpl. inv_steps Hinv.
Qed.

Lemma empty_world_inv : store_inv (repository empty_world).
Proof.
  repeat split; simpl; try constructor; intros x H; inversion H.
Qed.

Lemma run_calls_inv (calls : list service_call) (w : World) :
  store_inv (repository w) → store_inv (repository (run_calls calls w)).
Proof.
  revert w. induction calls as [|c calls IH]; intros w H; simpl; [exact H|].
  apply IH. now apply run_call_inv.
Qed.

(** C6 (amended).  Referential integrity is an invariant of the
    service-level operations executed one after another (create, get,
    list, update and delete of libraries, documents and chunks, and the
    cascade deletes): from a well-keyed Store in which every Document's
    [library_id] names an existing Library and every Chunk's
    [document_id] names an existing Document, each call, returning or
    raising, leads to such a Store again; so it holds in every state
    reached from the empty Store.  The store-level create and update of
    documents and chunks are not covered: they write the record they are
    given, the existence check is the facade's. *)
Theorem C6_service_calls_keep_integrity :
  (∀ (c : service_call) (w : World),
      store_wf (repository w) → referential_integrity (repository w) →
      store_wf (repository (snd (run_call c w)))
      ∧ referential_integrity (repository (snd (run_call c w))))
  ∧ (∀ calls : list service_call,
        referential_integrity (repository (run_calls calls empty_world))).
Proof.
  split.
  - intros c w Hwf Hri. apply (run_call_inv c w). now split.
  - intros calls. apply (run_calls_inv calls empty_world empty_world_inv).
Qed.

(** ** Snapshot round trip *)

Lemma dict_of_values_app {A} (id : A → string) (d1 d2 : dict A) :
  table_wf id (d1 ++ d2) →
  fold_left (fun d v => dict_set (id v) v d) (dict_values d2) d1 = d1 ++ d2.
Proof.
  revert d1. induction d2 as [|[k v] d2 IH]; intros d1 Hwf; simpl.
  - now rewrite app_nil_r.
  - destruct Hwf as [Hkey Hnd].
    assert (Hk : k = id v).
    { apply (Hkey (k, v)). apply elem_of_app. right. apply elem_of_cons. now left. }
    rewrite <- Hk. rewrite dict_set_fresh.
    + rewrite IH; [now rewrite <- app_assoc|]. rewrite <- app_assoc. now split.
    + rewrite map_app in Hnd. apply NoDup_app in Hnd. destruct Hnd as (_ & Hdisj & _).
      intros Hin. apply (Hdisj k Hin). simpl. apply elem_of_cons. now left.
Qed.

Lemma dict_of_values_values {A} (id : A → string) (d : dict A) :
  table_wf id d → dict_of_values id (dict_values d) = d.
Proof. intros H. unfold dict_of_values. now rewrite (dict_of_values_app id [] d). Qed.

(** ** [load_snapshot] on objects that are all accepted *)

Lemma mapM_model_of_accepted {A} (l : list A) : mapM model_of (map Accepted l) = Ok l.
Proof. induction l as [|x l IH]; [reflexivity|]. cbn. now rewrite IH. Qed.

Lemma dict_of_objects_accepted {A} (id : A → string) (l : option (list A)) :
  dict_of_objects id (default [] (option_map (map Accepted) l))
  = Ok (dict_of_values id (default [] l)).
Proof.
  unfold dict_of_objects. destruct l as [l|]; simpl.
  - now rewrite mapM_model_of_accepted.
  - reflexivity.
Qed.

Lemma load_snapshot_accepted (data : snapshot_data) (r : InMemoryRepository) :
  load_snapshot (json_of data) r = (Ok tt, repo_load_snapshot data r).
Proof.
  unfold load_snapshot, json_of. cbn [o_libraries o_documents o_chunks].
  now rewrite !dict_of_objects_accepted.
Qed.

Lemma repo_try_load_accepted (data : snapshot_data) (w : World) :
  repo_try (load_snapshot (json_of data)) w = repo_write (repo_load_snapshot data) w.
Proof. unfold repo_try, repo_write. now rewrite load_snapshot_accepted. Qed.

Lemma load_snapshot_snapshot (r r0 : InMemoryRepository) (indices : option (dict (gmap string string)))
    (timestamp : option string) :
  store_wf r →
  repo_load_snapshot
    (mkSnapshotData (j_libraries (repo_snapshot r)) (j_documents (repo_snapshot r))
       (j_chunks (repo_snapshot r)) indices timestamp) r0 = r.
Proof.
  intros (Hl & Hd & Hc). unfold repo_load_snapshot, repo_snapshot. simpl.
  rewrite !dict_of_values_values by assumption. now destruct r.
Qed.

Lemma lower_kind (index : VectorIndex) :
  lower (VectorIndex_kind index) = VectorIndex_kind index.
Proof. now destruct index. Qed.

Lemma lower_metric (index : VectorIndex) :
  lower (VectorIndex_metric index) = VectorIndex_metric index.
Proof. destruct index as [[[] ? ?]| |]; reflexivity. Qed.

Lemma create_index_of_pair (index fresh : VectorIndex) :
  _create_index (VectorIndex_kind index) (VectorIndex_metric index) = Ok fresh →
  VectorIndex_kind fresh = VectorIndex_kind index
  ∧ VectorIndex_metric fresh = VectorIndex_metric index.
Proof.
  destruct index as [[[] ? ?]| |]; simpl; intros [= <-]; auto.
Qed.

Lemma VectorIndex_build_pair (self built : VectorIndex) (vectors : list vec)
    (ids : list string) :
  VectorIndex_build self vectors ids = Ok built →
  VectorIndex_kind built = VectorIndex_kind self
  ∧ VectorIndex_metric built = VectorIndex_metric self.
Proof.
  destruct self as [i|i|i]; simpl.
  - destruct (LinearIndex_build i vectors ids) as [i'|] eqn:E; simpl; [|discriminate].
    intros [= <-]. apply LinearIndex_build_Ok in E. destruct E as (_ & _ & E).
    simpl. now rewrite E.
  - destruct (KDTreeIndex_build i vectors ids); simpl; [|discriminate]. intros [= <-]. auto.
  - destruct (LSHIndex_build i vectors ids); simpl; [|discriminate]. intros [= <-]. auto.
Qed.

Lemma meta_of_algorithm (index : VectorIndex) :
  meta_of index !! "algorithm" = Some (VectorIndex_kind index).
Proof. unfold meta_of. apply lookup_insert_eq. Qed.

Lemma meta_of_metric (index : VectorIndex) :
  meta_of index !! "metric" = Some (VectorIndex_metric index).
Proof.
  unfold meta_of. rewrite lookup_insert_ne by discriminate. apply lookup_insert_eq.
Qed.

(** A rebuild either fails and changes nothing, or installs an index of
    the pair it was asked for. *)
Lemma build_index_of_pair (library_id : string) (index : VectorIndex) (w : World) :
  (∃ e, IndexService_build_index library_id (VectorIndex_kind index)
          (VectorIndex_metric index) w = (Raise e, w))
  ∨ (∃ built,
        IndexService_build_index library_id (VectorIndex_kind index)
          (VectorIndex_metric index) w
        = (Ok tt, mkWorld (repository w) (dict_set library_id built (_indices w))
                    (dict_set library_id (meta_of built) (_index_meta w)) (files w))
        ∧ VectorIndex_kind built = VectorIndex_kind index
        ∧ VectorIndex_metric built = VectorIndex_metric index).
Proof.
  unfold IndexService_build_index. rewrite lower_kind, lower_metric.
  unfold bind, lift, repo_read, ret.
  destruct (_create_index (VectorIndex_kind index) (VectorIndex_metric index))
    as [fresh|e] eqn:Ec; [|left; eauto].
  apply create_index_of_pair in Ec. destruct Ec as [Hk Hm].
  destruct (repo_list_chunks library_id (repository w)) as [|c cs].
  { right. exists fresh. unfold registry_install. auto. }
  destruct (valid_pairs_of (c :: cs)) as [|vp vps].
  - destruct (VectorIndex_build fresh [] []) as [built|e] eqn:Eb; [|left; eauto].
    apply VectorIndex_build_pair in Eb. destruct Eb as [Hk' Hm'].
    right. exists built. unfold registry_install. split; [reflexivity|]. split; congruence.
  - destruct (VectorIndex_build fresh _ _) as [built|e] eqn:Eb; [|left; eauto].
    apply VectorIndex_build_pair in Eb. destruct Eb as [Hk' Hm'].
    right. exists built. unfold registry_install. split; [reflexivity|]. split; congruence.
Qed.

Lemma for_each_invariant {A} (I : World → Prop) (l : list A) (body : A → M unit) :
  (∀ x w, x ∈ l → I w → fst (body x w) = Ok tt ∧ I (snd (body x w))) →
  ∀ w, I w → fst (for_each l body w) = Ok tt ∧ I (snd (for_each l body w)).
Proof.
  induction l as [|x l IH]; intros Hbody w Hw; simpl; [auto|].
  unfold bind. destruct (Hbody x w) as [Hok Hi]; [apply elem_of_cons; now left | exact Hw|].
  destruct (body x w) as [[[]|e] w1]; simpl in Hok, Hi; [|discriminate].
  apply IH; [|exact Hi]. intros y w' Hy. apply Hbody. apply elem_of_cons. now right.
Qed.

Lemma rebuild_indices_keeps (w0 : World) (metadata : dict (gmap string string)) (w : World) :
  registry_wf w0 →
  (∀ item, item ∈ metadata → item ∈ _index_meta w0) →
  keeps_registry w0 w →
  fst (IndexService_rebuild_indices metadata w) = Ok tt
  ∧ keeps_registry w0 (snd (IndexService_rebuild_indices metadata w)).
Proof.
  intros (Hnd & Hwf1 & Hwf2) Hsub Hw. unfold IndexService_rebuild_indices, dict_items.
  apply for_each_invariant; [|exact Hw].
  intros [l m] wc Hitem [Hrepo Hkeep]. simpl.
  destruct (Hwf1 l m (dict_elem_get_NoDup l m _ Hnd (Hsub _ Hitem)))
    as (index & Hindex & ->).
  rewrite meta_of_algorithm, meta_of_metric. simpl.
  unfold try_except.
  destruct (build_index_of_pair l index wc) as [(e & ->) | (built & -> & Hk & Hm)]; simpl.
  - split; [reflexivity|]. now split.
  - split; [reflexivity|]. split; [exact Hrepo|].
    intros l' index' Hl'. destruct (string_dec l l') as [<-|Hne].
    + exists built. cbn [_indices _index_meta]. rewrite !dict_get_set_eq.
      assert (index' = index) by congruence. subst index'. auto.
    + cbn [_indices _index_meta]. rewrite !dict_get_set_ne by exact Hne.
      now apply Hkeep.
Qed.

(** C7.  Snapshot round trip: in a state whose tables are keyed by the
    records' ids and whose registry dictionaries agree (as they do in
    every reachable state, [reachable_world_wf]), [save] returns a path and [load]
    of that path succeeds; afterwards the listings of libraries, of the
    documents of every library and of the chunks of every library equal
    their pre-save values, and every library that had an index before
    has an index with the same [(algorithm, metric)] pair, recorded in
    the metadata. *)
Theorem C7_snapshot_round_trip (w : World) (path : option string)
    (now_stamp now_iso : string) :
  store_wf (repository w) →
  registry_wf w →
  ∃ p w1 w2,
    SnapshotService_save path now_stamp now_iso w = (Ok p, w1)
    ∧ SnapshotService_load (Some p) w1 = (Ok tt, w2)
    ∧ repo_list_libraries (repository w2) = repo_list_libraries (repository w)
    ∧ (∀ library_id, repo_list_documents library_id (repository w2)
                     = repo_list_documents library_id (repository w))
    ∧ (∀ library_id, repo_list_chunks library_id (repository w2)
                     = repo_list_chunks library_id (repository w))
    ∧ (∀ library_id index,
         dict_get library_id (_indices w) = Some index →
         ∃ index', dict_get library_id (_indices w2) = Some index'
                   ∧ VectorIndex_kind index' = VectorIndex_kind index
                   ∧ VectorIndex_metric index' = VectorIndex_metric index
                   ∧ dict_get library_id (_index_meta w2) = Some (meta_of index')).
Proof.
  intros Hstore Hreg.
  set (p := match path with
            | None => path_join (data_dir settings) ("snapshot_" ++ now_stamp ++ ".json")%string
            | Some path => path
            end).
  set (data := mkSnapshotData (j_libraries (repo_snapshot (repository w)))
                 (j_documents (repo_snapshot (repository w)))
                 (j_chunks (repo_snapshot (repository w)))
                 (Some (_index_meta w)) (Some now_iso)).
  set (w1 := mkWorld (repository w) (_indices w) (_index_meta w)
               (<[p := json_dumps data]> (files w))).
  set (sorted := sort_key String.leb fst (_index_meta w)).
  set (w1' := mkWorld (repository w) (_indices w) (_index_meta w) (files w1)).
  destruct (rebuild_indices_keeps w sorted w1' Hreg) as [Hok Hkeep].
  { intros item Hitem. unfold sorted, sort_key in Hitem.
    now rewrite sort_by_Permutation in Hitem. }
  { split; [reflexivity|]. intros l index Hl. exists index.
    destruct Hreg as (_ & _ & Hwf2). simpl. auto. }
  exists p, w1, (snd (IndexService_rebuild_indices sorted w1')).
  split; [reflexivity|]. split.
  - unfold SnapshotService_load, bind. simpl.
    unfold w1 at 1. simpl. rewrite lookup_insert_eq.
    unfold try_except, bind, lift, repo_try, json_dumps, JsonText. cbn [json_loads].
    rewrite load_snapshot_accepted. simpl.
    rewrite (load_snapshot_snapshot (repository w) (repository w) _ _ Hstore).
    change (IndexService_rebuild_indices _ _)
      with (IndexService_rebuild_indices sorted w1').
    destruct (IndexService_rebuild_indices sorted w1') as [[[]|e] w2]; simpl in *;
      [reflexivity | discriminate].
  - destruct Hkeep as [Hrepo Hidx]. rewrite Hrepo. repeat split; auto.
Qed.

(** ** The registry dictionaries stay in step *)

Lemma registry_install_wf (library_id : string) (index : VectorIndex) (w : World) :
  registry_wf w → registry_wf (snd (registry_install library_id index w)).
Proof.
  intros (Hnd & H1 & H2). unfold registry_install. simpl. split; [|split]; simpl.
  - now apply NoDup_keys_set.
  - intros l m. destruct (string_dec library_id l) as [<-|Hne].
    + rewrite !dict_get_set_eq. intros [= <-]. eauto.
    + rewrite !dict_get_set_ne by exact Hne. apply H1.
  - intros l i. destruct (string_dec library_id l) as [<-|Hne].
    + rewrite !dict_get_set_eq. now intros [= <-].
    + rewrite !dict_get_set_ne by exact Hne. apply H2.
Qed.

Lemma clear_index_wf (library_id : string) (w : World) :
  registry_wf w → registry_wf (snd (IndexService_clear_index library_id w)).
Proof.
  intros (Hnd & H1 & H2). unfold IndexService_clear_index. split; [|split]; simpl.
  - now apply NoDup_keys_pop.
  - intros l m. destruct (string_dec library_id l) as [<-|Hne].
    + now rewrite dict_get_pop_eq.
    + rewrite !dict_get_pop_ne by exact Hne. apply H1.
  - intros l i. destruct (string_dec library_id l) as [<-|Hne].
    + now rewrite dict_get_pop_eq.
    + rewrite !dict_get_pop_ne by exact Hne. apply H2.
Qed.

Lemma build_index_wf (library_id algorithm metric : string) (w : World) :
  registry_wf w →
  registry_wf (snd (IndexService_build_index library_id algorithm metric w)).
Proof.
  intros Hwf. unfold IndexService_build_index, bind, lift, repo_read, ret.
  destruct (_create_index (lower algorithm) (lower metric)) as [fresh|e]; [|exact Hwf].
  destruct (repo_list_chunks library_id (repository w)) as [|c cs].
  { now apply registry_install_wf. }
  destruct (valid_pairs_of (c :: cs)) as [|vp vps].
  - destruct (VectorIndex_build fresh [] []); [|exact Hwf]. now apply registry_install_wf.
  - destruct (VectorIndex_build fresh _ _); [|exact Hwf]. now apply registry_install_wf.
Qed.

Lemma search_wf (library_id : string) (vector : vec) (k : Z)
    (metadata_filters : option (gmap string string)) (w : World) :
  registry_wf w →
  registry_wf (snd (IndexService_search library_id vector k metadata_filters w)).
Proof.
  intros Hwf. unfold IndexService_search. destruct (k <=? 0); [exact Hwf|].
  unfold bind.
  assert (H1 : registry_wf (snd (_get_or_create_index library_id w))).
  { unfold _get_or_create_index, bind, repo_read, ret, raise, lift.
    destruct (dict_get library_id (_indices w)); [exact Hwf|].
    destruct (repo_list_chunks library_id (repository w)); [exact Hwf|].
    destruct (valid_pairs_of _); [exact Hwf|].
    destruct (DistanceMetric_of _); [|exact Hwf].
    destruct (VectorIndex_build _ _ _); [|exact Hwf]. now apply registry_install_wf. }
  destruct (_get_or_create_index library_id w) as [[[index|]|e] w1]; simpl in H1; try exact H1.
  unfold lift. destruct (VectorIndex_query index vector _); simpl; [|exact H1].
  destruct (truthy metadata_filters); simpl; exact H1.
Qed.

Lemma run_call_registry_wf (c : service_call) (w : World) :
  registry_wf w → registry_wf (snd (run_call c w)).
Proof.
  intros Hwf.
  assert (Hsame : ∀ w', _indices w' = _indices w → _index_meta w' = _index_meta w →
                        registry_wf w').
  { intros w' E1 E2. unfold registry_wf. now rewrite E1, E2. }
  destruct c as [nid name description metadata | lid | | lid name description metadata
                | lid | lid | nid lid title description metadata | did | lid
                | did title description metadata | did
                | nid lid did text embedding metadata | cid | lid
                | cid text embedding metadata | cid]; unfold run_call.
  - apply Hsame; reflexivity.
  - unfold LibraryService_get_library, bind, repo_read, ret, raise.
    destruct (repo_get_library lid (repository w)); exact Hwf.
  - exact Hwf.
  - unfold LibraryService_update_library, LibraryService_get_library, bind, repo_read,
      ret, raise, assign_library, repo_write.
    destruct (repo_get_library lid (repository w)); [|exact Hwf].
    destruct name, description, metadata; apply Hsame; reflexivity.
  - apply Hsame; reflexivity.
  - unfold LibraryService_delete_library_cascade, LibraryService_delete_library,
      bind, repo_write.
    apply (clear_index_wf lid
             (mkWorld (repo_delete_library lid (repository w)) (_indices w)
                (_index_meta w) (files w))).
    apply Hsame; reflexivity.
  - unfold DocumentService_create_document, bind, repo_read, repo_write, ret, raise.
    destruct (repo_get_library lid (repository w)); [apply Hsame; reflexivity | exact Hwf].
  - unfold DocumentService_get_document, bind, repo_read, ret, raise.
    destruct (repo_get_document did (repository w)); exact Hwf.
  - exact Hwf.
  - unfold DocumentService_update_document, DocumentService_get_document, bind, repo_read,
      ret, raise, assign_document, repo_write.
    destruct (repo_get_document did (repository w)); [|exact Hwf].
    destruct title, description, metadata; apply Hsame; reflexivity.
  - apply Hsame; reflexivity.
  - unfold bind at 1. unfold ChunkService_create_chunk, bind, repo_read, ret, raise.
    destruct (repo_get_document did (repository w)) as [doc|]; [|exact Hwf].
    destruct (negb _); [exact Hwf|].
    assert (Hv : _indices (snd (_validate_embedding_dimensions lid embedding w)) = _indices w
                 ∧ _index_meta (snd (_validate_embedding_dimensions lid embedding w))
                   = _index_meta w).
    { unfold _validate_embedding_dimensions, bind, repo_read, repo_write, ret, raise,
        assign_library.
      destruct embedding; [auto|]. destruct (repo_get_library lid (repository w)); [|auto].
      destruct (lib_embedding_dim _); [destruct (negb _); auto | auto]. }
    destruct (_validate_embedding_dimensions lid embedding w) as [[[]|e] w1];
      simpl in Hv; destruct Hv as [E1 E2]; apply Hsame; simpl; assumption.
  - unfold ChunkService_get_chunk, bind, repo_read, ret, raise.
    destruct (repo_get_chunk cid (repository w)); exact Hwf.
  - exact Hwf.
  - unfold bind at 1.
    unfold ChunkService_update_chunk, ChunkService_get_chunk, bind, repo_read, ret, raise.
    destruct (repo_get_chunk cid (repository w)) as [c|]; [|exact Hwf].
    assert (Hv : ∀ l v, _indices (snd (_validate_embedding_dimensions l v w)) = _indices w
                        ∧ _index_meta (snd (_validate_embedding_dimensions l v w))
                          = _index_meta w).
    { intros l v. unfold _validate_embedding_dimensions, bind, repo_read, repo_write, ret,
        raise, assign_library.
      destruct v; [auto|]. destruct (repo_get_library l (repository w)); [|auto].
      destruct (lib_embedding_dim _); [destruct (negb _); auto | auto]. }
    destruct embedding as [v|].
    + destruct (repo_get_document (chunk_document_id c) (repository w)) as [doc|].
      * specialize (Hv (doc_library_id doc) v).
        destruct (_validate_embedding_dimensions (doc_library_id doc) v w) as [[[]|e] w1];
          simpl in Hv; destruct Hv as [E1 E2];
          [|apply Hsame; simpl; assumption].
        destruct text, metadata; unfold assign_chunk, repo_write; apply Hsame; simpl; assumption.
      * destruct text, metadata; unfold assign_chunk, repo_write; apply Hsame; reflexivity.
    + destruct text, metadata; unfold assign_chunk, repo_write; apply Hsame; reflexivity.
  - apply Hsame; reflexivity.
Qed.

Lemma run_calls_registry_wf (calls : list service_call) (w : World) :
  registry_wf w → registry_wf (run_calls calls w).
Proof.
  revert w. induction calls as [|c calls IH]; intros w H; simpl; [exact H|].
  apply IH. now apply run_call_registry_wf.
Qed.

Lemma empty_world_registry_wf : registry_wf empty_world.
Proof.
  split; [constructor|]. split; simpl; intros; discriminate.
Qed.

(** ** The representation invariant holds in every reachable state *)

Ltac table_steps :=
  repeat first
    [ assumption
    | apply table_wf_set; [reflexivity|]
    | apply table_wf_assign; [intros; reflexivity|]
    | apply table_wf_pop
    | apply table_wf_pop_all ].

Ltac store_steps :=
  unfold repo_update_library, repo_create_library, repo_update_document,
    repo_create_document, repo_update_chunk, repo_create_chunk, repo_delete_library,
    repo_delete_document, repo_delete_chunk;
  split; [|split]; cbn [_libraries _documents _chunks repository]; table_steps.

Lemma validate_dimensions_store_wf (library_id : string) (embedding : vec) (w : World) :
  store_wf (repository w) →
  store_wf (repository (snd (_validate_embedding_dimensions library_id embedding w))).
Proof.
  intros Hwf. destruct w as [[libs docs chunks] idx meta fs].
  destruct Hwf as (Hl & Hd & Hc). simpl in Hl, Hd, Hc.
  unfold _validate_embedding_dimensions.
  destruct embedding as [|x e]; [simpl; now split|].
  unfold bind, repo_read, repo_write, ret, raise, assign_library, repo_get_library. simpl.
  destruct (dict_get library_id libs) as [L|]; [|simpl; now split].
  destruct (lib_embedding_dim L) as [dim|].
  - destruct (negb _); simpl; now split.
  - simpl. store_steps.
Qed.

Lemma run_call_store_wf (c : service_call) (w : World) :
  store_wf (repository w) → store_wf (repository (snd (run_call c w))).
Proof.
  intros Hwf.
  destruct c as [nid name description metadata | lid | | lid name description metadata
                | lid | lid | nid lid title description metadata | did | lid
                | did title description metadata | did
                | nid lid did text embedding metadata | cid | lid
                | cid text embedding metadata | cid]; unfold run_call.
  - destruct Hwf as (Hl & Hd & Hc).
    unfold LibraryService_create_library, bind, repo_write, ret. simpl. store_steps.
  - unfold LibraryService_get_library, bind, repo_read, ret, raise.
    destruct (repo_get_library lid (repository w)); exact Hwf.
  - exact Hwf.
  - unfold LibraryService_update_library, LibraryService_get_library, bind, repo_read,
      ret, raise, assign_library, repo_write.
    destruct (repo_get_library lid (repository w)); [|exact Hwf].
    destruct Hwf as (Hl & Hd & Hc).
    destruct name, description, metadata; simpl; store_steps.
  - destruct Hwf as (Hl & Hd & Hc).
    unfold LibraryService_delete_library, repo_write. simpl. store_steps.
  - destruct Hwf as (Hl & Hd & Hc).
    unfold LibraryService_delete_library_cascade, LibraryService_delete_library,
      IndexService_clear_index, bind, repo_write. simpl. store_steps.
  - unfold DocumentService_create_document, bind, repo_read, repo_write, ret, raise.
    destruct (repo_get_library lid (repository w)); [|exact Hwf].
    destruct Hwf as (Hl & Hd & Hc). simpl. store_steps.
  - unfold DocumentService_get_document, bind, repo_read, ret, raise.
    destruct (repo_get_document did (repository w)); exact Hwf.
  - exact Hwf.
  - unfold DocumentService_update_document, DocumentService_get_document, bind, repo_read,
      ret, raise, assign_document, repo_write.
    destruct (repo_get_document did (repository w)); [|exact Hwf].
    destruct Hwf as (Hl & Hd & Hc).
    destruct title, description, metadata; simpl; store_steps.
  - destruct Hwf as (Hl & Hd & Hc).
    unfold DocumentService_delete_document, repo_write. simpl. store_steps.
  - unfold bind at 1. unfold ChunkService_create_chunk, bind, repo_read, ret, raise.
    destruct (repo_get_document did (repository w)) as [doc|]; [|exact Hwf].
    destruct (negb _); [exact Hwf|].
    pose proof (validate_dimensions_store_wf lid embedding w Hwf) as H1.
    destruct (_validate_embedding_dimensions lid embedding w) as [[[]|e] w1]; [|exact H1].
    simpl in H1. destruct H1 as (Hl & Hd & Hc). unfold repo_write. simpl. store_steps.
  - unfold ChunkService_get_chunk, bind, repo_read, ret, raise.
    destruct (repo_get_chunk cid (repository w)); exact Hwf.
  - exact Hwf.
  - unfold bind at 1.
    unfold ChunkService_update_chunk, ChunkService_get_chunk, bind, repo_read, ret, raise.
    destruct (repo_get_chunk cid (repository w)) as [c|]; [|exact Hwf].
    destruct embedding as [v|].
    + destruct (repo_get_document (chunk_document_id c) (repository w)) as [doc|].
      * pose proof (validate_dimensions_store_wf (doc_library_id doc) v w Hwf) as H1.
        destruct (_validate_embedding_dimensions (doc_library_id doc) v w) as [[[]|e] w1];
          [|exact H1].
        simpl in H1. destruct H1 as (Hl & Hd & Hc).
        destruct text, metadata; unfold assign_chunk, repo_write; simpl; store_steps.
      * destruct Hwf as (Hl & Hd & Hc).
        destruct text, metadata; unfold assign_chunk, repo_write; simpl; store_steps.
    + destruct Hwf as (Hl & Hd & Hc).
      destruct text, metadata; unfold assign_chunk, repo_write; simpl; store_steps.
  - destruct Hwf as (Hl & Hd & Hc).
    unfold ChunkService_delete_chunk, repo_write. simpl. store_steps.
Qed.

Lemma dict_of_values_wf {A} (id : A → string) (values : list A) :
  table_wf id (dict_of_values id values).
Proof.
  unfold dict_of_values.
  assert (H : ∀ d, table_wf id d →
                   table_wf id (fold_left (fun d v => dict_set (id v) v d) values d)).
  { induction values as [|v vs IH]; intros d Hd; simpl; [exact Hd|].
    apply IH. now apply table_wf_set. }
  apply H. split; [intros kv Hkv; inversion Hkv | constructor].
Qed.

Lemma load_snapshot_store_wf (data : snapshot_data) (r : InMemoryRepository) :
  store_wf (repo_load_snapshot data r).
Proof. repeat split; simpl; apply dict_of_values_wf. Qed.

Lemma dict_of_objects_wf {A} (id : A → string) (objects : list (json_object A)) (d : dict A) :
  dict_of_objects id objects = Ok d → table_wf id d.
Proof.
  unfold dict_of_objects. destruct (mapM model_of objects) as [records|e]; [|discriminate].
  intros [= <-]. apply dict_of_values_wf.
Qed.

(** Also a [load_snapshot] that raises half-way leaves every table
    keyed by the records' ids. *)
Lemma load_snapshot_wf (data : json_snapshot) (r : InMemoryRepository) :
  store_wf r → store_wf (snd (load_snapshot data r)).
Proof.
  isolate.
  intros (Hl & Hd & Hc). unfold load_snapshot.
  destruct (dict_of_objects lib_id _) as [libraries|e] eqn:El;
    [|unfold store_wf; simpl; tauto].
  apply dict_of_objects_wf in El.
  destruct (dict_of_objects doc_id _) as [documents|e] eqn:Ed;
    [|unfold store_wf; simpl; tauto].
  apply dict_of_objects_wf in Ed.
  destruct (dict_of_objects chunk_id _) as [chunks|e] eqn:Ec;
    [|unfold store_wf; simpl; tauto].
  apply dict_of_objects_wf in Ec. unfold store_wf; simpl; tauto.
Qed.

Lemma build_index_repository (library_id algorithm metric : string) (w : World) :
  repository (snd (IndexService_build_index library_id algorithm metric w)) = repository w.
Proof.
  unfold IndexService_build_index, bind, lift, repo_read, ret.
  destruct (_create_index _ _); [|reflexivity].
  destruct (repo_list_chunks library_id (repository w)); [reflexivity|].
  destruct (valid_pairs_of _); destruct (VectorIndex_build _ _ _); reflexivity.
Qed.

Lemma rebuild_indices_wf (metadata : dict (gmap string string)) (w : World) :
  world_wf w → world_wf (snd (IndexService_rebuild_indices metadata w)).
Proof.
  intros Hw. unfold IndexService_rebuild_indices, dict_items.
  apply (for_each_invariant world_wf); [|exact Hw].
  intros item wc _ [Hs Hr]. unfold try_except.
  pose proof (build_index_repository (fst item)
                (default (default_index settings) (snd item !! "algorithm"))
                (default (default_metric settings) (snd item !! "metric")) wc) as Hrepo.
  pose proof (build_index_wf (fst item)
                (default (default_index settings) (snd item !! "algorithm"))
                (default (default_metric settings) (snd item !! "metric")) wc Hr) as Hreg.
  destruct (IndexService_build_index _ _ _ wc) as [[[]|e] w']; simpl in *;
    (split; [reflexivity|]); (split; [now rewrite Hrepo | exact Hreg]).
Qed.

Lemma run_api_wf (c : api_call) (w : World) :
  world_wf w → world_wf (snd (run_api c w)).
Proof.
  intros [Hs Hr]. destruct c; unfold run_api.
  - split; [now apply run_call_store_wf | now apply run_call_registry_wf].
  - split; [now rewrite build_index_repository | now apply build_index_wf].
  - unfold bind at 1.
    pose proof (search_repository library_id vector k metadata_filters w) as Hrepo.
    pose proof (search_wf library_id vector k metadata_filters w Hr) as Hreg.
    destruct (IndexService_search library_id vector k metadata_filters w) as [[res|e] w'];
      simpl in *; (split; [now rewrite Hrepo | exact Hreg]).
  - unfold bind, IndexService_get_index_info, ret.
    destruct (dict_get library_id (_index_meta w)); now split.
  - split; [exact Hs | now apply clear_index_wf].
  - unfold SnapshotService_save, bind, repo_read, IndexService_get_index_metadata, ret.
    simpl. split; [exact Hs | exact Hr].
  - unfold SnapshotService_load, bind.
    destruct (files w !! _) as [text|]; [|now split].
    unfold try_except, bind, lift, repo_try, raise.
    destruct (json_loads text) as [data|e]; [|now split].
    pose proof (load_snapshot_wf data (repository w) Hs) as Hl.
    destruct (load_snapshot data (repository w)) as [[[]|e] r']; simpl in *;
      [|split; [exact Hl | exact Hr]].
    pose proof (rebuild_indices_wf (default [] (o_indices data))
                  (mkWorld r' (_indices w) (_index_meta w) (files w))) as H.
    destruct (IndexService_rebuild_indices _ _) as [[[]|e] w'] eqn:E; simpl in *;
      apply H; (split; [exact Hl | exact Hr]).
Qed.

Lemma reachable_world_wf (calls : list api_call) : world_wf (run_apis calls empty_world).
Proof.
  assert (H : ∀ w, world_wf w → world_wf (run_apis calls w)).
  { induction calls as [|c calls IH]; intros w Hw; simpl; [exact Hw|].
    apply IH. now apply run_api_wf. }
  apply H. split; [apply empty_world_inv | apply empty_world_registry_wf].
Qed.

(** ** The orders on exact values are the orders of the reals they denote *)

Lemma signed_square_le (x y : R) : (x <= y ↔ x * Rabs x <= y * Rabs y)%R.
Proof.
  assert (Hmono : ∀ a b : R, (a <= b → a * Rabs a <= b * Rabs b)%R).
  { intros a b H. unfold Rabs. destruct (Rcase_abs a), (Rcase_abs b); nra. }
  assert (Hstrict : ∀ a b : R, (a < b → a * Rabs a < b * Rabs b)%R).
  { intros a b H. unfold Rabs. destruct (Rcase_abs a), (Rcase_abs b); nra. }
  split; [apply Hmono|]. intros H.
  destruct (Rle_or_lt x y) as [Hle|Hlt]; [exact Hle|].
  apply Hstrict in Hlt. lra.
Qed.

Lemma quot_signed_square (n d : Z) :
  0 < d →
  (let x := IZR n / sqrt (IZR d) in x * Rabs x = IZR (n * Z.abs n) / IZR d)%R.
Proof.
  intros Hd. simpl.
  assert (Hd' : (0 < IZR d)%R) by now apply IZR_lt.
  assert (Hs : (0 < sqrt (IZR d))%R) by now apply sqrt_lt_R0.
  assert (Hsq : (sqrt (IZR d) * sqrt (IZR d) = IZR d)%R) by (apply sqrt_sqrt; lra).
  unfold Rdiv. rewrite Rabs_mult, (Rabs_right (/ _)).
  2:{ apply Rle_ge. left. now apply Rinv_0_lt_compat. }
  rewrite mult_IZR, abs_IZR. 
  rewrite <- Hsq at 3. rewrite Rinv_mult. ring.
Qed.

Lemma score_leb_Quot (n1 d1 n2 d2 : Z) :
  0 < d1 → 0 < d2 →
  score_leb (Quot n1 d1) (Quot n2 d2) = true
  ↔ (score_value (Quot n1 d1) <= score_value (Quot n2 d2))%R.
Proof.
  intros H1 H2. unfold score_leb, score_code, score_value.
  rewrite Qle_bool_iff. unfold Qle. simpl.
  rewrite !Z2Pos.id by assumption.
  rewrite signed_square_le.
  rewrite (quot_signed_square n1 d1 H1), (quot_signed_square n2 d2 H2).
  assert (Hd1 : (0 < IZR d1)%R) by now apply IZR_lt.
  assert (Hd2 : (0 < IZR d2)%R) by now apply IZR_lt.
  generalize (n1 * Z.abs n1) (n2 * Z.abs n2). intros A1 A2.
  split; intros H.
  - apply IZR_le in H. rewrite !mult_IZR in H.
    apply (Rmult_le_reg_r (IZR d1 * IZR d2)); [nra|].
    replace (IZR A1 / IZR d1 * (IZR d1 * IZR d2))%R with (IZR A1 * IZR d2)%R
      by (field; lra).
    replace (IZR A2 / IZR d2 * (IZR d1 * IZR d2))%R with (IZR A2 * IZR d1)%R
      by (field; lra).
    exact H.
  - apply le_IZR. rewrite !mult_IZR.
    apply (Rmult_le_compat_r (IZR d1 * IZR d2)) in H; [|nra].
    replace (IZR A1 / IZR d1 * (IZR d1 * IZR d2))%R with (IZR A1 * IZR d2)%R in H
      by (field; lra).
    replace (IZR A2 / IZR d2 * (IZR d1 * IZR d2))%R with (IZR A2 * IZR d1)%R in H
      by (field; lra).
    exact H.
Qed.

Lemma score_leb_Simil (d1 d2 : Z) :
  0 <= d1 → 0 <= d2 →
  score_leb (Simil d1) (Simil d2) = true
  ↔ (score_value (Simil d1) <= score_value (Simil d2))%R.
Proof.
  intros H1 H2. unfold score_leb, score_code, score_value.
  rewrite Qle_bool_iff. rewrite <- Zle_Qle.
  assert (Hd1 : (0 <= IZR d1)%R) by now apply IZR_le.
  assert (Hd2 : (0 <= IZR d2)%R) by now apply IZR_le.
  pose proof (sqrt_pos (IZR d1)) as Hs1. pose proof (sqrt_pos (IZR d2)) as Hs2.
  split; intros H.
  - assert (Hle : (sqrt (IZR d2) <= sqrt (IZR d1))%R).
    { apply sqrt_le_1; try assumption. apply IZR_le. lia. }
    unfold Rdiv. rewrite !Rmult_1_l. apply Rinv_le_contravar; lra.
  - assert (Hle : (sqrt (IZR d2) <= sqrt (IZR d1))%R).
    { unfold Rdiv in H. rewrite !Rmult_1_l in H.
      destruct (Rle_or_lt (sqrt (IZR d2)) (sqrt (IZR d1))) as [Hok|Hlt]; [exact Hok|].
      assert (/ (1 + sqrt (IZR d2)) < / (1 + sqrt (IZR d1)))%R.
      { apply Rinv_lt_contravar; [|lra]. apply Rmult_lt_0_compat; lra. }
      lra. }
    apply sqrt_le_0 in Hle; try assumption. apply le_IZR in Hle. lia.
Qed.

Lemma root_value_nonneg (r : root) : (0 <= root_value r)%R.
Proof. apply sqrt_pos. Qed.

Lemma root_ltb_value (a b : root) :
  0 <= radicand a → 0 <= radicand b →
  root_ltb a b = true ↔ (root_value a < root_value b)%R.
Proof.
  intros Ha Hb. unfold root_ltb, root_value. rewrite Z.ltb_lt.
  apply IZR_le in Ha, Hb. split; intros H.
  - apply sqrt_lt_1; try assumption. now apply IZR_lt.
  - apply lt_IZR. now apply sqrt_lt_0.
Qed.

Lemma root_eqb_value (a b : root) :
  0 <= radicand a → 0 <= radicand b →
  root_eqb a b = true ↔ root_value a = root_value b.
Proof.
  intros Ha Hb. unfold root_eqb, root_value. rewrite Z.eqb_eq.
  apply IZR_le in Ha, Hb. split; intros H.
  - now rewrite H.
  - apply eq_IZR. now apply sqrt_inj.
Qed.

Lemma root_mul_value (a b : root) :
  0 <= radicand a → 0 <= radicand b →
  root_value (root_mul a b) = (root_value a * root_value b)%R.
Proof.
  intros Ha Hb. unfold root_value, root_mul. simpl.
  apply IZR_le in Ha, Hb. rewrite mult_IZR. now apply sqrt_mult.
Qed.

Lemma Z_lt_root_value (z : Z) (r : root) :
  0 <= z → 0 <= radicand r →
  Z_lt_root z r = true ↔ (IZR z < root_value r)%R.
Proof.
  intros Hz Hr. unfold Z_lt_root, root_value. rewrite Z.ltb_lt.
  apply IZR_le in Hz, Hr.
  rewrite <- (sqrt_square (IZR z)) by exact Hz.
  rewrite <- mult_IZR. split; intros H.
  - apply sqrt_lt_1; try assumption.
    + rewrite mult_IZR. nra.
    + now apply IZR_lt.
  - apply lt_IZR. apply sqrt_lt_0; try assumption. rewrite mult_IZR. nra.
Qed.

(** ** The brute force is the exhaustive scan of the Linear index *)

Lemma brute_force_is_linear_scan (vectors : list vec) (ids : list string) (q : vec) (k : Z) :
  vectors ≠ [] → 0 < k →
  length q = length (hd [] vectors) →
  length vectors = length ids →
  distances_computable q vectors →
  LinearIndex_query (mkLinearIndex EUCLIDEAN vectors ids) q k
  = Ok (brute_force_topk vectors ids q k).
Proof.
  intros Hne Hk Hq Hlen Hov. unfold LinearIndex_query. simpl.
  destruct vectors as [|v0 vs]; [congruence|].
  destruct (k <=? 0) eqn:Ek; [apply Z.leb_le in Ek; lia|]. simpl.
  simpl in Hq. rewrite Hq, Nat.eqb_refl. simpl.
  rewrite linear_euclidean_scores, computable_zip by exact Hov. simpl. f_equal.
  unfold brute_force_topk, slice_to, by_distance, sort_key, sort_key_reverse, all_distances.
  rewrite <- firstn_map. f_equal.
  assert (Hzip : map (fun cv : string * vec =>
                        (fst cv, similarity (l2_distance q (snd cv))))
                   (zip ids (v0 :: vs))
                 = map (fun x : string * root => (fst x, similarity (snd x)))
                     (map (fun vi : vec * string => (snd vi, l2_distance q (fst vi)))
                        (zip (v0 :: vs) ids))).
  { rewrite map_map. unfold zip. clear.
    generalize (v0 :: vs). intros l. revert ids.
    induction l as [|v l IH]; intros [|i ids]; simpl; try reflexivity.
    now rewrite IH. }
  rewrite Hzip. apply sort_by_map. intros a b. simpl.
  apply score_leb_similarity.
Qed.

(** ** Vector math: symmetry and ranges *)

Lemma zip_swap {A B} (a : list A) (b : list B) :
  zip b a = map (fun xy => (snd xy, fst xy)) (zip a b).
Proof.
  unfold zip. revert b. induction a as [|x a IH]; intros [|y b]; simpl; try reflexivity.
  now rewrite IH.
Qed.

Lemma dot_comm (a b : vec) : dot a b = dot b a.
Proof.
  unfold dot. rewrite (zip_swap a b), map_map. f_equal.
  apply map_ext. intros [x y]. simpl. lia.
Qed.

Lemma l2_distance_comm (a b : vec) : l2_distance a b = l2_distance b a.
Proof.
  unfold l2_distance. rewrite (zip_swap a b), map_map. do 2 f_equal.
  apply map_ext. intros [x y]. simpl. lia.
Qed.

Lemma cosine_similarity_comm (a b : vec) : cosine_similarity a b = cosine_similarity b a.
Proof.
  unfold cosine_similarity. cbv zeta.
  rewrite (orb_comm (root_is_zero (norm a))).
  destruct (root_is_zero (norm b) || root_is_zero (norm a)); [reflexivity|].
  unfold root_mul. simpl. rewrite dot_comm. f_equal. lia.
Qed.

Lemma sum_products_nonneg (a : vec) : 0 <= sum (map (fun x => x * x) a).
Proof.
  induction a as [|x a IH]; [unfold sum; simpl; lia|].
  simpl. rewrite sum_cons. nia.
Qed.

(** Cauchy-Schwarz, with [zip] stopping at the shorter vector. *)
Lemma dot_square_le (a b : vec) :
  dot a b * dot a b <= radicand (norm a) * radicand (norm b).
Proof.
  unfold dot, norm. simpl. revert b.
  induction a as [|x a IH]; intros b.
  - unfold zip, sum. simpl. lia.
  - destruct b as [|y b].
    + unfold zip. simpl. change (sum []) with 0.
      pose proof (sum_products_nonneg (x :: a)). simpl in H. lia.
    + unfold zip in *. simpl. rewrite !sum_cons. simpl.
      specialize (IH b).
      pose proof (sum_products_nonneg a) as HA.
      pose proof (sum_products_nonneg b) as HB.
      set (D := sum (map (fun xy : Z * Z => fst xy * snd xy) (combine a b))) in *.
      set (A := sum (map (fun x => x * x) a)) in *.
      set (B := sum (map (fun x => x * x) b)) in *.
      assert (Hcross : 2 * (x * y * D) <= x * x * B + A * (y * y)).
      { destruct (Z.eq_dec A 0) as [HA0|HA0].
        - assert (D = 0) by nia. subst D. nia.
        - assert (H1 : 0 <= (A * y - x * D) * (A * y - x * D)) by apply Z.square_nonneg.
          assert (H2 : 0 <= x * x * (A * B - D * D)).
          { apply Z.mul_nonneg_nonneg; [apply Z.square_nonneg | lia]. }
          assert (H3 : A * (x * x * B + A * (y * y) - 2 * (x * y * D))
                       = x * x * (A * B - D * D) + (A * y - x * D) * (A * y - x * D)) by ring.
          assert (H4 : 0 <= x * x * B + A * (y * y) - 2 * (x * y * D)).
          { apply (Z.mul_le_mono_pos_l _ _ A); [lia|]. rewrite H3. lia. }
          lia. }
      nia.
Qed.

(** X1.  The cosine similarity is symmetric in its two vectors and, in
    exact arithmetic (rounding aside), lies in [-1, 1], also for vectors
    of different lengths and for vectors of norm zero. *)
Theorem X1_cosine_similarity_bounded (a b : vec) :
  cosine_similarity a b = cosine_similarity b a
  ∧ (-1 <= score_value (cosine_similarity a b) <= 1)%R.
Proof.
  split; [apply cosine_similarity_comm|].
  unfold cosine_similarity. cbv zeta.
  destruct (root_is_zero (norm a) || root_is_zero (norm b)) eqn:E.
  - unfold score_zero, score_value. rewrite sqrt_1. lra.
  - apply orb_false_elim in E. destruct E as [Ea Eb].
    unfold root_is_zero in Ea, Eb. apply Z.eqb_neq in Ea, Eb.
    pose proof (dot_square_le a b) as Hcs.
    pose proof (sum_products_nonneg a) as HA. pose proof (sum_products_nonneg b) as HB.
    unfold root_mul, score_value. simpl in *.
    set (n := dot a b) in *.
    set (d := sum (map (fun x => x * x) a) * sum (map (fun x => x * x) b)) in *.
    assert (Hd : 0 < d) by (unfold d; nia).
    assert (Hd' : (0 < IZR d)%R) by now apply IZR_lt.
    assert (Hs : (0 < sqrt (IZR d))%R) by now apply sqrt_lt_R0.
    assert (Habs : (Rabs (IZR n) <= sqrt (IZR d))%R).
    { rewrite <- sqrt_Rsqr_abs. apply sqrt_le_1_alt. unfold Rsqr.
      rewrite <- mult_IZR. now apply IZR_le. }
    assert (Hlo : (- sqrt (IZR d) <= IZR n)%R).
    { unfold Rabs in Habs. destruct (Rcase_abs (IZR n)); lra. }
    assert (Hhi : (IZR n <= sqrt (IZR d))%R).
    { unfold Rabs in Habs. destruct (Rcase_abs (IZR n)); lra. }
    split.
    + apply (Rmult_le_reg_r (sqrt (IZR d))); [exact Hs|].
      unfold Rdiv. rewrite Rmult_assoc, Rinv_l by lra. lra.
    + apply (Rmult_le_reg_r (sqrt (IZR d))); [exact Hs|].
      unfold Rdiv. rewrite Rmult_assoc, Rinv_l by lra. lra.
Qed.

Lemma sum_squares_zero {A} (f : A → Z) (l : list A) :
  sum (map (fun x => f x ^ 2) l) = 0 ↔ Forall (fun x => f x = 0) l.
Proof.
  induction l as [|x l IH]; simpl.
  - split; [constructor | reflexivity].
  - rewrite sum_cons. pose proof (sum_squares_nonneg f l) as Hn. split.
    + intros H. constructor; [nia|]. apply IH. nia.
    + intros H. apply Forall_cons in H. destruct H as [Hx Hl].
      apply IH in Hl. rewrite Hx, Hl. reflexivity.
Qed.

Lemma l2_distance_zero (a b : vec) :
  length a = length b →
  radicand (l2_distance a b) = 0 ↔ a = b.
Proof.
  unfold l2_distance. simpl. rewrite (sum_squares_zero (fun xy : Z * Z => fst xy - snd xy)).
  revert b. induction a as [|x a IH]; intros [|y b] Hlen; simpl in Hlen; try discriminate.
  - unfold zip. simpl. split; [reflexivity | constructor].
  - unfold zip in *. simpl. rewrite Forall_cons. simpl.
    rewrite (IH b) by lia. split.
    + intros [H ->]. f_equal. lia.
    + intros [= -> ->]. split; [lia | reflexivity].
Qed.

Lemma distance_overflows_comm (a b : vec) : distance_overflows a b = distance_overflows b a.
Proof.
  unfold distance_overflows. rewrite (zip_swap a b).
  induction (zip a b) as [|[x y] l IH]; [reflexivity|].
  cbn [map existsb fst snd]. rewrite IH. do 2 f_equal. lia.
Qed.

Lemma distance_overflows_self (a : vec) : 0 < pow_limit → distance_overflows a a = false.
Proof.
  intros Hpos. unfold distance_overflows, zip.
  induction a as [|x a IH]; [reflexivity|].
  cbn [combine existsb fst snd]. rewrite IH, Z.sub_diag. simpl.
  rewrite orb_false_r. apply Z.leb_gt. exact Hpos.
Qed.

(** X2.  [euclidean_distance] is symmetric in its two vectors, also in
    whether it raises [OverflowError], and the distance of a vector to
    itself is 0.  In exact arithmetic (no rounding, no overflow to
    infinity) a distance it returns gives a similarity
    [1.0 / (1.0 + dist)] in (0, 1], which for vectors of one length is 1
    exactly when they are equal. *)
Theorem X2_euclidean_similarity_range (a b : vec) :
  euclidean_distance a b = euclidean_distance b a
  ∧ (0 < pow_limit → euclidean_distance a a = Ok (Sqrt 0))
  ∧ ∀ dist, euclidean_distance a b = Ok dist →
      let s := score_value (similarity dist) in
      (0 < s <= 1)%R ∧ (length a = length b → (s = 1%R ↔ a = b)).
Proof.
  split; [|split].
  { rewrite !euclidean_distance_cases, distance_overflows_comm, l2_distance_comm.
    reflexivity. }
  { intros Hpos. rewrite euclidean_distance_Ok by now apply distance_overflows_self.
    f_equal. destruct (l2_distance a a) as [d] eqn:E. f_equal.
    change d with (radicand (Sqrt d)). rewrite <- E. now apply l2_distance_zero. }
  intros dist Hdist. apply euclidean_distance_inv in Hdist. destruct Hdist as [-> _].
  cbv zeta. unfold similarity, score_value.
  pose proof (l2_distance_nonneg a b) as Hn.
  set (d := radicand (l2_distance a b)) in *.
  pose proof (sqrt_pos (IZR d)) as Hs.
  assert (Hpos : (0 < 1 + sqrt (IZR d))%R) by lra.
  split.
  - split.
    + apply Rdiv_lt_0_compat; lra.
    + apply (Rmult_le_reg_r (1 + sqrt (IZR d))); [exact Hpos|].
      unfold Rdiv. rewrite Rmult_assoc, Rinv_l by lra. lra.
  - intros Hlen. rewrite <- (l2_distance_zero a b Hlen). fold d. split.
    + intros H.
      assert (H1 : (1 + sqrt (IZR d) = 1)%R).
      { apply (Rmult_eq_compat_r (1 + sqrt (IZR d))) in H.
        unfold Rdiv in H. rewrite Rmult_assoc, Rinv_l in H by lra. lra. }
      assert (H0 : sqrt (IZR d) = 0%R) by lra.
      apply sqrt_eq_0 in H0; [|now apply IZR_le]. now apply eq_IZR.
    + intros ->. rewrite sqrt_0. lra.
Qed.

(** ** The Linear index returns the best [k] *)

(** The scores the Linear index computes, when it can compute them. *)
Lemma linear_query_scores (metric : DistanceMetric) (q : vec) (ids : list string)
    (vectors : list vec) (scores : list (string * score)) :
  match metric with
  | COSINE =>
      Ok (map (fun cv : string * vec => (fst cv, cosine_similarity q (snd cv)))
            (zip ids vectors))
  | EUCLIDEAN =>
      mapM (fun cv : string * vec =>
              rbind (euclidean_distance q (snd cv)) (fun dist => Ok (fst cv, similarity dist)))
        (zip ids vectors)
  end = Ok scores →
  scores = linear_scores metric q ids vectors.
Proof.
  destruct metric.
  - now intros [= <-].
  - rewrite linear_euclidean_scores. destruct (existsb _ _); [discriminate|].
    now intros [= <-].
Qed.




(** ** What [build] rejects *)

Lemma ragged_existsb (v0 : vec) (vs : list vec) :
  existsb (fun v => negb (length v =? length v0)%nat) (v0 :: vs) = true ↔ ragged (v0 :: vs).
Proof.
  unfold ragged. simpl hd. rewrite existsb_exists. split.
  - intros (v & Hin & Hv). exists v. split; [now apply list_elem_of_In|].
    apply negb_true_iff, Nat.eqb_neq in Hv. exact Hv.
  - intros (v & Hin & Hv). exists v. split; [now apply list_elem_of_In|].
    now apply negb_true_iff, Nat.eqb_neq.
Qed.

Lemma validate_inputs_cases (vectors : list vec) (ids : list string) :
  (length vectors ≠ length ids → _validate_inputs vectors ids = Raise (ValueError msg_same_length))
  ∧ (length vectors = length ids → ragged vectors →
     _validate_inputs vectors ids = Raise (ValueError msg_same_dim))
  ∧ (length vectors = length ids → ¬ ragged vectors → _validate_inputs vectors ids = Ok tt).
Proof.
  unfold _validate_inputs. split; [|split].
  - intros H. apply Nat.eqb_neq in H. now rewrite H.
  - intros H Hr. apply Nat.eqb_eq in H. rewrite H. simpl.
    destruct vectors as [|v0 vs]; [destruct Hr as (v & Hv & _); inversion Hv|].
    apply ragged_existsb in Hr. now rewrite Hr.
  - intros H Hr. apply Nat.eqb_eq in H. rewrite H. simpl.
    destruct vectors as [|v0 vs]; [reflexivity|].
    destruct (existsb _ _) eqn:E; [|reflexivity].
    apply ragged_existsb in E. contradiction.
Qed.

(** X4.  [build] of every variant checks its input first: when the
    numbers of vectors and of ids differ it fails with "Vectors and ids
    must have the same length"; with equal numbers but a vector whose
    length differs from the first vector's it fails with "All vectors
    must have the same dimensionality"; and on any other input the
    Linear index stores the two lists as given. *)
Theorem X4_build_validates_inputs (self : VectorIndex) (vectors : list vec) (ids : list string) :
  (length vectors ≠ length ids →
   VectorIndex_build self vectors ids = Raise (ValueError msg_same_length))
  ∧ (length vectors = length ids → ragged vectors →
     VectorIndex_build self vectors ids = Raise (ValueError msg_same_dim))
  ∧ (length vectors = length ids → ¬ ragged vectors →
     ∀ index, LinearIndex_build index vectors ids
              = Ok (mkLinearIndex (lin_metric index) vectors ids)).
Proof.
  destruct (validate_inputs_cases vectors ids) as (H1 & H2 & H3).
  split; [|split].
  - intros H. specialize (H1 H).
    destruct self; simpl;
      unfold LinearIndex_build, KDTreeIndex_build, LSHIndex_build; now rewrite H1.
  - intros H Hr. specialize (H2 H Hr).
    destruct self; simpl;
      unfold LinearIndex_build, KDTreeIndex_build, LSHIndex_build; now rewrite H2.
  - intros H Hr index. unfold LinearIndex_build. now rewrite (H3 H Hr).
Qed.

(** ** Building the KD-tree *)

Lemma not_ragged_same_length (D : nat) (vectors : list vec) :
  Forall (fun v => length v = D) vectors → ¬ ragged vectors.
Proof.
  intros HD (v & Hv & Hne). rewrite Forall_forall in HD.
  destruct vectors as [|v0 vs]; [inversion Hv|].
  simpl in Hne. rewrite (HD v Hv), (HD v0) in Hne; [congruence|].
  apply elem_of_cons. now left.
Qed.

(** X5.  On as many vectors as ids, all of one dimension [D], the KD-tree
    build gives the empty index for no vectors, fails with
    [ZeroDivisionError] (from [depth % k]) when [D = 0], and otherwise
    returns an index of dimension [D] whose tree holds every (vector, id)
    pair exactly once and is ordered along each node's axis. *)
Theorem X5_kdtree_build_outcome (self : KDTreeIndex) (vectors : list vec) (ids : list string)
    (D : nat) :
  length vectors = length ids →
  Forall (fun v => length v = D) vectors →
  match vectors with
  | [] => KDTreeIndex_build self vectors ids = Ok (mkKDTreeIndex KDNone 0)
  | _ :: _ =>
      if (D =? 0)%nat then KDTreeIndex_build self vectors ids = Raise ZeroDivisionError
      else ∃ idx, KDTreeIndex_build self vectors ids = Ok idx
                  ∧ kd_dim idx = D
                  ∧ Permutation (tree_items (kd_root idx)) (zip vectors ids)
                  ∧ kd_ordered (kd_root idx)
  end.
Proof.
  intros Hlen HD.
  pose proof (proj2 (proj2 (validate_inputs_cases vectors ids)) Hlen
                (not_ragged_same_length D vectors HD)) as Hv.
  unfold KDTreeIndex_build. rewrite Hv. simpl.
  destruct vectors as [|v0 vs]; [reflexivity|].
  assert (Hv0 : length v0 = D) by now inversion HD.
  destruct (D =? 0)%nat eqn:ED.
  - unfold build_kd. simpl. rewrite Hv0, ED. reflexivity.
  - apply Nat.eqb_neq in ED.
    destruct (build_kd_fuel_enough D ltac:(lia) (length (v0 :: vs)) (v0 :: vs) ids 0%nat)
      as (t & Ht & _ & Hord & Hperm); [lia | exact Hlen | exact HD |].
    unfold build_kd. rewrite Ht. simpl. exists (mkKDTreeIndex t (length v0)).
    repeat split; auto.
Qed.

Lemma build_kd_fuel_height (fuel : nat) :
  ∀ (points : list vec) (ids : list string) (depth : nat) (t : KDTree),
    build_kd_fuel fuel points ids depth = Ok t →
    (2 ^ tree_height t <= Nat.max 1 (2 * length points))%nat.
Proof.
  induction fuel as [|fuel IH]; intros points ids depth t Hb.
  { destruct points; simpl in Hb; injection Hb as <-; simpl; lia. }
  destruct points as [|p0 ps]; [simpl in Hb; injection Hb as <-; simpl; lia|].
  cbn [build_kd_fuel] in Hb.
  destruct (length p0 =? 0)%nat; [discriminate|].
  destruct (existsb _ _); [discriminate|].
  set (sorted := sort_key Z.leb (fun x => nth (depth mod length p0) (fst x) 0)
                   (zip (p0 :: ps) ids)) in *.
  assert (Hsl : (length sorted <= length (p0 :: ps))%nat).
  { unfold sorted, sort_key. rewrite sort_by_length. unfold zip.
    rewrite length_combine. lia. }
  set (median := (length sorted / 2)%nat) in *.
  destruct (nth_error sorted median) as [[mp mi]|] eqn:Hnth; [|discriminate].
  assert (Hmed : (median < length sorted)%nat).
  { apply nth_error_Some. congruence. }
  assert (Hhalf : (2 * median <= length sorted)%nat).
  { unfold median. apply Nat.Div0.mul_div_le. }
  assert (Hhalf' : (length sorted < 2 * median + 2)%nat).
  { unfold median. pose proof (Nat.div_mod_eq (length sorted) 2).
    pose proof (Nat.mod_upper_bound (length sorted) 2). lia. }
  destruct (build_kd_fuel fuel (map fst (firstn median sorted)) _ _) as [tl|] eqn:Hl;
    simpl in Hb; [|discriminate].
  destruct (build_kd_fuel fuel (map fst (skipn (median + 1) sorted)) _ _) as [tr|] eqn:Hr;
    simpl in Hb; [|discriminate].
  injection Hb as <-.
  apply IH in Hl. apply IH in Hr.
  rewrite length_map, length_firstn in Hl. rewrite length_map, length_skipn in Hr.
  cbn [tree_height]. rewrite Nat.pow_succ_r'.
  destruct (Nat.max_spec (tree_height tl) (tree_height tr)) as [[_ ->]|[_ ->]];
    simpl length in *; lia.
Qed.

(** X6.  The KD-tree is balanced: built over [n >= 1] points it has at
    most [floor(log2 n) + 1] levels. *)
Theorem X6_kdtree_height_logarithmic (points : list vec) (ids : list string) (depth : nat)
    (t : KDTree) :
  build_kd points ids depth = Ok t →
  points ≠ [] →
  (tree_height t <= S (Nat.log2 (length points)))%nat.
Proof.
  intros Hb Hne. apply build_kd_fuel_height in Hb.
  assert (Hn : (0 < length points)%nat) by (destruct points; [congruence | simpl; lia]).
  rewrite Nat.max_r in Hb by lia.
  destruct (tree_height t) as [|h] eqn:Eh; [lia|].
  rewrite Nat.pow_succ_r' in Hb.
  assert (Hp : (2 ^ h <= length points)%nat) by lia.
  apply le_n_S. apply Nat.log2_le_mono in Hp. now rewrite Nat.log2_pow2 in Hp by lia.
Qed.

(** ** The LSH signature *)

Lemma hash_fold_bits (v : vec) (planes : list vec) :
  ∀ (s : nat) (acc : Z) (j : nat),
    Z.testbit
      (fold_left
         (fun signature (ip : nat * vec) =>
            if 0 <=? sum (map (fun vp => fst vp * snd vp) (zip v (snd ip)))
            then Z.lor signature (Z.shiftl 1 (Z.of_nat (fst ip)))
            else signature)
         (zip (seq s (length planes)) planes) acc)
      (Z.of_nat j)
    = Z.testbit acc (Z.of_nat j)
      || (if (s <=? j)%nat
          then match nth_error planes (j - s) with
               | Some plane => on_positive_side v plane
               | None => false
               end
          else false).
Proof.
  induction planes as [|p planes IH]; intros s acc j.
  - simpl. destruct (s <=? j)%nat; [|now rewrite orb_false_r].
    destruct (j - s)%nat; simpl; now rewrite orb_false_r.
  - unfold zip in *. simpl. rewrite IH. clear IH.
    fold (zip v p). fold (dot v p). fold (on_positive_side v p).
    assert (Hbit : Z.testbit (Z.shiftl 1 (Z.of_nat s)) (Z.of_nat j) = (s =? j)%nat).
    { rewrite Z.shiftl_1_l, Z.pow2_bits_eqb by lia.
      destruct (Nat.eqb_spec s j) as [->|Hne]; [apply Z.eqb_refl|].
      apply Z.eqb_neq. lia. }
    destruct (Nat.leb_spec (S s) j) as [Hlt|Hge].
    + assert (Hle : (s <=? j)%nat = true) by (apply Nat.leb_le; lia). rewrite Hle.
      replace (j - s)%nat with (S (j - S s)) by lia. simpl.
      destruct (on_positive_side v p); [|reflexivity].
      rewrite Z.lor_spec, Hbit.
      assert ((s =? j)%nat = false) by (apply Nat.eqb_neq; lia).
      rewrite H. now rewrite orb_false_r.
    + rewrite orb_false_r. destruct (Nat.leb_spec s j) as [Hle|Hgt].
      * assert (j = s) by lia. subst j. rewrite Nat.sub_diag. simpl.
        destruct (on_positive_side v p); [|now rewrite orb_false_r].
        rewrite Z.lor_spec, Hbit, Nat.eqb_refl. reflexivity.
      * destruct (on_positive_side v p); [|now rewrite orb_false_r].
        rewrite Z.lor_spec, Hbit.
        assert ((s =? j)%nat = false) by (apply Nat.eqb_neq; lia).
        rewrite H. reflexivity.
Qed.

Lemma hash_bit (v : vec) (planes : list vec) (i : nat) :
  Z.testbit (_hash v planes) (Z.of_nat i)
  = match nth_error planes i with
    | Some plane => on_positive_side v plane
    | None => false
    end.
Proof.
  unfold _hash, enumerate. rewrite hash_fold_bits. simpl.
  now rewrite Nat.sub_0_r, Z.bits_0.
Qed.

Lemma hash_nonneg (v : vec) (planes : list vec) : 0 <= _hash v planes.
Proof.
  apply Z.bits_iff_nonneg_ex. exists (Z.of_nat (length planes)). intros m Hm.
  replace m with (Z.of_nat (Z.to_nat m)) by lia. rewrite hash_bit.
  destruct (nth_error planes (Z.to_nat m)) eqn:E; [|reflexivity].
  assert (Z.to_nat m < length planes)%nat by (apply nth_error_Some; congruence). lia.
Qed.

(** X7.  The LSH signature of a vector has one bit per hyperplane: bit
    [i] is set exactly when the vector's dot product with plane [i] is
    non-negative, so the signature lies in [0, 2^len(planes)). *)
Theorem X7_hash_bit_per_plane (v : vec) (planes : list vec) :
  (∀ i : nat,
      Z.testbit (_hash v planes) (Z.of_nat i)
      = match nth_error planes i with
        | Some plane => 0 <=? dot v plane
        | None => false
        end)
  ∧ 0 <= _hash v planes < 2 ^ Z.of_nat (length planes).
Proof.
  split; [intros i; apply hash_bit|].
  split; [apply hash_nonneg|].
  assert (Hmod : _hash v planes = _hash v planes mod 2 ^ Z.of_nat (length planes)).
  { apply Z.bits_inj'. intros n Hn.
    destruct (Z.ltb_spec n (Z.of_nat (length planes))) as [Hlt|Hge].
    - now rewrite Z.mod_pow2_bits_low by lia.
    - rewrite Z.mod_pow2_bits_high by lia.
      replace n with (Z.of_nat (Z.to_nat n)) by lia. rewrite hash_bit.
      destruct (nth_error planes (Z.to_nat n)) eqn:E; [|reflexivity].
      assert (Z.to_nat n < length planes)%nat by (apply nth_error_Some; congruence). lia. }
  rewrite Hmod. apply Z.mod_pos_bound. apply Z.pow_pos_nonneg; lia.
Qed.

(** ** The LSH tables *)

Lemma fold_left_invariant {A S} (I : S → Prop) (f : S → A → S) (l : list A) (s : S) :
  (∀ s x, x ∈ l → I s → I (f s x)) → I s → I (fold_left f l s).
Proof.
  revert s. induction l as [|a l IH]; intros s Hstep Hs; simpl; [exact Hs|].
  apply IH.
  - intros s' x Hx. apply Hstep. apply elem_of_cons. now right.
  - apply Hstep; [apply elem_of_cons; now left | exact Hs].
Qed.

Lemma fold_left_establishes {A S} (I : S → Prop) (R : A → S → Prop) (f : S → A → S)
    (l : list A) (s : S) :
  (∀ s x, x ∈ l → I s → I (f s x) ∧ R x (f s x)) →
  (∀ s x y, x ∈ l → I s → R y s → R y (f s x)) →
  I s → ∀ x, x ∈ l → R x (fold_left f l s).
Proof.
  revert s. induction l as [|a l IH]; intros s Hstep Hkeep Hs x Hx; [inversion Hx|].
  simpl. destruct (Hstep s a) as [Hi Hr]; [apply elem_of_cons; now left | exact Hs |].
  apply elem_of_cons in Hx. destruct Hx as [->|Hx].
  - apply (fold_left_invariant (fun s => I s ∧ R a s)); [|now split].
    intros s' y Hy [Hi' Hr']. split.
    + apply Hstep; [apply elem_of_cons; now right | exact Hi'].
    + apply Hkeep; [apply elem_of_cons; now right | exact Hi' | exact Hr'].
  - apply IH; auto.
    + intros s' y Hy. apply Hstep. apply elem_of_cons. now right.
    + intros s' y z Hy. apply Hkeep. apply elem_of_cons. now right.
Qed.

Lemma elem_of_enumerate_from {A} (l : list A) (s i : nat) (x : A) :
  (i, x) ∈ zip (seq s (length l)) l ↔ (s <= i)%nat ∧ l !! (i - s)%nat = Some x.
Proof.
  unfold zip. revert s. induction l as [|a l IH]; intros s; simpl.
  - split; [intros H; inversion H | intros [_ H]; discriminate].
  - rewrite elem_of_cons, IH. split.
    + intros [[= -> ->]|[Hle Hl]].
      * split; [lia|]. now rewrite Nat.sub_diag.
      * split; [lia|]. replace (i - s)%nat with (S (i - S s)) by lia. exact Hl.
    + intros [Hle Hl]. destruct (i - s)%nat as [|n] eqn:E.
      * left. injection Hl as ->. f_equal. lia.
      * right. split; [lia|]. replace (i - S s)%nat with n by lia. exact Hl.
Qed.

Lemma elem_of_enumerate {A} (l : list A) (i : nat) (x : A) :
  (i, x) ∈ enumerate l ↔ l !! i = Some x.
Proof.
  unfold enumerate. rewrite elem_of_enumerate_from, Nat.sub_0_r.
  split; [now intros [_ H] | intros H; split; [lia | exact H]].
Qed.

Lemma mapM_length {A B} (f : A → result B) (l : list A) (ys : list B) :
  mapM f l = Ok ys → length ys = length l.
Proof.
  revert ys. induction l as [|x l IH]; intros ys; simpl.
  - now intros [= <-].
  - destruct (f x) as [y|e]; simpl; [|discriminate].
    destruct (mapM f l) as [ys'|e]; simpl; [|discriminate].
    intros [= <-]. simpl. f_equal. now apply IH.
Qed.

Lemma table_append_sound (items : list (string * vec)) (signature : Z) (item : string * vec)
    (table : gmap Z (list (string * vec))) :
  item ∈ items →
  (∀ sig bucket, table !! sig = Some bucket → ∀ it, it ∈ bucket → it ∈ items) →
  ∀ sig bucket, table_append signature item table !! sig = Some bucket →
                ∀ it, it ∈ bucket → it ∈ items.
Proof.
  intros Hitem Ht sig bucket. unfold table_append.
  destruct (decide (signature = sig)) as [<-|Hne].
  - rewrite lookup_insert_eq. intros [= <-] it Hit.
    apply elem_of_app in Hit. destruct Hit as [Hit|Hit].
    + destruct (table !! signature) as [b|] eqn:E; simpl in Hit; [|inversion Hit].
      exact (Ht signature b E it Hit).
    + apply elem_of_cons in Hit. destruct Hit as [->|Hit]; [exact Hitem | inversion Hit].
  - rewrite lookup_insert_ne by exact Hne. apply Ht.
Qed.

Lemma lsh_fill_sound (items : list (string * vec)) (planes : list (list vec))
    (pairs : list (vec * string)) (tables : list (gmap Z (list (string * vec)))) :
  (∀ vi, vi ∈ pairs → (snd vi, fst vi) ∈ items) →
  tables_sound items tables → tables_sound items (lsh_fill planes pairs tables).
Proof.
  intros Hpairs. unfold lsh_fill. apply fold_left_invariant.
  intros tables1 vi Hvi. apply fold_left_invariant.
  intros tables2 ip _ Hs. unfold tables_sound in *. cbv zeta.
  apply Forall_alter; [exact Hs|].
  intros table _ Ht. apply table_append_sound; [now apply Hpairs | exact Ht].
Qed.

Lemma table_append_holds (signature : Z) (item : string * vec)
    (table : gmap Z (list (string * vec))) :
  ∃ bucket, table_append signature item table !! signature = Some bucket ∧ item ∈ bucket.
Proof.
  unfold table_append. rewrite lookup_insert_eq. eexists. split; [reflexivity|].
  apply elem_of_app. right. apply elem_of_cons. now left.
Qed.

Lemma table_append_keeps (signature sig : Z) (item it : string * vec)
    (table : gmap Z (list (string * vec))) (bucket : list (string * vec)) :
  table !! sig = Some bucket → it ∈ bucket →
  ∃ bucket', table_append signature item table !! sig = Some bucket' ∧ it ∈ bucket'.
Proof.
  intros Hb Hit. unfold table_append. destruct (decide (signature = sig)) as [<-|Hne].
  - rewrite lookup_insert_eq. eexists. split; [reflexivity|].
    rewrite Hb. simpl. apply elem_of_app. now left.
  - rewrite lookup_insert_ne by exact Hne. eauto.
Qed.

Lemma alter_append_keeps (tables : list (gmap Z (list (string * vec)))) (i t : nat)
    (signature sig : Z) (item it : string * vec) :
  bucket_holds tables t sig it →
  bucket_holds (alter (table_append signature item) i tables) t sig it.
Proof.
  intros (table & bucket & Ht & Hb & Hit). unfold bucket_holds.
  destruct (decide (i = t)) as [->|Hne].
  - destruct (table_append_keeps signature sig item it table bucket Hb Hit) as (b' & Hb' & Hit').
    exists (table_append signature item table), b'.
    rewrite list_lookup_alter_eq, Ht. auto.
  - exists table, bucket. rewrite list_lookup_alter_ne by exact Hne. auto.
Qed.

(** After [build], every stored pair sits, in every table, in the bucket
    of its own signature. *)
Lemma lsh_fill_holds (planes : list (list vec)) (pairs : list (vec * string))
    (tables : list (gmap Z (list (string * vec)))) :
  length tables = length planes →
  ∀ vi t pl, vi ∈ pairs → planes !! t = Some pl →
    bucket_holds (lsh_fill planes pairs tables) t (_hash (fst vi) pl) (snd vi, fst vi).
Proof.
  intros Hlen vi t pl Hvi Hpl. unfold lsh_fill.
  set (inner := fun (vi : vec * string) (tables : list (gmap Z (list (string * vec)))) =>
         fold_left
           (fun (tables : list (gmap Z (list (string * vec)))) (ip : nat * list vec) =>
              let signature := _hash (fst vi) (snd ip) in
              alter (table_append signature (snd vi, fst vi)) (fst ip) tables)
           (enumerate planes) tables).
  change (bucket_holds (fold_left (fun tables vi => inner vi tables) pairs tables) t
            (_hash (fst vi) pl) (snd vi, fst vi)).
  assert (Hinner_len : ∀ vi' tables', length tables' = length planes →
                                      length (inner vi' tables') = length planes).
  { intros vi' tables' H. unfold inner.
    apply (fold_left_invariant (fun s => length s = length planes)); [|exact H].
    intros s x _ Hs. cbv zeta. now rewrite length_alter. }
  assert (Hinner_keep : ∀ vi' tables' t' sig it,
             bucket_holds tables' t' sig it → bucket_holds (inner vi' tables') t' sig it).
  { intros vi' tables' t' sig it H. unfold inner.
    apply (fold_left_invariant (fun s => bucket_holds s t' sig it)); [|exact H].
    intros s x _ Hs. cbv zeta. now apply alter_append_keeps. }
  apply (fold_left_establishes (fun s => length s = length planes)
           (fun vi s => bucket_holds s t (_hash (fst vi) pl) (snd vi, fst vi))
           (fun tables vi => inner vi tables)); auto.
  intros s x _ Hs. split; [now apply Hinner_len|].
  unfold inner.
  apply (fold_left_establishes (fun s => length s = length planes)
           (fun (ip : nat * list vec) s =>
              bucket_holds s (fst ip) (_hash (fst x) (snd ip)) (snd x, fst x))
           _ (enumerate planes) s) with (x := (t, pl)); auto.
  - intros s' [i p] Hip Hs'. cbv zeta. simpl. split; [now rewrite length_alter|].
    apply elem_of_enumerate in Hip.
    assert (Hi : (i < length s')%nat).
    { rewrite Hs'. apply lookup_lt_is_Some. eauto. }
    apply lookup_lt_is_Some in Hi. destruct Hi as [table Htable].
    destruct (table_append_holds (_hash (fst x) p) (snd x, fst x) table) as (b & Hb & Hin).
    exists (table_append (_hash (fst x) p) (snd x, fst x) table), b.
    rewrite list_lookup_alter_eq, Htable. auto.
  - intros s' ip y _ _ Hy. cbv zeta. now apply alter_append_keeps.
  - now apply elem_of_enumerate.
Qed.

Lemma LSHIndex_build_fill (self idx : LSHIndex) (vectors : list vec) (ids : list string) :
  LSHIndex_build self vectors ids = Ok idx →
  length vectors = length ids
  ∧ Forall (fun v => length v = length (hd [] vectors)) vectors
  ∧ lsh_planes_count idx = lsh_planes_count self
  ∧ lsh_dim idx = length (hd [] vectors)
  ∧ ((vectors = [] ∧ lsh_planes idx = [] ∧ lsh_tables idx = [])
     ∨ (vectors ≠ []
        ∧ length (lsh_planes idx) = Z.to_nat (lsh_tables_count self)
        ∧ lsh_tables idx
          = lsh_fill (lsh_planes idx) (zip vectors ids)
              (map (fun _ => ∅) (seq 0 (Z.to_nat (lsh_tables_count self)))))).
Proof.
  unfold LSHIndex_build.
  destruct (_validate_inputs vectors ids) as [[]|e] eqn:Hv; simpl; [|discriminate].
  apply validate_inputs_Ok in Hv. destruct Hv as [Hlen Hdim].
  destruct vectors as [|v0 vs].
  - intros [= <-]. simpl. repeat split; auto.
  - destruct (gen_planes _ _ _ _) as [planes|e] eqn:Hg; simpl; [|discriminate].
    intros [= <-]. simpl. repeat split; auto. right.
    split; [discriminate|]. split; [|reflexivity].
    unfold gen_planes in Hg. apply mapM_length in Hg. now rewrite length_seq in Hg.
Qed.

(** ** The LSH candidates *)

Lemma candidates_mem_elem (vec_id : string) (candidates : list (string * vec)) :
  candidates_mem vec_id candidates = true ↔ vec_id ∈ map fst candidates.
Proof.
  unfold candidates_mem. rewrite existsb_exists, list_elem_of_fmap. split.
  - intros (c & Hc & He). apply String.eqb_eq in He. exists c.
    split; [exact He | now apply list_elem_of_In].
  - intros (c & -> & Hc). exists c. split; [now apply list_elem_of_In | apply String.eqb_refl].
Qed.

Lemma probe_ok (items : list (string * vec)) (table : gmap Z (list (string * vec)))
    (signature : Z) (candidates : list (string * vec)) :
  (∀ sig bucket, table !! sig = Some bucket → ∀ it, it ∈ bucket → it ∈ items) →
  candidates_ok items candidates → candidates_ok items (probe table signature candidates).
Proof.
  intros Ht Hc. unfold probe. destruct (table !! signature) as [bucket|] eqn:E; [|exact Hc].
  apply (fold_left_invariant (candidates_ok items)); [|exact Hc].
  intros cands item Hitem [Hnd Hin].
  destruct (candidates_mem (fst item) cands) eqn:Em; [now split|].
  split.
  - rewrite map_app. simpl. apply NoDup_app. split; [exact Hnd|]. split.
    + intros x Hx Hx'. apply elem_of_cons in Hx'. destruct Hx' as [->|Hx']; [|inversion Hx'].
      apply candidates_mem_elem in Hx. congruence.
    + apply NoDup_singleton.
  - intros c Hc'. apply elem_of_app in Hc'. destruct Hc' as [Hc'|Hc']; [now apply Hin|].
    apply elem_of_cons in Hc'. destruct Hc' as [->|Hc']; [|inversion Hc'].
    exact (Ht signature bucket E item Hitem).
Qed.

Lemma probe_keeps (table : gmap Z (list (string * vec))) (signature : Z)
    (candidates : list (string * vec)) (vec_id : string) :
  vec_id ∈ map fst candidates → vec_id ∈ map fst (probe table signature candidates).
Proof.
  intros H. unfold probe. destruct (table !! signature) as [bucket|]; [|exact H].
  apply (fold_left_invariant (fun c => vec_id ∈ map fst c)); [|exact H].
  intros cands item _ Hc. destruct (candidates_mem (fst item) cands); [exact Hc|].
  rewrite map_app. apply elem_of_app. now left.
Qed.

Lemma probe_finds (table : gmap Z (list (string * vec))) (signature : Z)
    (candidates bucket : list (string * vec)) (item : string * vec) :
  table !! signature = Some bucket → item ∈ bucket →
  fst item ∈ map fst (probe table signature candidates).
Proof.
  intros Hb Hitem. unfold probe. rewrite Hb.
  apply (fold_left_establishes (fun _ => True) (fun it c => fst it ∈ map fst c)); auto.
  - intros cands it _ _. split; [exact I|].
    destruct (candidates_mem (fst it) cands) eqn:E; [now apply candidates_mem_elem|].
    rewrite map_app. apply elem_of_app. right. simpl. apply elem_of_cons. now left.
  - intros cands it y _ _ Hy. destruct (candidates_mem (fst it) cands); [exact Hy|].
    rewrite map_app. apply elem_of_app. now left.
Qed.

Lemma lsh_candidates_ok (items : list (string * vec)) (idx : LSHIndex) (q : vec) :
  tables_sound items (lsh_tables idx) → candidates_ok items (lsh_candidates idx q).
Proof.
  intros Hs. unfold lsh_candidates.
  assert (Htable : ∀ t, ∀ sig bucket,
             default (∅ : gmap Z (list (string * vec))) (lsh_tables idx !! t) !! sig
             = Some bucket →
             ∀ it, it ∈ bucket → it ∈ items).
  { intros t sig bucket. destruct (lsh_tables idx !! t) as [table|] eqn:E; simpl.
    - unfold tables_sound in Hs. rewrite Forall_forall in Hs.
      apply (Hs table). now apply list_elem_of_lookup_2 in E.
    - rewrite lookup_empty. discriminate. }
  apply (fold_left_invariant (candidates_ok items)).
  - intros cands ip _ Hc. cbv zeta.
    apply (fold_left_invariant (candidates_ok items)).
    + intros cands' b _ Hc'. apply probe_ok; [apply Htable | exact Hc'].
    + apply probe_ok; [apply Htable | exact Hc].
  - split; [constructor | intros c Hc; inversion Hc].
Qed.

Lemma LSHIndex_query_candidates (idx : LSHIndex) (q : vec) (k : Z)
    (results : list (string * score)) :
  LSHIndex_query idx q k = Ok results →
  results = [] ∨
  results = slice_to k (sort_key_reverse score_leb snd
                          (map (fun c => (fst c, cosine_similarity q (snd c)))
                             (lsh_candidates idx q))).
Proof.
  unfold LSHIndex_query. destruct (k <=? 0); [intros [= <-]; now left|].
  destruct (_ && _); [discriminate|]. intros [= <-]. now right.
Qed.

Lemma LSHIndex_build_sound (self idx : LSHIndex) (vectors : list vec) (ids : list string) :
  LSHIndex_build self vectors ids = Ok idx →
  tables_sound (lsh_items vectors ids) (lsh_tables idx).
Proof.
  intros Hb. apply LSHIndex_build_fill in Hb.
  destruct Hb as (_ & _ & _ & _ & [(_ & _ & ->)|(_ & _ & ->)]); [constructor|].
  apply lsh_fill_sound.
  - intros vi Hvi. unfold lsh_items. apply list_elem_of_fmap. now exists vi.
  - unfold tables_sound. rewrite Forall_forall. intros table Ht.
    apply list_elem_of_fmap in Ht. destruct Ht as (? & -> & _).
    intros sig bucket H. rewrite lookup_empty in H. discriminate.
Qed.

(** X8.  An LSH query never returns an id twice, and every pair it
    returns is a stored id with the cosine similarity between the query
    and the vector stored under that id. *)
Theorem X8_lsh_query_sound (self idx : LSHIndex) (vectors : list vec) (ids : list string)
    (q : vec) (k : Z) (results : list (string * score)) :
  LSHIndex_build self vectors ids = Ok idx →
  LSHIndex_query idx q k = Ok results →
  NoDup (map fst results)
  ∧ ∀ cs, cs ∈ results →
          ∃ v, (v, fst cs) ∈ zip vectors ids ∧ snd cs = cosine_similarity q v.
Proof.
  intros Hb Hq. apply LSHIndex_build_sound in Hb.
  apply (lsh_candidates_ok _ idx q) in Hb. destruct Hb as [Hnd Hin].
  apply LSHIndex_query_candidates in Hq.
  destruct Hq as [->| ->]; [split; [constructor | intros cs H; inversion H]|].
  set (scores := map (fun c : string * vec => (fst c, cosine_similarity q (snd c)))
                   (lsh_candidates idx q)).
  assert (Hperm : Permutation (sort_key_reverse score_leb snd scores) scores)
    by apply sort_by_Permutation.
  split.
  - unfold slice_to. rewrite <- firstn_map.
    apply (sublist_NoDup _ (map fst (sort_key_reverse score_leb snd scores)));
      [|apply sublist_take].
    rewrite Hperm. unfold scores. rewrite map_map. simpl. exact Hnd.
  - intros cs Hcs. apply elem_of_slice_to in Hcs. rewrite Hperm in Hcs.
    apply list_elem_of_fmap in Hcs. destruct Hcs as (c & -> & Hc). simpl.
    apply Hin in Hc. apply list_elem_of_fmap in Hc. destruct Hc as ([v i] & -> & Hvi).
    simpl. exists v. auto.
Qed.

Lemma lsh_candidates_finds (idx : LSHIndex) (q : vec) (item : string * vec) :
  (∃ t pl, lsh_planes idx !! t = Some pl
           ∧ bucket_holds (lsh_tables idx) t (_hash q pl) item) →
  fst item ∈ map fst (lsh_candidates idx q).
Proof.
  intros (t & pl & Hpl & table & bucket & Ht & Hb & Hitem). unfold lsh_candidates.
  apply (fold_left_establishes (fun _ => True)
           (fun (ip : nat * list vec) c =>
              ip = (t, pl) → fst item ∈ map fst c)
           _ (enumerate (lsh_planes idx)) [] ) with (x := (t, pl)); auto.
  - intros cands ip _ _. split; [exact I|]. intros ->. cbv zeta. simpl.
    apply (fold_left_invariant (fun c => fst item ∈ map fst c)).
    + intros c b _ Hc. now apply probe_keeps.
    + rewrite Ht. simpl. exact (probe_finds table _ cands bucket item Hb Hitem).
  - intros cands ip y _ _ Hy Hy'. specialize (Hy Hy'). cbv zeta.
    apply (fold_left_invariant (fun c => fst item ∈ map fst c)).
    + intros c b _ Hc. now apply probe_keeps.
    + now apply probe_keeps.
  - now apply elem_of_enumerate.
Qed.

(** X9.  An LSH index with at least one table finds what it stores: a
    query with a stored vector, asking for at least as many results as
    there are vectors, returns the id that vector was stored under. *)
Theorem X9_lsh_finds_stored_vector (self idx : LSHIndex) (vectors : list vec)
    (ids : list string) (v : vec) (vec_id : string) (k : Z) :
  LSHIndex_build self vectors ids = Ok idx →
  1 <= lsh_tables_count self →
  (v, vec_id) ∈ zip vectors ids →
  Z.of_nat (length vectors) <= k →
  ∃ results, LSHIndex_query idx v k = Ok results ∧ vec_id ∈ map fst results.
Proof.
  intros Hb Htables Hv Hk.
  pose proof (LSHIndex_build_sound _ _ _ _ Hb) as Hsound.
  apply (lsh_candidates_ok _ idx v) in Hsound. destruct Hsound as [Hnd Hin].
  apply LSHIndex_build_fill in Hb.
  destruct Hb as (Hlen & Hdim & _ & Hd & [(-> & _)|(Hne & Hpl & Hfill)]); [inversion Hv|].
  assert (Hvlen : length v = lsh_dim idx).
  { rewrite Hd. rewrite Forall_forall in Hdim. apply Hdim.
    now apply zip_fst_in in Hv. }
  assert (Hkpos : 0 < k).
  { destruct vectors; [congruence | simpl in Hk; lia]. }
  unfold LSHIndex_query.
  destruct (k <=? 0) eqn:Ek; [apply Z.leb_le in Ek; lia|].
  rewrite Hvlen, Nat.eqb_refl, andb_false_r.
  fold (lsh_candidates idx v).
  set (scores := map (fun c : string * vec => (fst c, cosine_similarity v (snd c)))
                   (lsh_candidates idx v)).
  eexists. split; [reflexivity|].
  assert (Hcount : (length (lsh_candidates idx v) <= length ids)%nat).
  { rewrite <- (length_map fst). apply submseteq_length, NoDup_submseteq; [exact Hnd|].
    intros x Hx. apply list_elem_of_fmap in Hx. destruct Hx as (c & -> & Hc).
    apply Hin in Hc. unfold lsh_items in Hc. apply list_elem_of_fmap in Hc.
    destruct Hc as (vi & -> & Hvi). simpl.
    now apply zip_snd_in in Hvi. }
  unfold slice_to. rewrite firstn_all2.
  2:{ unfold sort_key_reverse. rewrite sort_by_length. unfold scores.
      rewrite length_map. lia. }
  assert (Hperm : Permutation (sort_key_reverse score_leb snd scores) scores)
    by apply sort_by_Permutation.
  rewrite Hperm. unfold scores. rewrite map_map. simpl.
  apply (lsh_candidates_finds idx v (vec_id, v)).
  assert (Htl : length (map (fun _ : nat => (∅ : gmap Z (list (string * vec))))
                          (seq 0 (Z.to_nat (lsh_tables_count self))))
                = length (lsh_planes idx)).
  { now rewrite length_map, length_seq. }
  rewrite Hfill.
  destruct (lsh_planes idx) as [|pl pls] eqn:Epl; [simpl in Hpl; lia|].
  exists 0%nat, pl. split; [reflexivity|].
  apply (lsh_fill_holds (pl :: pls) (zip vectors ids) _ Htl (v, vec_id) 0%nat pl Hv).
  reflexivity.
Qed.

(** ** The store: cascading deletes *)

Lemma filter_filter {A} (f g : A → bool) (l : list A) :
  List.filter f (List.filter g l) = List.filter (fun x => g x && f x) l.
Proof.
  induction l as [|x l IH]; simpl; [reflexivity|].
  destruct (g x); simpl; [destruct (f x)|]; now rewrite IH.
Qed.

Lemma filter_ext_elem {A} (f g : A → bool) (l : list A) :
  (∀ x, x ∈ l → f x = g x) → List.filter f l = List.filter g l.
Proof.
  intros H. apply filter_ext_in. intros x Hx. apply H. now apply list_elem_of_In.
Qed.

Lemma map_snd_filter {A} (P : A → bool) (d : dict A) :
  map snd (List.filter (fun kv => P (snd kv)) d) = List.filter P (map snd d).
Proof.
  induction d as [|kv d IH]; simpl; [reflexivity|].
  destruct (P (snd kv)); simpl; now rewrite IH.
Qed.

Lemma dict_pop_all_filter {A} (ks : list string) (d : dict A) :
  fold_left (fun t k => dict_pop k t) ks d
  = List.filter (fun kv => negb (existsb (String.eqb (fst kv)) ks)) d.
Proof.
  revert d. induction ks as [|k ks IH]; intros d; simpl.
  - symmetry. now apply filter_all_true.
  - rewrite IH. unfold dict_pop. rewrite filter_filter.
    apply filter_ext_elem. intros kv _. rewrite negb_orb.
    now rewrite (String.eqb_sym k (fst kv)).
Qed.

Lemma table_wf_unique {A} (id : A → string) (d : dict A) (kv : string * A) (v : A) :
  table_wf id d → kv ∈ d → v ∈ dict_values d → id v = fst kv → v = snd kv.
Proof.
  intros [Hkey Hnd] Hkv Hv Hid. apply elem_of_dict_values in Hv. destruct Hv as [k Hk].
  pose proof (Hkey _ Hk) as Ek. simpl in Ek.
  destruct kv as [k' v']. simpl in *.
  assert (Hkk : k = k') by congruence.
  pose proof (dict_elem_get_NoDup k v d Hnd Hk) as H1.
  pose proof (dict_elem_get_NoDup k' v' d Hnd Hkv) as H2.
  rewrite Hkk in H1. congruence.
Qed.

(** Removing, key by key, the records selected by [sel] leaves the
    records not selected, in their order. *)
Lemma pop_selected {A} (id : A → string) (sel : A → bool) (d : dict A) :
  table_wf id d →
  fold_left (fun t k => dict_pop k t) (map id (List.filter sel (dict_values d))) d
  = List.filter (fun kv => negb (sel (snd kv))) d.
Proof.
  intros Hwf. rewrite dict_pop_all_filter. apply filter_ext_elem. intros kv Hkv. f_equal.
  destruct (sel (snd kv)) eqn:Es.
  - apply existsb_eqb_elem. apply list_elem_of_fmap. exists (snd kv). split.
    + apply (proj1 Hwf). exact Hkv.
    + apply list_elem_of_In, filter_In. split; [|exact Es].
      apply list_elem_of_In, elem_of_dict_values. exists (fst kv). now destruct kv.
  - apply not_true_is_false. intros H. apply existsb_eqb_elem in H.
    apply list_elem_of_fmap in H. destruct H as (v & Hid & Hv).
    apply list_elem_of_In, filter_In in Hv. destruct Hv as [Hv Hsel].
    apply list_elem_of_In in Hv.
    rewrite (table_wf_unique id d kv v Hwf Hkv Hv (eq_sym Hid)) in Hsel. congruence.
Qed.

Lemma dict_get_filter_keep {A} (P : string * A → bool) (k : string) (d : dict A) :
  (∀ v, P (k, v) = true) → dict_get k (List.filter P d) = dict_get k d.
Proof.
  intros HP. induction d as [|[k' v'] d IH]; simpl; [reflexivity|].
  destruct (String.eqb_spec k k') as [<-|Hne].
  - rewrite HP. simpl. now rewrite String.eqb_refl.
  - destruct (P (k', v')); simpl; [|exact IH].
    destruct (String.eqb_spec k k'); [contradiction | exact IH].
Qed.

Lemma doc_in_one_library (docs : dict Document) (library_id library_id' : string) (x : string) :
  table_wf doc_id docs →
  x ∈ map doc_id (List.filter (fun d => String.eqb (doc_library_id d) library_id)
                    (dict_values docs)) →
  x ∈ map doc_id (List.filter (fun d => String.eqb (doc_library_id d) library_id')
                    (dict_values docs)) →
  library_id = library_id'.
Proof.
  intros Hwf H1 H2.
  apply list_elem_of_fmap in H1. destruct H1 as (d1 & -> & Hd1).
  apply list_elem_of_fmap in H2. destruct H2 as (d2 & Hid & Hd2).
  apply list_elem_of_In, filter_In in Hd1. destruct Hd1 as [Hd1 Hl1].
  apply list_elem_of_In, filter_In in Hd2. destruct Hd2 as [Hd2 Hl2].
  apply list_elem_of_In in Hd1, Hd2. apply String.eqb_eq in Hl1, Hl2.
  pose proof Hd1 as Hk. apply elem_of_dict_values in Hk. destruct Hk as [k Hk].
  pose proof (proj1 Hwf _ Hk) as Ek. simpl in Ek.
  assert (d2 = d1).
  { apply (table_wf_unique doc_id docs (k, d1) d2 Hwf Hk Hd2). simpl. congruence. }
  subst d2. congruence.
Qed.

Lemma NoDup_keys_filter {A} (P : string * A → bool) (d : dict A) :
  NoDup (map fst d) → NoDup (map fst (List.filter P d)).
Proof.
  induction d as [|kv d IH]; simpl; [auto|].
  intros H. apply NoDup_cons in H. destruct H as [Hk Hnd].
  destruct (P kv); simpl; [|now apply IH].
  apply NoDup_cons. split; [|now apply IH].
  intros Hin. apply Hk. apply list_elem_of_fmap in Hin. destruct Hin as (x & -> & Hx).
  apply list_elem_of_In, filter_In in Hx. destruct Hx as [Hx _].
  apply list_elem_of_fmap. exists x. split; [reflexivity | now apply list_elem_of_In].
Qed.

(** X10.  In a store whose tables are keyed by the records' ids,
    [delete_library] removes the library with all its documents and
    chunks and nothing else: afterwards the library is gone and lists no
    document and no chunk, while every other library, its document list
    and its chunk list are as before. *)
Theorem X10_delete_library_cascades (library_id : string) (r : InMemoryRepository) :
  store_wf r →
  let r' := repo_delete_library library_id r in
  repo_get_library library_id r' = None
  ∧ repo_list_documents library_id r' = []
  ∧ repo_list_chunks library_id r' = []
  ∧ ∀ other, other ≠ library_id →
      repo_get_library other r' = repo_get_library other r
      ∧ repo_list_documents other r' = repo_list_documents other r
      ∧ repo_list_chunks other r' = repo_list_chunks other r.
Proof.
  intros (Hl & Hd & Hc). destruct r as [libs docs chunks]. simpl in Hl, Hd, Hc.
  cbv zeta. unfold repo_delete_library, repo_get_library, repo_list_documents,
    repo_list_chunks. cbn [_libraries _documents _chunks].
  rewrite (pop_selected doc_id (fun d => String.eqb (doc_library_id d) library_id) docs Hd).
  set (D := map doc_id (List.filter (fun d => String.eqb (doc_library_id d) library_id)
                          (dict_values docs))).
  rewrite (pop_selected chunk_id (fun c => existsb (String.eqb (chunk_document_id c)) D)
             chunks Hc).
  unfold dict_values in *.
  rewrite (map_snd_filter (fun d => negb (String.eqb (doc_library_id d) library_id)) docs).
  rewrite (map_snd_filter (fun c => negb (existsb (String.eqb (chunk_document_id c)) D))
             chunks).
  assert (Hnone : List.filter (fun d => String.eqb (doc_library_id d) library_id)
                    (List.filter (fun d => negb (String.eqb (doc_library_id d) library_id))
                       (map snd docs)) = []).
  { rewrite filter_filter. apply filter_all_false. intros d _.
    destruct (String.eqb (doc_library_id d) library_id); reflexivity. }
  assert (Hother : ∀ other, other ≠ library_id →
             List.filter (fun d => String.eqb (doc_library_id d) other)
               (List.filter (fun d => negb (String.eqb (doc_library_id d) library_id))
                  (map snd docs))
             = List.filter (fun d => String.eqb (doc_library_id d) other) (map snd docs)).
  { intros other Hne. rewrite filter_filter. apply filter_ext_elem. intros d _.
    destruct (String.eqb_spec (doc_library_id d) other) as [->|]; simpl.
    - apply String.eqb_neq in Hne. rewrite Hne. reflexivity.
    - apply andb_false_r. }
  split; [apply dict_get_pop_eq|]. split; [exact Hnone|]. split.
  - rewrite Hnone. simpl. now apply filter_all_false.
  - intros other Hne. split; [now apply dict_get_pop_ne|]. split; [now apply Hother|].
    rewrite (Hother other Hne). rewrite filter_filter. apply filter_ext_elem.
    intros c _.
    destruct (existsb (String.eqb (chunk_document_id c))
                (map doc_id (List.filter (fun d => String.eqb (doc_library_id d) other)
                               (map snd docs)))) eqn:E;
      [|apply andb_false_r].
    rewrite andb_true_r. apply negb_true_iff, not_true_is_false. intros E'.
    apply existsb_eqb_elem in E, E'. apply Hne.
    exact (doc_in_one_library docs other library_id _ Hd E E').
Qed.

(** X11.  In a store whose tables are keyed by the records' ids,
    [delete_document] removes the document and exactly the chunks that
    name it: the libraries and every other document are untouched, and
    the chunks left are the chunks of other documents, in their order. *)
Theorem X11_delete_document_cascades (document_id : string) (r : InMemoryRepository) :
  store_wf r →
  let r' := repo_delete_document document_id r in
  repo_get_document document_id r' = None
  ∧ _libraries r' = _libraries r
  ∧ (∀ other, other ≠ document_id → repo_get_document other r' = repo_get_document other r)
  ∧ dict_values (_chunks r')
    = List.filter (fun c => negb (String.eqb (chunk_document_id c) document_id))
        (dict_values (_chunks r))
  ∧ ∀ chunk_id c, repo_get_chunk chunk_id r = Some c →
      chunk_document_id c ≠ document_id → repo_get_chunk chunk_id r' = Some c.
Proof.
  intros (Hl & Hd & Hc). destruct r as [libs docs chunks]. simpl in Hl, Hd, Hc.
  cbv zeta. unfold repo_delete_document, repo_get_document, repo_get_chunk.
  cbn [_libraries _documents _chunks].
  rewrite (pop_selected chunk_id (fun c => String.eqb (chunk_document_id c) document_id)
             chunks Hc).
  split; [apply dict_get_pop_eq|]. split; [reflexivity|].
  split; [intros other Hne; now apply dict_get_pop_ne|].
  split.
  - unfold dict_values.
    apply (map_snd_filter (fun c => negb (String.eqb (chunk_document_id c) document_id))).
  - intros cid c Hget Hne.
    assert (Hin : (cid, c) ∈ List.filter
                     (fun kv : string * Chunk =>
                        negb (String.eqb (chunk_document_id (snd kv)) document_id)) chunks).
    { apply list_elem_of_In, filter_In. split.
      - apply list_elem_of_In. now apply dict_get_Some_elem.
      - simpl. now apply negb_true_iff, String.eqb_neq. }
    apply dict_elem_get_NoDup; [|exact Hin].
    apply NoDup_keys_filter. exact (proj2 Hc).
Qed.

(** ** The store: create, get, list *)

Lemma dict_values_set_fresh {A} (k : string) (v : A) (d : dict A) :
  dict_get k d = None → dict_values (dict_set k v d) = dict_values d ++ [v].
Proof.
  intros H. unfold dict_values. rewrite dict_set_fresh; [now rewrite map_app|].
  intros Hin. apply list_elem_of_fmap in Hin. destruct Hin as ([k' v'] & -> & Hkv).
  apply dict_elem_get in Hkv. simpl in H. rewrite H in Hkv. destruct Hkv. discriminate.
Qed.

(** X12.  A record created under an unused id is returned by [get] and
    comes last in the listing: the libraries are listed in creation
    order, and so are the documents and the chunks of a library. *)
Theorem X12_created_record_is_listed_last (r : InMemoryRepository) :
  (∀ library, repo_get_library (lib_id library) r = None →
      repo_get_library (lib_id library) (repo_create_library library r) = Some library
      ∧ repo_list_libraries (repo_create_library library r)
        = repo_list_libraries r ++ [library])
  ∧ (∀ document, repo_get_document (doc_id document) r = None →
      repo_get_document (doc_id document) (repo_create_document document r) = Some document
      ∧ repo_list_documents (doc_library_id document) (repo_create_document document r)
        = repo_list_documents (doc_library_id document) r ++ [document])
  ∧ (∀ chunk document,
      repo_get_chunk (chunk_id chunk) r = None →
      document ∈ dict_values (_documents r) →
      doc_id document = chunk_document_id chunk →
      repo_get_chunk (chunk_id chunk) (repo_create_chunk chunk r) = Some chunk
      ∧ repo_list_chunks (doc_library_id document) (repo_create_chunk chunk r)
        = repo_list_chunks (doc_library_id document) r ++ [chunk]).
Proof.
  split; [|split].
  - intros library Hfresh. unfold repo_get_library, repo_list_libraries, repo_create_library.
    simpl. split; [apply dict_get_set_eq | now apply dict_values_set_fresh].
  - intros document Hfresh.
    unfold repo_get_document, repo_list_documents, repo_create_document. simpl.
    split; [apply dict_get_set_eq|].
    rewrite dict_values_set_fresh by exact Hfresh.
    rewrite List.filter_app. simpl. now rewrite String.eqb_refl.
  - intros chunk document Hfresh Hdoc Hid.
    unfold repo_get_chunk, repo_list_chunks, repo_create_chunk. simpl.
    split; [apply dict_get_set_eq|].
    rewrite dict_values_set_fresh by exact Hfresh.
    rewrite List.filter_app. simpl.
    assert (H : existsb (String.eqb (chunk_document_id chunk))
                  (map doc_id
                     (List.filter
                        (fun d => String.eqb (doc_library_id d) (doc_library_id document))
                        (dict_values (_documents r)))) = true).
    { apply existsb_eqb_elem. rewrite <- Hid. apply list_elem_of_fmap. exists document.
      split; [reflexivity|]. apply list_elem_of_In, filter_In.
      split; [now apply list_elem_of_In | apply String.eqb_refl]. }
    now rewrite H.
Qed.


(** ** The services: missing resources *)

(** X13.  A service call that names a library, document or chunk that is
    not in the store raises [ResourceNotFoundException] with the kind and
    the id of the resource and leaves the state as it was; so does
    [create_chunk] for a document that belongs to another library. *)
Theorem X13_missing_resource_raises (w : World) :
  (∀ library_id, repo_get_library library_id (repository w) = None →
     LibraryService_get_library library_id w
     = (Raise (ResourceNotFoundException "Library" library_id), w)
     ∧ (∀ name description metadata,
          LibraryService_update_library library_id name description metadata w
          = (Raise (ResourceNotFoundException "Library" library_id), w))
     ∧ (∀ new_id title description metadata,
          DocumentService_create_document new_id library_id title description metadata w
          = (Raise (ResourceNotFoundException "Library" library_id), w)))
  ∧ (∀ document_id, repo_get_document document_id (repository w) = None →
       DocumentService_get_document document_id w
       = (Raise (ResourceNotFoundException "Document" document_id), w)
       ∧ (∀ title description metadata,
            DocumentService_update_document document_id title description metadata w
            = (Raise (ResourceNotFoundException "Document" document_id), w))
       ∧ (∀ new_id library_id text embedding metadata,
            ChunkService_create_chunk new_id library_id document_id text embedding metadata w
            = (Raise (ResourceNotFoundException "Document" document_id), w)))
  ∧ (∀ document_id document library_id,
       repo_get_document document_id (repository w) = Some document →
       doc_library_id document ≠ library_id →
       ∀ new_id text embedding metadata,
         ChunkService_create_chunk new_id library_id document_id text embedding metadata w
         = (Raise (ResourceNotFoundException "Document" document_id), w))
  ∧ (∀ chunk_id, repo_get_chunk chunk_id (repository w) = None →
       ChunkService_get_chunk chunk_id w
       = (Raise (ResourceNotFoundException "Chunk" chunk_id), w)
       ∧ (∀ text embedding metadata,
            ChunkService_update_chunk chunk_id text embedding metadata w
            = (Raise (ResourceNotFoundException "Chunk" chunk_id), w))).
Proof.
  split; [|split; [|split]].
  - intros library_id H.
    assert (Hget : LibraryService_get_library library_id w
                   = (Raise (ResourceNotFoundException "Library" library_id), w)).
    { unfold LibraryService_get_library, bind, repo_read, raise. now rewrite H. }
    split; [exact Hget|]. split.
    + intros name description metadata. unfold LibraryService_update_library, bind.
      now rewrite Hget.
    + intros new_id title description metadata.
      unfold DocumentService_create_document, bind, repo_read, raise. now rewrite H.
  - intros document_id H.
    assert (Hget : DocumentService_get_document document_id w
                   = (Raise (ResourceNotFoundException "Document" document_id), w)).
    { unfold DocumentService_get_document, bind, repo_read, raise. now rewrite H. }
    split; [exact Hget|]. split.
    + intros title description metadata. unfold DocumentService_update_document, bind.
      now rewrite Hget.
    + intros new_id library_id text embedding metadata.
      unfold ChunkService_create_chunk, bind, repo_read, raise. now rewrite H.
  - intros document_id document library_id H Hne new_id text embedding metadata.
    unfold ChunkService_create_chunk, bind, repo_read, raise. rewrite H.
    apply String.eqb_neq in Hne. now rewrite Hne.
  - intros chunk_id H.
    assert (Hget : ChunkService_get_chunk chunk_id w
                   = (Raise (ResourceNotFoundException "Chunk" chunk_id), w)).
    { unfold ChunkService_get_chunk, bind, repo_read, raise. now rewrite H. }
    split; [exact Hget|].
    intros text embedding metadata. unfold ChunkService_update_chunk, bind.
    now rewrite Hget.
Qed.

(** ** The services: deleting what is not there *)

Lemma dict_pop_missing {A} (k : string) (d : dict A) :
  dict_get k d = None → dict_pop k d = d.
Proof.
  intros H. unfold dict_pop. apply filter_all_true. intros [k' v] Hkv. simpl.
  apply negb_true_iff, String.eqb_neq. intros ->.
  apply dict_elem_get in Hkv. rewrite H in Hkv. destruct Hkv. discriminate.
Qed.

Lemma no_documents_of_missing_library (library_id : string) (r : InMemoryRepository) :
  referential_integrity r → repo_get_library library_id r = None →
  List.filter (fun d => String.eqb (doc_library_id d) library_id) (dict_values (_documents r))
  = [].
Proof.
  intros [R1 _] H. apply filter_all_false. intros d Hd.
  apply String.eqb_neq. intros E. specialize (R1 d Hd). rewrite E, H in R1.
  destruct R1. discriminate.
Qed.

Lemma no_chunks_of_missing_document (document_id : string) (r : InMemoryRepository) :
  referential_integrity r → repo_get_document document_id r = None →
  List.filter (fun c => String.eqb (chunk_document_id c) document_id)
    (dict_values (_chunks r)) = [].
Proof.
  intros [_ R2] H. apply filter_all_false. intros c Hc.
  apply String.eqb_neq. intros E. specialize (R2 c Hc). rewrite E, H in R2.
  destruct R2. discriminate.
Qed.

Lemma delete_library_missing (library_id : string) (r : InMemoryRepository) :
  referential_integrity r → repo_get_library library_id r = None →
  repo_delete_library library_id r = r.
Proof.
  intros HR H. unfold repo_delete_library.
  rewrite (no_documents_of_missing_library library_id r HR H). simpl.
  rewrite (filter_all_false _ (dict_values (_chunks r))) by reflexivity. simpl.
  unfold repo_get_library in H. rewrite (dict_pop_missing _ _ H). now destruct r.
Qed.

Lemma delete_document_missing (document_id : string) (r : InMemoryRepository) :
  referential_integrity r → repo_get_document document_id r = None →
  repo_delete_document document_id r = r.
Proof.
  intros HR H. unfold repo_delete_document.
  rewrite (no_chunks_of_missing_document document_id r HR H). simpl.
  unfold repo_get_document in H. rewrite (dict_pop_missing _ _ H). now destruct r.
Qed.

Lemma delete_chunk_missing (chunk_id : string) (r : InMemoryRepository) :
  repo_get_chunk chunk_id r = None → repo_delete_chunk chunk_id r = r.
Proof.
  intros H. unfold repo_delete_chunk. unfold repo_get_chunk in H.
  rewrite (dict_pop_missing _ _ H). now destruct r.
Qed.

Lemma repo_write_id (f : InMemoryRepository → InMemoryRepository) (w : World) :
  f (repository w) = repository w → repo_write f w = (Ok tt, w).
Proof. intros H. unfold repo_write. rewrite H. now destruct w. Qed.

(** X14.  The service deletes are idempotent.  In a store that keeps
    referential integrity, deleting a library, document or chunk id that
    is not in the store returns normally and changes nothing, and a
    delete repeated gives the result and the state of one delete. *)
Theorem X14_delete_is_idempotent (w : World) :
  store_inv (repository w) →
  (∀ library_id,
     (repo_get_library library_id (repository w) = None →
      LibraryService_delete_library library_id w = (Ok tt, w))
     ∧ LibraryService_delete_library library_id
         (snd (LibraryService_delete_library library_id w))
       = LibraryService_delete_library library_id w)
  ∧ (∀ document_id,
       (repo_get_document document_id (repository w) = None →
        DocumentService_delete_document document_id w = (Ok tt, w))
       ∧ DocumentService_delete_document document_id
           (snd (DocumentService_delete_document document_id w))
         = DocumentService_delete_document document_id w)
  ∧ (∀ chunk_id,
       (repo_get_chunk chunk_id (repository w) = None →
        ChunkService_delete_chunk chunk_id w = (Ok tt, w))
       ∧ ChunkService_delete_chunk chunk_id (snd (ChunkService_delete_chunk chunk_id w))
         = ChunkService_delete_chunk chunk_id w).
Proof.
  intros Hinv. pose proof Hinv as [Hwf HR].
  destruct w as [[libs docs chunks] idx meta fs]. cbn [repository] in *.
  split; [|split].
  - intros library_id. split.
    + intros H. apply repo_write_id. now apply delete_library_missing.
    + unfold LibraryService_delete_library.
      rewrite (repo_write_id _ (snd _)); [reflexivity|].
      apply delete_library_missing.
      * exact (proj2 (inv_delete_library libs docs chunks Hinv library_id)).
      * apply dict_get_pop_eq.
  - intros document_id. split.
    + intros H. apply repo_write_id. now apply delete_document_missing.
    + unfold DocumentService_delete_document.
      rewrite (repo_write_id _ (snd _)); [reflexivity|].
      apply delete_document_missing.
      * exact (proj2 (inv_delete_document libs docs chunks Hinv document_id)).
      * apply dict_get_pop_eq.
  - intros chunk_id. split.
    + intros H. apply repo_write_id. now apply delete_chunk_missing.
    + unfold ChunkService_delete_chunk.
      rewrite (repo_write_id _ (snd _)); [reflexivity|].
      apply delete_chunk_missing. apply dict_get_pop_eq.
Qed.

(** ** The services: updates *)

Lemma dict_set_assign {A} (k : string) (v : A) (f : A → A) (d : dict A) :
  dict_set k v (dict_assign k f d) = dict_set k v d.
Proof.
  induction d as [|kv d IH]; simpl; [reflexivity|].
  destruct (String.eqb k (fst kv)) eqn:E; simpl; rewrite E; [reflexivity | now rewrite IH].
Qed.

Lemma dict_set_same {A} (k : string) (v : A) (d : dict A) :
  dict_get k d = Some v → dict_set k v d = d.
Proof.
  induction d as [|[k' v'] d IH]; simpl; [discriminate|].
  destruct (String.eqb_spec k k') as [->|Hne].
  - now intros [= ->].
  - intros H. now rewrite IH.
Qed.

Lemma table_wf_key {A} (id : A → string) (d : dict A) (k : string) (v : A) :
  table_wf id d → dict_get k d = Some v → k = id v.
Proof. intros [Hkey _] H. apply dict_get_Some_elem in H. exact (Hkey _ H). Qed.

Lemma update_library_world (w : World) (library_id : string) (name description : option string)
    (metadata : option (gmap string string)) (l : Library) :
  store_wf (repository w) →
  repo_get_library library_id (repository w) = Some l →
  LibraryService_update_library library_id name description metadata w
  = (Ok (updated_library name description metadata l),
     with_libraries (dict_set library_id (updated_library name description metadata l)
                       (_libraries (repository w))) w).
Proof.
  intros (Hl & _ & _) Hget. destruct w as [[libs docs chunks] idx meta fs].
  cbn [repository _libraries] in *.
  pose proof (table_wf_key lib_id libs library_id l Hl Hget) as Hid.
  unfold LibraryService_update_library, LibraryService_get_library, bind, repo_read, ret,
    raise, assign_library, repo_write, repo_update_library, repo_get_library.
  cbn [repository _libraries _documents _chunks _indices _index_meta files].
  unfold repo_get_library in Hget. cbn [_libraries] in Hget. rewrite Hget.
  unfold with_libraries, updated_library.
  destruct l; destruct name, description, metadata; unfold set_lib_name, set_lib_description, set_lib_metadata; simpl in *;
    rewrite <- ?Hid, ?dict_set_assign; reflexivity.
Qed.

Lemma update_document_world (w : World) (document_id : string)
    (title description : option string) (metadata : option (gmap string string))
    (d : Document) :
  store_wf (repository w) →
  repo_get_document document_id (repository w) = Some d →
  DocumentService_update_document document_id title description metadata w
  = (Ok (updated_document title description metadata d),
     with_documents (dict_set document_id (updated_document title description metadata d)
                       (_documents (repository w))) w).
Proof.
  intros (_ & Hd & _) Hget. destruct w as [[libs docs chunks] idx meta fs].
  cbn [repository _documents] in *.
  pose proof (table_wf_key doc_id docs document_id d Hd Hget) as Hid.
  unfold DocumentService_update_document, DocumentService_get_document, bind, repo_read, ret,
    raise, assign_document, repo_write, repo_update_document, repo_get_document.
  cbn [repository _libraries _documents _chunks _indices _index_meta files].
  unfold repo_get_document in Hget. cbn [_documents] in Hget. rewrite Hget.
  unfold with_documents, updated_document.
  destruct d; destruct title, description, metadata; unfold set_doc_title, set_doc_description, set_doc_metadata; simpl in *;
    rewrite <- ?Hid, ?dict_set_assign; reflexivity.
Qed.

(** [update_chunk] when the embedding is left alone. *)
Lemma update_chunk_world (w : World) (key : string) (text : option string)
    (metadata : option (gmap string string)) (c : Chunk) :
  store_wf (repository w) →
  repo_get_chunk key (repository w) = Some c →
  ChunkService_update_chunk key text None metadata w
  = (Ok (updated_chunk text None metadata c),
     with_chunks (dict_set key (updated_chunk text None metadata c)
                    (_chunks (repository w))) w).
Proof.
  intros (_ & _ & Hc) Hget. destruct w as [[libs docs chunks] idx meta fs].
  cbn [repository _chunks] in *.
  pose proof (table_wf_key chunk_id chunks key c Hc Hget) as Hid.
  unfold ChunkService_update_chunk, ChunkService_get_chunk, bind, repo_read, ret,
    raise, assign_chunk, repo_write, repo_update_chunk, repo_get_chunk.
  cbn [repository _libraries _documents _chunks _indices _index_meta files].
  unfold repo_get_chunk in Hget. cbn [_chunks] in Hget. rewrite Hget.
  unfold with_chunks, updated_chunk.
  destruct c; destruct text, metadata; unfold set_chunk_text, set_chunk_metadata; simpl in *;
    rewrite <- ?Hid, ?dict_set_assign; reflexivity.
Qed.

(** X15.  In a store whose tables are keyed by the records' ids, an
    update of a stored library, document or chunk (the chunk's embedding
    left alone) returns the record with the given fields replaced and
    every other field kept: the id, the parent, the library's
    [embedding_dim].  Afterwards [get] of that id returns the new record,
    [get] of every other id is unchanged and so are the other two
    tables; an update that gives no field changes nothing. *)
Theorem X15_update_replaces_given_fields (w : World) :
  store_wf (repository w) →
  (∀ library_id l name description metadata,
     repo_get_library library_id (repository w) = Some l →
     ∃ w', LibraryService_update_library library_id name description metadata w
           = (Ok (updated_library name description metadata l), w')
           ∧ repo_get_library library_id (repository w')
             = Some (updated_library name description metadata l)
           ∧ (∀ other, other ≠ library_id →
                repo_get_library other (repository w') = repo_get_library other (repository w))
           ∧ _documents (repository w') = _documents (repository w)
           ∧ _chunks (repository w') = _chunks (repository w)
           ∧ (name = None → description = None → metadata = None → w' = w))
  ∧ (∀ document_id d title description metadata,
       repo_get_document document_id (repository w) = Some d →
       ∃ w', DocumentService_update_document document_id title description metadata w
             = (Ok (updated_document title description metadata d), w')
             ∧ repo_get_document document_id (repository w')
               = Some (updated_document title description metadata d)
             ∧ (∀ other, other ≠ document_id →
                  repo_get_document other (repository w')
                  = repo_get_document other (repository w))
             ∧ _libraries (repository w') = _libraries (repository w)
             ∧ _chunks (repository w') = _chunks (repository w)
             ∧ (title = None → description = None → metadata = None → w' = w))
  ∧ (∀ chunk_id c text metadata,
       repo_get_chunk chunk_id (repository w) = Some c →
       ∃ w', ChunkService_update_chunk chunk_id text None metadata w
             = (Ok (updated_chunk text None metadata c), w')
             ∧ repo_get_chunk chunk_id (repository w')
               = Some (updated_chunk text None metadata c)
             ∧ (∀ other, other ≠ chunk_id →
                  repo_get_chunk other (repository w') = repo_get_chunk other (repository w))
             ∧ _libraries (repository w') = _libraries (repository w)
             ∧ _documents (repository w') = _documents (repository w)
             ∧ (text = None → metadata = None → w' = w)).
Proof.
  intros Hwf. split; [|split].
  - intros library_id l name description metadata Hget.
    eexists. split; [exact (update_library_world w library_id name description metadata l Hwf Hget)|].
    unfold with_libraries, repo_get_library. cbn [repository _libraries _documents _chunks].
    split; [apply dict_get_set_eq|]. split; [intros other Hne; now apply dict_get_set_ne|].
    split; [reflexivity|]. split; [reflexivity|].
    intros -> -> ->. unfold updated_library. simpl.
    rewrite (dict_set_same library_id _ (_libraries (repository w))).
    + now destruct w as [[] ? ? ?].
    + unfold repo_get_library in Hget. rewrite Hget. now destruct l.
  - intros document_id d title description metadata Hget.
    eexists. split; [exact (update_document_world w document_id title description metadata d Hwf Hget)|].
    unfold with_documents, repo_get_document. cbn [repository _libraries _documents _chunks].
    split; [apply dict_get_set_eq|]. split; [intros other Hne; now apply dict_get_set_ne|].
    split; [reflexivity|]. split; [reflexivity|].
    intros -> -> ->. unfold updated_document. simpl.
    rewrite (dict_set_same document_id _ (_documents (repository w))).
    + now destruct w as [[] ? ? ?].
    + unfold repo_get_document in Hget. rewrite Hget. now destruct d.
  - intros chunk_id c text metadata Hget.
    eexists. split; [exact (update_chunk_world w chunk_id text metadata c Hwf Hget)|].
    unfold with_chunks, repo_get_chunk. cbn [repository _libraries _documents _chunks].
    split; [apply dict_get_set_eq|]. split; [intros other Hne; now apply dict_get_set_ne|].
    split; [reflexivity|]. split; [reflexivity|].
    intros -> ->. unfold updated_chunk. simpl.
    rewrite (dict_set_same chunk_id _ (_chunks (repository w))).
    + now destruct w as [[] ? ? ?].
    + unfold repo_get_chunk in Hget. rewrite Hget. now destruct c.
Qed.

(** ** One embedding dimension per library *)

Lemma dict_get_pop_Some {A} (k k' : string) (d : dict A) (v : A) :
  dict_get k (dict_pop k' d) = Some v → dict_get k d = Some v.
Proof.
  destruct (string_dec k' k) as [->|Hne].
  - rewrite dict_get_pop_eq. discriminate.
  - now rewrite dict_get_pop_ne.
Qed.

Lemma dict_get_pop_all_Some {A} (ks : list string) (k : string) (d : dict A) (v : A) :
  dict_get k (fold_left (fun t k => dict_pop k t) ks d) = Some v → dict_get k d = Some v.
Proof.
  revert d. induction ks as [|k0 ks IH]; intros d; simpl; [auto|].
  intros H. apply IH in H. now apply dict_get_pop_Some in H.
Qed.

Lemma dict_values_pop_all {A} (ks : list string) (d : dict A) (v : A) :
  v ∈ dict_values (fold_left (fun t k => dict_pop k t) ks d) → v ∈ dict_values d.
Proof.
  isolate.
  rewrite !elem_of_dict_values. intros [k H]. apply elem_of_pop_all in H. exists k. tauto.
Qed.

Lemma dict_values_pop {A} (k : string) (d : dict A) (v : A) :
  v ∈ dict_values (dict_pop k d) → v ∈ dict_values d.
Proof.
  isolate.
  rewrite !elem_of_dict_values. intros [k' H]. apply elem_of_dict_pop in H. exists k'. tauto.
Qed.

Lemma dict_values_set {A} (k : string) (v x : A) (d : dict A) :
  x ∈ dict_values (dict_set k v d) → x = v ∨ x ∈ dict_values d.
Proof.
  rewrite !elem_of_dict_values. intros [k' H]. apply elem_of_dict_set in H.
  destruct H as [[= _ ->]|H]; [now left | right; eauto].
Qed.

Section DimsSteps.
Variables (libs : dict Library) (docs : dict Document) (chunks : dict Chunk).
Hypothesis Hinv : store_inv (mkRepository libs docs chunks).
Hypothesis Hdims : dims_consistent (mkRepository libs docs chunks).

Lemma stored_chunk_document (c : Chunk) :
  c ∈ dict_values chunks → ∃ d, dict_get (chunk_document_id c) docs = Some d.
Proof.
  intros Hc. destruct Hinv as [_ [_ R2]]. destruct (R2 c Hc) as [d Hd]. now exists d.
Qed.

Lemma stored_document_library (x : string) (d : Document) :
  dict_get x docs = Some d → ∃ l, dict_get (doc_library_id d) libs = Some l.
Proof.
  intros Hd. destruct Hinv as [_ [R1 _]].
  assert (Hin : d ∈ dict_values docs).
  { apply elem_of_dict_values. exists x. now apply dict_get_Some_elem. }
  destruct (R1 d Hin) as [l Hl]. now exists l.
Qed.

Lemma dims_libraries (libs' : dict Library) :
  (∀ x l0 l', dict_get x libs = Some l0 → dict_get x libs' = Some l' →
              lib_embedding_dim l' = lib_embedding_dim l0 ∨ lib_embedding_dim l0 = None) →
  dims_consistent (mkRepository libs' docs chunks).
Proof.
  intros H c d l' Hc Hemb Hd Hl'. unfold repo_get_document, repo_get_library in *.
  cbn [_libraries _documents _chunks] in *.
  destruct (stored_document_library _ d Hd) as [l0 Hl0].
  pose proof (Hdims c d l0 Hc Hemb Hd Hl0) as H0.
  destruct (H _ l0 l' Hl0 Hl') as [E|E]; congruence.
Qed.

Lemma dims_documents (docs' : dict Document) :
  (∀ x d0 d', dict_get x docs = Some d0 → dict_get x docs' = Some d' →
              doc_library_id d' = doc_library_id d0) →
  dims_consistent (mkRepository libs docs' chunks).
Proof.
  intros H c d' l Hc Hemb Hd' Hl. unfold repo_get_document, repo_get_library in *.
  cbn [_libraries _documents _chunks] in *.
  destruct (stored_chunk_document c Hc) as [d0 Hd0].
  pose proof (H _ d0 d' Hd0 Hd') as E. rewrite E in Hl.
  exact (Hdims c d0 l Hc Hemb Hd0 Hl).
Qed.

Lemma dims_chunks (chunks' : dict Chunk) :
  (∀ c, c ∈ dict_values chunks' →
        c ∈ dict_values chunks
        ∨ (chunk_embedding c ≠ [] →
           ∀ d l, dict_get (chunk_document_id c) docs = Some d →
                  dict_get (doc_library_id d) libs = Some l →
                  lib_embedding_dim l = Some (len (chunk_embedding c)))) →
  dims_consistent (mkRepository libs docs chunks').
Proof.
  intros H c d l Hc Hemb Hd Hl. unfold repo_get_document, repo_get_library in *.
  cbn [_libraries _documents _chunks] in *.
  destruct (H c Hc) as [Hold|Hnew].
  - exact (Hdims c d l Hold Hemb Hd Hl).
  - exact (Hnew Hemb d l Hd Hl).
Qed.

Lemma dims_shrunk (libs' : dict Library) (docs' : dict Document) (chunks' : dict Chunk) :
  (∀ c, c ∈ dict_values chunks' → c ∈ dict_values chunks) →
  (∀ x d, dict_get x docs' = Some d → dict_get x docs = Some d) →
  (∀ x l, dict_get x libs' = Some l → dict_get x libs = Some l) →
  dims_consistent (mkRepository libs' docs' chunks').
Proof.
  intros H1 H2 H3 c d l Hc Hemb Hd Hl. unfold repo_get_document, repo_get_library in *.
  cbn [_libraries _documents _chunks] in *.
  exact (Hdims c d l (H1 c Hc) Hemb (H2 _ d Hd) (H3 _ l Hl)).
Qed.

End DimsSteps.

(** The three outcomes of the dimension check. *)
Lemma validate_dimensions_cases (library_id : string) (embedding : vec) (w : World) :
  store_wf (repository w) →
  (_validate_embedding_dimensions library_id embedding w = (Ok tt, w)
   ∧ (embedding = []
      ∨ repo_get_library library_id (repository w) = None
      ∨ ∃ l, repo_get_library library_id (repository w) = Some l
             ∧ lib_embedding_dim l = Some (len embedding)))
  ∨ (∃ e, _validate_embedding_dimensions library_id embedding w = (Raise e, w))
  ∨ (embedding ≠ []
     ∧ ∃ l, repo_get_library library_id (repository w) = Some l
            ∧ lib_embedding_dim l = None
            ∧ _validate_embedding_dimensions library_id embedding w
              = (Ok tt,
                 with_libraries
                   (dict_set library_id (set_lib_embedding_dim (Some (len embedding)) l)
                      (_libraries (repository w))) w)).
Proof.
  intros (Hl & _ & _). unfold _validate_embedding_dimensions.
  destruct embedding as [|x e]; [left; split; [reflexivity | now left]|].
  unfold bind, repo_read, ret, raise.
  destruct (repo_get_library library_id (repository w)) as [l|] eqn:Hget;
    [|left; split; [reflexivity | right; now left]].
  destruct (lib_embedding_dim l) as [dim|] eqn:Hdim.
  - destruct (len (x :: e) =? dim) eqn:E; simpl.
    + left. split; [reflexivity|]. right. right. exists l. split; [reflexivity|].
      apply Z.eqb_eq in E. congruence.
    + right. left. eauto.
  - right. right. split; [discriminate|]. exists l. split; [reflexivity|].
    split; [exact Hdim|].
    pose proof (table_wf_key lib_id _ library_id l Hl Hget) as Hid.
    unfold assign_library, repo_write, repo_update_library, with_libraries.
    destruct w as [[libs docs chunks] idx meta fs]. destruct l. simpl in *.
    rewrite <- Hid, dict_set_assign. reflexivity.
Qed.

(** [update_chunk] with an embedding: the dimension check, then the write. *)
Lemma update_chunk_embedding_world (w : World) (key : string) (text : option string)
    (embedding : vec) (metadata : option (gmap string string)) (c : Chunk) :
  store_wf (repository w) →
  repo_get_chunk key (repository w) = Some c →
  ChunkService_update_chunk key text (Some embedding) metadata w
  = match (match repo_get_document (chunk_document_id c) (repository w) with
           | Some document => _validate_embedding_dimensions (doc_library_id document) embedding w
           | None => (Ok tt, w)
           end) with
    | (Ok _, w1) =>
        (Ok (updated_chunk text (Some embedding) metadata c),
         with_chunks (dict_set key (updated_chunk text (Some embedding) metadata c)
                        (_chunks (repository w1))) w1)
    | (Raise e, w1) => (Raise e, w1)
    end.
Proof.
  intros Hwf Hget.
  pose proof (table_wf_key chunk_id _ key c (proj2 (proj2 Hwf)) Hget) as Hid.
  unfold ChunkService_update_chunk, ChunkService_get_chunk, bind, repo_read, ret, raise.
  rewrite Hget.
  destruct (repo_get_document (chunk_document_id c) (repository w)) as [document|].
  - destruct (_validate_embedding_dimensions (doc_library_id document) embedding w)
      as [[[]|e] w1]; [|reflexivity].
    destruct w1 as [[libs docs chunks] idx meta fs].
    unfold assign_chunk, repo_write, repo_update_chunk, with_chunks, updated_chunk.
    destruct c; destruct text, metadata; unfold set_chunk_embedding, set_chunk_text,
      set_chunk_metadata; simpl in *; rewrite <- ?Hid, ?dict_set_assign; reflexivity.
  - destruct w as [[libs docs chunks] idx meta fs].
    unfold assign_chunk, repo_write, repo_update_chunk, with_chunks, updated_chunk.
    destruct c; destruct text, metadata; unfold set_chunk_embedding, set_chunk_text,
      set_chunk_metadata; simpl in *; rewrite <- ?Hid, ?dict_set_assign; reflexivity.
Qed.

Lemma dims_after_validation (library_id : string) (embedding : vec) (w : World) :
  store_inv (repository w) → dims_consistent (repository w) →
  dims_consistent (repository (snd (_validate_embedding_dimensions library_id embedding w))).
Proof.
  intros Hinv Hdims.
  destruct (validate_dimensions_cases library_id embedding w (proj1 Hinv))
    as [[-> _]|[[e ->]|(_ & l & Hget & Hdim & ->)]]; [exact Hdims | exact Hdims |].
  destruct w as [[libs docs chunks] idx meta fs]. unfold with_libraries. simpl in *.
  apply (dims_libraries libs docs chunks Hinv Hdims).
  intros x l0 l' Hl0 Hl'. destruct (string_dec library_id x) as [<-|Hne].
  - right. unfold repo_get_library in Hget. simpl in Hget. congruence.
  - left. rewrite dict_get_set_ne in Hl' by exact Hne. congruence.
Qed.

(** What the dimension check guarantees when it passes. *)
Lemma validated_dimension (library_id : string) (embedding : vec) (w w1 : World) (l : Library) :
  store_wf (repository w) →
  _validate_embedding_dimensions library_id embedding w = (Ok tt, w1) →
  embedding ≠ [] →
  repo_get_library library_id (repository w1) = Some l →
  lib_embedding_dim l = Some (len embedding).
Proof.
  intros Hwf Hv Hemb Hl.
  destruct (validate_dimensions_cases library_id embedding w Hwf)
    as [[E Hcase]|[[e E]|(_ & l0 & Hget & Hdim & E)]]; rewrite E in Hv.
  - injection Hv as <-. destruct Hcase as [->|[Hnone|(l1 & Hl1 & Hd1)]]; congruence.
  - discriminate.
  - injection Hv as <-. unfold with_libraries, repo_get_library in Hl. simpl in Hl.
    rewrite dict_get_set_eq in Hl. injection Hl as <-. reflexivity.
Qed.

Lemma dims_after_chunk_write (w : World) (key : string) (c : Chunk) :
  store_inv (repository w) → dims_consistent (repository w) →
  (chunk_embedding c ≠ [] →
   ∀ d l, repo_get_document (chunk_document_id c) (repository w) = Some d →
          repo_get_library (doc_library_id d) (repository w) = Some l →
          lib_embedding_dim l = Some (len (chunk_embedding c))) →
  dims_consistent (repository (with_chunks (dict_set key c (_chunks (repository w))) w)).
Proof.
  intros Hinv Hdims Hc. destruct w as [[libs docs chunks] idx meta fs].
  unfold with_chunks. simpl in *.
  apply (dims_chunks libs docs chunks Hdims). intros c' Hc'.
  apply dict_values_set in Hc'. destruct Hc' as [->|Hold]; [right; exact Hc | now left].
Qed.

Lemma validation_keeps_documents (library_id : string) (embedding : vec) (w : World) :
  _documents (repository (snd (_validate_embedding_dimensions library_id embedding w)))
  = _documents (repository w)
  ∧ _chunks (repository (snd (_validate_embedding_dimensions library_id embedding w)))
    = _chunks (repository w).
Proof.
  unfold _validate_embedding_dimensions. destruct embedding; [now split|].
  unfold bind, repo_read, ret, raise.
  destruct (repo_get_library library_id (repository w)) as [l|]; [|now split].
  destruct (lib_embedding_dim l); [destruct (negb _); now split|]. now split.
Qed.

Lemma run_call_dims (c : service_call) (w : World) :
  store_inv (repository w) → dims_consistent (repository w) → fresh_ids c (repository w) →
  dims_consistent (repository (snd (run_call c w))).
Proof.
  intros Hinv Hdims Hfresh. pose proof Hinv as [Hwf HR].
  destruct c as [nid name description metadata | lid | | lid name description metadata
                | lid | lid | nid lid title description metadata | did | lid
                | did title description metadata | did
                | nid lid did text embedding metadata | cid | lid
                | cid text embedding metadata | cid]; unfold run_call.
  - (* create_library *)
    destruct w as [[libs docs chunks] idx meta fs]. simpl in *.
    apply (dims_libraries libs docs chunks Hinv Hdims).
    intros x l0 l' Hl0 Hl'. left. unfold repo_get_library in Hfresh. simpl in Hfresh.
    simpl in Hl'. rewrite dict_get_set_ne in Hl' by congruence. simpl in Hl'. congruence.
  - unfold LibraryService_get_library, bind, repo_read, ret, raise.
    now destruct (repo_get_library lid (repository w)).
  - exact Hdims.
  - (* update_library *)
    destruct (repo_get_library lid (repository w)) as [l|] eqn:Hget.
    + unfold bind. rewrite (update_library_world w lid name description metadata l Hwf Hget).
      destruct w as [[libs docs chunks] idx meta fs]. unfold with_libraries. simpl in *.
      apply (dims_libraries libs docs chunks Hinv Hdims).
      intros x l0 l' Hl0 Hl'. left. destruct (string_dec lid x) as [<-|Hne].
      * rewrite dict_get_set_eq in Hl'. injection Hl' as <-.
        unfold repo_get_library in Hget. simpl in Hget.
        assert (l0 = l) by congruence. subst l0. reflexivity.
      * rewrite dict_get_set_ne in Hl' by exact Hne. congruence.
    + unfold LibraryService_update_library, LibraryService_get_library, bind, repo_read,
        ret, raise. now rewrite Hget.
  - (* delete_library *)
    destruct w as [[libs docs chunks] idx meta fs]. simpl in *.
    apply (dims_shrunk libs docs chunks Hdims).
    + intros c. apply dict_values_pop_all.
    + intros x d. apply dict_get_pop_all_Some.
    + intros x l. apply dict_get_pop_Some.
  - destruct w as [[libs docs chunks] idx meta fs]. simpl in *.
    apply (dims_shrunk libs docs chunks Hdims).
    + intros c. apply dict_values_pop_all.
    + intros x d. apply dict_get_pop_all_Some.
    + intros x l. apply dict_get_pop_Some.
  - (* create_document *)
    unfold DocumentService_create_document, bind, repo_read, repo_write, ret, raise.
    destruct (repo_get_library lid (repository w)); [|exact Hdims].
    destruct w as [[libs docs chunks] idx meta fs]. simpl in *.
    apply (dims_documents libs docs chunks Hinv Hdims).
    intros x d0 d' Hd0 Hd'. unfold repo_get_document in Hfresh. simpl in Hfresh.
    simpl in Hd'. rewrite dict_get_set_ne in Hd' by congruence. simpl in Hd'. congruence.
  - unfold DocumentService_get_document, bind, repo_read, ret, raise.
    now destruct (repo_get_document did (repository w)).
  - exact Hdims.
  - (* update_document *)
    destruct (repo_get_document did (repository w)) as [d|] eqn:Hget.
    + unfold bind. rewrite (update_document_world w did title description metadata d Hwf Hget).
      destruct w as [[libs docs chunks] idx meta fs]. unfold with_documents. simpl in *.
      apply (dims_documents libs docs chunks Hinv Hdims).
      intros x d0 d' Hd0 Hd'. destruct (string_dec did x) as [<-|Hne].
      * rewrite dict_get_set_eq in Hd'. injection Hd' as <-.
        unfold repo_get_document in Hget. simpl in Hget.
        assert (d0 = d) by congruence. subst d0. reflexivity.
      * rewrite dict_get_set_ne in Hd' by exact Hne. congruence.
    + unfold DocumentService_update_document, DocumentService_get_document, bind, repo_read,
        ret, raise. now rewrite Hget.
  - (* delete_document *)
    destruct w as [[libs docs chunks] idx meta fs]. simpl in *.
    apply (dims_shrunk libs docs chunks Hdims).
    + intros c. apply dict_values_pop_all.
    + intros x d. apply dict_get_pop_Some.
    + auto.
  - (* create_chunk *)
    unfold bind at 1.
    destruct (repo_get_document did (repository w)) as [doc|] eqn:Hdoc.
    2:{ unfold ChunkService_create_chunk, bind, repo_read, raise. now rewrite Hdoc. }
    destruct (String.eqb_spec (doc_library_id doc) lid) as [Hlib|Hlib].
    2:{ unfold ChunkService_create_chunk, bind, repo_read, raise. rewrite Hdoc.
        apply String.eqb_neq in Hlib. now rewrite Hlib. }
    rewrite (create_chunk_validated w nid lid did text embedding metadata doc Hdoc Hlib).
    pose proof (validate_dimensions_inv lid embedding w Hinv) as (Hinv1 & Hdocs1 & Hchunks1).
    pose proof (dims_after_validation lid embedding w Hinv Hdims) as Hdims1.
    destruct (_validate_embedding_dimensions lid embedding w) as [[[]|e] w1] eqn:Hv;
      simpl in Hinv1, Hdocs1, Hchunks1, Hdims1; [|exact Hdims1].
    cbn [snd fst repository].
    change (dims_consistent
              (repository (with_chunks
                             (dict_set nid (mkChunk nid did text embedding (default ∅ metadata))
                                (_chunks (repository w1))) w1))).
    apply dims_after_chunk_write; [exact Hinv1 | exact Hdims1|].
    cbn [chunk_embedding chunk_document_id]. intros Hemb d l Hd Hl.
    unfold repo_get_document in Hd, Hdoc. rewrite Hdocs1 in Hd.
    assert (d = doc) by congruence. subst d. rewrite Hlib in Hl.
    exact (validated_dimension lid embedding w w1 l Hwf Hv Hemb Hl).
  - unfold ChunkService_get_chunk, bind, repo_read, ret, raise.
    now destruct (repo_get_chunk cid (repository w)).
  - exact Hdims.
  - (* update_chunk *)
    unfold bind at 1.
    destruct (repo_get_chunk cid (repository w)) as [c0|] eqn:Hget.
    2:{ unfold ChunkService_update_chunk, ChunkService_get_chunk, bind, repo_read, raise.
        now rewrite Hget. }
    assert (Hc0 : c0 ∈ dict_values (_chunks (repository w))).
    { apply elem_of_dict_values. exists cid. now apply dict_get_Some_elem. }
    destruct embedding as [v|].
    + rewrite (update_chunk_embedding_world w cid text v metadata c0 Hwf Hget).
      destruct (repo_get_document (chunk_document_id c0) (repository w)) as [doc|] eqn:Hdoc.
      * pose proof (validate_dimensions_inv (doc_library_id doc) v w Hinv)
          as (Hinv1 & Hdocs1 & Hchunks1).
        pose proof (dims_after_validation (doc_library_id doc) v w Hinv Hdims) as Hdims1.
        destruct (_validate_embedding_dimensions (doc_library_id doc) v w)
          as [[[]|e] w1] eqn:Hv;
          simpl in Hinv1, Hdocs1, Hchunks1, Hdims1; [|exact Hdims1].
        cbn [snd fst].
        apply dims_after_chunk_write; [exact Hinv1 | exact Hdims1|].
        unfold updated_chunk. cbn [chunk_embedding chunk_document_id default].
        intros Hemb d l Hd Hl.
        unfold repo_get_document in Hd, Hdoc. rewrite Hdocs1 in Hd.
        assert (d = doc) by congruence. subst d.
        exact (validated_dimension (doc_library_id doc) v w w1 l Hwf Hv Hemb Hl).
      * cbn [snd fst]. apply dims_after_chunk_write; [exact Hinv | exact Hdims|].
        unfold updated_chunk. cbn [chunk_embedding chunk_document_id default].
        intros _ d l Hd. congruence.
    + rewrite (update_chunk_world w cid text metadata c0 Hwf Hget). cbn [snd fst].
      apply dims_after_chunk_write; [exact Hinv | exact Hdims|].
      unfold updated_chunk. cbn [chunk_embedding chunk_document_id default].
      intros Hemb d l Hd Hl. exact (Hdims c0 d l Hc0 Hemb Hd Hl).
  - (* delete_chunk *)
    destruct w as [[libs docs chunks] idx meta fs]. simpl in *.
    apply (dims_shrunk libs docs chunks Hdims); auto.
    intros c. apply dict_values_pop.
Qed.

Lemma empty_world_dims : dims_consistent (repository empty_world).
Proof. intros c d l Hc. inversion Hc. Qed.

Lemma run_calls_dims (calls : list service_call) (w : World) :
  store_inv (repository w) → dims_consistent (repository w) → all_fresh calls w →
  dims_consistent (repository (run_calls calls w)).
Proof.
  revert w. induction calls as [|c calls IH]; intros w Hinv Hdims Hfresh; simpl; [exact Hdims|].
  destruct Hfresh as [Hc Hrest]. apply IH; [| |exact Hrest].
  - now apply run_call_inv.
  - now apply run_call_dims.
Qed.

(** X16.  One embedding dimension per library.  Started from the empty
    store, after any sequence of service calls whose new libraries and
    documents get unused ids, every stored chunk with a non-empty
    embedding has exactly the dimension recorded in the library of its
    document. *)
Theorem X16_one_dimension_per_library (calls : list service_call) :
  all_fresh calls empty_world →
  dims_consistent (repository (run_calls calls empty_world)).
Proof.
  intros Hfresh.
  apply run_calls_dims; [apply empty_world_inv | apply empty_world_dims | exact Hfresh].
Qed.

(** ** Building an index over a consistent store *)

Lemma listed_chunk_document (library_id : string) (r : InMemoryRepository) (c : Chunk) :
  store_wf r → c ∈ repo_list_chunks library_id r →
  c ∈ dict_values (_chunks r)
  ∧ ∃ d, repo_get_document (chunk_document_id c) r = Some d ∧ doc_library_id d = library_id.
Proof.
  intros (_ & Hd & _) Hc. unfold repo_list_chunks in Hc.
  apply list_elem_of_In, filter_In in Hc. destruct Hc as [Hc Hex].
  apply list_elem_of_In in Hc. split; [exact Hc|].
  apply existsb_eqb_elem, list_elem_of_fmap in Hex. destruct Hex as (d & Hid & Hin).
  apply list_elem_of_In, filter_In in Hin. destruct Hin as [Hin Hlib].
  apply list_elem_of_In in Hin. apply String.eqb_eq in Hlib.
  exists d. split; [|exact Hlib].
  apply elem_of_dict_values in Hin. destruct Hin as [k Hk].
  pose proof (proj1 Hd _ Hk) as Ek. simpl in Ek. unfold repo_get_document.
  rewrite Hid, <- Ek. apply dict_elem_get_NoDup; [exact (proj2 Hd) | exact Hk].
Qed.

Lemma valid_pairs_elem (chunks : list Chunk) (x : vec * string) :
  x ∈ valid_pairs_of chunks ↔
  ∃ c, c ∈ chunks ∧ chunk_embedding c ≠ [] ∧ x = (chunk_embedding c, chunk_id c).
Proof.
  unfold valid_pairs_of. rewrite list_elem_of_fmap. split.
  - intros (c & -> & Hc). apply list_elem_of_In, filter_In in Hc. destruct Hc as [Hc He].
    exists c. split; [now apply list_elem_of_In|]. split; [|reflexivity].
    destruct (chunk_embedding c); [discriminate | discriminate].
  - intros (c & Hc & He & ->). exists c. split; [reflexivity|].
    apply list_elem_of_In, filter_In. split; [now apply list_elem_of_In|].
    destruct (chunk_embedding c); [congruence | reflexivity].
Qed.

(** In a consistent store the embeddings indexed for a library all have
    one positive length. *)
Lemma valid_pairs_one_dimension (library_id : string) (r : InMemoryRepository) :
  store_inv r → dims_consistent r →
  let vectors := map fst (valid_pairs_of (repo_list_chunks library_id r)) in
  Forall (fun v => length v = length (hd [] vectors)) vectors
  ∧ (vectors ≠ [] → (0 < length (hd [] vectors))%nat).
Proof.
  intros [Hwf HR] Hdims vectors.
  assert (Hdim : ∀ v, v ∈ vectors →
            v ≠ [] ∧ ∃ l, repo_get_library library_id r = Some l
                          ∧ lib_embedding_dim l = Some (len v)).
  { intros v Hv. apply list_elem_of_fmap in Hv. destruct Hv as (x & -> & Hx).
    apply valid_pairs_elem in Hx. destruct Hx as (c & Hc & Hemb & ->). simpl.
    split; [exact Hemb|].
    destruct (listed_chunk_document library_id r c Hwf Hc) as (Hin & d & Hd & Hlib).
    assert (Hdin : d ∈ dict_values (_documents r)).
    { apply elem_of_dict_values. eexists. apply dict_get_Some_elem. exact Hd. }
    destruct (proj1 HR d Hdin) as [l Hl]. exists l. rewrite <- Hlib.
    split; [exact Hl|]. exact (Hdims c d l Hin Hemb Hd Hl). }
  destruct vectors as [|v0 vs] eqn:E; [split; [constructor | congruence]|].
  destruct (Hdim v0) as (Hne0 & l0 & Hl0 & Hd0); [apply elem_of_cons; now left|].
  split.
  - rewrite Forall_forall. intros v Hv. destruct (Hdim v Hv) as (_ & l & Hl & Hd).
    simpl. unfold len in *. assert (l = l0) by congruence. subst l.
    rewrite Hd0 in Hd. injection Hd as Hd. lia.
  - intros _. simpl. destruct v0; [congruence | simpl; lia].
Qed.

Lemma mapM_Ok {A B} (f : A → result B) (l : list A) :
  (∀ x, ∃ y, f x = Ok y) → ∃ ys, mapM f l = Ok ys.
Proof.
  intros H. induction l as [|x l [ys IH]]; simpl; [eauto|].
  destruct (H x) as [y ->]. simpl. rewrite IH. simpl. eauto.
Qed.

Lemma sum_products_positive (x : Z) (l : vec) :
  x ≠ 0 → 0 < sum (map (fun x => x * x) (x :: l)).
Proof.
  intros Hx. simpl. rewrite sum_cons. pose proof (sum_products_nonneg l). nia.
Qed.

Lemma gen_planes_Ok (seed : Z) (num_tables num_planes dim : nat) :
  (∀ s n, gauss s n ≠ 0) →
  ∃ planes, gen_planes seed num_tables num_planes dim = Ok planes.
Proof.
  intros Hg. unfold gen_planes. apply mapM_Ok. intros t. apply mapM_Ok. intros p.
  unfold gen_plane. destruct dim as [|dim]; [simpl; eauto|].
  assert (H : root_is_zero
                (Sqrt (sum (map (fun x => x * x)
                              (map (fun c => gauss seed ((t * num_planes + p) * S dim + c)%nat)
                                 (seq 0 (S dim)))))) = false).
  { unfold root_is_zero. cbn [radicand]. apply Z.eqb_neq. simpl seq. rewrite map_cons.
    pose proof (sum_products_positive
                  (gauss seed ((t * num_planes + p) * S dim + 0)%nat)
                  (map (fun c => gauss seed ((t * num_planes + p) * S dim + c)%nat)
                     (seq 1 dim)) (Hg _ _)). lia. }
  rewrite H, andb_false_r. eauto.
Qed.

Lemma VectorIndex_build_total (index : VectorIndex) (vectors : list vec) (ids : list string) :
  (∀ s n, gauss s n ≠ 0) →
  length vectors = length ids →
  Forall (fun v => length v = length (hd [] vectors)) vectors →
  (vectors ≠ [] → (0 < length (hd [] vectors))%nat) →
  ∃ built, VectorIndex_build index vectors ids = Ok built.
Proof.
  intros Hg Hlen Hdim Hpos.
  pose proof (proj2 (proj2 (validate_inputs_cases vectors ids)) Hlen
                (not_ragged_same_length _ vectors Hdim)) as Hv.
  destruct index as [i|i|i]; simpl.
  - unfold LinearIndex_build. rewrite Hv. simpl. eauto.
  - unfold KDTreeIndex_build. rewrite Hv. simpl.
    destruct vectors as [|v0 vs]; [eauto|].
    destruct (build_kd_fuel_enough (length v0) (Hpos ltac:(discriminate))
                (length (v0 :: vs)) (v0 :: vs) ids 0%nat) as (t & Ht & _);
      [lia | exact Hlen | exact Hdim|].
    unfold build_kd. rewrite Ht. simpl. eauto.
  - unfold LSHIndex_build. rewrite Hv. simpl.
    destruct vectors as [|v0 vs]; [eauto|].
    destruct (gen_planes_Ok (lsh_seed_ i) (Z.to_nat (lsh_tables_count i))
                (Z.to_nat (lsh_planes_count i)) (length v0) Hg) as [planes ->].
    simpl. eauto.
Qed.

Lemma algorithm_of_value (s : string) (a : IndexAlgorithm) :
  IndexAlgorithm_of s = Some a → IndexAlgorithm_value a = s.
Proof.
  unfold IndexAlgorithm_of.
  destruct (String.eqb_spec s "linear") as [->|_]; [now intros [= <-]|].
  destruct (String.eqb_spec s "kdtree") as [->|_]; [now intros [= <-]|].
  destruct (String.eqb_spec s "lsh") as [->|_]; [now intros [= <-] | discriminate].
Qed.

Lemma metric_of_value (s : string) (m : DistanceMetric) :
  DistanceMetric_of s = Some m → DistanceMetric_value m = s.
Proof.
  unfold DistanceMetric_of.
  destruct (String.eqb_spec s "cosine") as [->|_]; [now intros [= <-]|].
  destruct (String.eqb_spec s "euclidean") as [->|_]; [now intros [= <-] | discriminate].
Qed.

Lemma create_index_kind (algorithm metric : string) (index : VectorIndex) :
  _create_index algorithm metric = Ok index →
  VectorIndex_kind index = algorithm ∧ VectorIndex_metric index = metric.
Proof.
  unfold _create_index.
  destruct (IndexAlgorithm_of algorithm) as [a|] eqn:Ea; [|discriminate].
  destruct (DistanceMetric_of metric) as [m|] eqn:Em; [|discriminate].
  apply algorithm_of_value in Ea. apply metric_of_value in Em.
  destruct (negb _) eqn:Ec; [discriminate|].
  destruct a, m; try discriminate; intros [= <-]; simpl in *; auto.
Qed.

(** The outcome of [build_index] in terms of the index it builds. *)
Lemma build_index_outcome (library_id algorithm metric : string) (w : World) :
  (∃ e, IndexService_build_index library_id algorithm metric w = (Raise e, w))
  ∨ (∃ fresh built,
        _create_index (lower algorithm) (lower metric) = Ok fresh
        ∧ (built = fresh ∧ repo_list_chunks library_id (repository w) = []
           ∨ VectorIndex_build fresh
               (map fst (valid_pairs_of (repo_list_chunks library_id (repository w))))
               (map snd (valid_pairs_of (repo_list_chunks library_id (repository w))))
             = Ok built)
        ∧ IndexService_build_index library_id algorithm metric w
          = (Ok tt, mkWorld (repository w) (dict_set library_id built (_indices w))
                      (dict_set library_id (meta_of built) (_index_meta w)) (files w))).
Proof.
  unfold IndexService_build_index, bind, lift, repo_read, ret, registry_install.
  destruct (_create_index (lower algorithm) (lower metric)) as [fresh|e]; [|left; eauto].
  destruct (repo_list_chunks library_id (repository w)) as [|c0 cs] eqn:Hc.
  { right. exists fresh, fresh. split; [reflexivity|]. split; [now left | reflexivity]. }
  destruct (valid_pairs_of (c0 :: cs)) as [|p ps] eqn:Hp.
  - destruct (VectorIndex_build fresh [] []) as [built|e] eqn:Hb; [|left; eauto].
    right. exists fresh, built. split; [reflexivity|]. split; [now right | reflexivity].
  - destruct (VectorIndex_build fresh (map fst (p :: ps)) (map snd (p :: ps)))
      as [built|e] eqn:Hb; [|left; eauto].
    right. exists fresh, built. split; [reflexivity|]. split; [now right | reflexivity].
Qed.

(** X17.  Over a store that keeps referential integrity and one
    dimension per library, every index request that names a supported
    (algorithm, metric) pair succeeds, for every library id: the index is
    built over the library's chunks and installed with the requested
    pair, in lower case.  (For LSH the generator must never draw exactly
    0, so that no hyperplane has norm 0.) *)
Theorem X17_build_index_succeeds (w : World) (library_id algorithm metric : string)
    (fresh : VectorIndex) :
  store_inv (repository w) →
  dims_consistent (repository w) →
  (∀ s n, gauss s n ≠ 0) →
  _create_index (lower algorithm) (lower metric) = Ok fresh →
  ∃ built,
    IndexService_build_index library_id algorithm metric w
    = (Ok tt, mkWorld (repository w) (dict_set library_id built (_indices w))
                (dict_set library_id (meta_of built) (_index_meta w)) (files w))
    ∧ VectorIndex_kind built = lower algorithm
    ∧ VectorIndex_metric built = lower metric.
Proof.
  intros Hinv Hdims Hg Hfresh.
  pose proof (create_index_kind _ _ _ Hfresh) as [Hk Hm].
  destruct (valid_pairs_one_dimension library_id (repository w) Hinv Hdims) as [Hsame Hpos].
  set (pairs := valid_pairs_of (repo_list_chunks library_id (repository w))) in *.
  destruct (VectorIndex_build_total fresh (map fst pairs) (map snd pairs) Hg
              ltac:(now rewrite !length_map) Hsame Hpos) as [built Hbuilt].
  unfold IndexService_build_index, bind, lift, repo_read, ret, registry_install.
  rewrite Hfresh.
  destruct (repo_list_chunks library_id (repository w)) as [|c0 cs] eqn:Hc.
  { exists fresh. auto. }
  fold pairs. destruct pairs as [|p ps] eqn:Hp.
  - simpl in Hbuilt. rewrite Hbuilt. exists built.
    destruct (VectorIndex_build_pair _ _ _ _ Hbuilt) as [-> ->]. auto.
  - rewrite Hbuilt. exists built.
    destruct (VectorIndex_build_pair _ _ _ _ Hbuilt) as [-> ->]. auto.
Qed.

(** ** Which index requests are accepted *)

(** X18.  [_create_index] accepts exactly four (algorithm, metric)
    pairs: linear with cosine or euclidean, kdtree with euclidean, lsh
    with cosine.  Any other algorithm name raises
    [InvalidAlgorithmException] listing the three algorithms, and a known
    algorithm with any other metric raises [InvalidMetricException]
    listing the metrics that algorithm supports. *)
Theorem X18_create_index_accepts_four_pairs (algorithm metric : string) :
  ((∃ index, _create_index algorithm metric = Ok index)
   ↔ (algorithm, metric) ∈ [("linear", "cosine"); ("linear", "euclidean");
                            ("kdtree", "euclidean"); ("lsh", "cosine")])
  ∧ (algorithm ∉ ["linear"; "kdtree"; "lsh"] →
     _create_index algorithm metric
     = Raise (InvalidAlgorithmException algorithm ["linear"; "kdtree"; "lsh"]))
  ∧ (∀ a, IndexAlgorithm_of algorithm = Some a →
          (algorithm, metric) ∉ [("linear", "cosine"); ("linear", "euclidean");
                                 ("kdtree", "euclidean"); ("lsh", "cosine")] →
          _create_index algorithm metric
          = Raise (InvalidMetricException algorithm metric
                     (map DistanceMetric_value (ALGORITHM_METRICS a)))).
Proof.
  isolate.
  assert (Hin : ∀ index, _create_index algorithm metric = Ok index →
            (algorithm, metric) ∈ [("linear", "cosine"); ("linear", "euclidean");
                                   ("kdtree", "euclidean"); ("lsh", "cosine")]).
  { intros index H. unfold _create_index in H.
    destruct (IndexAlgorithm_of algorithm) as [a|] eqn:Ea; [|discriminate].
    destruct (DistanceMetric_of metric) as [m|] eqn:Em; [|discriminate].
    apply algorithm_of_value in Ea. apply metric_of_value in Em. subst.
    destruct a, m; simpl in H; try discriminate; set_solver. }
  split; [|split].
  - split; [intros [index H]; now apply (Hin index)|].
    intros H. repeat (apply elem_of_cons in H; destruct H as [[= -> ->]|H]);
      [| | | |inversion H]; vm_compute; eauto.
  - intros Hnot. unfold _create_index.
    destruct (IndexAlgorithm_of algorithm) as [a|] eqn:Ea; [|reflexivity].
    apply algorithm_of_value in Ea. subst. exfalso. apply Hnot.
    destruct a; simpl; set_solver.
  - intros a Ea Hnot. unfold _create_index. rewrite Ea.
    destruct (DistanceMetric_of metric) as [m|] eqn:Em; [|reflexivity].
    destruct (negb _) eqn:Ec; [reflexivity|].
    exfalso. apply Hnot. apply (Hin (match a with
                                     | LINEAR => Linear (LinearIndex_init m)
                                     | KDTREE => KDTreeIdx KDTreeIndex_init
                                     | LSH => LSHIdx (LSHIndex_init (lsh_num_planes settings)
                                                        (lsh_num_tables settings)
                                                        (lsh_seed settings))
                                     end)).
    unfold _create_index. rewrite Ea, Em, Ec. now destruct a.
Qed.

(** ** [build_index] is all or nothing *)

(** X19.  [build_index] either fails and leaves the state exactly as it
    was (the previous index of the library included), or succeeds,
    leaves the store untouched and registers for this library, and for
    no other, an index whose algorithm and metric are the requested ones
    in lower case; [get_index_info] then reports that pair. *)
Theorem X19_build_index_all_or_nothing (library_id algorithm metric : string) (w : World) :
  (∃ e, IndexService_build_index library_id algorithm metric w = (Raise e, w))
  ∨ (∃ w',
       IndexService_build_index library_id algorithm metric w = (Ok tt, w')
       ∧ repository w' = repository w
       ∧ files w' = files w
       ∧ (∀ other, other ≠ library_id →
            dict_get other (_indices w') = dict_get other (_indices w)
            ∧ dict_get other (_index_meta w') = dict_get other (_index_meta w))
       ∧ (∃ built, dict_get library_id (_indices w') = Some built
                   ∧ VectorIndex_kind built = lower algorithm
                   ∧ VectorIndex_metric built = lower metric)
       ∧ ∃ info, IndexService_get_index_info library_id w' = (Ok info, w')
                 ∧ info !! "library_id" = Some library_id
                 ∧ info !! "algorithm" = Some (lower algorithm)
                 ∧ info !! "metric" = Some (lower metric)).
Proof.
  destruct (build_index_outcome library_id algorithm metric w)
    as [Hfail|(fresh & built & Hfresh & Hbuilt & ->)]; [now left|].
  right. eexists. split; [reflexivity|]. cbn [repository files _indices _index_meta].
  assert (Hpair : VectorIndex_kind built = lower algorithm
                  ∧ VectorIndex_metric built = lower metric).
  { destruct (create_index_kind _ _ _ Hfresh) as [Hk Hm].
    destruct Hbuilt as [[-> _]|Hb]; [now split|].
    destruct (VectorIndex_build_pair _ _ _ _ Hb) as [-> ->]. now split. }
  split; [reflexivity|]. split; [reflexivity|]. split.
  { intros other Hne. split; now apply dict_get_set_ne. }
  split; [exists built; split; [apply dict_get_set_eq | exact Hpair]|].
  unfold IndexService_get_index_info. cbn [_index_meta]. rewrite dict_get_set_eq.
  eexists. split; [reflexivity|]. destruct Hpair as [Hk Hm]. unfold meta_of.
  rewrite Hk, Hm. split; [|split].
  - apply lookup_union_Some_raw. right. split; [|apply lookup_singleton_eq].
    rewrite !lookup_insert_ne by discriminate. apply lookup_empty.
  - apply lookup_union_Some_raw. left. apply lookup_insert_eq.
  - apply lookup_union_Some_raw. left. rewrite lookup_insert_ne by discriminate.
    apply lookup_insert_eq.
Qed.

(** ** Searching through the registry *)

Lemma VectorIndex_query_Ok (index : VectorIndex) (vector : vec) (k : Z)
    (results : list (string * score)) :
  VectorIndex_query index vector k = Ok results → at_most k results ∧ sorted_desc results.
Proof.
  destruct index; simpl;
    [apply LinearIndex_query_Ok | apply KDTreeIndex_query_Ok | apply LSHIndex_query_Ok].
Qed.

Lemma StronglySorted_filter {A} (R : A → A → Prop) (P : A → bool) (l : list A) :
  StronglySorted R l → StronglySorted R (List.filter P l).
Proof.
  induction 1 as [|x l Hs IH Hall]; simpl; [constructor|].
  destruct (P x); [|exact IH]. constructor; [exact IH|].
  rewrite Forall_forall in *. intros y Hy. apply Hall.
  apply list_elem_of_In, filter_In in Hy. now apply list_elem_of_In.
Qed.

(** The index [search] works with: the registered one, or a Linear
    index with the default metric built over the library's chunks and
    registered on the spot. *)
Lemma get_or_create_index_outcome (library_id : string) (w w1 : World) (index : VectorIndex) :
  _get_or_create_index library_id w = (Ok (Some index), w1) →
  (dict_get library_id (_indices w) = Some index ∧ w1 = w)
  ∨ (dict_get library_id (_indices w) = None
     ∧ ∃ m, DistanceMetric_of (default_metric settings) = Some m
            ∧ VectorIndex_build (Linear (LinearIndex_init m))
                (map fst (valid_pairs_of (repo_list_chunks library_id (repository w))))
                (map snd (valid_pairs_of (repo_list_chunks library_id (repository w))))
              = Ok index
            ∧ w1 = mkWorld (repository w) (dict_set library_id index (_indices w))
                     (dict_set library_id (meta_of index) (_index_meta w)) (files w)).
Proof.
  unfold _get_or_create_index, bind, repo_read, ret, raise, lift, registry_install.
  destruct (dict_get library_id (_indices w)) as [index0|] eqn:Hget.
  { intros [= <- <-]. now left. }
  destruct (repo_list_chunks library_id (repository w)) as [|c0 cs]; [discriminate|].
  destruct (valid_pairs_of (c0 :: cs)) as [|p ps] eqn:Hp; [discriminate|].
  destruct (DistanceMetric_of (default_metric settings)) as [m|] eqn:Hm; [|discriminate].
  destruct (VectorIndex_build _ _ _) as [built|e] eqn:Hb; [|discriminate].
  intros [= <- <-]. right. split; [reflexivity|]. exists m. auto.
Qed.

Lemma search_outcome (library_id : string) (vector : vec) (k : Z)
    (metadata_filters : option (gmap string string)) (w w' : World)
    (results : list (string * score)) :
  IndexService_search library_id vector k metadata_filters w = (Ok results, w') →
  results = []
  ∨ ∃ index res,
      _get_or_create_index library_id w = (Ok (Some index), w')
      ∧ VectorIndex_query index vector (_calculate_query_k k (truthy metadata_filters)) = Ok res
      ∧ results
        = slice_to k
            (if truthy metadata_filters
             then List.filter
                    (fun cs => match repo_get_chunk (fst cs) (repository w) with
                               | None => false
                               | Some chunk =>
                                   matches_filters (chunk_metadata chunk)
                                     (default ∅ metadata_filters)
                               end) res
             else res).
Proof.
  unfold IndexService_search. destruct (k <=? 0); [intros [= <- <-]; now left|].
  unfold bind.
  pose proof (get_or_create_index_repository library_id w) as Hrepo.
  destruct (_get_or_create_index library_id w) as [[[index|]|e] w1]; simpl in Hrepo;
    [|intros [= <- <-]; now left | discriminate].
  unfold lift. destruct (VectorIndex_query index vector _) as [res|e] eqn:Hq; [|discriminate].
  destruct (truthy metadata_filters);
    unfold _apply_metadata_filters, repo_read, ret; intros [= <- <-]; right;
    exists index, res; rewrite ?Hrepo; auto.
Qed.

(** X20.  A registry search that returns gives at most [k] pairs in
    descending order of score, with or without metadata filters, and
    leaves the store and the snapshot files as they were. *)
Theorem X20_search_returns_sorted_top_k (library_id : string) (vector : vec) (k : Z)
    (metadata_filters : option (gmap string string)) (w w' : World)
    (results : list (string * score)) :
  IndexService_search library_id vector k metadata_filters w = (Ok results, w') →
  at_most k results ∧ sorted_desc results
  ∧ repository w' = repository w ∧ files w' = files w.
Proof.
  intros Hs.
  assert (Hw : repository w' = repository w ∧ files w' = files w).
  { destruct (search_outcome _ _ _ _ _ _ _ Hs) as [->|(index & res & Hg & _ & _)].
    - revert Hs. unfold IndexService_search. destruct (k <=? 0); [now intros [= <-]|].
      unfold bind.
      destruct (_get_or_create_index library_id w) as [[[index|]|e] w1] eqn:Hg;
        [| intros [= <-] | discriminate].
      + apply get_or_create_index_outcome in Hg.
        unfold lift. destruct (VectorIndex_query _ _ _); [|discriminate].
        destruct (truthy _); unfold _apply_metadata_filters, repo_read, ret;
          intros [= _ <-]; destruct Hg as [[_ ->]|(_ & m & _ & _ & ->)]; auto.
      + revert Hg. unfold _get_or_create_index, bind, repo_read, ret, raise, lift.
        destruct (dict_get _ _); [discriminate|].
        destruct (repo_list_chunks _ _); [now intros [= <-]|].
        destruct (valid_pairs_of _); [now intros [= <-]|].
        destruct (DistanceMetric_of _); [|discriminate].
        destruct (VectorIndex_build _ _ _); discriminate.
    - apply get_or_create_index_outcome in Hg.
      destruct Hg as [[_ ->]|(_ & m & _ & _ & ->)]; auto. }
  destruct (search_outcome _ _ _ _ _ _ _ Hs) as [->|(index & res & _ & Hq & ->)].
  { split; [unfold at_most; simpl; lia|]. split; [constructor | exact Hw]. }
  apply VectorIndex_query_Ok in Hq. destruct Hq as [_ Hsorted].
  split; [apply slice_to_at_most|]. split; [|exact Hw].
  apply slice_sorted_desc. destruct (truthy metadata_filters); [|exact Hsorted].
  now apply StronglySorted_filter.
Qed.

Lemma matches_filters_lookup (metadata filters : gmap string string) :
  matches_filters metadata filters = true →
  ∀ key value, filters !! key = Some value → metadata !! key = Some value.
Proof.
  unfold matches_filters. rewrite forallb_forall. intros H key value Hkv.
  apply elem_of_map_to_list in Hkv. apply list_elem_of_In in Hkv.
  specialize (H _ Hkv). simpl in H. now apply bool_decide_eq_true in H.
Qed.

(** X21.  With non-empty metadata filters, every pair a registry search
    returns names a chunk that is in the store and whose metadata gives,
    for every filter key, exactly the filter's value. *)
Theorem X21_filtered_search_matches_filters (library_id : string) (vector : vec) (k : Z)
    (filters : gmap string string) (w w' : World) (results : list (string * score)) :
  filters ≠ ∅ →
  IndexService_search library_id vector k (Some filters) w = (Ok results, w') →
  ∀ cs, cs ∈ results →
    ∃ chunk, repo_get_chunk (fst cs) (repository w) = Some chunk
             ∧ ∀ key value, filters !! key = Some value →
                            chunk_metadata chunk !! key = Some value.
Proof.
  intros Hne Hs cs Hcs.
  destruct (search_outcome _ _ _ _ _ _ _ Hs) as [->|(index & res & _ & _ & ->)];
    [inversion Hcs|].
  assert (Ht : truthy (Some filters) = true).
  { simpl. now rewrite bool_decide_eq_false_2. }
  rewrite Ht in Hcs. apply elem_of_slice_to in Hcs.
  apply list_elem_of_In, filter_In in Hcs. destruct Hcs as [_ Hm].
  destruct (repo_get_chunk (fst cs) (repository w)) as [chunk|]; [|discriminate].
  exists chunk. split; [reflexivity|]. simpl in Hm. now apply matches_filters_lookup.
Qed.

(** ** What an index can return *)

Lemma kd_query_subset (target : vec) (k : Z) :
  ∀ (t : KDTree) (heap heap' : list heap_entry),
    kd_query t target k heap = Ok heap' →
    ∀ e, e ∈ heap' → e ∈ heap ∨ e ∈ map (entry_of target) (tree_items t).
Proof.
  isolate. induction t as [|point point_id axis l IHl r IHr]; intros heap heap'.
  { simpl. intros [= <-] e He. now left. }
  cbn [kd_query].
  destruct (euclidean_distance target point) as [dist|] eqn:Ed; cbn [rbind]; [|discriminate].
  apply euclidean_distance_inv in Ed. destruct Ed as [-> _].
  set (item := (Neg (l2_distance target point), point_id) : heap_entry).
  set (heap2 := if Z.of_nat (length (heappush heap item)) >? k
                then heappop (heappush heap item) else heappush heap item).
  assert (H2 : ∀ e, e ∈ heap2 → e = item ∨ e ∈ heap).
  { intros e He.
    assert (He' : e ∈ heappush heap item).
    { unfold heap2 in He. destruct (_ >? k); [|exact He].
      unfold heappop in He. destruct (heappush heap item); [inversion He|].
      simpl in He. apply elem_of_cons. now right. }
    rewrite (heappush_Permutation heap item) in He'. now apply elem_of_cons in He'. }
  destruct (nth_error target axis); [|discriminate].
  destruct (nth_error point axis); [|discriminate].
  assert (Hstep : ∀ first second : KDTree,
            (∀ h h', kd_query first target k h = Ok h' →
                     ∀ e, e ∈ h' → e ∈ h ∨ e ∈ map (entry_of target) (tree_items first)) →
            (∀ h h', kd_query second target k h = Ok h' →
                     ∀ e, e ∈ h' → e ∈ h ∨ e ∈ map (entry_of target) (tree_items second)) →
            rbind (kd_query first target k heap2)
              (fun heap =>
                 if Z.of_nat (length heap) <? k then kd_query second target k heap
                 else match heap with
                      | [] => Raise IndexError
                      | top :: _ =>
                          if Z_lt_root (Z.abs (z - z0)) (negated (fst top))
                          then kd_query second target k heap
                          else Ok heap
                      end) = Ok heap' →
            ∀ e, e ∈ heap' →
                 e ∈ heap2 ∨ e ∈ map (entry_of target) (tree_items first)
                 ∨ e ∈ map (entry_of target) (tree_items second)).
  { intros first second Hf Hsd.
    destruct (kd_query first target k heap2) as [h3|] eqn:E3; simpl; [|discriminate].
    assert (Hsecond : ∀ h', kd_query second target k h3 = Ok h' →
              ∀ e, e ∈ h' →
                   e ∈ heap2 ∨ e ∈ map (entry_of target) (tree_items first)
                   ∨ e ∈ map (entry_of target) (tree_items second)).
    { intros h' Hq e He. destruct (Hsd _ _ Hq e He) as [H3|Hs]; [|tauto].
      destruct (Hf _ _ E3 e H3); tauto. }
    destruct (_ <? k); [apply Hsecond|].
    destruct h3 as [|top h3']; [discriminate|].
    destruct (Z_lt_root _ _); [apply Hsecond|].
    intros [= <-] e He. destruct (Hf _ _ E3 e He); tauto. }
  cbn [tree_items]. intros Hq e He. rewrite map_cons, map_app.
  change (entry_of target (point, point_id)) with item.
  rewrite elem_of_cons, elem_of_app.
  destruct (z - z0 <? 0).
  - destruct (Hstep l r IHl IHr Hq e He) as [H|[H|H]]; [|tauto|tauto].
    destruct (H2 e H); tauto.
  - destruct (Hstep r l IHr IHl Hq e He) as [H|[H|H]]; [|tauto|tauto].
    destruct (H2 e H); tauto.
Qed.

(** Every variant returns ids it was built with. *)
Lemma VectorIndex_query_ids (self idx : VectorIndex) (vectors : list vec) (ids : list string)
    (q : vec) (k : Z) (results : list (string * score)) :
  VectorIndex_build self vectors ids = Ok idx →
  VectorIndex_query idx q k = Ok results →
  ∀ cs, cs ∈ results → fst cs ∈ ids.
Proof.
  destruct self as [i|i|i]; simpl.
  - destruct (LinearIndex_build i vectors ids) as [i'|] eqn:Hb; simpl; [|discriminate].
    intros [= <-]. simpl. apply LinearIndex_build_Ok in Hb. destruct Hb as (Hv & Hi & _).
    unfold LinearIndex_query. rewrite Hv, Hi.
    destruct (_ || _); [intros [= <-] cs H; inversion H|].
    destruct (_validate_query_dim q vectors); simpl; [|discriminate].
    match goal with
    | |- rbind ?m _ = _ → _ => destruct m as [scores|] eqn:Es; simpl; [|discriminate]
    end.
    apply linear_query_scores in Es. subst scores. intros [= <-] cs Hcs.
    apply elem_of_slice_to in Hcs.
    unfold sort_key_reverse in Hcs. rewrite sort_by_Permutation in Hcs.
    apply list_elem_of_fmap in Hcs. destruct Hcs as (x & -> & Hx). simpl.
    now apply zip_fst_in in Hx.
  - destruct (KDTreeIndex_build i vectors ids) as [i'|] eqn:Hb; simpl; [|discriminate].
    intros [= <-]. simpl. apply KDTreeIndex_build_Ok in Hb.
    assert (Hitems : ∀ x, x ∈ tree_items (kd_root i') → snd x ∈ ids).
    { destruct Hb as [[_ ->]|(_ & _ & _ & _ & _ & Hperm)]; [intros x H; inversion H|].
      intros x Hx. rewrite Hperm in Hx. now apply zip_snd_in in Hx. }
    unfold KDTreeIndex_query. destruct (k <=? 0); [intros [= <-] cs H; inversion H|].
    destruct (_ && _); [discriminate|].
    destruct (kd_query (kd_root i') q k []) as [heap|] eqn:Hq; simpl; [|discriminate].
    intros [= <-] cs Hcs. apply list_elem_of_fmap in Hcs. destruct Hcs as (e & -> & He).
    simpl. rewrite (sort_by_Permutation _ heap) in He.
    destruct (kd_query_subset q k _ _ _ Hq e He) as [H|H]; [inversion H|].
    apply list_elem_of_fmap in H. destruct H as (x & -> & Hx). simpl. now apply Hitems.
  - destruct (LSHIndex_build i vectors ids) as [i'|] eqn:Hb; simpl; [|discriminate].
    intros [= <-]. simpl. intros Hq cs Hcs.
    apply LSHIndex_build_sound in Hb. apply (lsh_candidates_ok _ i' q) in Hb.
    destruct Hb as [_ Hin]. apply LSHIndex_query_candidates in Hq.
    destruct Hq as [->| ->]; [inversion Hcs|].
    apply elem_of_slice_to in Hcs.
    unfold sort_key_reverse in Hcs. rewrite sort_by_Permutation in Hcs.
    apply list_elem_of_fmap in Hcs. destruct Hcs as (c & -> & Hc). simpl.
    apply Hin in Hc. apply list_elem_of_fmap in Hc. destruct Hc as (vi & -> & Hvi).
    simpl. now apply zip_snd_in in Hvi.
Qed.

Lemma create_index_build_empty (algorithm metric : string) (fresh : VectorIndex) :
  _create_index algorithm metric = Ok fresh → VectorIndex_build fresh [] [] = Ok fresh.
Proof.
  unfold _create_index.
  destruct (IndexAlgorithm_of algorithm) as [a|]; [|discriminate].
  destruct (DistanceMetric_of metric) as [m|]; [|discriminate].
  destruct (negb _); [discriminate|].
  destruct a; intros [= <-]; reflexivity.
Qed.

Lemma valid_pair_ids (chunks : list Chunk) (x : string) :
  x ∈ map snd (valid_pairs_of chunks) →
  ∃ c, c ∈ chunks ∧ chunk_id c = x ∧ chunk_embedding c ≠ [].
Proof.
  intros H. apply list_elem_of_fmap in H. destruct H as (p & -> & Hp).
  apply valid_pairs_elem in Hp. destruct Hp as (c & Hc & He & ->). exists c. auto.
Qed.

Lemma search_results_from_index (library_id : string) (vector : vec) (k : Z)
    (metadata_filters : option (gmap string string)) (w w' : World)
    (results : list (string * score)) :
  IndexService_search library_id vector k metadata_filters w = (Ok results, w') →
  ∀ cs, cs ∈ results →
    ∃ index res qk, _get_or_create_index library_id w = (Ok (Some index), w')
                    ∧ VectorIndex_query index vector qk = Ok res ∧ cs ∈ res.
Proof.
  intros Hs cs Hcs.
  destruct (search_outcome _ _ _ _ _ _ _ Hs) as [->|(index & res & Hg & Hq & ->)];
    [inversion Hcs|].
  exists index, res, (_calculate_query_k k (truthy metadata_filters)).
  split; [exact Hg|]. split; [exact Hq|].
  apply elem_of_slice_to in Hcs. destruct (truthy metadata_filters); [|exact Hcs].
  apply list_elem_of_In, filter_In in Hcs. now apply list_elem_of_In.
Qed.

(** X22.  A search over a fresh index returns current chunks only.  When
    the library has no registered index, and also right after a
    successful [build_index] for it, every id a search returns is the id
    of a chunk that is listed for the library in the store the index was
    built from and that has a non-empty embedding. *)
Theorem X22_fresh_index_returns_current_chunks (library_id : string) (vector : vec) (k : Z)
    (metadata_filters : option (gmap string string)) (w : World) :
  (∀ w' results,
      dict_get library_id (_indices w) = None →
      IndexService_search library_id vector k metadata_filters w = (Ok results, w') →
      ∀ cs, cs ∈ results →
        ∃ c, c ∈ repo_list_chunks library_id (repository w)
             ∧ chunk_id c = fst cs ∧ chunk_embedding c ≠ [])
  ∧ (∀ algorithm metric w1 w2 results,
       IndexService_build_index library_id algorithm metric w = (Ok tt, w1) →
       IndexService_search library_id vector k metadata_filters w1 = (Ok results, w2) →
       ∀ cs, cs ∈ results →
         ∃ c, c ∈ repo_list_chunks library_id (repository w)
              ∧ chunk_id c = fst cs ∧ chunk_embedding c ≠ []).
Proof.
  split.
  - intros w' results Hnone Hs cs Hcs.
    destruct (search_results_from_index _ _ _ _ _ _ _ Hs cs Hcs)
      as (index & res & qk & Hg & Hq & Hres).
    apply get_or_create_index_outcome in Hg.
    destruct Hg as [[Hsome _]|(_ & m & _ & Hb & _)]; [congruence|].
    apply valid_pair_ids. exact (VectorIndex_query_ids _ _ _ _ _ _ _ Hb Hq cs Hres).
  - intros algorithm metric w1 w2 results Hbuild Hs cs Hcs.
    destruct (search_results_from_index _ _ _ _ _ _ _ Hs cs Hcs)
      as (index & res & qk & Hg & Hq & Hres).
    destruct (build_index_outcome library_id algorithm metric w)
      as [[e He]|(fresh & built & Hfresh & Hbuilt & Hw)]; [congruence|].
    rewrite Hw in Hbuild. injection Hbuild as <-.
    apply get_or_create_index_outcome in Hg. cbn [_indices] in Hg.
    rewrite dict_get_set_eq in Hg.
    destruct Hg as [[[= <-] _]|[Hnone _]]; [|discriminate].
    destruct Hbuilt as [[-> Hempty]|Hb].
    + apply create_index_build_empty in Hfresh.
      pose proof (VectorIndex_query_ids _ _ _ _ _ _ _ Hfresh Hq cs Hres) as H.
      inversion H.
    + apply valid_pair_ids. exact (VectorIndex_query_ids _ _ _ _ _ _ _ Hb Hq cs Hres).
Qed.

(** X23.  A search for [k > 0] in a library that has no registered index
    but has chunks with embeddings first builds a Linear index with the
    default metric over those chunks and registers it; the index stays
    registered whether or not the query itself then succeeds.  When the
    default metric is not a metric name the search raises [ValueError]
    and registers nothing. *)
Theorem X23_search_registers_fallback_index (library_id : string) (vector : vec) (k : Z)
    (metadata_filters : option (gmap string string)) (w : World) :
  0 < k →
  dict_get library_id (_indices w) = None →
  valid_pairs_of (repo_list_chunks library_id (repository w)) ≠ [] →
  match DistanceMetric_of (default_metric settings) with
  | None =>
      ∃ message,
        IndexService_search library_id vector k metadata_filters w
        = (Raise (ValueError message), w)
  | Some m =>
      ∀ index,
        LinearIndex_build (LinearIndex_init m)
          (map fst (valid_pairs_of (repo_list_chunks library_id (repository w))))
          (map snd (valid_pairs_of (repo_list_chunks library_id (repository w))))
        = Ok index →
        snd (IndexService_search library_id vector k metadata_filters w)
        = mkWorld (repository w) (dict_set library_id (Linear index) (_indices w))
            (dict_set library_id (meta_of (Linear index)) (_index_meta w)) (files w)
        ∧ lin_metric index = m
  end.
Proof.
  intros Hk Hnone Hpairs.
  assert (Ek : (k <=? 0) = false) by (apply Z.leb_gt; lia).
  destruct (DistanceMetric_of (default_metric settings)) as [m|] eqn:Hm.
  - intros index Hb. split; [|now apply LinearIndex_build_Ok in Hb].
    unfold IndexService_search. rewrite Ek.
    unfold bind at 1.
    assert (Hg : _get_or_create_index library_id w
                 = (Ok (Some (Linear index)),
                    mkWorld (repository w) (dict_set library_id (Linear index) (_indices w))
                      (dict_set library_id (meta_of (Linear index)) (_index_meta w))
                      (files w))).
    { unfold _get_or_create_index, bind, repo_read, ret, raise, lift, registry_install.
      rewrite Hnone.
      destruct (repo_list_chunks library_id (repository w)) as [|c0 cs] eqn:Hc;
        [now contradiction Hpairs|].
      destruct (valid_pairs_of (c0 :: cs)) as [|p ps] eqn:Hp; [congruence|].
      rewrite Hm. cbn [VectorIndex_build]. rewrite Hb. reflexivity. }
    rewrite Hg. unfold bind, lift.
    destruct (VectorIndex_query _ _ _); [|reflexivity].
    destruct (truthy metadata_filters); reflexivity.
  - eexists. unfold IndexService_search. rewrite Ek. unfold bind.
    unfold _get_or_create_index, bind, repo_read, ret, raise, lift.
    rewrite Hnone.
    destruct (repo_list_chunks library_id (repository w)) as [|c0 cs] eqn:Hc;
      [now contradiction Hpairs|].
    destruct (valid_pairs_of (c0 :: cs)) as [|p ps] eqn:Hp; [congruence|].
    rewrite Hm. reflexivity.
Qed.

(** ** Loading a snapshot *)

Lemma find_app {A} (f : A → bool) (l1 l2 : list A) :
  find f (l1 ++ l2) = match find f l1 with Some x => Some x | None => find f l2 end.
Proof.
  induction l1 as [|x l1 IH]; simpl; [reflexivity|]. now destruct (f x).
Qed.

Lemma dict_get_fold_set {A} (id : A → string) (values : list A) (d : dict A) (k : string) :
  dict_get k (fold_left (fun d v => dict_set (id v) v d) values d)
  = match find (fun v => String.eqb (id v) k) (rev values) with
    | Some v => Some v
    | None => dict_get k d
    end.
Proof.
  revert d. induction values as [|x values IH]; intros d; simpl; [reflexivity|].
  rewrite IH, find_app. destruct (find _ (rev values)); [reflexivity|]. simpl.
  destruct (String.eqb_spec (id x) k) as [<-|Hne].
  - apply dict_get_set_eq.
  - now apply dict_get_set_ne.
Qed.

(** X24.  [load_snapshot] forgets the previous store and normalises
    what it is given: afterwards [get] of an id returns the last record
    with that id in the list loaded for its table (nothing when the list
    has none), every table is keyed by the records' ids, and dumping the
    loaded store and loading the dump again gives the same store.  The
    store [loaded] is what [load_snapshot] returns with on the JSON of
    the records. *)
Theorem X24_load_snapshot_last_record_wins (data : snapshot_data) (r r0 : InMemoryRepository)
    (key : string) :
  let loaded := repo_load_snapshot data r in
  repo_get_library key loaded
  = find (fun l => String.eqb (lib_id l) key) (rev (default [] (j_libraries data)))
  ∧ repo_get_document key loaded
    = find (fun d => String.eqb (doc_id d) key) (rev (default [] (j_documents data)))
  ∧ repo_get_chunk key loaded
    = find (fun c => String.eqb (chunk_id c) key) (rev (default [] (j_chunks data)))
  ∧ store_wf loaded
  ∧ repo_load_snapshot (repo_snapshot loaded) r0 = loaded
  ∧ load_snapshot (json_of data) r = (Ok tt, loaded).
Proof.
  cbv zeta. pose proof (load_snapshot_store_wf data r) as Hwf.
  assert (Hget : ∀ {A} (id : A → string) (values : list A),
             dict_get key (dict_of_values id values)
             = find (fun v => String.eqb (id v) key) (rev values)).
  { intros A id values. unfold dict_of_values. rewrite dict_get_fold_set.
    now destruct (find _ _). }
  unfold repo_get_library, repo_get_document, repo_get_chunk.
  cbn [repo_load_snapshot _libraries _documents _chunks].
  split; [apply Hget|]. split; [apply Hget|]. split; [apply Hget|].
  split; [exact Hwf|].
  split; [|apply load_snapshot_accepted].
  exact (load_snapshot_snapshot (repo_load_snapshot data r) r0 None None Hwf).
Qed.

Lemma rebuild_indices_keeps_entries (metadata : dict (gmap string string)) (w : World) :
  fst (IndexService_rebuild_indices metadata w) = Ok tt
  ∧ repository (snd (IndexService_rebuild_indices metadata w)) = repository w
  ∧ files (snd (IndexService_rebuild_indices metadata w)) = files w
  ∧ ∀ l, is_Some (dict_get l (_indices w)) →
         is_Some (dict_get l (_indices (snd (IndexService_rebuild_indices metadata w)))).
Proof.
  unfold IndexService_rebuild_indices, dict_items.
  pose proof (for_each_invariant
                (fun w' => repository w' = repository w ∧ files w' = files w
                           ∧ ∀ l, is_Some (dict_get l (_indices w)) →
                                  is_Some (dict_get l (_indices w')))
                metadata
                (fun item =>
                   try_except
                     (IndexService_build_index (fst item)
                        (default (default_index settings) (snd item !! "algorithm"))
                        (default (default_metric settings) (snd item !! "metric")))
                     (fun _ => ret tt))) as H.
  apply H; [|auto]. clear H.
  intros item wc _ (Hr & Hf & Hk). unfold try_except.
  destruct (build_index_outcome (fst item)
              (default (default_index settings) (snd item !! "algorithm"))
              (default (default_metric settings) (snd item !! "metric")) wc)
    as [[e ->]|(fresh & built & _ & _ & ->)]; simpl; (split; [reflexivity|]).
  - auto.
  - split; [exact Hr|]. split; [exact Hf|]. intros l Hl. apply is_Some_dict_set. auto.
Qed.

(** X25.  [load] of a file that holds a snapshot always returns: a
    failure to rebuild an index is logged and swallowed.  It replaces the store by
    the file's records, writes no file, and removes no registry entry:
    an index registered before the load is still registered after it,
    rebuilt or not. *)
Theorem X25_load_replaces_store (path : option string) (data : snapshot_data) (w : World) :
  files w !! default (path_join (data_dir settings) "snapshot.json") path
  = Some (JsonText data) →
  ∃ w', SnapshotService_load path w = (Ok tt, w')
        ∧ repository w' = repo_load_snapshot data (repository w)
        ∧ files w' = files w
        ∧ ∀ l, is_Some (dict_get l (_indices w)) → is_Some (dict_get l (_indices w')).
Proof.
  intros Hfile. unfold SnapshotService_load, bind. rewrite Hfile.
  unfold try_except, bind, lift, repo_try, raise, JsonText. cbn [json_loads].
  rewrite load_snapshot_accepted. cbn [fst snd json_of o_indices].
  set (w1 := mkWorld (repo_load_snapshot data (repository w)) (_indices w) (_index_meta w)
               (files w)).
  destruct (rebuild_indices_keeps_entries (default [] (j_indices data)) w1)
    as (Hok & Hrepo & Hfiles & Hkeep).
  destruct (IndexService_rebuild_indices (default [] (j_indices data)) w1) as [[[]|e] w']
    eqn:E; simpl in Hok, Hrepo, Hfiles, Hkeep; [|discriminate].
  exists w'. auto.
Qed.

(** ** The CRUD handlers *)

Lemma get_library_eq (library_id : string) (w : World) :
  LibraryService_get_library library_id w
  = match repo_get_library library_id (repository w) with
    | Some l => (Ok l, w)
    | None => (Raise (ResourceNotFoundException "Library" library_id), w)
    end.
Proof.
  unfold LibraryService_get_library, bind, repo_read, ret, raise.
  now destruct (repo_get_library library_id (repository w)).
Qed.

Lemma get_document_eq (document_id : string) (w : World) :
  DocumentService_get_document document_id w
  = match repo_get_document document_id (repository w) with
    | Some d => (Ok d, w)
    | None => (Raise (ResourceNotFoundException "Document" document_id), w)
    end.
Proof.
  unfold DocumentService_get_document, bind, repo_read, ret, raise.
  now destruct (repo_get_document document_id (repository w)).
Qed.

Lemma get_chunk_eq (key : string) (w : World) :
  ChunkService_get_chunk key w
  = match repo_get_chunk key (repository w) with
    | Some c => (Ok c, w)
    | None => (Raise (ResourceNotFoundException "Chunk" key), w)
    end.
Proof.
  unfold ChunkService_get_chunk, bind, repo_read, ret, raise.
  now destruct (repo_get_chunk key (repository w)).
Qed.

Lemma update_library_raises (library_id : string) (name description : option string)
    (metadata : option (gmap string string)) (w w' : World) (e : exn) :
  LibraryService_update_library library_id name description metadata w = (Raise e, w') →
  e = ResourceNotFoundException "Library" library_id ∧ w' = w.
Proof.
  unfold LibraryService_update_library. unfold bind at 1. rewrite get_library_eq.
  destruct (repo_get_library library_id (repository w)); [|now intros [= <- <-]].
  unfold bind, ret, assign_library, repo_write.
  destruct name, description, metadata; discriminate.
Qed.

Lemma update_document_raises (document_id : string) (title description : option string)
    (metadata : option (gmap string string)) (w w' : World) (e : exn) :
  DocumentService_update_document document_id title description metadata w = (Raise e, w') →
  e = ResourceNotFoundException "Document" document_id ∧ w' = w.
Proof.
  unfold DocumentService_update_document. unfold bind at 1. rewrite get_document_eq.
  destruct (repo_get_document document_id (repository w)); [|now intros [= <- <-]].
  unfold bind, ret, assign_document, repo_write.
  destruct title, description, metadata; discriminate.
Qed.

Lemma create_document_raises (new_id library_id title : string) (description : option string)
    (metadata : option (gmap string string)) (w w' : World) (e : exn) :
  DocumentService_create_document new_id library_id title description metadata w
  = (Raise e, w') →
  e = ResourceNotFoundException "Library" library_id ∧ w' = w.
Proof.
  unfold DocumentService_create_document, bind, repo_read, repo_write, ret, raise.
  destruct (repo_get_library library_id (repository w)); [discriminate|].
  now intros [= <- <-].
Qed.

Lemma validate_dimensions_raises (library_id : string) (embedding : vec) (w w' : World)
    (e : exn) :
  _validate_embedding_dimensions library_id embedding w = (Raise e, w') →
  w' = w ∧ ∃ expected got, e = DimensionalityMismatchException expected got.
Proof.
  unfold _validate_embedding_dimensions. destruct embedding; [discriminate|].
  unfold bind, repo_read, ret, raise, assign_library, repo_write.
  destruct (repo_get_library library_id (repository w)) as [l|]; [|discriminate].
  destruct (lib_embedding_dim l); [|discriminate].
  destruct (negb _); [|discriminate]. intros [= <- <-]. eauto.
Qed.

Lemma create_chunk_raises (new_id library_id document_id text : string) (embedding : vec)
    (metadata : option (gmap string string)) (w w' : World) (e : exn) :
  ChunkService_create_chunk new_id library_id document_id text embedding metadata w
  = (Raise e, w') →
  w' = w
  ∧ (e = ResourceNotFoundException "Document" document_id
     ∨ ∃ expected got, e = DimensionalityMismatchException expected got).
Proof.
  unfold ChunkService_create_chunk. unfold bind at 1. unfold repo_read at 1.
  destruct (repo_get_document document_id (repository w)) as [doc|];
    [|intros [= <- <-]; auto].
  destruct (negb _); [intros [= <- <-]; auto|].
  unfold bind at 1.
  destruct (_validate_embedding_dimensions library_id embedding w) as [[[]|e0] w1] eqn:Hv.
  - unfold bind, repo_write, ret. discriminate.
  - intros [= <- <-]. apply validate_dimensions_raises in Hv. destruct Hv as [-> Hv]. auto.
Qed.

Lemma update_chunk_raises (key : string) (text : option string) (embedding : option vec)
    (metadata : option (gmap string string)) (w w' : World) (e : exn) :
  ChunkService_update_chunk key text embedding metadata w = (Raise e, w') →
  w' = w
  ∧ (e = ResourceNotFoundException "Chunk" key
     ∨ (is_Some (repo_get_chunk key (repository w))
        ∧ ∃ expected got, e = DimensionalityMismatchException expected got)).
Proof.
  unfold ChunkService_update_chunk. unfold bind at 1. rewrite get_chunk_eq.
  destruct (repo_get_chunk key (repository w)) as [c|]; [|intros [= <- <-]; auto].
  destruct embedding as [v|].
  - unfold bind at 1. unfold bind at 1. unfold bind at 1. unfold repo_read at 1.
    destruct (repo_get_document (chunk_document_id c) (repository w)) as [doc|].
    + destruct (_validate_embedding_dimensions (doc_library_id doc) v w) as [[[]|e0] w1] eqn:Hv.
      * unfold bind, ret, assign_chunk, repo_write. destruct text, metadata; discriminate.
      * intros [= <- <-]. apply validate_dimensions_raises in Hv. destruct Hv as [-> Hv].
        split; [reflexivity|]. right. split; [eauto | exact Hv].
    + unfold bind, ret, assign_chunk, repo_write. destruct text, metadata; discriminate.
  - unfold bind, ret, assign_chunk, repo_write. destruct text, metadata; discriminate.
Qed.

(** X26.  The handlers of the library, document and chunk routes and of
    the index delete turn every failure into an HTTP error and change
    nothing when they fail: a request that does not succeed raises
    [HTTPException] with status 404, or with status 400 for a chunk
    created or updated with an embedding of the wrong dimension, and the
    state after it is the state before it. *)
Theorem X26_failed_request_changes_nothing (r : request) (w w' : World) (e : exn) :
  handle r w = (Raise e, w') →
  w' = w
  ∧ ∃ status detail,
      e = HTTPException status detail
      ∧ (status = 404
         ∨ (status = 400
            ∧ match r with POST_chunk _ _ _ | PATCH_chunk _ _ _ => True | _ => False end)).
Proof.
  destruct r as [lid | lid payload | lid | nid lid payload | lid did payload | lid did
                | nid lid payload | lid cid payload | lid cid | lid]; unfold handle.
  - unfold get_library, except_not_found, try_except, bind, ret, raise.
    rewrite get_library_eq.
    destruct (repo_get_library lid (repository w)); [discriminate|].
    intros [= <- <-]. split; [reflexivity|]. eexists _, _. split; [reflexivity | now left].
  - unfold update_library, except_not_found, try_except, bind, ret, raise.
    destruct (LibraryService_update_library lid _ _ _ w) as [[l|e0] w1] eqn:E; [discriminate|].
    apply update_library_raises in E. destruct E as [-> ->].
    intros [= <- <-]. split; [reflexivity|]. eexists _, _. split; [reflexivity | now left].
  - unfold delete_library, LibraryService_delete_library_cascade,
      LibraryService_delete_library, IndexService_clear_index, bind, repo_write, ret.
    discriminate.
  - unfold create_document, except_not_found, try_except, bind, ret, raise.
    destruct (DocumentService_create_document nid lid _ _ _ w) as [[d|e0] w1] eqn:E;
      [discriminate|].
    apply create_document_raises in E. destruct E as [-> ->].
    intros [= <- <-]. split; [reflexivity|]. eexists _, _. split; [reflexivity | now left].
  - unfold update_document, except_not_found, try_except, bind, ret, raise.
    rewrite get_document_eq.
    destruct (repo_get_document did (repository w)) as [d|] eqn:Hd.
    2:{ intros [= <- <-]. split; [reflexivity|].
        eexists _, _. split; [reflexivity | now left]. }
    destruct (negb _).
    { intros [= <- <-]. split; [reflexivity|].
      eexists _, _. split; [reflexivity | now left]. }
    destruct (DocumentService_update_document did _ _ _ w) as [[d'|e0] w1] eqn:E;
      [discriminate|].
    exfalso. revert E. unfold DocumentService_update_document. unfold bind at 1.
    rewrite get_document_eq, Hd. unfold bind, ret, assign_document, repo_write.
    destruct (UpdateDocumentDTO_title payload), (UpdateDocumentDTO_description payload),
      (UpdateDocumentDTO_metadata payload); discriminate.
  - unfold delete_document, except_not_found, try_except, bind, ret, raise.
    rewrite get_document_eq.
    destruct (repo_get_document did (repository w)) as [d|] eqn:Hd.
    2:{ intros [= <- <-]. split; [reflexivity|].
        eexists _, _. split; [reflexivity | now left]. }
    destruct (negb _).
    { intros [= <- <-]. split; [reflexivity|].
      eexists _, _. split; [reflexivity | now left]. }
    unfold DocumentService_delete_document, repo_write. discriminate.
  - unfold create_chunk, try_except, bind, ret, raise.
    destruct (ChunkService_create_chunk nid lid _ _ _ _ w) as [[c|e0] w1] eqn:E;
      [discriminate|].
    apply create_chunk_raises in E. destruct E as [-> [->|(expected & got & ->)]];
      intros [= <- <-]; (split; [reflexivity|]); eexists _, _;
      (split; [reflexivity|]); [now left | right; now split].
  - unfold update_chunk, except_not_found, except_dimension_mismatch, try_except, bind,
      ret, raise.
    rewrite get_chunk_eq.
    destruct (repo_get_chunk cid (repository w)) as [c|] eqn:Hc.
    2:{ intros [= <- <-]. split; [reflexivity|].
        eexists _, _. split; [reflexivity | now left]. }
    rewrite get_document_eq.
    destruct (repo_get_document (chunk_document_id c) (repository w)) as [d|] eqn:Hd.
    2:{ intros [= <- <-]. split; [reflexivity|].
        eexists _, _. split; [reflexivity | now left]. }
    destruct (negb _).
    { intros [= <- <-]. split; [reflexivity|].
      eexists _, _. split; [reflexivity | now left]. }
    destruct (ChunkService_update_chunk cid _ _ _ w) as [[c'|e0] w1] eqn:E; [discriminate|].
    pose proof E as E'. apply update_chunk_raises in E.
    destruct E as [-> [->|(_ & expected & got & ->)]].
    + exfalso. revert E'. unfold ChunkService_update_chunk. unfold bind at 1.
      rewrite get_chunk_eq, Hc. unfold bind, ret, assign_chunk, repo_write, repo_read.
      destruct (UpdateChunkDTO_embedding payload) as [v|].
      * rewrite Hd.
        destruct (_validate_embedding_dimensions (doc_library_id d) v w) as [[[]|e1] w2] eqn:Hv.
        -- destruct (UpdateChunkDTO_text payload), (UpdateChunkDTO_metadata payload);
             discriminate.
        -- apply validate_dimensions_raises in Hv. destruct Hv as [_ (x & y & ->)].
           discriminate.
      * destruct (UpdateChunkDTO_text payload), (UpdateChunkDTO_metadata payload);
          discriminate.
    + intros [= <- <-]. split; [reflexivity|]. eexists _, _.
      split; [reflexivity | right; now split].
  - unfold delete_chunk, except_not_found, try_except, bind, ret, raise.
    rewrite get_chunk_eq.
    destruct (repo_get_chunk cid (repository w)) as [c|] eqn:Hc.
    2:{ intros [= <- <-]. split; [reflexivity|].
        eexists _, _. split; [reflexivity | now left]. }
    rewrite get_document_eq.
    destruct (repo_get_document (chunk_document_id c) (repository w)) as [d|] eqn:Hd.
    2:{ intros [= <- <-]. split; [reflexivity|].
        eexists _, _. split; [reflexivity | now left]. }
    destruct (negb _).
    { intros [= <- <-]. split; [reflexivity|].
      eexists _, _. split; [reflexivity | now left]. }
    unfold ChunkService_delete_chunk, repo_write. discriminate.
  - unfold delete_index, IndexService_clear_index, bind, ret. discriminate.
Qed.

(** X27.  The document and chunk routes are scoped to the library in
    the path: an update or a delete of a document that belongs to another
    library, or of a chunk whose document belongs to another library,
    answers 404 and changes nothing; within the right library the delete
    routes do what the service's delete does and answer 204. *)
Theorem X27_routes_are_scoped_to_the_library (w : World) :
  (∀ library_id document_id d,
     repo_get_document document_id (repository w) = Some d →
     (doc_library_id d ≠ library_id →
      (∀ payload,
         update_document library_id document_id payload w
         = (Raise (HTTPException 404
                     ("Document " ++ document_id ++ " not found in library " ++ library_id)),
            w))
      ∧ delete_document library_id document_id w
        = (Raise (HTTPException 404
                    ("Document " ++ document_id ++ " not found in library " ++ library_id)),
           w))
     ∧ (doc_library_id d = library_id →
        delete_document library_id document_id w
        = (Ok 204, snd (DocumentService_delete_document document_id w))))
  ∧ (∀ library_id key c d,
       repo_get_chunk key (repository w) = Some c →
       repo_get_document (chunk_document_id c) (repository w) = Some d →
       (doc_library_id d ≠ library_id →
        (∀ payload,
           update_chunk library_id key payload w
           = (Raise (HTTPException 404
                       ("Chunk " ++ key ++ " not found in library " ++ library_id)), w))
        ∧ delete_chunk library_id key w
          = (Raise (HTTPException 404
                      ("Chunk " ++ key ++ " not found in library " ++ library_id)), w))
       ∧ (doc_library_id d = library_id →
          delete_chunk library_id key w
          = (Ok 204, snd (ChunkService_delete_chunk key w)))).
Proof.
  split.
  - intros library_id document_id d Hd. split.
    + intros Hne. apply String.eqb_neq in Hne. split.
      * intros payload.
        unfold update_document, except_not_found, try_except, bind, ret, raise.
        rewrite get_document_eq, Hd, Hne. reflexivity.
      * unfold delete_document, except_not_found, try_except, bind, ret, raise.
        rewrite get_document_eq, Hd, Hne. reflexivity.
    + intros <-. unfold delete_document, except_not_found, try_except, bind, ret, raise.
      rewrite get_document_eq, Hd, String.eqb_refl. reflexivity.
  - intros library_id key c d Hc Hd. split.
    + intros Hne. apply String.eqb_neq in Hne. split.
      * intros payload.
        unfold update_chunk, except_not_found, try_except, bind, ret, raise.
        rewrite get_chunk_eq, Hc, get_document_eq, Hd, Hne. reflexivity.
      * unfold delete_chunk, except_not_found, try_except, bind, ret, raise.
        rewrite get_chunk_eq, Hc, get_document_eq, Hd, Hne. reflexivity.
    + intros <-. unfold delete_chunk, except_not_found, try_except, bind, ret, raise.
      rewrite get_chunk_eq, Hc, get_document_eq, Hd, String.eqb_refl. reflexivity.
Qed.

Lemma delete_library_empties (library_id : string) (r : InMemoryRepository) :
  store_wf r →
  repo_list_documents library_id (repo_delete_library library_id r) = []
  ∧ repo_list_chunks library_id (repo_delete_library library_id r) = [].
Proof.
  intros (_ & Hd & _). destruct r as [libs docs chunks]. simpl in Hd.
  unfold repo_delete_library, repo_list_documents, repo_list_chunks.
  cbn [_libraries _documents _chunks].
  rewrite (pop_selected doc_id (fun d => String.eqb (doc_library_id d) library_id) docs Hd).
  unfold dict_values.
  rewrite (map_snd_filter (fun d => negb (String.eqb (doc_library_id d) library_id)) docs).
  assert (Hnone : List.filter (fun d => String.eqb (doc_library_id d) library_id)
                    (List.filter (fun d => negb (String.eqb (doc_library_id d) library_id))
                       (map snd docs)) = []).
  { rewrite filter_filter. apply filter_all_false. intros d _.
    destruct (String.eqb (doc_library_id d) library_id); reflexivity. }
  split; [exact Hnone|]. rewrite Hnone. simpl. now apply filter_all_false.
Qed.

(** X28.  The delete route of a library always answers 204, also for an
    id that is not in the store.  In a store keyed by the records' ids
    the library is gone afterwards with everything under it: the get
    route answers 404, no document and no chunk is listed for the id, no
    index is registered for it, and a search in it returns no result. *)
Theorem X28_deleted_library_is_gone (library_id : string) (w : World) :
  store_wf (repository w) →
  ∃ w',
    delete_library library_id w = (Ok 204, w')
    ∧ get_library library_id w'
      = (Raise (HTTPException 404 ("Library not found: " ++ library_id)), w')
    ∧ repo_list_documents library_id (repository w') = []
    ∧ repo_list_chunks library_id (repository w') = []
    ∧ dict_get library_id (_indices w') = None
    ∧ (∃ info, IndexService_get_index_info library_id w' = (Ok info, w')
               ∧ info !! "algorithm" = Some "none")
    ∧ ∀ vector k metadata_filters,
        IndexService_search library_id vector k metadata_filters w' = (Ok [], w').
Proof.
  intros Hwf. destruct (delete_library_empties library_id (repository w) Hwf) as [Hdocs Hchunks].
  eexists. split.
  { unfold delete_library, LibraryService_delete_library_cascade,
      LibraryService_delete_library, IndexService_clear_index, bind, repo_write, ret.
    reflexivity. }
  cbn [repository _indices _index_meta].
  split.
  { unfold get_library, except_not_found, try_except, bind, ret, raise.
    rewrite get_library_eq. cbn [repository].
    unfold repo_get_library, repo_delete_library. cbn [_libraries].
    rewrite dict_get_pop_eq. reflexivity. }
  split; [exact Hdocs|]. split; [exact Hchunks|]. split; [apply dict_get_pop_eq|]. split.
  { unfold IndexService_get_index_info. cbn [_index_meta]. rewrite dict_get_pop_eq.
    eexists. split; [reflexivity|].
    rewrite lookup_insert_ne by discriminate. apply lookup_insert_eq. }
  intros vector k metadata_filters.
  match goal with
  | |- IndexService_search _ _ _ _ ?W = _ =>
      assert (Hg : _get_or_create_index library_id W = (Ok None, W))
  end.
  { unfold _get_or_create_index, bind, repo_read, ret. cbn [_indices repository].
    rewrite dict_get_pop_eq. cbn [repository]. rewrite Hchunks. reflexivity. }
  unfold IndexService_search. destruct (k <=? 0); [reflexivity|].
  unfold bind. rewrite Hg. reflexivity.
Qed.

(** ** The reader-writer lock *)

Lemma count_in_insert (st a c : thread_state) (ts : list thread_state) (i : nat) :
  ts !! i = Some a →
  count_in st (<[i := c]> ts)
  = count_in st ts - (if thread_state_eqb st a then 1 else 0)
    + (if thread_state_eqb st c then 1 else 0).
Proof.
  unfold count_in. revert i. induction ts as [|t ts IH]; intros i Hi; [discriminate|].
  destruct i as [|i]; simpl in *.
  - injection Hi as ->.
    destruct (thread_state_eqb st a), (thread_state_eqb st c); simpl; lia.
  - specialize (IH i Hi). destruct (thread_state_eqb st t); simpl; lia.
Qed.

Lemma count_in_nonneg (st : thread_state) (ts : list thread_state) : 0 <= count_in st ts.
Proof. unfold count_in. lia. Qed.

Lemma count_in_positive (st : thread_state) (ts : list thread_state) (i : nat) :
  ts !! i = Some st → 0 < count_in st ts.
Proof.
  unfold count_in. revert i. induction ts as [|t ts IH]; intros i Hi; [discriminate|].
  destruct i as [|i]; simpl in *.
  - injection Hi as ->. destruct st; simpl; lia.
  - specialize (IH i Hi). destruct (thread_state_eqb st t); simpl; lia.
Qed.

Lemma count_in_two (st : thread_state) (ts : list thread_state) (i j : nat) :
  i ≠ j → ts !! i = Some st → ts !! j = Some st → 2 <= count_in st ts.
Proof.
  unfold count_in. revert i j. induction ts as [|t ts IH]; intros i j Hne Hi Hj; [discriminate|].
  destruct i as [|i], j as [|j]; simpl in *; try congruence.
  - injection Hi as ->. pose proof (count_in_positive st ts j Hj) as H. unfold count_in in H.
    destruct st; simpl; lia.
  - injection Hj as ->. pose proof (count_in_positive st ts i Hi) as H. unfold count_in in H.
    destruct st; simpl; lia.
  - assert (i ≠ j) by congruence. specialize (IH i j H Hi Hj).
    destruct (thread_state_eqb st t); simpl; lia.
Qed.

Lemma count_in_replicate_Outside (st : thread_state) (n : nat) :
  st ≠ Outside → count_in st (replicate n Outside) = 0.
Proof.
  intros Hst. unfold count_in. induction n as [|n IH]; simpl; [reflexivity|].
  destruct st; simpl; congruence.
Qed.

Lemma lock_step_counts (s s' : lock_system) :
  lock_counts s → lock_step s s' → lock_counts s'.
Proof.
  intros (Hr & Hw & Ha & Hx) Hstep.
  destruct Hstep as [s i l' Hi Hacq | s i Hi | s i Hi | s i l' Hi Hacq | s i Hi];
    unfold lock_counts; cbn [lock threads];
    rewrite !(count_in_insert _ _ _ _ _ Hi); simpl thread_state_eqb.
  - unfold acquire_read in Hacq.
    destruct (_writer_active (lock s)) eqn:Ew; [discriminate|]. simpl in Hacq.
    destruct (0 <? _waiting_writers (lock s)); [discriminate|].
    injection Hacq as <-. simpl. repeat split; try lia; try discriminate.
  - unfold release_read. simpl.
    pose proof (count_in_positive _ _ _ Hi) as Hpos.
    destruct (_writer_active (lock s)) eqn:Ew.
    + specialize (Hx eq_refl). lia.
    + repeat split; try lia; try discriminate.
  - unfold acquire_write_register. simpl.
    destruct (_writer_active (lock s)) eqn:Ew; repeat split; try lia; try discriminate.
  - unfold acquire_write_enter in Hacq.
    destruct (_writer_active (lock s)) eqn:Ew; [discriminate|]. simpl in Hacq.
    destruct (0 <? _active_readers (lock s)) eqn:Er; [discriminate|].
    injection Hacq as <-. simpl. apply Z.ltb_ge in Er.
    pose proof (count_in_nonneg Reading (threads s)).
    repeat split; try lia; try discriminate.
  - unfold release_write. simpl.
    pose proof (count_in_positive _ _ _ Hi) as Hpos.
    destruct (_writer_active (lock s)) eqn:Ew; [|lia].
    specialize (Hx eq_refl). repeat split; try lia; try discriminate.
Qed.

Lemma lock_reachable_counts (n : nat) (s : lock_system) :
  lock_reachable n s → lock_counts s.
Proof.
  induction 1 as [|s s' _ IH Hstep]; [|exact (lock_step_counts s s' IH Hstep)].
  unfold lock_counts. simpl.
  rewrite !count_in_replicate_Outside by discriminate. repeat split; try discriminate.
Qed.

(** X29.  The reader-writer lock excludes: in every state that threads
    using [read_lock] and [write_lock] can reach, a thread in the body of
    [write_lock] is alone there, with no other writer and no reader in
    the body of [read_lock]. *)
Theorem X29_writer_excludes_everyone (n : nat) (s : lock_system) (i j : nat)
    (st : thread_state) :
  lock_reachable n s →
  threads s !! i = Some Writing →
  threads s !! j = Some st →
  i ≠ j →
  st ≠ Writing ∧ st ≠ Reading.
Proof.
  intros Hreach Hi Hj Hne. apply lock_reachable_counts in Hreach.
  destruct Hreach as (_ & _ & Ha & Hx).
  pose proof (count_in_positive _ _ _ Hi) as Hpos.
  destruct (_writer_active (lock s)); [|lia]. specialize (Hx eq_refl).
  split; intros ->.
  - pose proof (count_in_two Writing (threads s) i j Hne Hi Hj). lia.
  - pose proof (count_in_positive _ _ _ Hj). lia.
Qed.

(** X30.  Writers have priority: in every reachable state, while a
    thread waits in [acquire_write] or holds the write lock, a thread
    that calls [acquire_read] has to wait. *)
Theorem X30_waiting_writer_blocks_readers (n : nat) (s : lock_system) (i : nat) :
  lock_reachable n s →
  threads s !! i = Some WaitingToWrite ∨ threads s !! i = Some Writing →
  acquire_read (lock s) = None.
Proof.
  intros Hreach Hi. apply lock_reachable_counts in Hreach.
  destruct Hreach as (_ & Hw & Ha & _). unfold acquire_read.
  destruct Hi as [Hi|Hi]; pose proof (count_in_positive _ _ _ Hi) as Hpos.
  - assert (H : (0 <? _waiting_writers (lock s)) = true) by (apply Z.ltb_lt; lia).
    rewrite H. now rewrite orb_true_r.
  - destruct (_writer_active (lock s)); [reflexivity | lia].
Qed.

End Environment.



(* ================================================================== *)
(** * Part III — closed instances and counterexamples                  *)
(* ================================================================== *)

Lemma C9_query_k_is_overfetch_witness :
  _calculate_query_k 5 (truthy (Some {["lang" := "en"]})) = 30
  ∧ _calculate_query_k 40 (truthy None) = 90.
Proof.
  split.
  - rewrite (C9_query_k_is_overfetch 5 (Some {["lang" := "en"]})) by lia. reflexivity.
  - rewrite (C9_query_k_is_overfetch 40 None) by lia. reflexivity.
Defined.

(** ** Instances of the environment used below *)

Definition test_settings : Settings := mkSettings "data" "cosine" "linear" 16 4 42.

(** A generator whose draws are all [1]. *)
Definition constant_gauss (seed : Z) (n : nat) : Z := 1.

(** The entries below are read as the floats themselves: [d ** 2]
    overflows from [|d| = 2^512] on. *)
Definition float_pow_limit : Z := 2 ^ 512.



(** ** KD-tree against brute force *)

Definition square_points : list vec := [[1; 0]; [-1; 0]; [3; 4]; [0; 2]; [5; 5]].
Definition square_ids : list string := ["a"; "b"; "c"; "d"; "e"].

Definition square_index : KDTreeIndex :=
  mkKDTreeIndex
    (KDNode [1; 0] "a" 0
       (KDNode [0; 2] "d" 1 (KDNode [-1; 0] "b" 0 KDNone KDNone) KDNone)
       (KDNode [5; 5] "e" 1 (KDNode [3; 4] "c" 0 KDNone KDNone) KDNone))
    2.



(** ** The query contract *)

Definition unit_points : list vec := [[0; 1; 0]; [1; 0; 0]].
Definition unit_ids : list string := ["C1"; "C2"].


(** ** A small Store reached through the services *)

Definition demo_calls : list service_call :=
  [CreateLibrary "L" "lib" None None;
   CreateDocument "D" "L" "doc" None None;
   CreateChunk "C1" "L" "D" "a" [0; 1; 0] (Some {["lang" := "en"]});
   CreateChunk "C2" "L" "D" "b" [1; 0; 0] (Some {["lang" := "en"]})].

Definition demo_world : World := run_calls demo_calls empty_world.

Definition demo_library : Library := mkLibrary "L" "lib" None ∅ (Some 3).
Definition demo_document : Document := mkDocument "D" "L" "doc" None ∅.
Definition demo_chunk : Chunk := mkChunk "C1" "D" "a" [0; 1; 0] {["lang" := "en"]}.

Lemma demo_world_inv : store_inv (repository demo_world).
Proof. apply run_calls_inv, empty_world_inv. Qed.

(** ** Dimension enforcement *)

Lemma C3_dimension_enforcement_witness :
  dimension_rule demo_library "L" [1; 0] demo_world
    (ChunkService_create_chunk "C3" "L" "D" "c" [1; 0] None demo_world)
  ∧ dimension_rule demo_library "L" [1; 0] demo_world
      (ChunkService_update_chunk "C1" None (Some [1; 0]) None demo_world).
Proof.
  destruct (C3_dimension_enforcement demo_world "L" demo_library [1; 0]) as [Hc Hu].
  - discriminate.
  - reflexivity.
  - split.
    + apply (Hc "C3" "D" "c" None demo_document); reflexivity.
    + apply (Hu "C1" None None demo_chunk demo_document); reflexivity.
Defined.

Lemma C10_update_chunk_atomic_witness :
  ChunkService_update_chunk "C1" (Some "new text") (Some [1; 0])
    (Some {["lang" := "tr"]}) demo_world
  = (Raise (DimensionalityMismatchException 3 (len [1; 0])), demo_world).
Proof.
  apply (C10_update_chunk_atomic demo_world "C1" (Some "new text") [1; 0]
           (Some {["lang" := "tr"]}) demo_chunk demo_document demo_library 3).
  - reflexivity.
  - reflexivity.
  - reflexivity.
  - reflexivity.
  - discriminate.
  - unfold len. simpl. lia.
Defined.


(** ** Search after a delete *)

Definition indexed_world : World :=
  snd (IndexService_build_index test_settings constant_gauss "L" "linear" "cosine" demo_world).

Definition stale_world : World := snd (run_call (DeleteChunk "C1") indexed_world).

Lemma C4_filtered_search_skips_deleted_witness :
  repository stale_world = repository stale_world
  ∧ ∀ cs, cs ∈ [("C2", Quot 0 1)] →
          is_Some (repo_get_chunk (fst cs) (repository stale_world)).
Proof.
  apply (proj1 (C4_filtered_search_skips_deleted float_pow_limit test_settings constant_gauss
                  stale_world stale_world "L" [0; 1; 0] 5 {["lang" := "en"]})
           [("C2", Quot 0 1)]).
  - discriminate.
  - vm_compute. reflexivity.
Defined.

(** C4, as stated, fails without filters: after chunk "C1" is deleted the
    index built before still holds its id, and a search without filters
    returns it although the Store's chunk table has no such chunk. *)
Lemma C4_counterexample :
  repo_get_chunk "C1" (repository stale_world) = None
  ∧ IndexService_search float_pow_limit test_settings constant_gauss "L" [0; 1; 0] 1 None stale_world
    = (Ok [("C1", Quot 1 1)], stale_world)
  ∧ IndexService_search float_pow_limit test_settings constant_gauss "L" [0; 1; 0] 1 (Some ∅) stale_world
    = (Ok [("C1", Quot 1 1)], stale_world).
Proof.
  split; [reflexivity|]. split; vm_compute; reflexivity.
Qed.

(** ** Referential integrity *)

Lemma C6_service_calls_keep_integrity_witness :
  store_wf (repository (snd (run_call (DeleteLibraryCascade "L") demo_world)))
  ∧ referential_integrity (repository (snd (run_call (DeleteLibraryCascade "L") demo_world))).
Proof.
  apply (proj1 C6_service_calls_keep_integrity (DeleteLibraryCascade "L") demo_world).
  - exact (proj1 demo_world_inv).
  - exact (proj2 demo_world_inv).
Defined.

Definition orphan_document : Document := mkDocument "D2" "L" "late" None ∅.

(** C6, as stated, fails for the store-level operations: the store-level
    [create_document] inserts a document whose library does not exist.
    The same state is reached by the atomic store steps of two
    interleaved service calls: [create_document] sees library "L",
    [delete_library] removes it, then the document is inserted. *)
Lemma C6_counterexample :
  ¬ referential_integrity (repo_create_document orphan_document InMemoryRepository_init)
  ∧ referential_integrity (repository demo_world)
  ∧ is_Some (repo_get_library "L" (repository demo_world))
  ∧ ¬ referential_integrity
        (repo_create_document orphan_document
           (repo_delete_library "L" (repository demo_world))).
Proof.
  assert (H : ∀ r, _libraries r = [] → ¬ referential_integrity (repo_create_document orphan_document r)).
  { intros r Hr [R1 _]. specialize (R1 orphan_document).
    assert (Hin : orphan_document ∈ dict_values (_documents (repo_create_document orphan_document r))).
    { apply elem_of_dict_values. exists "D2". apply dict_get_Some_elem.
      simpl. apply dict_get_set_eq. }
    specialize (R1 Hin). unfold repo_get_library in R1. simpl in R1. rewrite Hr in R1.
    simpl in R1. destruct R1 as [x Hx]. discriminate. }
  split; [apply H; reflexivity|].
  split; [exact (proj2 demo_world_inv)|].
  split; [vm_compute; eauto|].
  apply H. reflexivity.
Qed.

(** ** Snapshots *)

Definition kd_world : World :=
  snd (IndexService_build_index test_settings constant_gauss "L" "kdtree" "euclidean"
         demo_world).

Lemma kd_world_registry_wf : registry_wf kd_world.
Proof.
  apply build_index_wf, run_calls_registry_wf, empty_world_registry_wf.
Qed.

Lemma C7_snapshot_round_trip_witness :
  ∃ p w1 w2,
    SnapshotService_save test_settings None "20260101_000000" "2026-01-01T00:00:00" kd_world
    = (Ok p, w1)
    ∧ SnapshotService_load test_settings constant_gauss (Some p) w1 = (Ok tt, w2)
    ∧ repo_list_libraries (repository w2) = repo_list_libraries (repository kd_world)
    ∧ (∀ library_id, repo_list_documents library_id (repository w2)
                     = repo_list_documents library_id (repository kd_world))
    ∧ (∀ library_id, repo_list_chunks library_id (repository w2)
                     = repo_list_chunks library_id (repository kd_world))
    ∧ (∀ library_id index,
         dict_get library_id (_indices kd_world) = Some index →
         ∃ index', dict_get library_id (_indices w2) = Some index'
                   ∧ VectorIndex_kind index' = VectorIndex_kind index
                   ∧ VectorIndex_metric index' = VectorIndex_metric index
                   ∧ dict_get library_id (_index_meta w2) = Some (meta_of index')).
Proof.
  apply (C7_snapshot_round_trip test_settings constant_gauss kd_world None
           "20260101_000000" "2026-01-01T00:00:00").
  - exact (proj1 demo_world_inv).
  - exact kd_world_registry_wf.
Defined.

Definition corrupt_world : World :=
  mkWorld (repository demo_world) [] [] {["data/snapshot.json" := PlainText "{"]}.

(** A snapshot file whose library is accepted and whose document has no
    title: [{"libraries": [{"id": "L2", "name": "second", ...}],
    "documents": [{"id": "D9", "library_id": "L2"}], "chunks": []}]. *)
Definition half_valid : json_snapshot :=
  mkJsonSnapshot (Some [Accepted (mkLibrary "L2" "second" None ∅ None)]) (Some [Rejected])
    (Some []) None None.

Definition half_valid_world : World :=
  mkWorld (repository demo_world) [] [] {["data/snapshot.json" := Json half_valid]}.

(** C8: at this input [load] raises and leaves the store half replaced:
    the libraries are the file's, the documents and chunks are the old
    ones, and the old document "D" names a library that is gone. *)
Lemma C8_load_error_boundary_witness :
  SnapshotService_load test_settings constant_gauss None corrupt_world
  = (Raise JSONDecodeError, corrupt_world)
  ∧ (SnapshotService_load test_settings constant_gauss None half_valid_world
     = (Raise ValidationError,
        mkWorld
          (mkRepository [("L2", mkLibrary "L2" "second" None ∅ None)]
             (_documents (repository half_valid_world))
             (_chunks (repository half_valid_world)))
          [] [] (files half_valid_world))
     ∧ repo_get_library "L" (repository half_valid_world) = Some demo_library
     ∧ repo_get_library "L"
         (repository
            (snd (SnapshotService_load test_settings constant_gauss None half_valid_world)))
       = None
     ∧ repo_get_document "D"
         (repository
            (snd (SnapshotService_load test_settings constant_gauss None half_valid_world)))
       = Some demo_document).
Proof.
  split.
  - apply (proj1 (proj2 (C8_load_error_boundary test_settings constant_gauss corrupt_world))
             None (PlainText "{") JSONDecodeError); reflexivity.
  - assert (H : SnapshotService_load test_settings constant_gauss None half_valid_world
                = (Raise ValidationError,
                   mkWorld
                     (mkRepository [("L2", mkLibrary "L2" "second" None ∅ None)]
                        (_documents (repository half_valid_world))
                        (_chunks (repository half_valid_world)))
                     [] [] (files half_valid_world))).
    { apply (proj1 (proj2 (proj2 (proj2
               (C8_load_error_boundary test_settings constant_gauss half_valid_world))))
               None half_valid); reflexivity. }
    split; [exact H|]. rewrite H. repeat split.
Defined.

(** ** Vector functions and the three indices *)

Lemma X2_euclidean_similarity_range_witness :
  euclidean_distance float_pow_limit [1; 2] [1; 2] = Ok (Sqrt 0)
  ∧ ((0 < score_value (similarity (Sqrt 25)) <= 1)%R
     ∧ (length [1; 2] = length [4; 6] →
        score_value (similarity (Sqrt 25)) = 1%R ↔ [1; 2] = [4; 6])).
Proof.
  destruct (X2_euclidean_similarity_range float_pow_limit [1; 2] [4; 6]) as (_ & _ & H).
  split.
  - apply (proj1 (proj2 (X2_euclidean_similarity_range float_pow_limit [1; 2] [1; 2]))).
    reflexivity.
  - apply (H (Sqrt 25)). reflexivity.
Defined.


Lemma X4_build_validates_inputs_witness :
  VectorIndex_build constant_gauss (KDTreeIdx KDTreeIndex_init) [[1; 0]] []
  = Raise (ValueError msg_same_length)
  ∧ VectorIndex_build constant_gauss (LSHIdx (LSHIndex_init 16 4 42)) [[1; 0]; [1]] ["a"; "b"]
    = Raise (ValueError msg_same_dim)
  ∧ LinearIndex_build (LinearIndex_init EUCLIDEAN) unit_points unit_ids
    = Ok (mkLinearIndex EUCLIDEAN unit_points unit_ids).
Proof.
  split; [|split].
  - apply (proj1 (X4_build_validates_inputs constant_gauss (KDTreeIdx KDTreeIndex_init)
                    [[1; 0]] [])).
    discriminate.
  - apply (proj1 (proj2 (X4_build_validates_inputs constant_gauss
                           (LSHIdx (LSHIndex_init 16 4 42)) [[1; 0]; [1]] ["a"; "b"]))).
    + reflexivity.
    + exists [1]. split; [|discriminate].
      apply list_elem_of_further, list_elem_of_here.
  - apply (proj2 (proj2 (X4_build_validates_inputs constant_gauss
                           (Linear (LinearIndex_init EUCLIDEAN)) unit_points unit_ids))).
    + reflexivity.
    + intros (v & Hv & Hlen). apply Hlen.
      apply elem_of_cons in Hv. destruct Hv as [->|Hv]; [reflexivity|].
      apply elem_of_cons in Hv. destruct Hv as [->|Hv]; [reflexivity|].
      inversion Hv.
Defined.

Lemma X5_kdtree_build_outcome_witness :
  ∃ idx, KDTreeIndex_build KDTreeIndex_init square_points square_ids = Ok idx
         ∧ kd_dim idx = 2%nat
         ∧ Permutation (tree_items (kd_root idx)) (zip square_points square_ids)
         ∧ kd_ordered (kd_root idx).
Proof.
  apply (X5_kdtree_build_outcome KDTreeIndex_init square_points square_ids 2).
  - reflexivity.
  - repeat constructor.
Defined.

Lemma X6_kdtree_height_logarithmic_witness :
  (tree_height (kd_root square_index) <= S (Nat.log2 (length square_points)))%nat.
Proof.
  apply (X6_kdtree_height_logarithmic square_points square_ids 0 (kd_root square_index)).
  - reflexivity.
  - discriminate.
Defined.

Lemma X8_lsh_query_sound_witness :
  ∃ idx results,
    LSHIndex_build constant_gauss (LSHIndex_init 16 4 42) unit_points unit_ids = Ok idx
    ∧ LSHIndex_query idx [0; 1; 0] 2 = Ok results
    ∧ NoDup (map fst results)
    ∧ ∀ cs, cs ∈ results →
            ∃ v, (v, fst cs) ∈ zip unit_points unit_ids ∧ snd cs = cosine_similarity [0; 1; 0] v.
Proof.
  eexists. eexists. split; [vm_compute; reflexivity|]. split; [vm_compute; reflexivity|].
  eapply (X8_lsh_query_sound constant_gauss (LSHIndex_init 16 4 42) _ unit_points unit_ids
           [0; 1; 0] 2); vm_compute; reflexivity.
Defined.

Lemma X9_lsh_finds_stored_vector_witness :
  ∃ idx,
    LSHIndex_build constant_gauss (LSHIndex_init 16 4 42) unit_points unit_ids = Ok idx
    ∧ ∃ results, LSHIndex_query idx [1; 0; 0] 2 = Ok results ∧ "C2" ∈ map fst results.
Proof.
  eexists. split; [vm_compute; reflexivity|].
  eapply (X9_lsh_finds_stored_vector constant_gauss (LSHIndex_init 16 4 42) _
           unit_points unit_ids [1; 0; 0] "C2" 2).
  - vm_compute. reflexivity.
  - simpl. lia.
  - apply list_elem_of_further, list_elem_of_here.
  - simpl. lia.
Defined.

(** ** The store and the services on the demo store *)

Lemma X10_delete_library_cascades_witness :
  repo_get_library "L" (repo_delete_library "L" (repository demo_world)) = None
  ∧ repo_list_documents "L" (repo_delete_library "L" (repository demo_world)) = []
  ∧ repo_list_chunks "L" (repo_delete_library "L" (repository demo_world)) = []
  ∧ ∀ other, other ≠ "L" →
      repo_get_library other (repo_delete_library "L" (repository demo_world))
      = repo_get_library other (repository demo_world)
      ∧ repo_list_documents other (repo_delete_library "L" (repository demo_world))
        = repo_list_documents other (repository demo_world)
      ∧ repo_list_chunks other (repo_delete_library "L" (repository demo_world))
        = repo_list_chunks other (repository demo_world).
Proof.
  apply (X10_delete_library_cascades "L" (repository demo_world)).
  exact (proj1 demo_world_inv).
Defined.

Lemma X11_delete_document_cascades_witness :
  repo_get_document "D" (repo_delete_document "D" (repository demo_world)) = None
  ∧ _libraries (repo_delete_document "D" (repository demo_world))
    = _libraries (repository demo_world)
  ∧ (∀ other, other ≠ "D" →
       repo_get_document other (repo_delete_document "D" (repository demo_world))
       = repo_get_document other (repository demo_world))
  ∧ dict_values (_chunks (repo_delete_document "D" (repository demo_world)))
    = List.filter (fun c => negb (String.eqb (chunk_document_id c) "D"))
        (dict_values (_chunks (repository demo_world)))
  ∧ ∀ chunk_id c, repo_get_chunk chunk_id (repository demo_world) = Some c →
      chunk_document_id c ≠ "D" →
      repo_get_chunk chunk_id (repo_delete_document "D" (repository demo_world)) = Some c.
Proof.
  apply (X11_delete_document_cascades "D" (repository demo_world)).
  exact (proj1 demo_world_inv).
Defined.

Definition second_library : Library := mkLibrary "L2" "second" None ∅ None.
Definition third_chunk : Chunk := mkChunk "C3" "D" "c" [0; 0; 1] ∅.

Lemma X12_created_record_is_listed_last_witness :
  (repo_get_library "L2" (repo_create_library second_library (repository demo_world))
   = Some second_library
   ∧ repo_list_libraries (repo_create_library second_library (repository demo_world))
     = repo_list_libraries (repository demo_world) ++ [second_library])
  ∧ (repo_get_chunk "C3" (repo_create_chunk third_chunk (repository demo_world))
     = Some third_chunk
     ∧ repo_list_chunks "L" (repo_create_chunk third_chunk (repository demo_world))
       = repo_list_chunks "L" (repository demo_world) ++ [third_chunk]).
Proof.
  split.
  - apply (proj1 (X12_created_record_is_listed_last (repository demo_world)) second_library).
    reflexivity.
  - apply (proj2 (proj2 (X12_created_record_is_listed_last (repository demo_world)))
             third_chunk demo_document).
    + reflexivity.
    + apply list_elem_of_here.
    + reflexivity.
Defined.

Lemma X13_missing_resource_raises_witness :
  LibraryService_get_library "nope" demo_world
  = (Raise (ResourceNotFoundException "Library" "nope"), demo_world)
  ∧ DocumentService_update_document "nope" (Some "title") None None demo_world
    = (Raise (ResourceNotFoundException "Document" "nope"), demo_world)
  ∧ ChunkService_create_chunk "C3" "L2" "D" "c" [0; 0; 1] None demo_world
    = (Raise (ResourceNotFoundException "Document" "D"), demo_world)
  ∧ ChunkService_get_chunk "nope" demo_world
    = (Raise (ResourceNotFoundException "Chunk" "nope"), demo_world).
Proof.
  destruct (X13_missing_resource_raises demo_world) as (Hl & Hd & Hother & Hc).
  split; [|split; [|split]].
  - apply (proj1 (Hl "nope" eq_refl)).
  - apply (proj1 (proj2 (Hd "nope" eq_refl))).
  - apply (Hother "D" demo_document "L2"); [reflexivity | discriminate].
  - apply (proj1 (Hc "nope" eq_refl)).
Defined.

Lemma X14_delete_is_idempotent_witness :
  LibraryService_delete_library "nope" demo_world = (Ok tt, demo_world)
  ∧ DocumentService_delete_document "D"
      (snd (DocumentService_delete_document "D" demo_world))
    = DocumentService_delete_document "D" demo_world
  ∧ ChunkService_delete_chunk "C1" (snd (ChunkService_delete_chunk "C1" demo_world))
    = ChunkService_delete_chunk "C1" demo_world.
Proof.
  destruct (X14_delete_is_idempotent demo_world demo_world_inv) as (Hl & Hd & Hc).
  split; [|split].
  - apply (proj1 (Hl "nope")). reflexivity.
  - apply (proj2 (Hd "D")).
  - apply (proj2 (Hc "C1")).
Defined.

Lemma X15_update_replaces_given_fields_witness :
  ∃ w',
    LibraryService_update_library "L" (Some "renamed") None None demo_world
    = (Ok (updated_library (Some "renamed") None None demo_library), w')
    ∧ repo_get_library "L" (repository w')
      = Some (updated_library (Some "renamed") None None demo_library)
    ∧ _documents (repository w') = _documents (repository demo_world)
    ∧ _chunks (repository w') = _chunks (repository demo_world).
Proof.
  destruct (proj1 (X15_update_replaces_given_fields demo_world (proj1 demo_world_inv))
              "L" demo_library (Some "renamed") None None eq_refl)
    as (w' & H1 & H2 & _ & H4 & H5 & _).
  exists w'. repeat split; assumption.
Defined.

Lemma demo_calls_fresh : all_fresh demo_calls empty_world.
Proof. repeat split. Qed.

Lemma demo_world_dims : dims_consistent (repository demo_world).
Proof.
  apply run_calls_dims; [apply empty_world_inv | apply empty_world_dims | exact demo_calls_fresh].
Qed.

Lemma X16_one_dimension_per_library_witness : dims_consistent (repository demo_world).
Proof. apply (X16_one_dimension_per_library demo_calls). exact demo_calls_fresh. Defined.

(** ** Index requests *)

Lemma X17_build_index_succeeds_witness :
  ∃ built,
    IndexService_build_index test_settings constant_gauss "L" "KDTree" "Euclidean" demo_world
    = (Ok tt, mkWorld (repository demo_world) (dict_set "L" built (_indices demo_world))
                (dict_set "L" (meta_of built) (_index_meta demo_world)) (files demo_world))
    ∧ VectorIndex_kind built = lower "KDTree"
    ∧ VectorIndex_metric built = lower "Euclidean".
Proof.
  apply (X17_build_index_succeeds test_settings constant_gauss demo_world "L" "KDTree"
           "Euclidean" (KDTreeIdx KDTreeIndex_init)).
  - exact demo_world_inv.
  - exact demo_world_dims.
  - intros s n. discriminate.
  - reflexivity.
Defined.

Lemma X18_create_index_accepts_four_pairs_witness :
  _create_index test_settings "annoy" "cosine"
  = Raise (InvalidAlgorithmException "annoy" ["linear"; "kdtree"; "lsh"])
  ∧ _create_index test_settings "kdtree" "cosine"
    = Raise (InvalidMetricException "kdtree" "cosine" ["euclidean"]).
Proof.
  destruct (X18_create_index_accepts_four_pairs test_settings "annoy" "cosine")
    as (_ & Halg & _).
  destruct (X18_create_index_accepts_four_pairs test_settings "kdtree" "cosine")
    as (_ & _ & Hmetric).
  split.
  - apply Halg. intros H. repeat (apply elem_of_cons in H; destruct H as [H|H]; [discriminate|]).
    inversion H.
  - apply (Hmetric KDTREE); [reflexivity|].
    intros H. repeat (apply elem_of_cons in H; destruct H as [H|H]; [discriminate|]).
    inversion H.
Defined.

(** ** Searches on the demo store *)

Lemma X20_search_returns_sorted_top_k_witness :
  ∃ results w',
    IndexService_search float_pow_limit test_settings constant_gauss "L" [0; 1; 0] 1 None demo_world
    = (Ok results, w')
    ∧ at_most 1 results ∧ sorted_desc results
    ∧ repository w' = repository demo_world ∧ files w' = files demo_world.
Proof.
  eexists. eexists. split; [vm_compute; reflexivity|].
  apply (X20_search_returns_sorted_top_k float_pow_limit test_settings constant_gauss "L" [0; 1; 0] 1 None
           demo_world).
  vm_compute. reflexivity.
Defined.

Lemma X21_filtered_search_matches_filters_witness :
  ∃ results w',
    IndexService_search float_pow_limit test_settings constant_gauss "L" [0; 1; 0] 2
      (Some {["lang" := "en"]}) demo_world
    = (Ok results, w')
    ∧ ∀ cs, cs ∈ results →
        ∃ chunk, repo_get_chunk (fst cs) (repository demo_world) = Some chunk
                 ∧ ∀ key value, ({["lang" := "en"]} : gmap string string) !! key = Some value →
                                chunk_metadata chunk !! key = Some value.
Proof.
  eexists. eexists. split; [vm_compute; reflexivity|].
  eapply (X21_filtered_search_matches_filters float_pow_limit test_settings constant_gauss "L" [0; 1; 0] 2
            {["lang" := "en"]} demo_world).
  - discriminate.
  - vm_compute. reflexivity.
Defined.

Lemma X22_fresh_index_returns_current_chunks_witness :
  ∃ results w',
    IndexService_search float_pow_limit test_settings constant_gauss "L" [0; 1; 0] 2 None demo_world
    = (Ok results, w')
    ∧ ∀ cs, cs ∈ results →
        ∃ c, c ∈ repo_list_chunks "L" (repository demo_world)
             ∧ chunk_id c = fst cs ∧ chunk_embedding c ≠ [].
Proof.
  eexists. eexists. split; [vm_compute; reflexivity|].
  eapply (proj1 (X22_fresh_index_returns_current_chunks float_pow_limit test_settings constant_gauss "L"
                   [0; 1; 0] 2 None demo_world)).
  - reflexivity.
  - vm_compute. reflexivity.
Defined.

Lemma X23_search_registers_fallback_index_witness :
  snd (IndexService_search float_pow_limit test_settings constant_gauss "L" [0; 1; 0] 1 None demo_world)
  = mkWorld (repository demo_world)
      (dict_set "L" (Linear (mkLinearIndex COSINE unit_points unit_ids)) (_indices demo_world))
      (dict_set "L" (meta_of (Linear (mkLinearIndex COSINE unit_points unit_ids)))
         (_index_meta demo_world))
      (files demo_world)
  ∧ lin_metric (mkLinearIndex COSINE unit_points unit_ids) = COSINE.
Proof.
  apply (X23_search_registers_fallback_index float_pow_limit test_settings constant_gauss "L" [0; 1; 0] 1 None
           demo_world).
  - lia.
  - reflexivity.
  - discriminate.
  - reflexivity.
Defined.

(** ** Loading a snapshot over a store with an index *)

Definition library_only : snapshot_data :=
  mkSnapshotData (Some [second_library]) None None None None.

Definition snapshot_world : World :=
  mkWorld (repository kd_world) (_indices kd_world) (_index_meta kd_world)
    {["data/snapshot.json" := JsonText library_only]}.

Lemma X25_load_replaces_store_witness :
  ∃ w', SnapshotService_load test_settings constant_gauss None snapshot_world = (Ok tt, w')
        ∧ repository w' = repo_load_snapshot library_only (repository snapshot_world)
        ∧ files w' = files snapshot_world
        ∧ ∀ l, is_Some (dict_get l (_indices snapshot_world)) →
               is_Some (dict_get l (_indices w')).
Proof.
  apply (X25_load_replaces_store test_settings constant_gauss None library_only snapshot_world).
  reflexivity.
Defined.

(** ** Requests *)

Lemma X26_failed_request_changes_nothing_witness :
  ∃ e w',
    handle (POST_chunk "C3" "L" (mkCreateChunkDTO "D" "c" [1; 0] ∅)) demo_world = (Raise e, w')
    ∧ w' = demo_world
    ∧ ∃ status detail,
        e = HTTPException status detail ∧ (status = 404 ∨ (status = 400 ∧ True)).
Proof.
  eexists. eexists. split; [vm_compute; reflexivity|].
  apply (X26_failed_request_changes_nothing
           (POST_chunk "C3" "L" (mkCreateChunkDTO "D" "c" [1; 0] ∅)) demo_world).
  vm_compute. reflexivity.
Defined.

Lemma X27_routes_are_scoped_to_the_library_witness :
  delete_document "M" "D" demo_world
  = (Raise (HTTPException 404 "Document D not found in library M"), demo_world)
  ∧ update_chunk "M" "C1" (mkUpdateChunkDTO (Some "new text") None None) demo_world
    = (Raise (HTTPException 404 "Chunk C1 not found in library M"), demo_world)
  ∧ delete_chunk "L" "C1" demo_world
    = (Ok 204, snd (ChunkService_delete_chunk "C1" demo_world)).
Proof.
  destruct (X27_routes_are_scoped_to_the_library demo_world) as (Hd & Hc).
  split; [|split].
  - apply (proj1 (Hd "M" "D" demo_document eq_refl)). discriminate.
  - apply (proj1 (Hc "M" "C1" demo_chunk demo_document eq_refl eq_refl)). discriminate.
  - apply (proj2 (Hc "L" "C1" demo_chunk demo_document eq_refl eq_refl)). reflexivity.
Defined.

Lemma X28_deleted_library_is_gone_witness :
  ∃ w',
    delete_library "L" kd_world = (Ok 204, w')
    ∧ get_library "L" w' = (Raise (HTTPException 404 "Library not found: L"), w')
    ∧ repo_list_documents "L" (repository w') = []
    ∧ repo_list_chunks "L" (repository w') = []
    ∧ dict_get "L" (_indices w') = None
    ∧ (∃ info, IndexService_get_index_info test_settings "L" w' = (Ok info, w')
               ∧ info !! "algorithm" = Some "none")
    ∧ ∀ vector k metadata_filters,
        IndexService_search float_pow_limit test_settings constant_gauss "L" vector k metadata_filters w'
        = (Ok [], w').
Proof.
  apply (X28_deleted_library_is_gone float_pow_limit test_settings constant_gauss "L" kd_world).
  exact (proj1 demo_world_inv).
Defined.

(** ** Three threads on one lock *)

(** Thread 1 reads while thread 0 waits to write. *)
Definition waiting_system : lock_system :=
  mkLockSystem (mkReaderWriterLock 1 false 1) [WaitingToWrite; Reading; Outside].

(** Thread 1 has left and thread 0 writes. *)
Definition writing_system : lock_system :=
  mkLockSystem (mkReaderWriterLock 0 true 0) [Writing; Outside; Outside].

Lemma waiting_system_reachable : lock_reachable 3 waiting_system.
Proof.
  apply (reachable_step 3
           (mkLockSystem (mkReaderWriterLock 1 false 0) [Outside; Reading; Outside])).
  - apply (reachable_step 3 (mkLockSystem ReaderWriterLock_init (replicate 3 Outside))).
    + apply reachable_init.
    + exact (step_acquire_read (mkLockSystem ReaderWriterLock_init (replicate 3 Outside)) 1
               (mkReaderWriterLock 1 false 0) eq_refl eq_refl).
  - exact (step_acquire_write_register
             (mkLockSystem (mkReaderWriterLock 1 false 0) [Outside; Reading; Outside]) 0
             eq_refl).
Qed.

Lemma writing_system_reachable : lock_reachable 3 writing_system.
Proof.
  apply (reachable_step 3
           (mkLockSystem (mkReaderWriterLock 0 false 1) [WaitingToWrite; Outside; Outside])).
  - apply (reachable_step 3 waiting_system); [exact waiting_system_reachable|].
    exact (step_release_read waiting_system 1 eq_refl).
  - exact (step_acquire_write_enter
             (mkLockSystem (mkReaderWriterLock 0 false 1) [WaitingToWrite; Outside; Outside]) 0
             (mkReaderWriterLock 0 true 0) eq_refl eq_refl).
Qed.

Lemma X29_writer_excludes_everyone_witness : Outside ≠ Writing ∧ Outside ≠ Reading.
Proof.
  apply (X29_writer_excludes_everyone 3 writing_system 0 2 Outside).
  - exact writing_system_reachable.
  - reflexivity.
  - reflexivity.
  - lia.
Defined.

Lemma X30_waiting_writer_blocks_readers_witness : acquire_read (lock waiting_system) = None.
Proof.
  apply (X30_waiting_writer_blocks_readers 3 waiting_system 0).
  - exact waiting_system_reachable.
  - left. reflexivity.
Defined.
